(** * Undo record sets

    A shallow embedding of [src/backend/access/undo/undorecordset.c]
    (the revision that has [UndoPrepareToInsert], [UndoReplay] and
    [CloseDanglingUndoRecordSets]) and the properties its specification
    states about it.

    C state is threaded through a state-and-error monad over a [World]:
    the shared-memory undo log slots, the buffer pool's page images, the
    backend-local undo record sets, and a chronological trace of the calls
    made to the collaborators the file does not own (buffer manager, WAL,
    lightweight locks, undo log allocator, transaction undo layer). *)

From Stdlib Require Import ZArith Lia Bool List String.
From stdpp Require Import base option list gmap strings.

Local Open Scope string_scope.
Local Open Scope list_scope.
Local Open Scope Z_scope.

(** ** Machine integers *)

Definition uint64 (x : Z) : Z := x mod 2 ^ 64.
Definition uint16 (x : Z) : Z := x mod 2 ^ 16.
Definition uint8 (x : Z) : Z := x mod 2 ^ 8.

(** [sizeof(UndoLogOffset)], the width of a chunk header's size field. *)
Definition sizeof_size : Z := 8.

(** Little-endian bytes of an integer, and back. *)
Fixpoint le_bytes (n : nat) (x : Z) : list Z :=
  match n with
  | O => []
  | S k => (x mod 256) :: le_bytes k (x / 256)
  end.

Fixpoint le_value (bs : list Z) : Z :=
  match bs with
  | [] => 0
  | b :: rest => b + 256 * le_value rest
  end.

(** ** Data model *)

Inductive Persistence :=
  RELPERSISTENCE_PERMANENT | RELPERSISTENCE_UNLOGGED | RELPERSISTENCE_TEMP.

Inductive UndoRecordSetState :=
| URS_STATE_CLEAN   (* has written no data *)
| URS_STATE_DIRTY   (* has written some data *)
| URS_STATE_CLOSED. (* wrote data and was then closed *)

Inductive ReadBufferMode := RBM_NORMAL | RBM_ZERO | RBM_ZERO_AND_LOCK.
Inductive BufferLockMode := BUFFER_LOCK_SHARE | BUFFER_LOCK_EXCLUSIVE.
Inductive LWLockMode := LW_SHARED | LW_EXCLUSIVE.
Inductive XLogRedoAction :=
  BLK_NEEDS_REDO | BLK_DONE | BLK_RESTORED | BLK_NOTFOUND.

(** [ERROR] and [PANIC] are the levels of [elog]; [TRAP] is a failed
    [Assert] or an access outside an array; [OUT_OF_FUEL] marks a loop cut
    short by the model's fuel. *)
Inductive elevel := ERROR | PANIC | TRAP | OUT_OF_FUEL.

#[global] Instance Persistence_eq_dec : EqDecision Persistence.
Proof. solve_decision. Defined.
#[global] Instance UndoRecordSetState_eq_dec : EqDecision UndoRecordSetState.
Proof. solve_decision. Defined.
#[global] Instance XLogRedoAction_eq_dec : EqDecision XLogRedoAction.
Proof. solve_decision. Defined.
#[global] Instance LWLockMode_eq_dec : EqDecision LWLockMode.
Proof. solve_decision. Defined.
#[global] Instance elevel_eq_dec : EqDecision elevel.
Proof. solve_decision. Defined.

(** A buffer is named by the tag of the page it holds: (undo log number,
    block number); [BufferGetTag] is the identity on it. *)
Definition Buffer : Type := Z * Z.

(** The part of an undo log's shared-memory slot this file reads or writes.
    A [UndoLogSlot *] is the log number under which the slot is stored. *)
Record UndoLogSlot := mkSlot {
  meta_insert : Z;
  meta_size : Z;
  meta_discard : Z;
  slot_end : Z;
  force_truncate : bool
}.

(** ** What the absent headers declare

    [undolog.h], [undopage.h], [undorecordset.h], [xact.h] and [xlogrecord.h]
    are not part of the sources at hand: their constants and address macros
    are parameters of the development, and so is the decision of the undo
    log allocator ([undolog.c]) when the backend asks for a log. *)

Class UndoLayout := {
  BLCKSZ : Z;
  SizeOfUndoPageHeaderData : Z;
  SizeOfUndoRecordSetChunkHeader : Z;
  InvalidUndoRecPtr : Z;
  MakeUndoRecPtr : Z -> Z -> Z;
  UndoRecPtrGetLogNo : Z -> Z;
  UndoRecPtrGetBlockNum : Z -> Z;
  UndoRecPtrGetPageOffset : Z -> Z;
  UndoRecPtrPlusUsableBytes : Z -> Z -> Z;
  UndoLogOffsetPlusUsableBytes : Z -> Z -> Z;
  URST_TRANSACTION : Z;
  URST_FOO : Z;
  RM_XACT_ID : Z;
  XLR_INFO_MASK : Z;
  XLOG_XACT_OPMASK : Z;
  XLOG_XACT_COMMIT : Z;
  XLOG_XACT_PREPARE : Z;
  XLOG_XACT_ABORT : Z;
  XLOG_XACT_COMMIT_PREPARED : Z;
  XLOG_XACT_ABORT_PREPARED : Z;
  UndoDbOid : Z;
  (* the undo log allocator's choice: the log it attaches the backend to,
     and that log's slot as the backend finds it *)
  UndoLogGetForPersistence_choice :
    gmap Z UndoLogSlot -> Persistence -> Z * UndoLogSlot
}.

(** A page has room for its header and for a whole size field after it. *)
Definition layout_wf `{UndoLayout} : Prop :=
  0 <= SizeOfUndoPageHeaderData /\
  SizeOfUndoPageHeaderData + sizeof_size <= BLCKSZ.

Record UndoRecordSetChunkHeader := mkChunkHeader {
  ch_size : Z;
  ch_previous_chunk : Z;
  ch_type : Z
}.

(** The bits of [UndoRecordSetXLogBufData.flags].  Modelled from the spec:
    [undorecordset_xlog.h] is absent; the flags are given the bit positions
    of the order in which section 4.9 lists them. *)
Definition URS_XLOG_INSERT : Z := 1.
Definition URS_XLOG_CREATE : Z := 2.
Definition URS_XLOG_ADD_CHUNK : Z := 4.
Definition URS_XLOG_ADD_PAGE : Z := 8.
Definition URS_XLOG_CLOSE_CHUNK : Z := 16.
Definition URS_XLOG_CLOSE : Z := 32.
Definition URS_XLOG_CLOSE_MULTI_CHUNK : Z := 64.

Definition has_flag (flags bit : Z) : bool := negb (Z.land flags bit =? 0).

Record UndoRecordSetXLogBufData := mkBufData {
  flags : Z;
  insert_page_offset : Z;
  chunk_header_location : Z;
  previous_chunk_header_location : Z;
  urs_type : Z;
  bd_type_header : list Z;
  bd_type_header_size : Z;
  chunk_size_page_offset : Z;
  chunk_size : Z;
  first_chunk_header_location : Z
}.

(** [memset(&buf, 0, sizeof buf)] *)
Definition zero_bufdata : UndoRecordSetXLogBufData :=
  mkBufData 0 0 0 0 0 [] 0 0 0 0.

Record UndoBuffer := mkUndoBuffer {
  buffer : Buffer;
  is_new : bool;
  needs_init : bool;
  bufdata : UndoRecordSetXLogBufData
}.

(** Per-chunk bookkeeping. *)
Record UndoRecordSetChunk := mkChunk {
  chunk_slot : Z;
  chunk_header_written : bool;
  chunk_header_offset : Z;
  chunk_header_buffer_index : Z * Z
}.

(** [nchunks] and [nbuffers] are the lengths of [chunks] and [buffers]; the
    capacities [max_chunks] and [max_buffers] only drive [repalloc] and are
    left out. *)
Record UndoRecordSet := mkURS {
  type : Z;
  persistence : Persistence;
  chunks : list UndoRecordSetChunk;
  buffers : list UndoBuffer;
  previous_chunk : Z;
  need_chunk_header : bool;
  type_header : list Z;
  type_header_size : Z;
  need_type_header : bool;
  begin : Z;
  slot : option Z;
  chunk_start : Z;
  recent_end : Z;
  state : UndoRecordSetState;
  nestingLevel : Z
}.

Definition nchunks (u : UndoRecordSet) : Z := Z.of_nat (length (chunks u)).
Definition nbuffers (u : UndoRecordSet) : Z := Z.of_nat (length (buffers u)).

Definition URSNeedsWAL (u : UndoRecordSet) : bool :=
  bool_decide (persistence u = RELPERSISTENCE_PERMANENT).

(** An undo page: the header fields the page codec maintains, and its bytes
    by page offset (an offset never written holds zero). *)
Record Page := mkPage {
  ud_insertion_point : Z;
  ud_first_chunk : Z;
  ud_continue_chunk : Z;
  pd_lsn : Z;
  page_data : gmap Z Z
}.

Definition zero_page : Page := mkPage 0 0 0 0 ∅.

Definition page_byte (p : Page) (off : Z) : Z :=
  uint8 (default 0 (page_data p !! off)).

(** [memcpy(&size, page + page_offset, sizeof(size))] *)
Definition page_read_u64 (p : Page) (off : Z) : Z :=
  le_value (map (fun i => page_byte p (off + Z.of_nat i)) (seq 0 8)).

(** Calls to the collaborators, in the order they are made. *)
Inductive Event :=
| EvReadBuffer (logno block : Z) (rbm : ReadBufferMode)
| EvLockBuffer (b : Buffer) (mode : BufferLockMode)
| EvUnlockReleaseBuffer (b : Buffer)
| EvMarkBufferDirty (b : Buffer)
| EvPageSetLSN (b : Buffer) (lsn : Z)
| EvLWLockAcquire (logno : Z) (mode : LWLockMode)
| EvLWLockRelease (logno : Z)
| EvStoreInsert (logno : Z) (insert : Z)
| EvUndoLogTruncate (logno : Z)
| EvUndoLogAdjustPhysicalRange (logno lo hi : Z)
| EvUndoLogGetForPersistence (p : Persistence) (logno : Z)
| EvUndoLogPut (logno : Z)
| EvUndoPageInit (b : Buffer)
| EvUndoPageOverwrite (b : Buffer) (page_offset data_offset data_size data : Z)
| EvUndoPageInsertHeader (b : Buffer) (page_offset header_offset : Z)
    (hdr : UndoRecordSetChunkHeader) (type_header_size : Z)
    (type_header : list Z) (chunk_start : Z)
| EvUndoPageInsertRecord (b : Buffer) (page_offset input_offset : Z)
    (record : list Z) (chunk_start : Z) (chunk_type : Z)
| EvXactUndoCloseRecordSet (type_header : list Z) (begin_ end_ : Z)
    (isCommit isPrepare : bool)
| EvSlistDelete (urs : nat)
| EvPfree (urs : nat).

(** The world a backend runs in.  [sets] is the undo memory context: an
    [UndoRecordSet *] is the key under which the set is stored. *)
Record World := mkWorld {
  slots : gmap Z UndoLogSlot;
  pages : gmap Buffer Page;
  sets : gmap nat UndoRecordSet;
  UndoRecordSetList : list nat;
  CritSectionCount : Z;
  InRecovery : bool;
  trace : list Event
}.

(** ** The monad *)

Inductive result (A : Type) :=
| Ok (a : A) (w : World)
| Raise (l : elevel) (msg : string) (w : World).
Arguments Ok {A} a w.
Arguments Raise {A} l msg w.

Definition M (A : Type) : Type := World -> result A.

Definition ret {A} (a : A) : M A := fun w => Ok a w.

Definition bind {A B} (m : M A) (k : A -> M B) : M B :=
  fun w => match m w with
           | Ok a w' => k a w'
           | Raise l msg w' => Raise l msg w'
           end.

Declare Scope undo_scope.
Delimit Scope undo_scope with undo.
Notation "'let*' x ':=' m 'in' k" := (bind m (fun x => k))
  (at level 10, x pattern, m at level 100, k at level 200) : undo_scope.
Notation "m1 ';;' m2" := (bind m1 (fun _ => m2))
  (at level 100, m2 at level 200, right associativity) : undo_scope.
Local Open Scope undo_scope.

Definition get : M World := fun w => Ok w w.
Definition modify (f : World -> World) : M unit := fun w => Ok tt (f w).

(** [elog(ERROR, ...)] and [elog(PANIC, ...)] unwind with the world as it
    is. *)
Definition elog {A} (l : elevel) (msg : string) : M A := fun w => Raise l msg w.

Definition Assert (c : bool) (what : string) : M unit :=
  if c then ret tt else elog TRAP what.

Definition when (c : bool) (m : M unit) : M unit := if c then m else ret tt.

Definition emit (e : Event) : M unit :=
  modify (fun w => mkWorld (slots w) (pages w) (sets w) (UndoRecordSetList w)
                     (CritSectionCount w) (InRecovery w) (trace w ++ [e])).

Definition set_slots (f : gmap Z UndoLogSlot -> gmap Z UndoLogSlot) : M unit :=
  modify (fun w => mkWorld (f (slots w)) (pages w) (sets w) (UndoRecordSetList w)
                     (CritSectionCount w) (InRecovery w) (trace w)).

Definition set_pages (f : gmap Buffer Page -> gmap Buffer Page) : M unit :=
  modify (fun w => mkWorld (slots w) (f (pages w)) (sets w) (UndoRecordSetList w)
                     (CritSectionCount w) (InRecovery w) (trace w)).

Definition set_sets (f : gmap nat UndoRecordSet -> gmap nat UndoRecordSet) : M unit :=
  modify (fun w => mkWorld (slots w) (pages w) (f (sets w)) (UndoRecordSetList w)
                     (CritSectionCount w) (InRecovery w) (trace w)).

Definition set_list (f : list nat -> list nat) : M unit :=
  modify (fun w => mkWorld (slots w) (pages w) (sets w) (f (UndoRecordSetList w))
                     (CritSectionCount w) (InRecovery w) (trace w)).

(** Dereferencing: a pointer that names nothing traps. *)
Definition deref_urs (u : nat) : M UndoRecordSet :=
  fun w => match sets w !! u with
           | Some s => Ok s w
           | None => Raise TRAP "dangling UndoRecordSet pointer" w
           end.

Definition update_urs (u : nat) (f : UndoRecordSet -> UndoRecordSet) : M unit :=
  let* s := deref_urs u in set_sets (fun m => <[u := f s]> m).

Definition deref_slot (logno : Z) : M UndoLogSlot :=
  fun w => match slots w !! logno with
           | Some s => Ok s w
           | None => Raise TRAP "dangling UndoLogSlot pointer" w
           end.

(** [BufferGetPage]: a block never written reads as zeroes. *)
Definition BufferGetPage (b : Buffer) : M Page :=
  fun w => Ok (default zero_page (pages w !! b)) w.

Definition store_page (b : Buffer) (p : Page) : M unit :=
  set_pages (fun m => <[b := p]> m).

(** Field updates of an [UndoRecordSet]. *)
Definition with_chunks (cs : list UndoRecordSetChunk) (s : UndoRecordSet) :=
  mkURS (type s) (persistence s) cs (buffers s) (previous_chunk s)
    (need_chunk_header s) (type_header s) (type_header_size s)
    (need_type_header s) (begin s) (slot s) (chunk_start s) (recent_end s)
    (state s) (nestingLevel s).
Definition with_buffers (bs : list UndoBuffer) (s : UndoRecordSet) :=
  mkURS (type s) (persistence s) (chunks s) bs (previous_chunk s)
    (need_chunk_header s) (type_header s) (type_header_size s)
    (need_type_header s) (begin s) (slot s) (chunk_start s) (recent_end s)
    (state s) (nestingLevel s).
Definition with_need_chunk_header (b : bool) (s : UndoRecordSet) :=
  mkURS (type s) (persistence s) (chunks s) (buffers s) (previous_chunk s)
    b (type_header s) (type_header_size s)
    (need_type_header s) (begin s) (slot s) (chunk_start s) (recent_end s)
    (state s) (nestingLevel s).
Definition with_need_type_header (b : bool) (s : UndoRecordSet) :=
  mkURS (type s) (persistence s) (chunks s) (buffers s) (previous_chunk s)
    (need_chunk_header s) (type_header s) (type_header_size s)
    b (begin s) (slot s) (chunk_start s) (recent_end s)
    (state s) (nestingLevel s).
Definition with_begin (v : Z) (s : UndoRecordSet) :=
  mkURS (type s) (persistence s) (chunks s) (buffers s) (previous_chunk s)
    (need_chunk_header s) (type_header s) (type_header_size s)
    (need_type_header s) v (slot s) (chunk_start s) (recent_end s)
    (state s) (nestingLevel s).
Definition with_slot (v : option Z) (s : UndoRecordSet) :=
  mkURS (type s) (persistence s) (chunks s) (buffers s) (previous_chunk s)
    (need_chunk_header s) (type_header s) (type_header_size s)
    (need_type_header s) (begin s) v (chunk_start s) (recent_end s)
    (state s) (nestingLevel s).
Definition with_chunk_start (v : Z) (s : UndoRecordSet) :=
  mkURS (type s) (persistence s) (chunks s) (buffers s) (previous_chunk s)
    (need_chunk_header s) (type_header s) (type_header_size s)
    (need_type_header s) (begin s) (slot s) v (recent_end s)
    (state s) (nestingLevel s).
Definition with_recent_end (v : Z) (s : UndoRecordSet) :=
  mkURS (type s) (persistence s) (chunks s) (buffers s) (previous_chunk s)
    (need_chunk_header s) (type_header s) (type_header_size s)
    (need_type_header s) (begin s) (slot s) (chunk_start s) v
    (state s) (nestingLevel s).
Definition with_state (v : UndoRecordSetState) (s : UndoRecordSet) :=
  mkURS (type s) (persistence s) (chunks s) (buffers s) (previous_chunk s)
    (need_chunk_header s) (type_header s) (type_header_size s)
    (need_type_header s) (begin s) (slot s) (chunk_start s) (recent_end s)
    v (nestingLevel s).

Definition with_buffer_index (ix : Z * Z) (c : UndoRecordSetChunk) :=
  mkChunk (chunk_slot c) (chunk_header_written c) (chunk_header_offset c) ix.
Definition with_header_written (b : bool) (c : UndoRecordSetChunk) :=
  mkChunk (chunk_slot c) b (chunk_header_offset c) (chunk_header_buffer_index c).
Definition with_bufdata (d : UndoRecordSetXLogBufData) (b : UndoBuffer) :=
  mkUndoBuffer (buffer b) (is_new b) (needs_init b) d.
Definition with_needs_init (v : bool) (b : UndoBuffer) :=
  mkUndoBuffer (buffer b) (is_new b) v (bufdata b).
Definition with_meta_insert (v : Z) (s : UndoLogSlot) :=
  mkSlot v (meta_size s) (meta_discard s) (slot_end s) (force_truncate s).
Definition with_force_truncate (v : bool) (s : UndoLogSlot) :=
  mkSlot (meta_insert s) (meta_size s) (meta_discard s) (slot_end s) v.

(** [urs->chunks[i]] and [urs->buffers[i]]: reading outside the live part of
    the array traps. *)
Definition chunk_at (u : nat) (i : Z) : M UndoRecordSetChunk :=
  let* s := deref_urs u in
  if i <? 0 then elog TRAP "chunks[] index out of bounds" else
  match chunks s !! Z.to_nat i with
  | Some c => ret c
  | None => elog TRAP "chunks[] index out of bounds"
  end.

Definition buffer_at (u : nat) (i : Z) : M UndoBuffer :=
  let* s := deref_urs u in
  if i <? 0 then elog TRAP "buffers[] index out of bounds" else
  match buffers s !! Z.to_nat i with
  | Some b => ret b
  | None => elog TRAP "buffers[] index out of bounds"
  end.

Definition update_chunk (u : nat) (i : Z)
  (f : UndoRecordSetChunk -> UndoRecordSetChunk) : M unit :=
  let* c := chunk_at u i in
  update_urs u (fun s => with_chunks (<[Z.to_nat i := f c]> (chunks s)) s).

Definition update_buffer (u : nat) (i : Z) (f : UndoBuffer -> UndoBuffer) : M unit :=
  let* b := buffer_at u i in
  update_urs u (fun s => with_buffers (<[Z.to_nat i := f b]> (buffers s)) s).

(** ** The page codec and the buffer manager *)

Section Collaborators.
Context `{UndoLayout}.

(** Modelled from the spec: [undopage.c] is absent.  Section 4.1: every
    primitive returns [min(BLCKSZ - page_off, total - in_off)]. *)
Definition bytes_on_this_page (page_off in_off total : Z) : Z :=
  Z.min (BLCKSZ - page_off) (total - in_off).

(** Copy [n] bytes of [src], from [in_off] on, to the page at [page_off]. *)
Definition page_copy (d : gmap Z Z) (page_off : Z) (src : Z -> Z) (in_off n : Z)
  : gmap Z Z :=
  foldr (fun i acc => <[page_off + Z.of_nat i := src (in_off + Z.of_nat i)]> acc)
        d (seq 0 (Z.to_nat n)).

Definition bytes_src (bs : list Z) (i : Z) : Z :=
  if i <? 0 then 0 else default 0 (bs !! Z.to_nat i).

(** Modelled from the spec: [UndoPageOverwrite] of the absent [undopage.c];
    section 4.1, [overwrite]: patches the bytes that fit on this page. *)
Definition UndoPageOverwrite_page (p : Page) (page_off data_off data_size : Z)
  (data : list Z) : Page * Z :=
  let n := bytes_on_this_page page_off data_off data_size in
  (mkPage (ud_insertion_point p) (ud_first_chunk p) (ud_continue_chunk p)
     (pd_lsn p) (page_copy (page_data p) page_off (bytes_src data) data_off n), n).

(** The on-disk image of a chunk header followed by the type header:
    8 bytes of size, 8 of previous_chunk, 1 of type, padding. *)
Definition header_src (hdr : UndoRecordSetChunkHeader) (type_header : list Z)
  (i : Z) : Z :=
  if i <? SizeOfUndoRecordSetChunkHeader
  then bytes_src (le_bytes 8 (ch_size hdr) ++ le_bytes 8 (ch_previous_chunk hdr)
                    ++ [uint8 (ch_type hdr)]) i
  else bytes_src type_header (i - SizeOfUndoRecordSetChunkHeader).

(** Modelled from the spec: [UndoPageInsertHeader] of the absent
    [undopage.c]; section 4.1, [insert_header]: writes the portion of the
    chunk header and type header that fits, moves the insertion point, and
    sets [first_chunk] if this is the first chunk on the page. *)
Definition UndoPageInsertHeader_page (p : Page) (page_off header_off : Z)
  (hdr : UndoRecordSetChunkHeader) (type_header_size : Z) (type_header : list Z)
  (chunk_start : Z) : Page * Z :=
  let n := bytes_on_this_page page_off header_off
             (SizeOfUndoRecordSetChunkHeader + type_header_size) in
  (mkPage (page_off + n)
     (if (header_off =? 0) && (ud_first_chunk p =? 0)
      then page_off else ud_first_chunk p)
     (ud_continue_chunk p) (pd_lsn p)
     (page_copy (page_data p) page_off (header_src hdr type_header) header_off n),
   n).

(** Modelled from the spec: [UndoPageInsertRecord] of the absent
    [undopage.c]; section 4.1, [insert_record]: the same for a record body;
    sets [continue_chunk] if the write started at the page boundary. *)
Definition UndoPageInsertRecord_page (p : Page) (page_off input_off input_size : Z)
  (record : list Z) (chunk_start chunk_type : Z) : Page * Z :=
  let n := bytes_on_this_page page_off input_off input_size in
  (mkPage (page_off + n) (ud_first_chunk p)
     (if page_off =? SizeOfUndoPageHeaderData
      then chunk_start else ud_continue_chunk p)
     (pd_lsn p)
     (page_copy (page_data p) page_off (bytes_src record) input_off n),
   n).

(** Modelled from the spec: the [UndoPageSkip...] primitives of the absent
    [undopage.c]; section 4.1: the byte count of the matching write, with no
    page touched. *)
Definition UndoPageSkipHeader (page_off header_off type_header_size : Z) : Z :=
  bytes_on_this_page page_off header_off
    (SizeOfUndoRecordSetChunkHeader + type_header_size).
Definition UndoPageSkipRecord (page_off data_off data_size : Z) : Z :=
  bytes_on_this_page page_off data_off data_size.
Definition UndoPageSkipOverwrite (page_off data_off data_size : Z) : Z :=
  bytes_on_this_page page_off data_off data_size.

(** Modelled from the spec: [UndoPageInit] of the absent [undopage.c];
    section 4.1: zeroes the page and lays in the page-header stub. *)
Definition UndoPageInit_page : Page :=
  mkPage SizeOfUndoPageHeaderData 0 0 0 ∅.

(** The codec applied to the page a buffer holds. *)
Definition UndoPageOverwrite (b : Buffer) (page_off data_off data_size size : Z)
  : M Z :=
  let* p := BufferGetPage b in
  let '(p', n) := UndoPageOverwrite_page p page_off data_off data_size
                    (le_bytes 8 size) in
  store_page b p';;
  emit (EvUndoPageOverwrite b page_off data_off data_size size);;
  ret n.

Definition UndoPageInsertHeader (b : Buffer) (page_off header_off : Z)
  (hdr : UndoRecordSetChunkHeader) (type_header_size : Z) (type_header : list Z)
  (chunk_start : Z) : M Z :=
  let* p := BufferGetPage b in
  let '(p', n) := UndoPageInsertHeader_page p page_off header_off hdr
                    type_header_size type_header chunk_start in
  store_page b p';;
  emit (EvUndoPageInsertHeader b page_off header_off hdr type_header_size
          type_header chunk_start);;
  ret n.

Definition UndoPageInsertRecord (b : Buffer) (page_off input_off input_size : Z)
  (record : list Z) (chunk_start chunk_type : Z) : M Z :=
  let* p := BufferGetPage b in
  let '(p', n) := UndoPageInsertRecord_page p page_off input_off input_size
                    record chunk_start chunk_type in
  store_page b p';;
  emit (EvUndoPageInsertRecord b page_off input_off record chunk_start chunk_type);;
  ret n.

Definition UndoPageInit (b : Buffer) : M unit :=
  store_page b UndoPageInit_page;; emit (EvUndoPageInit b).

(** The buffer manager.  Reading in a zeroing mode hands out a zeroed page. *)
Definition ReadBufferWithoutRelcache (relNode block : Z) (rbm : ReadBufferMode)
  : M Buffer :=
  emit (EvReadBuffer relNode block rbm);;
  match rbm with
  | RBM_NORMAL => ret tt
  | _ => store_page (relNode, block) zero_page
  end;;
  ret (relNode, block).

Definition LockBuffer (b : Buffer) (mode : BufferLockMode) : M unit :=
  emit (EvLockBuffer b mode).
Definition MarkBufferDirty (b : Buffer) : M unit := emit (EvMarkBufferDirty b).
Definition UnlockReleaseBuffer (b : Buffer) : M unit :=
  emit (EvUnlockReleaseBuffer b).

(** ** Closing *)

Fixpoint find_buffer (bs : list UndoBuffer) (logno block : Z) (i : Z) : option Z :=
  match bs with
  | [] => None
  | ub :: rest =>
      if (fst (buffer ub) =? logno) && (snd (buffer ub) =? block)
      then Some i else find_buffer rest logno block (i + 1)
  end.

(** Return the index in [urs->buffers] of the requested buffer, or create a
    new one. *)
Definition find_or_read_buffer (u : nat) (logno block : Z) : M Z :=
  let* s := deref_urs u in
  (* Do we have it pinned and locked already? *)
  match find_buffer (buffers s) logno block 0 with
  | Some i => ret i
  | None =>
      (* Pin it and lock it. *)
      let* b := ReadBufferWithoutRelcache
                  (UndoRecPtrGetLogNo (MakeUndoRecPtr logno 0)) block RBM_NORMAL in
      LockBuffer b BUFFER_LOCK_EXCLUSIVE;;
      update_urs u (fun s => with_buffers
                      (buffers s ++ [mkUndoBuffer b false false zero_bufdata]) s);;
      ret (nbuffers s)
  end.

Definition UndoPrepareToMarkChunkClosed (u : nat) (ci : Z) : M unit :=
  let* chunk := chunk_at u ci in
  (* Find the header of this chunk. *)
  let header := chunk_header_offset chunk in
  let header_block := header / BLCKSZ in
  let header_offset := header mod BLCKSZ in
  let* i0 := find_or_read_buffer u (chunk_slot chunk) header_block in
  update_chunk u ci (fun c =>
    with_buffer_index (i0, snd (chunk_header_buffer_index c)) c);;
  if header_offset <=? BLCKSZ - sizeof_size then
    update_chunk u ci (fun c =>
      with_buffer_index (fst (chunk_header_buffer_index c), -1) c)
  else
    let* i1 := find_or_read_buffer u (chunk_slot chunk) (header_block + 1) in
    update_chunk u ci (fun c =>
      with_buffer_index (fst (chunk_header_buffer_index c), i1) c).

(** Returns 'true' if work needs to be done and 'false' if not. *)
Definition UndoPrepareToMarkClosed (u : nat) : M bool :=
  let* s := deref_urs u in
  if nchunks s =? 0 then ret false
  else UndoPrepareToMarkChunkClosed u (nchunks s - 1);; ret true.

(** Do the per-page work associated with marking an UndoRecordSet closed. *)
Definition UndoMarkPageClosed (u : nat) (ci : Z) (chbidx : Z)
  (page_offset data_offset size : Z) : M Z :=
  let* chunk := chunk_at u ci in
  let* index :=
    (if chbidx =? 0 then ret (fst (chunk_header_buffer_index chunk))
     else if chbidx =? 1 then ret (snd (chunk_header_buffer_index chunk))
     else elog TRAP "chunk_header_buffer_index[] index out of bounds") in
  let* ub := buffer_at u index in
  (* Update the page. *)
  let* bytes_on_page :=
    UndoPageOverwrite (buffer ub) page_offset data_offset sizeof_size size in
  MarkBufferDirty (buffer ub);;
  ret bytes_on_page.

(** [while (data_offset < sizeof(size))], with [chbidx++] walking the two
    entries of [chunk_header_buffer_index]. *)
Fixpoint UndoMarkChunkClosed_loop (u : nat) (ci : Z) (fuel : nat) (chbidx : Z)
  (page_offset data_offset size : Z) : M unit :=
  if uint64 data_offset <? sizeof_size then
    match fuel with
    | O => elog TRAP "chunk_header_buffer_index[] index out of bounds"
    | S fuel' =>
        let* n := UndoMarkPageClosed u ci chbidx page_offset data_offset size in
        UndoMarkChunkClosed_loop u ci fuel' (chbidx + 1)
          SizeOfUndoPageHeaderData (data_offset + n) size
    end
  else ret tt.

Definition UndoMarkChunkClosed (u : nat) (ci : Z) (close_urs : bool) : M unit :=
  (* Must be in a critical section. *)
  let* w := get in
  Assert (0 <? CritSectionCount w) "CritSectionCount > 0";;
  let* urs := deref_urs u in
  let* chunk := chunk_at u ci in
  (* Must have prepared the buffers for this. *)
  Assert (negb (fst (chunk_header_buffer_index chunk) =? -1))
    "chunk->chunk_header_buffer_index[0] != -1";;
  let header := chunk_header_offset chunk in
  let* sl := deref_slot (chunk_slot chunk) in
  let insert := meta_insert sl in
  let size := uint64 (insert - header) in
  let page_offset := header mod BLCKSZ in
  (* Record the close as bufdata on the first affected page. *)
  when (URSNeedsWAL urs)
    (let* first := chunk_at u 0 in
     update_buffer u (fst (chunk_header_buffer_index chunk)) (fun ubuf =>
       let d := bufdata ubuf in
       let d1 := mkBufData (Z.lor (flags d) URS_XLOG_CLOSE_CHUNK)
                   (insert_page_offset d) (chunk_header_location d)
                   (previous_chunk_header_location d) (urs_type d)
                   (bd_type_header d) (bd_type_header_size d)
                   page_offset size (first_chunk_header_location d) in
       (* If we're closing the final chunk and thus the whole URS, we need
          to log some extra details. *)
       let d2 := if close_urs then
                   mkBufData (Z.lor (flags d1) URS_XLOG_CLOSE)
                     (insert_page_offset d1) (chunk_header_location d1)
                     (previous_chunk_header_location d1) (type urs)
                     (type_header urs) (type_header_size urs)
                     (chunk_size_page_offset d1) (chunk_size d1)
                     (first_chunk_header_location d1)
                 else d1 in
       (* If not a single chunk, point to the first chunk. *)
       let d3 := if close_urs && (1 <? nchunks urs) then
                   mkBufData (Z.lor (flags d2) URS_XLOG_CLOSE_MULTI_CHUNK)
                     (insert_page_offset d2) (chunk_header_location d2)
                     (previous_chunk_header_location d2) (urs_type d2)
                     (bd_type_header d2) (bd_type_header_size d2)
                     (chunk_size_page_offset d2) (chunk_size d2)
                     (MakeUndoRecPtr (chunk_slot first) (chunk_header_offset first))
                 else d2 in
       with_bufdata d3 ubuf));;
  UndoMarkChunkClosed_loop u ci 2 0 page_offset 0 size.

(** Mark an undo record set closed. *)
Definition UndoMarkClosed (u : nat) : M unit :=
  let* urs := deref_urs u in
  (* Shouldn't already be closed, and should have chunks if it's dirty. *)
  Assert (negb (bool_decide (state urs = URS_STATE_CLOSED)))
    "urs->state != URS_STATE_CLOSED";;
  Assert (bool_decide (state urs = URS_STATE_CLEAN) || negb (nchunks urs =? 0))
    "urs->state == URS_STATE_CLEAN || urs->nchunks != 0";;
  if bool_decide (state urs = URS_STATE_DIRTY) then
    (* Locate the active chunk. *)
    UndoMarkChunkClosed u (nchunks urs - 1) true;;
    update_urs u (with_state URS_STATE_CLOSED)
  else ret tt.

End Collaborators.

(** ** Reserving space: [UndoPrepareToInsert] *)

Section Inserting.
Context `{UndoLayout}.

(** The undo log allocator ([undolog.c], absent).  Attaching to a log
    installs the slot the allocator chose.  Modelled from the spec, section
    4.4: [UndoLogAdjustPhysicalRange] extends the backing, so that the end is
    at least the requested one.  What [UndoLogTruncate] and [UndoLogPut] do
    to a slot is the allocator's business: they are recorded as calls. *)
Definition UndoLogGetForPersistence (p : Persistence) : M Z :=
  let* w := get in
  let '(logno, sl) := UndoLogGetForPersistence_choice (slots w) p in
  set_slots (fun m => <[logno := sl]> m);;
  emit (EvUndoLogGetForPersistence p logno);;
  ret logno.

Definition UndoLogAdjustPhysicalRange (logno lo hi : Z) : M unit :=
  let* sl := deref_slot logno in
  set_slots (fun m => <[logno := mkSlot (meta_insert sl) (meta_size sl)
                          (meta_discard sl) (Z.max (slot_end sl) hi)
                          (force_truncate sl)]> m);;
  emit (EvUndoLogAdjustPhysicalRange logno lo hi).

Definition UndoLogTruncate (logno : Z) : M unit := emit (EvUndoLogTruncate logno).
Definition UndoLogPut (logno : Z) : M unit := emit (EvUndoLogPut logno).

Definition LWLockAcquire (logno : Z) (mode : LWLockMode) : M unit :=
  emit (EvLWLockAcquire logno mode).
Definition LWLockRelease (logno : Z) : M unit := emit (EvLWLockRelease logno).

(** A store to [slot->meta.insert]. *)
Definition store_meta_insert (logno : Z) (v : Z) : M unit :=
  let* sl := deref_slot logno in
  set_slots (fun m => <[logno := with_meta_insert v sl]> m);;
  emit (EvStoreInsert logno v).

(** Attach to a new undo log so that we can begin a new chunk. *)
Definition create_new_chunk (u : nat) : M unit :=
  let* urs := deref_urs u in
  (* Get our hands on a new undo log, and go around again. *)
  update_urs u (with_need_chunk_header true);;
  update_urs u (with_recent_end 0);;
  let* logno := UndoLogGetForPersistence (persistence urs) in
  update_urs u (with_slot (Some logno));;
  let* sl := deref_slot logno in
  update_urs u (fun s => with_chunks
    (chunks s ++ [mkChunk logno false (meta_insert sl) (-1, -1)]) s);;
  update_urs u (with_chunk_start (MakeUndoRecPtr logno (meta_insert sl))).

(** Return a pointer to an undo log span that is guaranteed to be backed by
    enough physical space for the given number of bytes.  Return
    InvalidUndoRecPtr if there is not enough space remaining in the current
    active undo log, indicating that the caller needs to create a new chunk.
    [logno] is the caller's non-null [urs->slot]. *)
Definition reserve_physical_undo (u : nat) (logno : Z) (total_size : Z) : M Z :=
  let* urs := deref_urs u in
  Assert (1 <=? nchunks urs) "urs->nchunks >= 1";;
  let* sl := deref_slot logno in
  if force_truncate sl then
    UndoLogTruncate logno;;
    set_slots (fun m => <[logno := with_force_truncate false sl]> m);;
    update_urs u (with_slot None);;
    ret InvalidUndoRecPtr
  else
  let new_insert := UndoLogOffsetPlusUsableBytes (meta_insert sl) total_size in
  (* The fast path: we already know there is enough space. *)
  if new_insert <=? recent_end urs then
    ret (MakeUndoRecPtr logno (meta_insert sl))
  else
  (* Another backend might have advanced 'end' while discarding, since we
     last updated it. *)
  LWLockAcquire logno LW_SHARED;;
  update_urs u (with_recent_end (slot_end sl));;
  let size := meta_size sl in
  LWLockRelease logno;;
  if new_insert <=? slot_end sl then
    ret (MakeUndoRecPtr logno (meta_insert sl))
  else
  (* Can we extend this undo log to make space? *)
  if new_insert <=? size then
    UndoLogAdjustPhysicalRange logno 0 new_insert;;
    ret (MakeUndoRecPtr logno (meta_insert sl))
  else
  (* There is not enough space left for this record.  Truncate any remaining
     space. *)
  UndoLogTruncate logno;;
  update_urs u (with_slot None);;
  ret InvalidUndoRecPtr.

(** The header bytes [UndoPrepareToInsert] plans for. *)
Definition planned_header_size (urs : UndoRecordSet) : Z :=
  if negb (need_chunk_header urs) then 0
  else if negb (need_type_header urs) then SizeOfUndoRecordSetChunkHeader
  else SizeOfUndoRecordSetChunkHeader + type_header_size urs.

(** The [for (;;)] of [UndoPrepareToInsert]: returns [begin], [header_size],
    [total_size] and [chunk_number_to_close]. *)
Fixpoint UndoPrepareToInsert_reserve (fuel : nat) (u : nat) (record_size : Z)
  (chunk_number_to_close : Z) : M (Z * Z * Z * Z) :=
  match fuel with
  | O => elog OUT_OF_FUEL "UndoPrepareToInsert"
  | S fuel' =>
      let* urs := deref_urs u in
      (* Figure out the total range we need to pin. *)
      let header_size := planned_header_size urs in
      let total_size := uint64 (record_size + header_size) in
      match slot urs with
      | Some logno =>
          (* Try to use the active undo log, if there is one. *)
          let* begin := reserve_physical_undo u logno total_size in
          if negb (begin =? InvalidUndoRecPtr) then
            ret (begin, header_size, total_size, chunk_number_to_close)
          else
            (* The active chunk is full.  We will prepare to mark it closed,
               if we had already written a chunk header. *)
            let* last_chunk := chunk_at u (nchunks urs - 1) in
            if chunk_header_written last_chunk then
              create_new_chunk u;;
              UndoPrepareToInsert_reserve fuel' u record_size (nchunks urs - 1)
            else
              update_urs u (fun s =>
                with_chunks (take (length (chunks s) - 1) (chunks s)) s);;
              create_new_chunk u;;
              UndoPrepareToInsert_reserve fuel' u record_size chunk_number_to_close
      | None =>
          (* We need to create a new chunk in a new undo log. *)
          create_new_chunk u;;
          UndoPrepareToInsert_reserve fuel' u record_size chunk_number_to_close
      end
  end.

(** Loop, pinning buffers: [while (total_size > 0)]. *)
Fixpoint UndoPrepareToInsert_pin (fuel : nat) (u : nat) (relNode block offset : Z)
  (total_size : Z) : M unit :=
  if 0 <? total_size then
    match fuel with
    | O => elog OUT_OF_FUEL "UndoPrepareToInsert: pinning"
    | S fuel' =>
        (* If we are writing the first data into this page, we don't need to
           read it from disk. *)
        let fresh_page := offset =? SizeOfUndoPageHeaderData in
        let* b := ReadBufferWithoutRelcache relNode block
                    (if fresh_page then RBM_ZERO else RBM_NORMAL) in
        (* How much to go? *)
        let bytes_on_page := Z.min (uint64 (BLCKSZ - offset)) total_size in
        update_urs u (fun s => with_buffers
          (buffers s ++ [mkUndoBuffer b fresh_page fresh_page zero_bufdata]) s);;
        (* Advance to start of next page. *)
        UndoPrepareToInsert_pin fuel' u relNode (block + 1)
          SizeOfUndoPageHeaderData (total_size - bytes_on_page)
    end
  else ret tt.

Fixpoint lock_buffers (bs : list UndoBuffer) : M unit :=
  match bs with
  | [] => ret tt
  | ub :: rest => LockBuffer (buffer ub) BUFFER_LOCK_EXCLUSIVE;; lock_buffers rest
  end.

(** Return a pointer to an undo log region backed by sufficient physical
    space for a record of a given size to be inserted, and pin all buffers in
    the region. *)
Definition UndoPrepareToInsert (fuel : nat) (u : nat) (record_size : Z) : M Z :=
  let* (begin, header_size, total_size, chunk_number_to_close) :=
    UndoPrepareToInsert_reserve fuel u record_size (-1) in
  (* We'd better not have any pinned already. *)
  let* urs := deref_urs u in
  Assert (nbuffers urs =? 0) "urs->nbuffers == 0";;
  (* Figure out which undo log we're in, and pin. *)
  UndoPrepareToInsert_pin (S (Z.to_nat total_size)) u (UndoRecPtrGetLogNo begin)
    (UndoRecPtrGetBlockNum begin) (UndoRecPtrGetPageOffset begin) total_size;;
  (* Now loop to obtain the content locks. *)
  let* urs := deref_urs u in
  lock_buffers (buffers urs);;
  (* Tell UndoInsert() where the first byte is. *)
  update_urs u (with_begin begin);;
  (* If we determined that we had to close an existing chunk, do so now. *)
  when (0 <=? chunk_number_to_close)
    (UndoPrepareToMarkChunkClosed u chunk_number_to_close);;
  (* Tell the caller where it can write record data (ie after any headers
     that the caller doesn't know/care about). *)
  ret (UndoRecPtrPlusUsableBytes begin header_size).

(** ** Writing: [UndoInsert] *)

Definition init_if_needed (u : nat) (buffer_index : Z) : M unit :=
  let* ubuf := buffer_at u buffer_index in
  when (needs_init ubuf)
    (UndoPageInit (buffer ubuf);;
     update_buffer u buffer_index (with_needs_init false)).

Definition register_insert_page_offset_if_needed (u : nat) (buffer_index : Z)
  (insert_page_off : Z) : M unit :=
  let* ubuf := buffer_at u buffer_index in
  let d := bufdata ubuf in
  when (Z.land (flags d) URS_XLOG_INSERT =? 0)
    (update_buffer u buffer_index (with_bufdata
       (mkBufData (Z.lor (flags d) URS_XLOG_INSERT) (uint16 insert_page_off)
          (chunk_header_location d) (previous_chunk_header_location d)
          (urs_type d) (bd_type_header d) (bd_type_header_size d)
          (chunk_size_page_offset d) (chunk_size d)
          (first_chunk_header_location d)))).

Definition register_new_page (u : nat) (buffer_index : Z) (chunk_type : Z)
  (chunk_header_loc : Z) : M unit :=
  let* ubuf := buffer_at u buffer_index in
  let d := bufdata ubuf in
  update_buffer u buffer_index (with_bufdata
    (mkBufData (Z.lor (flags d) URS_XLOG_ADD_PAGE) (insert_page_offset d)
       chunk_header_loc (previous_chunk_header_location d)
       chunk_type (bd_type_header d) (bd_type_header_size d)
       (chunk_size_page_offset d) (chunk_size d)
       (first_chunk_header_location d))).

(** Stage CREATE or ADD_CHUNK on the buffer the header starts on. *)
Definition register_new_chunk (u : nat) (buffer_index : Z)
  (chunk_header : UndoRecordSetChunkHeader) : M unit :=
  let* urs := deref_urs u in
  let* ubuf := buffer_at u buffer_index in
  let d := bufdata ubuf in
  if need_type_header urs then
    (* We'll need to create a new URS in recovery, so we capture an image of
       the type header. *)
    update_buffer u buffer_index (with_bufdata
      (mkBufData (Z.lor (flags d) URS_XLOG_CREATE) (insert_page_offset d)
         (chunk_header_location d) (previous_chunk_header_location d)
         (type urs) (type_header urs) (type_header_size urs)
         (chunk_size_page_offset d) (chunk_size d)
         (first_chunk_header_location d)))
  else
    (* We'll need to add a new chunk to an existing URS in recovery. *)
    update_buffer u buffer_index (with_bufdata
      (mkBufData (Z.lor (flags d) URS_XLOG_ADD_CHUNK) (insert_page_offset d)
         (chunk_header_location d) (ch_previous_chunk chunk_header)
         (type urs) (bd_type_header d) (bd_type_header_size d)
         (chunk_size_page_offset d) (chunk_size d)
         (first_chunk_header_location d))).

(** The chunk header [UndoInsert] builds. *)
Definition UndoInsert_chunk_header (urs : UndoRecordSet) : M UndoRecordSetChunkHeader :=
  if 1 <? nchunks urs then
    match chunks urs !! Z.to_nat (nchunks urs - 2) with
    | Some prev_chunk =>
        ret (mkChunkHeader 0
               (MakeUndoRecPtr (chunk_slot prev_chunk)
                  (chunk_header_offset prev_chunk))
               (type urs))
    | None => elog TRAP "chunks[] index out of bounds"
    end
  else ret (mkChunkHeader 0 InvalidUndoRecPtr (type urs)).

(** Write out the header(s): the first [for (;;)] of [UndoInsert].  Returns
    the buffer index and page offset the record starts at. *)
Fixpoint UndoInsert_headers (fuel : nat) (u : nat)
  (chunk_header : UndoRecordSetChunkHeader) (type_header_sz all_header_size : Z)
  (buffer_index page_offset input_offset : Z) : M (Z * Z) :=
  match fuel with
  | O => elog OUT_OF_FUEL "UndoInsert: headers"
  | S fuel' =>
      let* urs := deref_urs u in
      if nbuffers urs <=? buffer_index then
        elog ERROR "ran out of buffers while inserting undo record headers"
      else
      init_if_needed u buffer_index;;
      when (URSNeedsWAL urs)
        (register_insert_page_offset_if_needed u buffer_index page_offset;;
         when (input_offset =? 0) (register_new_chunk u buffer_index chunk_header));;
      when (page_offset =? SizeOfUndoPageHeaderData)
        (register_new_page u buffer_index (type urs) (chunk_start urs));;
      let* ubuf := buffer_at u buffer_index in
      let* bytes_written :=
        UndoPageInsertHeader (buffer ubuf) page_offset input_offset chunk_header
          type_header_sz (type_header urs) (chunk_start urs) in
      MarkBufferDirty (buffer ubuf);;
      update_chunk u (nchunks urs - 1) (with_header_written true);;
      let page_offset := page_offset + bytes_written in
      let input_offset := input_offset + bytes_written in
      if all_header_size <=? input_offset then ret (buffer_index, page_offset)
      else
        (* Any remaining bytes go onto the next page. *)
        UndoInsert_headers fuel' u chunk_header type_header_sz all_header_size
          (buffer_index + 1) SizeOfUndoPageHeaderData input_offset
  end.

(** Write out the record: the second [for (;;)] of [UndoInsert]. *)
Fixpoint UndoInsert_record (fuel : nat) (u : nat) (record_data : list Z)
  (record_size : Z) (buffer_index page_offset input_offset : Z) : M unit :=
  match fuel with
  | O => elog OUT_OF_FUEL "UndoInsert: record"
  | S fuel' =>
      let* urs := deref_urs u in
      if nbuffers urs <=? buffer_index then
        elog ERROR "ran out of buffers while inserting undo record"
      else
      init_if_needed u buffer_index;;
      when (URSNeedsWAL urs)
        (register_insert_page_offset_if_needed u buffer_index page_offset);;
      when (page_offset =? SizeOfUndoPageHeaderData)
        (register_new_page u buffer_index (type urs) (chunk_start urs));;
      let* ubuf := buffer_at u buffer_index in
      let* bytes_written :=
        UndoPageInsertRecord (buffer ubuf) page_offset input_offset record_size
          record_data (chunk_start urs) (type urs) in
      MarkBufferDirty (buffer ubuf);;
      let page_offset := page_offset + bytes_written in
      let input_offset := input_offset + bytes_written in
      if record_size <=? uint64 input_offset then ret tt
      else
        (* Any remaining bytes go onto the next page. *)
        UndoInsert_record fuel' u record_data record_size
          (buffer_index + 1) SizeOfUndoPageHeaderData input_offset
  end.

(** Append data to an undo log.  The space must previously have been
    allocated with UndoPrepareToInsert(). *)
Definition UndoInsert (u : nat) (record_data : list Z) (record_size : Z) : M unit :=
  let* urs := deref_urs u in
  let type_header_sz := if need_type_header urs then type_header_size urs else 0 in
  let chunk_header_size :=
    if need_chunk_header urs then SizeOfUndoRecordSetChunkHeader else 0 in
  let all_header_size := type_header_sz + chunk_header_size in
  let* w := get in
  Assert (negb (InRecovery w)) "!InRecovery";;
  Assert (0 <? CritSectionCount w) "CritSectionCount > 0";;
  (* The caller must already have called UndoPrepareToInsert. *)
  match slot urs with
  | None => elog TRAP "urs->slot"
  | Some logno =>
  Assert (1 <=? nbuffers urs) "urs->nbuffers >= 1";;
  (* We start of writing into the first buffer, at the offset that
     UndoPrepareToInsert provided. *)
  let page_offset := begin urs mod BLCKSZ in
  (* Can't be pointing into page header. *)
  Assert (SizeOfUndoPageHeaderData <=? page_offset)
    "page_offset >= SizeOfUndoPageHeaderData";;
  (* Write out the header(s), if necessary. *)
  let* (buffer_index, page_offset) :=
    (if need_chunk_header urs then
       let* chunk_header := UndoInsert_chunk_header urs in
       UndoInsert_headers (S (length (buffers urs))) u chunk_header
         type_header_sz all_header_size 0 page_offset 0
     else ret (0, page_offset)) in
  (* Write out the record. *)
  UndoInsert_record (S (length (buffers urs))) u record_data record_size
    buffer_index page_offset 0;;
  update_urs u (with_state URS_STATE_DIRTY);;
  (* Advance the insert pointer in shared memory. *)
  LWLockAcquire logno LW_EXCLUSIVE;;
  let* sl := deref_slot logno in
  store_meta_insert logno
    (UndoLogOffsetPlusUsableBytes (meta_insert sl)
       (uint64 (all_header_size + record_size)));;
  LWLockRelease logno;;
  (* If we created a new chunk, we may also need to mark the previous chunk
     closed. *)
  let* urs := deref_urs u in
  (if 1 <? nchunks urs then
     let* prev := chunk_at u (nchunks urs - 2) in
     when (negb (fst (chunk_header_buffer_index prev) =? -1))
       (UndoMarkChunkClosed u (nchunks urs - 2) false;;
        update_chunk u (nchunks urs - 2) (fun c =>
          with_buffer_index (-1, snd (chunk_header_buffer_index c)) c))
   else ret tt);;
  (* We don't need another chunk header unless we switch undo logs. *)
  update_urs u (with_need_chunk_header false);;
  (* We don't ever need another type header. *)
  update_urs u (with_need_type_header false)
  end.

End Inserting.

(** ** Replay: [UndoReplay] *)

(** A registered block of a decoded WAL record, together with what the WAL
    machinery ([xlogutils.c], [undorecordset_xlog.c]; both absent) yields
    for it: the action [XLogReadBufferForRedoExtended] reports and the
    buf-data [DecodeUndoRecordSetXLogBufData] decodes ([None] when decoding
    fails). *)
Record DecodedBkpBlock := mkBlock {
  in_use : bool;
  rnode_dbNode : Z;
  rnode_relNode : Z;
  blkno : Z;
  will_init : bool;     (* block->flags & BKPBLOCK_WILL_INIT *)
  redo_action : XLogRedoAction;
  decoded_bufdata : option UndoRecordSetXLogBufData
}.

(** [blocks] are the entries 0 .. max_block_id. *)
Record XLogReaderState := mkXLog {
  blocks : list DecodedBkpBlock;
  xl_rmid : Z;
  xl_info : Z;
  ReadRecPtr : Z
}.

(** The locals of [UndoReplay] that live across blocks. *)
Record ReplayState := mkReplay {
  rp_buffers : list (option Buffer);
  rp_record_data : option (list Z);
  rp_record_more : bool;
  rp_record_offset : Z;
  rp_chunk_header : UndoRecordSetChunkHeader;
  rp_header_more : bool;
  rp_header_offset : Z;
  rp_type_header : list Z;
  rp_type_header_size : Z;
  rp_chunk_size_more : bool;
  rp_chunk_size : Z;
  rp_chunk_size_offset : Z
}.

Definition replay_init (record_data : option (list Z)) : ReplayState :=
  mkReplay [] record_data false 0 (mkChunkHeader 0 0 0) false 0 [] 0 false 0 0.

(** What the body of the block loop does next: [Continue] is C's [continue]
    (the block is done), [Fall] falls through to the next statement. *)
Inductive flow := Continue (st : ReplayState) | Fall (st : ReplayState).

(** The locals of one iteration. *)
Record BlockCtx := mkCtx {
  cx_block : DecodedBkpBlock;
  cx_slot : Z;
  cx_skip : bool;
  cx_buffer : option Buffer;
  cx_bufdata : UndoRecordSetXLogBufData;
  cx_chunk_start : Z
}.

Section Replaying.
Context `{UndoLayout}.

(** The page of the buffer read for a block; a block that was not found has
    no valid buffer, and what the code reads through it is taken to be a
    zeroed page. *)
Definition replay_page (cx : BlockCtx) : M Page :=
  match cx_buffer cx with
  | Some b => BufferGetPage b
  | None => ret zero_page
  end.

Definition replay_buffer (cx : BlockCtx) : M Buffer :=
  match cx_buffer cx with
  | Some b => ret b
  | None => elog TRAP "write through InvalidBuffer"
  end.

(** [slot->meta.insert = BLCKSZ * block->blkno + uph->ud_insertion_point]:
    a [BlockNumber] is 32 bits wide, and so are its product with [BLCKSZ]
    and the sum. *)
Definition replay_sync_insert (cx : BlockCtx) : M unit :=
  let* page := replay_page cx in
  store_meta_insert (cx_slot cx)
    ((BLCKSZ * blkno (cx_block cx) + ud_insertion_point page) mod 2 ^ 32).

(** Read the buffer, decode the buf-data, restore the insertion point. *)
Definition replay_begin_block (record_data_given : bool) (block_id : Z)
  (block : DecodedBkpBlock) : M BlockCtx :=
  (* Figure out which undo log is referenced. *)
  let logno := rnode_relNode block in
  let* sl := deref_slot logno in
  (* Check if we need to extend the physical range to cover this block.  The
     product is computed in the 32 bits of a [BlockNumber]. *)
  let past_this_block := ((blkno block + 1) * BLCKSZ) mod 2 ^ 32 in
  when (slot_end sl <? past_this_block)
    (UndoLogAdjustPhysicalRange logno 0 past_this_block);;
  (* Read the buffer. *)
  emit (EvReadBuffer logno (blkno block)
          (if will_init block then RBM_ZERO_AND_LOCK else RBM_NORMAL));;
  let buf := match redo_action block with
             | BLK_NOTFOUND => None
             | _ => Some (logno, blkno block)
             end in
  when (will_init block && negb (bool_decide (redo_action block = BLK_NOTFOUND))
        && negb (bool_decide (redo_action block = BLK_RESTORED)))
    (store_page (logno, blkno block) zero_page);;
  let skip := bool_decide (redo_action block = BLK_RESTORED)
              || bool_decide (redo_action block = BLK_NOTFOUND) in
  match decoded_bufdata block with
  | None => elog ERROR "failed to decode undo xlog buffer data"
  | Some bufdata =>
      (* The UndoPageXXX function need the chunk start location, if they are
         writing to a new page. *)
      let chunk_start := if has_flag (flags bufdata) URS_XLOG_ADD_PAGE
                         then chunk_header_location bufdata
                         else InvalidUndoRecPtr in
      let cx := mkCtx block logno skip buf bufdata chunk_start in
      (* If there is an insertion point recorded, it must be restored before
         we redo (or skip) the insertion. *)
      (if has_flag (flags bufdata) URS_XLOG_INSERT then
         if negb record_data_given then
           elog ERROR "undo buf data contained an insert page offset, but no record was passed to UndoReplay()"
         else
           when (negb skip)
             (let* b := replay_buffer cx in
              let* page := BufferGetPage b in
              store_page b (mkPage (insert_page_offset bufdata)
                              (ud_first_chunk page) (ud_continue_chunk page)
                              (pd_lsn page) (page_data page)));;
           store_meta_insert logno
             ((BLCKSZ * blkno block + insert_page_offset bufdata) mod 2 ^ 32)
       else ret tt);;
      ret cx
  end.

(** Are we still writing something that spilled over from the previous
    page?  The chunk size first, else a header, else a record. *)
Definition replay_continuations (cx : BlockCtx) (record_size : Z)
  (st : ReplayState) : M flow :=
  if rp_chunk_size_more st then
    let* n :=
      (if cx_skip cx then
         ret (UndoPageSkipOverwrite SizeOfUndoPageHeaderData
                (rp_chunk_size_offset st) sizeof_size)
       else
         let* b := replay_buffer cx in
         let* n := UndoPageOverwrite b SizeOfUndoPageHeaderData
                     (rp_chunk_size_offset st) sizeof_size (rp_chunk_size st) in
         MarkBufferDirty b;; ret n) in
    let chunk_size_offset := rp_chunk_size_offset st + n in
    Assert (chunk_size_offset =? sizeof_size)
      "chunk_size_offset == sizeof(chunk_size)";;
    ret (Fall (mkReplay (rp_buffers st) (rp_record_data st) (rp_record_more st)
                 (rp_record_offset st) (rp_chunk_header st) (rp_header_more st)
                 (rp_header_offset st) (rp_type_header st)
                 (rp_type_header_size st) false (rp_chunk_size st)
                 chunk_size_offset))
  else if rp_header_more st then
    let* n :=
      (if cx_skip cx then
         ret (UndoPageSkipHeader SizeOfUndoPageHeaderData (rp_header_offset st)
                (rp_type_header_size st))
       else
         let* b := replay_buffer cx in
         let* n := UndoPageInsertHeader b SizeOfUndoPageHeaderData
                     (rp_header_offset st) (rp_chunk_header st)
                     (rp_type_header_size st) (rp_type_header st)
                     (chunk_header_location (cx_bufdata cx)) in
         MarkBufferDirty b;; ret n) in
    let header_offset := rp_header_offset st + n in
    (* The shared memory insertion point must be after this fragment. *)
    replay_sync_insert cx;;
    let more := header_offset <?
                SizeOfUndoRecordSetChunkHeader + rp_type_header_size st in
    let st' := mkReplay (rp_buffers st) (rp_record_data st) (rp_record_more st)
                 (rp_record_offset st) (rp_chunk_header st) more
                 header_offset (rp_type_header st) (rp_type_header_size st)
                 (rp_chunk_size_more st) (rp_chunk_size st)
                 (rp_chunk_size_offset st) in
    (* Do we need to go around again, on the next page? *)
    ret (if more then Continue st' else Fall st')
  else if rp_record_more st then
    let* n :=
      (if cx_skip cx then
         ret (UndoPageSkipRecord SizeOfUndoPageHeaderData (rp_record_offset st)
                record_size)
       else
         let* b := replay_buffer cx in
         let* n := UndoPageInsertRecord b SizeOfUndoPageHeaderData
                     (rp_record_offset st) record_size
                     (default [] (rp_record_data st))
                     (chunk_header_location (cx_bufdata cx))
                     (urs_type (cx_bufdata cx)) in
         MarkBufferDirty b;; ret n) in
    let record_offset := rp_record_offset st + n in
    (* The shared memory insertion point must be after this fragment. *)
    replay_sync_insert cx;;
    let more := uint64 record_offset <? record_size in
    ret (if more then
           Continue (mkReplay (rp_buffers st) (rp_record_data st) true
                       record_offset (rp_chunk_header st) (rp_header_more st)
                       (rp_header_offset st) (rp_type_header st)
                       (rp_type_header_size st) (rp_chunk_size_more st)
                       (rp_chunk_size st) (rp_chunk_size_offset st))
         else
           (* We have finished writing the record. *)
           Fall (mkReplay (rp_buffers st) None false
                   record_offset (rp_chunk_header st) (rp_header_more st)
                   (rp_header_offset st) (rp_type_header st)
                   (rp_type_header_size st) (rp_chunk_size_more st)
                   (rp_chunk_size st) (rp_chunk_size_offset st)))
  else ret (Fall st).

(** Check if we need to write a chunk header: CREATE (with the type header)
    or, when [create] is false, ADD_CHUNK (without). *)
Definition replay_new_chunk (create : bool) (cx : BlockCtx) (st : ReplayState)
  : M flow :=
  let bufdata := cx_bufdata cx in
  let* st1 :=
    (if cx_skip cx then
       ret (mkReplay (rp_buffers st) (rp_record_data st) (rp_record_more st)
              (rp_record_offset st) (rp_chunk_header st) (rp_header_more st)
              (rp_header_offset st
               + UndoPageSkipHeader SizeOfUndoPageHeaderData
                   (rp_header_offset st) (rp_type_header_size st))
              (rp_type_header st) (rp_type_header_size st)
              (rp_chunk_size_more st) (rp_chunk_size st)
              (rp_chunk_size_offset st))
     else
       let chunk_header :=
         mkChunkHeader 0
           (if create then InvalidUndoRecPtr
            else previous_chunk_header_location bufdata)
           (urs_type bufdata) in
       let type_header := if create then bd_type_header bufdata else [] in
       let type_header_sz := if create then bd_type_header_size bufdata else 0 in
       let* b := replay_buffer cx in
       let* page := BufferGetPage b in
       let* n := UndoPageInsertHeader b (ud_insertion_point page) 0
                   chunk_header type_header_sz type_header (cx_chunk_start cx) in
       ret (mkReplay (rp_buffers st) (rp_record_data st) (rp_record_more st)
              (rp_record_offset st) chunk_header (rp_header_more st)
              n type_header type_header_sz
              (rp_chunk_size_more st) (rp_chunk_size st)
              (rp_chunk_size_offset st))) in
  (* Do we need to go around again, on the next page? *)
  if rp_header_offset st1 <?
     SizeOfUndoRecordSetChunkHeader
     + (if create then rp_type_header_size st1 else 0)
  then
    ret (Continue (mkReplay (rp_buffers st1) (rp_record_data st1)
                     (rp_record_more st1) (rp_record_offset st1)
                     (rp_chunk_header st1) true (rp_header_offset st1)
                     (rp_type_header st1) (rp_type_header_size st1)
                     (rp_chunk_size_more st1) (rp_chunk_size st1)
                     (rp_chunk_size_offset st1)))
  else ret (Fall st1).

(** Check if we need to insert the caller's record data. *)
Definition replay_record (cx : BlockCtx) (record_size : Z) (st : ReplayState)
  : M flow :=
  match rp_record_data st with
  | None => ret (Fall st)
  | Some record_data =>
      let bufdata := cx_bufdata cx in
      let* record_offset :=
        (if cx_skip cx then
           ret (rp_record_offset st
                + UndoPageSkipRecord SizeOfUndoPageHeaderData
                    (rp_record_offset st) record_size)
         else
           let* b := replay_buffer cx in
           let* page := BufferGetPage b in
           UndoPageInsertRecord b (ud_insertion_point page) 0 record_size
             record_data (chunk_header_location bufdata) (urs_type bufdata)) in
      (* The shared memory insertion point must be after this fragment. *)
      replay_sync_insert cx;;
      (* Do we need to go around again, on the next page? *)
      if uint64 record_offset <? record_size then
        ret (Continue (mkReplay (rp_buffers st) (rp_record_data st) true
                         record_offset (rp_chunk_header st) (rp_header_more st)
                         (rp_header_offset st) (rp_type_header st)
                         (rp_type_header_size st) (rp_chunk_size_more st)
                         (rp_chunk_size st) (rp_chunk_size_offset st)))
      else
        ret (Fall (mkReplay (rp_buffers st) None (rp_record_more st)
                     record_offset (rp_chunk_header st) (rp_header_more st)
                     (rp_header_offset st) (rp_type_header st)
                     (rp_type_header_size st) (rp_chunk_size_more st)
                     (rp_chunk_size st) (rp_chunk_size_offset st)))
  end.

(** Determine which type of record closed the record set: the pair
    (isCommit, isPrepare). *)
Definition xact_close_kind (xlog_record : XLogReaderState) : M (bool * bool) :=
  if negb (xl_rmid xlog_record =? RM_XACT_ID) then
    elog ERROR "transaction undo closed by unexpected rmgr"
  else
    let info := uint8 (Z.land (xl_info xlog_record) (Z.lnot XLR_INFO_MASK)) in
    let op := Z.land info XLOG_XACT_OPMASK in
    if (op =? XLOG_XACT_COMMIT) || (op =? XLOG_XACT_COMMIT_PREPARED)
    then ret (true, false)
    else if (op =? XLOG_XACT_ABORT) || (op =? XLOG_XACT_ABORT_PREPARED)
    then ret (false, false)
    else if op =? XLOG_XACT_PREPARE
    then ret (false, true)
    else elog ERROR "transaction undo closed by unexpected record".

(** Update the chunk header size to mark it closed. *)
Definition replay_close_chunk (xlog_record : XLogReaderState) (cx : BlockCtx)
  (st : ReplayState) : M flow :=
  let bufdata := cx_bufdata cx in
  let block := cx_block cx in
  let chunk_sz := chunk_size bufdata in
  let* chunk_size_offset :=
    (if cx_skip cx then
       ret (UndoPageSkipOverwrite SizeOfUndoPageHeaderData
              (rp_chunk_size_offset st) sizeof_size)
     else
       let* b := replay_buffer cx in
       UndoPageOverwrite b (chunk_size_page_offset bufdata) 0 sizeof_size
         chunk_sz) in
  (* If we closed an UndoRecordSet of type URST_TRANSACTION, we need to let
     xactundo.c know about the state change. *)
  when ((urs_type bufdata =? URST_TRANSACTION)
        && has_flag (flags bufdata) URS_XLOG_CLOSE)
    (let* (isCommit, isPrepare) := xact_close_kind xlog_record in
     (* Find the chunk start and end.  The place of the size field is
        computed in the 32 bits of a [BlockNumber]; the chunk size, an
        [UndoLogOffset], is added in 64 bits. *)
     let begin_ :=
       if has_flag (flags bufdata) URS_XLOG_CLOSE_MULTI_CHUNK
       then first_chunk_header_location bufdata
       else MakeUndoRecPtr (cx_slot cx)
              ((blkno block * BLCKSZ + chunk_size_page_offset bufdata)
               mod 2 ^ 32) in
     let end_ :=
       MakeUndoRecPtr (cx_slot cx)
         (uint64 ((blkno block * BLCKSZ + chunk_size_page_offset bufdata)
                  mod 2 ^ 32
                  + chunk_size bufdata)) in
     (* Now we can report what happened. *)
     emit (EvXactUndoCloseRecordSet (bd_type_header bufdata) begin_ end_
             isCommit isPrepare));;
  let more := uint64 chunk_size_offset <? sizeof_size in
  let st' := mkReplay (rp_buffers st) (rp_record_data st) (rp_record_more st)
               (rp_record_offset st) (rp_chunk_header st) (rp_header_more st)
               (rp_header_offset st) (rp_type_header st)
               (rp_type_header_size st) (rp_chunk_size_more st || more) chunk_sz
               chunk_size_offset in
  ret (if more then Continue st' else Fall st').

(** Sequence the steps of the loop body. *)
Definition and_then (m : M flow) (k : ReplayState -> M flow) : M flow :=
  let* f := m in
  match f with
  | Continue st => ret (Continue st)
  | Fall st => k st
  end.

Definition flow_state (f : flow) : ReplayState :=
  match f with Continue st | Fall st => st end.

(** One registered block. *)
Definition UndoReplay_block (xlog_record : XLogReaderState) (record_size : Z)
  (block_id : Z) (block : DecodedBkpBlock) (st : ReplayState) : M ReplayState :=
  if in_use block && (rnode_dbNode block =? UndoDbOid) then
    let* cx := replay_begin_block
                 (bool_decide (is_Some (rp_record_data st))) block_id block in
    let bufdata := cx_bufdata cx in
    let st := mkReplay (rp_buffers st ++ [cx_buffer cx]) (rp_record_data st)
                (rp_record_more st) (rp_record_offset st) (rp_chunk_header st)
                (rp_header_more st) (rp_header_offset st) (rp_type_header st)
                (rp_type_header_size st) (rp_chunk_size_more st)
                (rp_chunk_size st) (rp_chunk_size_offset st) in
    let* f :=
      and_then (replay_continuations cx record_size st) (fun st =>
      and_then (if has_flag (flags bufdata) URS_XLOG_CREATE
                then replay_new_chunk true cx st else ret (Fall st)) (fun st =>
      and_then (if has_flag (flags bufdata) URS_XLOG_ADD_CHUNK
                then
                  (* Can only be creating one chunk per WAL record. *)
                  Assert (negb (has_flag (flags bufdata) URS_XLOG_CREATE))
                    "!(bufdata->flags & URS_XLOG_CREATE)";;
                  replay_new_chunk false cx st
                else ret (Fall st)) (fun st =>
      and_then (replay_record cx record_size st) (fun st =>
      if has_flag (flags bufdata) URS_XLOG_CLOSE_CHUNK
      then replay_close_chunk xlog_record cx st else ret (Fall st))))) in
    ret (flow_state f)
  else ret st.

(** Read and lock all referenced undo log buffers. *)
Fixpoint UndoReplay_blocks (xlog_record : XLogReaderState) (record_size : Z)
  (block_id : Z) (bs : list DecodedBkpBlock) (st : ReplayState) : M ReplayState :=
  match bs with
  | [] => ret st
  | block :: rest =>
      let* st' := UndoReplay_block xlog_record record_size block_id block st in
      UndoReplay_blocks xlog_record record_size (block_id + 1) rest st'
  end.

(** Update the page LSNs and release. *)
Fixpoint replay_release (lsn : Z) (bs : list (option Buffer)) : M unit :=
  match bs with
  | [] => ret tt
  | Some b :: rest =>
      MarkBufferDirty b;;
      emit (EvPageSetLSN b lsn);;
      UnlockReleaseBuffer b;;
      replay_release lsn rest
  | None :: rest => replay_release lsn rest
  end.

(** Insert an undo record and/or replay other undo data modifications that
    were performed at DO time. *)
Definition UndoReplay (xlog_record : XLogReaderState)
  (record_data : option (list Z)) (record_size : Z) : M Z :=
  let* w := get in
  Assert (InRecovery w) "InRecovery";;
  let* st := UndoReplay_blocks xlog_record record_size 0 (blocks xlog_record)
               (replay_init record_data) in
  (* There had better not be any header or record data destined for the
     next buffer if we have run out of registered buffers. *)
  if rp_header_more st || rp_record_more st then
    elog ERROR "undo data didn't fit on registered buffers"
  else
    replay_release (ReadRecPtr xlog_record) (rp_buffers st);;
    ret InvalidUndoRecPtr.

End Replaying.

(** ** Creating, releasing and destroying *)

Section Lifecycle.
Context `{UndoLayout}.

(** Create a new UndoRecordSet with the indicated type and persistence
    level.  [palloc0] hands out a block of the undo memory context that no
    live set occupies. *)
Definition UndoCreate (ty : Z) (p : Persistence) (nesting : Z)
  (type_header_sz : Z) (type_hdr : list Z) : M nat :=
  let* w := get in
  let u := fresh (dom (sets w)) in
  set_sets (fun m => <[u := mkURS ty p [] [] 0 false
                            (take (Z.to_nat type_header_sz) type_hdr)
                            (uint8 type_header_sz) true 0 None 0 0
                            URS_STATE_CLEAN nesting]> m);;
  set_list (fun l => u :: l);;
  ret u.

Fixpoint release_buffers (bs : list UndoBuffer) : M unit :=
  match bs with
  | [] => ret tt
  | ub :: rest => UnlockReleaseBuffer (buffer ub);; release_buffers rest
  end.

(** Release buffer locks and pins held by an UndoRecordSet. *)
Definition UndoRelease (u : nat) : M unit :=
  let* urs := deref_urs u in
  release_buffers (buffers urs);;
  update_urs u (with_buffers []).

Fixpoint put_slots (cs : list UndoRecordSetChunk) : M unit :=
  match cs with
  | [] => ret tt
  | c :: rest => UndoLogPut (chunk_slot c);; put_slots rest
  end.

(** Destroy an UndoRecordSet.  If any data has been written, the
    UndoRecordSet must be closed before it is destroyed. *)
Definition UndoDestroy (u : nat) : M unit :=
  (* Release buffer locks. *)
  UndoRelease u;;
  let* urs := deref_urs u in
  (* If you write any data, you also have to close it properly. *)
  if bool_decide (state urs = URS_STATE_DIRTY) then
    elog PANIC "dirty undo record set not closed before release"
  else
    (* Return undo logs to appropriate free lists. *)
    put_slots (chunks urs);;
    (* Remove from list of all known record sets. *)
    set_list (filter (fun x => x <> u));;
    emit (EvSlistDelete u);;
    (* Free memory. *)
    set_sets (fun m => delete u m);;
    emit (EvPfree u).

(** It should be impossible to reach this code with any UndoRecordSet still
    in existence. *)
Definition AtProcExit_UndoRecordSet : M unit :=
  let* w := get in
  match UndoRecordSetList w with
  | [] => ret tt
  | _ => elog PANIC "undo record set not closed before backend exit"
  end.

(** ** Crash recovery: the final page of a log *)

(** Walk forwards until we find the last chunk on the page: the [for (;;)]
    of [find_start_of_chunk_on_final_page]; [page_offset] is a [uint16]. *)
Fixpoint final_page_walk (fuel : nat) (page : Page) (page_begin_urp : Z)
  (page_offset : Z) : M Z :=
  match fuel with
  | O => elog OUT_OF_FUEL "find_start_of_chunk_on_final_page"
  | S fuel' =>
      (* The size must be entirely on this page, or this wouldn't be the
         last page in the log. *)
      if BLCKSZ - sizeof_size <? page_offset then
        elog ERROR "unexpectedly ran out of undo page while reading chunk size"
      else
      (* Read the aligned value. *)
      let size := page_read_u64 page page_offset in
      (* The chunk can't spill onto the next page, or this wouldn't be the
         last page in the log. *)
      if BLCKSZ <? uint64 (page_offset + size) then
        elog ERROR "unexpectedly ran out of undo page while following chunks"
      (* The chunk can't extend past the insertion point. *)
      else if ud_insertion_point page <? uint64 (page_offset + size) then
        elog ERROR "undo chunk exceeded expected range"
      (* The last chunk is the one that either hits the insertion point or
         is has size zero (unclosed). *)
      else if (size =? 0)
              || (uint64 (page_offset + size) =? ud_insertion_point page) then
        ret (uint64 (page_begin_urp + page_offset))
      else
        (* Keep walking. *)
        final_page_walk fuel' page page_begin_urp (uint16 (page_offset + size))
  end.

(** Find the start of the final chunk by examining a page that is known to
    be the final page in an undo log (ie holding the byte that precedes the
    insertion point). *)
Definition find_start_of_chunk_on_final_page (fuel : nat) (page : Page)
  (page_begin_urp : Z) : M Z :=
  (* Search for the start of the final chunk on this page. *)
  if 0 <? ud_first_chunk page then
    final_page_walk fuel page page_begin_urp (ud_first_chunk page)
  else
    (* If no chunks have been started on the page, then the start of the
       chunk that spilled into this page is directly available from the
       header. *)
    ret (ud_continue_chunk page).

End Lifecycle.

(** * Vocabulary of the properties

    The relations and measures the theorems are stated with. *)

(** The world a run ends in, however it ends. *)
Definition world_of {A} (r : result A) : World :=
  match r with Ok _ w | Raise _ _ w => w end.

(** [steps R m]: whatever [m] does, and however it ends, the world it leaves
    is [R]-related to the one it started in. *)
Definition steps (R : World -> World -> Prop) {A} (m : M A) : Prop :=
  forall w, R w (world_of (m w)).

(** Relations that compose along a sequence of actions. *)
Class Frame (R : World -> World -> Prop) := {
  frame_refl : forall w, R w w;
  frame_trans : forall w1 w2 w3, R w1 w2 -> R w2 w3 -> R w1 w3
}.

(** Events other than taking or dropping a meta lock and storing an insert
    pointer. *)
Definition quiet (e : Event) : Prop :=
  match e with
  | EvLWLockAcquire _ _ | EvLWLockRelease _ | EvStoreInsert _ _ => False
  | _ => True
  end.

(** The slots stay as they are and only quiet calls are made. *)
Definition quietly (w w' : World) : Prop :=
  slots w' = slots w /\
  exists evs, trace w' = trace w ++ evs /\ Forall quiet evs.

(** The world after some more calls. *)
Definition add_trace (evs : list Event) (w : World) : World :=
  mkWorld (slots w) (pages w) (sets w) (UndoRecordSetList w)
    (CritSectionCount w) (InRecovery w) (trace w ++ evs).

(** Only calls satisfying [P] are made. *)
Definition emits (P : Event -> Prop) (w w' : World) : Prop :=
  exists evs, trace w' = trace w ++ evs /\ Forall P evs.

(** Fields of the set [u] that [g] reads stay as they are. *)
Definition keeps {T} (g : UndoRecordSet -> T) (u : nat) (w w' : World) : Prop :=
  (g <$> sets w' !! u) = (g <$> sets w !! u).

Section Vocabulary.
Context `{UndoLayout}.

(** The two or four calls [UndoMarkChunkClosed] makes to patch a size field
    at [page_offset]: one overwrite when the field fits on the page, a
    second one from the start of the next page's data when it does not. *)
Definition size_patch_calls (b0 b1 : Buffer) (page_offset size : Z) : list Event :=
  if page_offset <=? BLCKSZ - sizeof_size then
    [EvUndoPageOverwrite b0 page_offset 0 sizeof_size size; EvMarkBufferDirty b0]
  else
    [EvUndoPageOverwrite b0 page_offset 0 sizeof_size size; EvMarkBufferDirty b0;
     EvUndoPageOverwrite b1 SizeOfUndoPageHeaderData (BLCKSZ - page_offset)
       sizeof_size size;
     EvMarkBufferDirty b1].

(** The header buffers of chunk [c] are pinned: what
    [UndoPrepareToMarkChunkClosed] establishes. *)
Definition header_buffers_pinned (s : UndoRecordSet) (c : UndoRecordSetChunk)
  (b0 b1 : Buffer) : Prop :=
  let '(i0, i1) := chunk_header_buffer_index c in
  0 <= i0 /\ (buffer <$> buffers s !! Z.to_nat i0) = Some b0 /\
  (BLCKSZ - sizeof_size < chunk_header_offset c mod BLCKSZ ->
   0 <= i1 /\ (buffer <$> buffers s !! Z.to_nat i1) = Some b1).

(** Bytes an overwrite call reports as written, per the page codec. *)
Definition overwrite_bytes (e : Event) : Z :=
  match e with
  | EvUndoPageOverwrite _ page_off data_off data_size _ =>
      bytes_on_this_page page_off data_off data_size
  | _ => 0
  end.

(** The bytes of header [UndoInsert] writes before the record. *)
Definition all_header_size (s : UndoRecordSet) : Z :=
  (if need_type_header s then type_header_size s else 0)
  + (if need_chunk_header s then SizeOfUndoRecordSetChunkHeader else 0).

(** The calls that release the buffers [bs], and those that return the
    slots of the chunks [cs]. *)
Definition release_calls (bs : list UndoBuffer) : list Event :=
  map (fun ub => EvUnlockReleaseBuffer (buffer ub)) bs.

Definition put_calls (cs : list UndoRecordSetChunk) : list Event :=
  map (fun c => EvUndoLogPut (chunk_slot c)) cs.

(** [info & XLOG_XACT_OPMASK], for [info = XLogRecGetInfo() & ~XLR_INFO_MASK]. *)
Definition xact_op (xlog_record : XLogReaderState) : Z :=
  Z.land (uint8 (Z.land (xl_info xlog_record) (Z.lnot XLR_INFO_MASK)))
    XLOG_XACT_OPMASK.

(** The operations the switch of [UndoReplay] tells apart. *)
Definition is_commit_op (op : Z) : bool :=
  (op =? XLOG_XACT_COMMIT) || (op =? XLOG_XACT_COMMIT_PREPARED).

Definition is_abort_op (op : Z) : bool :=
  (op =? XLOG_XACT_ABORT) || (op =? XLOG_XACT_ABORT_PREPARED).

Definition is_prepare_op (op : Z) : bool := op =? XLOG_XACT_PREPARE.

(** One of the [case] labels of the switch. *)
Definition standard_xact_op (op : Z) : bool :=
  is_commit_op op || is_abort_op op || is_prepare_op op.

(** The labels of a C switch are pairwise different. *)
Definition xact_ops_distinct : Prop :=
  NoDup [XLOG_XACT_COMMIT; XLOG_XACT_COMMIT_PREPARED; XLOG_XACT_ABORT;
         XLOG_XACT_ABORT_PREPARED; XLOG_XACT_PREPARE].

(** What a call of the close callback says, for this WAL record. *)
Definition reports_faithfully (xlog_record : XLogReaderState) (e : Event) : Prop :=
  match e with
  | EvXactUndoCloseRecordSet _ _ _ isCommit isPrepare =>
      xl_rmid xlog_record = RM_XACT_ID /\
      standard_xact_op (xact_op xlog_record) = true /\
      isCommit = is_commit_op (xact_op xlog_record) /\
      isPrepare = is_prepare_op (xact_op xlog_record)
  | _ => True
  end.

(** A block that only closes a transaction's undo record set: CLOSE_CHUNK
    with CLOSE, type URST_TRANSACTION, nothing inserted or created. *)
Definition closes_transaction_set (block : DecodedBkpBlock)
  (bd : UndoRecordSetXLogBufData) : Prop :=
  in_use block = true /\ rnode_dbNode block = UndoDbOid /\
  decoded_bufdata block = Some bd /\
  has_flag (flags bd) URS_XLOG_INSERT = false /\
  has_flag (flags bd) URS_XLOG_CREATE = false /\
  has_flag (flags bd) URS_XLOG_ADD_CHUNK = false /\
  has_flag (flags bd) URS_XLOG_CLOSE_CHUNK = true /\
  has_flag (flags bd) URS_XLOG_CLOSE = true /\
  urs_type bd = URST_TRANSACTION.

(** The context [replay_begin_block] sets up for a block. *)
Definition block_ctx (block : DecodedBkpBlock) (bd : UndoRecordSetXLogBufData)
  : BlockCtx :=
  mkCtx block (rnode_relNode block)
    (bool_decide (redo_action block = BLK_RESTORED)
     || bool_decide (redo_action block = BLK_NOTFOUND))
    (match redo_action block with
     | BLK_NOTFOUND => None
     | _ => Some (rnode_relNode block, blkno block)
     end)
    bd
    (if has_flag (flags bd) URS_XLOG_ADD_PAGE
     then chunk_header_location bd else InvalidUndoRecPtr).

(** The walk the specification describes, on integers: [final_chunk page po
    found] when, starting at page offset [po] and stepping over closed chunks
    by their sizes, [found] is the first chunk that is open (size 0) or ends
    at the insertion point, no step having left the page or passed the
    insertion point. *)
Inductive final_chunk (page : Page) : Z -> Z -> Prop :=
| final_here po :
    po <= BLCKSZ - sizeof_size ->
    po + page_read_u64 page po <= BLCKSZ ->
    po + page_read_u64 page po <= ud_insertion_point page ->
    page_read_u64 page po = 0
    \/ po + page_read_u64 page po = ud_insertion_point page ->
    final_chunk page po po
| final_later po found :
    po <= BLCKSZ - sizeof_size ->
    po + page_read_u64 page po <= BLCKSZ ->
    po + page_read_u64 page po <= ud_insertion_point page ->
    page_read_u64 page po <> 0 ->
    po + page_read_u64 page po <> ud_insertion_point page ->
    final_chunk page (po + page_read_u64 page po) found ->
    final_chunk page po found.

(** [walk_fails page po]: the walk from [po] meets a size field that runs
    past the page, or a chunk that extends beyond the page or past the
    insertion point. *)
Inductive walk_fails (page : Page) : Z -> Prop :=
| fails_here po :
    BLCKSZ - sizeof_size < po
    \/ BLCKSZ < po + page_read_u64 page po
    \/ ud_insertion_point page < po + page_read_u64 page po ->
    walk_fails page po
| fails_later po :
    po <= BLCKSZ - sizeof_size ->
    po + page_read_u64 page po <= BLCKSZ ->
    po + page_read_u64 page po <= ud_insertion_point page ->
    page_read_u64 page po <> 0 ->
    po + page_read_u64 page po <> ud_insertion_point page ->
    walk_fails page (po + page_read_u64 page po) ->
    walk_fails page po.

(** No chunk size on the page is so large that adding it to a page offset
    overflows 64 bits. *)
Definition sizes_do_not_wrap (page : Page) : Prop :=
  forall off, 0 <= off <= BLCKSZ - sizeof_size ->
              off + page_read_u64 page off < 2 ^ 64.

(** What the planner's header size is computed from, where the set is
    attached and where it will write. *)
Definition plan_of (s : UndoRecordSet) : bool * bool * Z * option Z * Z :=
  (need_chunk_header s, need_type_header s, type_header_size s, slot s, begin s).

(** The type header of a set. *)
Definition type_plan (s : UndoRecordSet) : bool * Z :=
  (need_type_header s, type_header_size s).

(** The pointer a new chunk header carries, in the specification's words:
    the header of the chunk before the last one, and the invalid pointer
    when the last chunk is the first. *)
Definition previous_chunk_of (cs : list UndoRecordSetChunk) : Z :=
  match rev cs with
  | _ :: prev :: _ => MakeUndoRecPtr (chunk_slot prev) (chunk_header_offset prev)
  | _ => InvalidUndoRecPtr
  end.

(** The header of an open chunk of the set [s]. *)
Definition open_chunk_header (s : UndoRecordSet) : UndoRecordSetChunkHeader :=
  mkChunkHeader 0 (previous_chunk_of (chunks s)) (type s).

(** Every chunk header handed to the page codec is [hdr]. *)
Definition stamps (hdr : UndoRecordSetChunkHeader) (e : Event) : Prop :=
  match e with
  | EvUndoPageInsertHeader _ _ _ h _ _ _ => h = hdr
  | _ => True
  end.

End Vocabulary.
(** ** Page LSNs, WAL registration and the sets of a transaction level *)

(** Calls that build the WAL record under construction ([xloginsert.c] and
    [undorecordset_xlog.c]; both absent).  A function that makes such calls
    returns them, in the order made. *)
Inductive XLogCall :=
| CallXLogRegisterBuffer (block_id : Z) (b : Buffer) (flags : Z)
| CallEncodeUndoRecordSetXLogBufData (bufdata : UndoRecordSetXLogBufData)
    (block_id : Z).

(** [xloginsert.h] and [undolog.h] are absent: the buffer registration flags
    and the offset part of an undo record pointer are parameters. *)
Class XLogLayout := {
  REGBUF_WILL_INIT : Z;
  REGBUF_KEEP_DATA : Z;
  UndoRecPtrGetOffset : Z -> Z
}.

Section Levels.
Context `{UndoLayout}.

(** The size of the type-specific header of a record set type. *)
Definition get_type_header_size (ty : Z) : Z :=
  if ty =? URST_TRANSACTION then 8
  else if ty =? URST_FOO then 4
  else 0.

(** A loop over an array or over [UndoRecordSetList] whose body leaves the
    array or the list as it is. *)
Fixpoint for_each {A} (xs : list A) (body : A -> M unit) : M unit :=
  match xs with
  | [] => ret tt
  | x :: rest => body x;; for_each rest body
  end.

Definition PageSetLSN (b : Buffer) (lsn : Z) : M unit := emit (EvPageSetLSN b lsn).

(** Set page LSNs for buffers dirtied by UndoInsert or UndoMarkClosed. *)
Definition UndoPageSetLSN (u : nat) (lsn : Z) : M unit :=
  let* urs := deref_urs u in
  for_each (buffers urs) (fun ubuf => PageSetLSN (buffer ubuf) lsn).

(** Reset undo insertion state: forget about any buffers we think we've
    locked. *)
Definition UndoResetInsertion : M unit :=
  let* w := get in
  for_each (UndoRecordSetList w) (fun u => update_urs u (with_buffers [])).

(** Prepare to mark UndoRecordSets for this transaction level closed.
    Returns true if there is work to be done and false otherwise. *)
Fixpoint UndoPrepareToMarkClosedForXactLevel_loop (level : Z) (l : list nat)
  (needs_work : bool) : M bool :=
  match l with
  | [] => ret needs_work
  | u :: rest =>
      let* urs := deref_urs u in
      let* work :=
        (if (level <=? nestingLevel urs)
            && bool_decide (state urs = URS_STATE_DIRTY)
         then UndoPrepareToMarkClosed u
         else ret false) in
      UndoPrepareToMarkClosedForXactLevel_loop level rest
        (if work then true else needs_work)
  end.

Definition UndoPrepareToMarkClosedForXactLevel (level : Z) : M bool :=
  let* w := get in
  UndoPrepareToMarkClosedForXactLevel_loop level (UndoRecordSetList w) false.

(** Mark UndoRecordSets for this transaction level closed. *)
Definition UndoMarkClosedForXactLevel (level : Z) : M unit :=
  let* w := get in
  for_each (UndoRecordSetList w) (fun u =>
    let* urs := deref_urs u in
    when ((level <=? nestingLevel urs)
          && bool_decide (state urs = URS_STATE_DIRTY))
      (UndoMarkClosed u)).

(** Set page LSNs for all UndoRecordSets for this transaction level. *)
Definition UndoPageSetLSNForXactLevel (level : Z) (lsn : Z) : M unit :=
  let* w := get in
  for_each (UndoRecordSetList w) (fun u =>
    let* urs := deref_urs u in
    when ((level <=? nestingLevel urs)
          && bool_decide (state urs = URS_STATE_DIRTY))
      (UndoPageSetLSN u lsn)).

(** The inner [slist_foreach] of [UndoDestroyForXactLevel]: the first set
    of the list at this level, if there is one. *)
Fixpoint first_at_level (level : Z) (l : list nat) : M (option nat) :=
  match l with
  | [] => ret None
  | u :: rest =>
      let* urs := deref_urs u in
      if level <=? nestingLevel urs then ret (Some u)
      else first_at_level level rest
  end.

(** [while (restart)]: UndoDestroy will update UndoRecordSetList, so we have
    to restart the iterator after calling it. *)
Fixpoint UndoDestroyForXactLevel_loop (fuel : nat) (level : Z) : M unit :=
  match fuel with
  | O => elog OUT_OF_FUEL "UndoDestroyForXactLevel"
  | S fuel' =>
      let* w := get in
      let* found := first_at_level level (UndoRecordSetList w) in
      match found with
      | None => ret tt
      | Some u => UndoDestroy u;; UndoDestroyForXactLevel_loop fuel' level
      end
  end.

(** Destroy UndoRecordSets for this transaction level. *)
Definition UndoDestroyForXactLevel (fuel : nat) (level : Z) : M unit :=
  (* First, release all buffer locks. *)
  let* w := get in
  for_each (UndoRecordSetList w) (fun u =>
    let* urs := deref_urs u in
    when (level <=? nestingLevel urs) (UndoRelease u));;
  (* Now destroy the UndoRecordSets. *)
  UndoDestroyForXactLevel_loop fuel level.

Section Registering.
Context `{XLogLayout}.

(** The body of the loop of [UndoXLogRegisterBuffers], for buffer [i]. *)
Fixpoint UndoXLogRegisterBuffers_loop (first_block_id : Z) (i : Z)
  (bs : list UndoBuffer) : list XLogCall :=
  match bs with
  | [] => []
  | ubuf :: rest =>
      CallXLogRegisterBuffer (first_block_id + i) (buffer ubuf)
        (Z.lor (if is_new ubuf then REGBUF_WILL_INIT else 0) REGBUF_KEEP_DATA)
      :: (if negb (flags (bufdata ubuf) =? 0)
          then [CallEncodeUndoRecordSetXLogBufData (bufdata ubuf)
                  (first_block_id + i)]
          else [])
      ++ UndoXLogRegisterBuffers_loop first_block_id (i + 1) rest
  end.

(** Register all undo buffers touched by a single WAL record. *)
Definition UndoXLogRegisterBuffers (u : nat) (first_block_id : Z)
  : M (list XLogCall) :=
  let* urs := deref_urs u in
  if negb (URSNeedsWAL urs) then ret []
  else ret (UndoXLogRegisterBuffers_loop first_block_id 0 (buffers urs)).

(** Register XLog buffers for all UndoRecordSets for this transaction
    level. *)
Fixpoint UndoXLogRegisterBuffersForXactLevel_loop (level : Z)
  (first_block_id : Z) (l : list nat) : M (list XLogCall) :=
  match l with
  | [] => ret []
  | u :: rest =>
      let* urs := deref_urs u in
      let* calls :=
        (if (level <=? nestingLevel urs)
            && negb (bool_decide (state urs = URS_STATE_CLEAN))
         then UndoXLogRegisterBuffers u first_block_id
         else ret []) in
      let* more :=
        UndoXLogRegisterBuffersForXactLevel_loop level first_block_id rest in
      ret (calls ++ more)
  end.

Definition UndoXLogRegisterBuffersForXactLevel (level : Z) (first_block_id : Z)
  : M (list XLogCall) :=
  let* w := get in
  UndoXLogRegisterBuffersForXactLevel_loop level first_block_id
    (UndoRecordSetList w).

End Registering.

(** ** Crash recovery: reading the log *)

(** Given the current insert pointer for an undo log, find the header for
    the last chunk. *)
Definition find_start_of_final_chunk_in_undo_log (fuel : nat) (logno insert : Z)
  : M Z :=
  (* Locate the page holding the byte preceding the insert point, skipping
     over the page header if necessary. *)
  let last_data_offset := uint64 (insert - 1) in
  let last_data_offset :=
    if last_data_offset mod BLCKSZ <? SizeOfUndoPageHeaderData
    then uint64 (last_data_offset - SizeOfUndoPageHeaderData)
    else last_data_offset in
  (* Read the last chunk location from the last page's header.  A
     [BlockNumber] is 32 bits wide, and so is its product with [BLCKSZ]. *)
  let chunk_last_blockno := (last_data_offset / BLCKSZ) mod 2 ^ 32 in
  let* b := ReadBufferWithoutRelcache
              (UndoRecPtrGetLogNo (MakeUndoRecPtr logno last_data_offset))
              chunk_last_blockno RBM_NORMAL in
  LockBuffer b BUFFER_LOCK_SHARE;;
  (* Find the start of the final chunk by examining this page. *)
  let final_page_urp :=
    MakeUndoRecPtr logno ((BLCKSZ * chunk_last_blockno) mod 2 ^ 32) in
  let* page := BufferGetPage b in
  let* result := find_start_of_chunk_on_final_page fuel page final_page_urp in
  UnlockReleaseBuffer b;;
  ret result.

Section Reading.
Context `{XLogLayout}.

(** The [do ... while (bytes_copied < size)] of [read_undo_header]; [room]
    counts the entries of [buffers] not yet used ([nbuffers - buffer_index]),
    [out] and [bufs] are what has been copied and pinned so far. *)
Fixpoint read_undo_header_loop (room : nat) (size : Z) (relNode : Z)
  (blockno page_offset bytes_copied : Z) (out : list Z) (bufs : list Buffer)
  : M (list Z * list Buffer) :=
  match room with
  | O => elog ERROR "cannot read undo data: not enough buffers"
  | S room' =>
      let* b := ReadBufferWithoutRelcache relNode blockno RBM_NORMAL in
      LockBuffer b BUFFER_LOCK_EXCLUSIVE;;
      let bytes_on_this_page :=
        uint16 (Z.min (uint64 (size - bytes_copied))
                  (uint64 (BLCKSZ - page_offset))) in
      let* page := BufferGetPage b in
      let out := out ++ map (fun i => page_byte page (page_offset + Z.of_nat i))
                          (seq 0 (Z.to_nat bytes_on_this_page)) in
      let bytes_copied := uint64 (bytes_copied + bytes_on_this_page) in
      if bytes_copied <? size then
        read_undo_header_loop room' size relNode ((blockno + 1) mod 2 ^ 32)
          (uint16 SizeOfUndoPageHeaderData) bytes_copied out (bufs ++ [b])
      else ret (out, bufs ++ [b])
  end.

(** Read data at a given location, reading and locking buffers as required.
    Returns the bytes copied to [out] and the entries of [buffers] it
    filled. *)
Definition read_undo_header (size : Z) (urp : Z) (nbuffers : nat)
  : M (list Z * list Buffer) :=
  read_undo_header_loop nbuffers size (UndoRecPtrGetLogNo urp)
    ((UndoRecPtrGetOffset urp / BLCKSZ) mod 2 ^ 32) (uint16 (urp mod BLCKSZ)) 0
    [] [].

End Reading.

(** [release_buffers] of the crash recovery code: entries that are
    [InvalidBuffer] are passed over, and every entry is [InvalidBuffer]
    afterwards. *)
Fixpoint release_pinned (bufs : list (option Buffer)) : M (list (option Buffer)) :=
  match bufs with
  | [] => ret []
  | Some b :: rest =>
      UnlockReleaseBuffer b;;
      let* rest' := release_pinned rest in ret (None :: rest')
  | None :: rest =>
      let* rest' := release_pinned rest in ret (None :: rest')
  end.

End Levels.
(** * The earlier revision

    [src/backend/access/undo/undorecordset.c] as it was before the page
    codec of [undopage.c]: the file copies bytes onto undo pages itself, and
    logs what it did as a stream of instructions attached to the WAL
    record's blocks, which [UndoUpdateInRecovery] replays.  An insert
    instruction is a length byte below 0x80 followed by that many bytes; an
    update instruction is a four-byte header with the top bit set, holding a
    page offset and a size, followed by the bytes. *)
Module Legacy.

Local Open Scope Z_scope.

Definition OPS_HEADER_SIZE : Z := 4.

Definition URS_BUFFER_IS_NEW : Z := 1.
Definition URS_BUFFER_NEEDS_INIT : Z := 2.
Definition URS_BUFFER_NEEDS_DIRTY : Z := 4.
Definition URS_BUFFER_NEEDS_XLOGBUF : Z := 8.

(** [int]: a result that does not fit wraps around. *)
Definition int32 (x : Z) : Z := (x + 2 ^ 31) mod 2 ^ 32 - 2 ^ 31.

Inductive BufferLockMode :=
  BUFFER_LOCK_UNLOCK | BUFFER_LOCK_SHARE | BUFFER_LOCK_EXCLUSIVE.

(** An undo page of this revision: its [BLCKSZ] bytes by offset, the page
    header included (an offset never written holds zero).  The fields of the
    standard page header are bytes of the page like the others: a copy onto
    the page that reaches them overwrites them. *)
Abbreviation Page := (gmap Z Z).

Definition zero_page : Page := ∅.

Definition page_byte (p : Page) (off : Z) : Z :=
  uint8 (default 0 (p !! off)).

(** Per-chunk bookkeeping. *)
Record UndoRecordSetChunk := mkChunk {
  chunk_slot : Z;
  chunk_header_offset : Z;
  chunk_header_buffer_index : Z * Z;
  chunk_header_ops : list Z * list Z
}.

(** [buffers] and [buffer_flag] are the first [nbuffers] entries of the two
    arrays. *)
Record UndoRecordSet := mkURS {
  type : Z;
  persistence : Persistence;
  chunks : list UndoRecordSetChunk;
  first_block_id : Z;
  buffers : list Buffer;
  buffer_flag : list Z;
  previous_chunk : Z;
  need_chunk_header : bool;
  chunk_header : UndoRecordSetChunkHeader;
  type_header : list Z;
  type_header_size : Z;
  need_type_header : bool;
  slot : option Z;
  recent_end : Z;
  state : UndoRecordSetState;
  nestingLevel : Z
}.

Definition nchunks (u : UndoRecordSet) : Z := Z.of_nat (length (chunks u)).
Definition nbuffers (u : UndoRecordSet) : Z := Z.of_nat (length (buffers u)).

(** Calls to the collaborators, in the order they are made.  A buffer data
    registration is recorded with the bytes its pointer designates at the
    call. *)
Inductive Call :=
| CallReadBufferWithoutRelcache (relNode block : Z) (rbm : ReadBufferMode)
| CallXLogReadBufferForRedoExtended (block_id : Z) (rbm : ReadBufferMode)
| CallLockBuffer (b : Buffer) (mode : BufferLockMode)
| CallReleaseBuffer (b : Buffer)
| CallMarkBufferDirty (b : Buffer)
| CallPageSetLSN (b : Buffer) (lsn : Z)
| CallUndoPageInit (b : Buffer)
| CallXLogRegisterBuffer (block_id : Z) (b : Buffer) (flags : Z)
| CallXLogRegisterBufData (block_id : Z) (data : list Z)
| CallLWLockAcquire (logno : Z) (mode : LWLockMode)
| CallLWLockRelease (logno : Z).

Record World := mkWorld {
  slots : gmap Z UndoLogSlot;
  pages : gmap Buffer Page;
  sets : gmap nat UndoRecordSet;
  CritSectionCount : Z;
  InRecovery : bool;
  calls : list Call
}.

(** ** The monad *)

Inductive result (A : Type) :=
| Ok (a : A) (w : World)
| Raise (l : elevel) (msg : string) (w : World).
Arguments Ok {A} a w.
Arguments Raise {A} l msg w.

Definition M (A : Type) : Type := World -> result A.

Definition ret {A} (a : A) : M A := fun w => Ok a w.

Definition bind {A B} (m : M A) (k : A -> M B) : M B :=
  fun w => match m w with
           | Ok a w' => k a w'
           | Raise l msg w' => Raise l msg w'
           end.

Declare Scope legacy_scope.
Delimit Scope legacy_scope with legacy.
Notation "'let*' x ':=' m 'in' k" := (bind m (fun x => k))
  (at level 10, x pattern, m at level 100, k at level 200) : legacy_scope.
Notation "m1 ';;' m2" := (bind m1 (fun _ => m2))
  (at level 100, m2 at level 200, right associativity) : legacy_scope.
Local Open Scope legacy_scope.

Definition get : M World := fun w => Ok w w.
Definition modify (f : World -> World) : M unit := fun w => Ok tt (f w).
Definition elog {A} (l : elevel) (msg : string) : M A := fun w => Raise l msg w.
Definition Assert (c : bool) (what : string) : M unit :=
  if c then ret tt else elog TRAP what.
Definition when (c : bool) (m : M unit) : M unit := if c then m else ret tt.

Definition call (c : Call) : M unit :=
  modify (fun w => mkWorld (slots w) (pages w) (sets w) (CritSectionCount w)
                     (InRecovery w) (calls w ++ [c])).

Definition set_slots (f : gmap Z UndoLogSlot -> gmap Z UndoLogSlot) : M unit :=
  modify (fun w => mkWorld (f (slots w)) (pages w) (sets w) (CritSectionCount w)
                     (InRecovery w) (calls w)).

Definition set_pages (f : gmap Buffer Page -> gmap Buffer Page) : M unit :=
  modify (fun w => mkWorld (slots w) (f (pages w)) (sets w) (CritSectionCount w)
                     (InRecovery w) (calls w)).

Definition set_sets (f : gmap nat UndoRecordSet -> gmap nat UndoRecordSet) : M unit :=
  modify (fun w => mkWorld (slots w) (pages w) (f (sets w)) (CritSectionCount w)
                     (InRecovery w) (calls w)).

(** Dereferencing: a pointer that names nothing traps. *)
Definition deref_urs (u : nat) : M UndoRecordSet :=
  fun w => match sets w !! u with
           | Some s => Ok s w
           | None => Raise TRAP "dangling UndoRecordSet pointer" w
           end.

Definition update_urs (u : nat) (f : UndoRecordSet -> UndoRecordSet) : M unit :=
  let* s := deref_urs u in set_sets (fun m => <[u := f s]> m).

Definition deref_slot (logno : Z) : M UndoLogSlot :=
  fun w => match slots w !! logno with
           | Some s => Ok s w
           | None => Raise TRAP "dangling UndoLogSlot pointer" w
           end.

(** [BufferGetPage]: a block never written reads as zeroes. *)
Definition BufferGetPage (b : Buffer) : M Page :=
  fun w => Ok (default zero_page (pages w !! b)) w.

Definition store_page (b : Buffer) (p : Page) : M unit :=
  set_pages (fun m => <[b := p]> m).

(** Field updates. *)
Definition with_chunks (cs : list UndoRecordSetChunk) (s : UndoRecordSet) :=
  mkURS (type s) (persistence s) cs (first_block_id s) (buffers s)
    (buffer_flag s) (previous_chunk s) (need_chunk_header s) (chunk_header s)
    (type_header s) (type_header_size s) (need_type_header s) (slot s)
    (recent_end s) (state s) (nestingLevel s).
Definition with_buffers (bs : list Buffer) (fs : list Z) (s : UndoRecordSet) :=
  mkURS (type s) (persistence s) (chunks s) (first_block_id s) bs fs
    (previous_chunk s) (need_chunk_header s) (chunk_header s)
    (type_header s) (type_header_size s) (need_type_header s) (slot s)
    (recent_end s) (state s) (nestingLevel s).
Definition with_chunk_header (h : UndoRecordSetChunkHeader) (s : UndoRecordSet) :=
  mkURS (type s) (persistence s) (chunks s) (first_block_id s) (buffers s)
    (buffer_flag s) (previous_chunk s) (need_chunk_header s) h
    (type_header s) (type_header_size s) (need_type_header s) (slot s)
    (recent_end s) (state s) (nestingLevel s).
Definition with_need_chunk_header (b : bool) (s : UndoRecordSet) :=
  mkURS (type s) (persistence s) (chunks s) (first_block_id s) (buffers s)
    (buffer_flag s) (previous_chunk s) b (chunk_header s)
    (type_header s) (type_header_size s) (need_type_header s) (slot s)
    (recent_end s) (state s) (nestingLevel s).
Definition with_need_type_header (b : bool) (s : UndoRecordSet) :=
  mkURS (type s) (persistence s) (chunks s) (first_block_id s) (buffers s)
    (buffer_flag s) (previous_chunk s) (need_chunk_header s) (chunk_header s)
    (type_header s) (type_header_size s) b (slot s)
    (recent_end s) (state s) (nestingLevel s).
Definition with_state (v : UndoRecordSetState) (s : UndoRecordSet) :=
  mkURS (type s) (persistence s) (chunks s) (first_block_id s) (buffers s)
    (buffer_flag s) (previous_chunk s) (need_chunk_header s) (chunk_header s)
    (type_header s) (type_header_size s) (need_type_header s) (slot s)
    (recent_end s) v (nestingLevel s).
Definition with_buffer_index (ix : Z * Z) (c : UndoRecordSetChunk) :=
  mkChunk (chunk_slot c) (chunk_header_offset c) ix (chunk_header_ops c).
Definition with_ops (ops : list Z * list Z) (c : UndoRecordSetChunk) :=
  mkChunk (chunk_slot c) (chunk_header_offset c) (chunk_header_buffer_index c) ops.

(** [urs->chunks[i]], [urs->buffers[i]] and [urs->buffer_flag[i]]: reading
    outside the live part of the array traps. *)
Definition chunk_at (u : nat) (i : Z) : M UndoRecordSetChunk :=
  let* s := deref_urs u in
  if i <? 0 then elog TRAP "chunks[] index out of bounds" else
  match chunks s !! Z.to_nat i with
  | Some c => ret c
  | None => elog TRAP "chunks[] index out of bounds"
  end.

Definition buffer_at (u : nat) (i : Z) : M Buffer :=
  let* s := deref_urs u in
  if i <? 0 then elog TRAP "buffers[] index out of bounds" else
  match buffers s !! Z.to_nat i with
  | Some b => ret b
  | None => elog TRAP "buffers[] index out of bounds"
  end.

Definition buffer_flag_at (u : nat) (i : Z) : M Z :=
  let* s := deref_urs u in
  if i <? 0 then elog TRAP "buffer_flag[] index out of bounds" else
  match buffer_flag s !! Z.to_nat i with
  | Some f => ret f
  | None => elog TRAP "buffer_flag[] index out of bounds"
  end.

Definition update_chunk (u : nat) (i : Z)
  (f : UndoRecordSetChunk -> UndoRecordSetChunk) : M unit :=
  let* c := chunk_at u i in
  update_urs u (fun s => with_chunks (<[Z.to_nat i := f c]> (chunks s)) s).

(** [urs->buffer_flag[i] &= ~bit] *)
Definition clear_buffer_flag (u : nat) (i : Z) (bit : Z) : M unit :=
  let* f := buffer_flag_at u i in
  update_urs u (fun s =>
    with_buffers (buffers s)
      (<[Z.to_nat i := uint8 (Z.land f (Z.lnot bit))]> (buffer_flag s)) s).

(** The constants and the memory images the absent headers decide:
    [REGBUF_WILL_INIT] of [xloginsert.h], the bytes of a chunk header
    [struct] ([undorecordset.h]), what [UndoPageInit] ([undopage.c]) leaves
    on a page, and the bytes of the page header that an assignment to
    [pd_lower] and [PageSetLSN] ([bufpage.h]) store into. *)
Class LegacyLayout := {
  REGBUF_WILL_INIT : Z;
  chunk_header_image : UndoRecordSetChunkHeader -> list Z;
  UndoPageInit_page : Page -> Page;
  store_pd_lower : Z -> Page -> Page;
  store_pd_lsn : Z -> Page -> Page
}.

Section Code.
Context `{UndoLayout} `{LegacyLayout}.

(** ** Bytes on pages *)

(** The bytes [data] laid down from [offset] on. *)
Fixpoint write_bytes (d : Page) (offset : Z) (data : list Z) : Page :=
  match data with
  | [] => d
  | x :: rest => write_bytes (<[offset := x]> d) (offset + 1) rest
  end.

(** [memcpy(page + offset, data, n)].  A copy that would leave the page is
    not defined by C: the model stops there. *)
Definition memcpy_to_page (b : Buffer) (offset : Z) (data : list Z) : M unit :=
  if (offset <? 0) || (BLCKSZ <? offset + Z.of_nat (length data)) then
    elog TRAP "memcpy outside the page"
  else
    let* p := BufferGetPage b in
    store_page b (write_bytes p offset data).

(** The [n] bytes of a source from [from] on: bytes past the end of the list
    read as zero. *)
Definition source_bytes (data : list Z) (from n : Z) : list Z :=
  map (fun i => bytes_src data (from + Z.of_nat i)) (seq 0 (Z.to_nat n)).

(** The [n] bytes of a page from [offset] on. *)
Definition page_bytes (p : Page) (offset n : Z) : list Z :=
  map (fun i => page_byte p (offset + Z.of_nat i)) (seq 0 (Z.to_nat n)).

Definition PageSetLSN (b : Buffer) (lsn : Z) : M unit :=
  let* p := BufferGetPage b in
  store_page b (store_pd_lsn lsn p);;
  call (CallPageSetLSN b lsn).

(** ** Closing *)

Fixpoint find_buffer (bs : list Buffer) (logno block : Z) (i : Z) : option Z :=
  match bs with
  | [] => None
  | b :: rest =>
      if (fst b =? logno) && (snd b =? block)
      then Some i else find_buffer rest logno block (i + 1)
  end.

(** Return the index in urs->buffers of the requested buffer. *)
Definition find_or_read_buffer (u : nat) (logno block : Z) : M Z :=
  let* s := deref_urs u in
  (* Do we have it pinned and locked already? *)
  match find_buffer (buffers s) logno block 0 with
  | Some i => ret i
  | None =>
      (* Pin it and lock it. *)
      let relNode := UndoRecPtrGetLogNo (MakeUndoRecPtr logno 0) in
      call (CallReadBufferWithoutRelcache relNode block RBM_NORMAL);;
      let flag :=
        if bool_decide (persistence s = RELPERSISTENCE_PERMANENT)
        then Z.lor URS_BUFFER_NEEDS_DIRTY URS_BUFFER_NEEDS_XLOGBUF
        else URS_BUFFER_NEEDS_DIRTY in
      update_urs u (fun s => with_buffers (buffers s ++ [(relNode, block)])
                               (buffer_flag s ++ [flag]) s);;
      call (CallLockBuffer (relNode, block) BUFFER_LOCK_EXCLUSIVE);;
      ret (nbuffers s)
  end.

(** Pin and lock buffers that hold all chunk headers, in preparation for
    marking them closed. *)
Fixpoint UndoPrepareToMarkClosed_loop (u : nat) (n : nat) (i : Z) : M unit :=
  match n with
  | O => ret tt
  | S n' =>
      let* chunk := chunk_at u i in
      let header := chunk_header_offset chunk in
      let header_block := (header / BLCKSZ) mod 2 ^ 32 in
      let header_offset := int32 (header mod BLCKSZ) in
      let* i0 := find_or_read_buffer u (chunk_slot chunk) header_block in
      update_chunk u i (fun c =>
        with_buffer_index (i0, snd (chunk_header_buffer_index c)) c);;
      (if uint64 header_offset <=? uint64 (BLCKSZ - sizeof_size) then
         update_chunk u i (fun c =>
           with_buffer_index (fst (chunk_header_buffer_index c), -1) c)
       else
         let* i1 := find_or_read_buffer u (chunk_slot chunk)
                      ((header_block + 1) mod 2 ^ 32) in
         update_chunk u i (fun c =>
           with_buffer_index (fst (chunk_header_buffer_index c), i1) c));;
      UndoPrepareToMarkClosed_loop u n' (i + 1)
  end.

Definition UndoPrepareToMarkClosed (u : nat) : M bool :=
  let* s := deref_urs u in
  UndoPrepareToMarkClosed_loop u (length (chunks s)) 0;;
  ret (0 <? nchunks s).

(** [ops[0]] to [ops[3]] as [write_update_ops_header] fills them: the top
    bit marks an update, fifteen bits hold the page offset and sixteen the
    size. *)
Definition update_ops_header (offset size : Z) : list Z :=
  [uint8 (Z.lor 128 (Z.shiftr offset 8)); uint8 (Z.land offset 255);
   uint8 (Z.shiftr size 8); uint8 (Z.land size 255)].

Definition write_update_ops_header (offset size : Z) : M (list Z) :=
  (* Since the maximum BLCKSZ is 32KB, we can use the top bit to indicate
     that this is an 'update' rather than an 'insert'. *)
  Assert (BLCKSZ <=? 32768) "BLCKSZ <= 0x8000";;
  Assert (offset <? BLCKSZ) "offset < BLCKSZ";;
  Assert (offset + size <=? BLCKSZ) "(offset + size) <= BLCKSZ";;
  Assert (SizeOfUndoPageHeaderData <=? offset)
    "offset >= SizeOfUndoPageHeaderData";;
  ret (update_ops_header offset size).

(** Do the per-page work associated with marking an UndoRecordSet closed. *)
Definition UndoMarkPageClosed (u : nat) (ci : Z) (chbidx : Z)
  (page_offset data_offset size : Z) : M Z :=
  let* urs := deref_urs u in
  let* chunk := chunk_at u ci in
  let* index :=
    (if chbidx =? 0 then ret (fst (chunk_header_buffer_index chunk))
     else if chbidx =? 1 then ret (snd (chunk_header_buffer_index chunk))
     else elog TRAP "chunk_header_buffer_index[] index out of bounds") in
  let* buffer := buffer_at u index in
  (* Compute the number of bytes on this page. *)
  let bytes_on_this_page :=
    int32 (Z.min (uint64 (BLCKSZ - page_offset))
             (uint64 (sizeof_size - data_offset))) in
  (* Update the page. *)
  memcpy_to_page buffer page_offset
    (source_bytes (le_bytes 8 size) data_offset bytes_on_this_page);;
  (* Mark the buffer dirty, if not yet done. *)
  let* flag := buffer_flag_at u index in
  when (negb (Z.land flag URS_BUFFER_NEEDS_DIRTY =? 0))
    (call (CallMarkBufferDirty buffer);;
     clear_buffer_flag u index URS_BUFFER_NEEDS_DIRTY);;
  (* Register the buffer with XLOG system, if needed and not yet done. *)
  let* flag := buffer_flag_at u index in
  when (negb (Z.land flag URS_BUFFER_NEEDS_XLOGBUF =? 0))
    (call (CallXLogRegisterBuffer (first_block_id urs + index) buffer 0);;
     clear_buffer_flag u index URS_BUFFER_NEEDS_XLOGBUF);;
  (* Capture this edit as buffer data. *)
  when (bool_decide (persistence urs = RELPERSISTENCE_PERMANENT))
    (let* ops := write_update_ops_header (uint16 page_offset)
                   (uint16 bytes_on_this_page) in
     update_chunk u ci (fun c =>
       with_ops (if chbidx =? 0 then (ops, snd (chunk_header_ops c))
                 else (fst (chunk_header_ops c), ops)) c);;
     call (CallXLogRegisterBufData (first_block_id urs + index) ops);;
     let* page := BufferGetPage buffer in
     call (CallXLogRegisterBufData (first_block_id urs + index)
             (page_bytes page page_offset bytes_on_this_page)));;
  ret bytes_on_this_page.

(** [while (data_offset < sizeof(size))], with [chbidx++] walking the two
    entries of [chunk_header_buffer_index]. *)
Fixpoint UndoMarkClosed_pages (u : nat) (ci : Z) (fuel : nat) (chbidx : Z)
  (page_offset data_offset size : Z) : M unit :=
  if uint64 data_offset <? sizeof_size then
    match fuel with
    | O => elog TRAP "chunk_header_buffer_index[] index out of bounds"
    | S fuel' =>
        let* n := UndoMarkPageClosed u ci chbidx page_offset data_offset size in
        UndoMarkClosed_pages u ci fuel' (chbidx + 1)
          (int32 SizeOfUndoPageHeaderData) (int32 (data_offset + n)) size
    end
  else ret tt.

(** The [for] loop of [UndoMarkClosed] over the chunks [i], [i + 1], ... *)
Fixpoint UndoMarkClosed_chunks (u : nat) (n : nat) (i : Z) : M unit :=
  match n with
  | O => ret tt
  | S n' =>
      let* chunk := chunk_at u i in
      let header := chunk_header_offset chunk in
      let* sl := deref_slot (chunk_slot chunk) in
      let insert := meta_insert sl in
      let size := uint64 (insert - header) in
      let page_offset := int32 (header mod BLCKSZ) in
      UndoMarkClosed_pages u i 2 0 page_offset 0 size;;
      UndoMarkClosed_chunks u n' (i + 1)
  end.

Definition UndoMarkClosed (u : nat) : M unit :=
  (* Must be in a critical section. *)
  let* w := get in
  Assert (0 <? CritSectionCount w) "CritSectionCount > 0";;
  let* urs := deref_urs u in
  (* Shouldn't already be closed, and should have chunks if it's dirty. *)
  Assert (negb (bool_decide (state urs = URS_STATE_CLOSED)))
    "urs->state != URS_STATE_CLOSED";;
  Assert (bool_decide (state urs = URS_STATE_CLEAN) || negb (nchunks urs =? 0))
    "urs->state == URS_STATE_CLEAN || urs->nchunks != 0";;
  UndoMarkClosed_chunks u (length (chunks urs)) 0;;
  (* If it was dirty, mark it closed. *)
  let* urs := deref_urs u in
  when (bool_decide (state urs = URS_STATE_DIRTY))
    (update_urs u (with_state URS_STATE_CLOSED)).

(** ** Replaying updates *)

(** A registered block of a decoded WAL record, with the action
    [XLogReadBufferForRedoExtended] reports for it and the data registered
    for it ([None] when there is none). *)
Record DecodedBkpBlock := mkBlock {
  in_use : bool;
  rnode_dbNode : Z;
  rnode_relNode : Z;
  blkno : Z;
  redo_action : XLogRedoAction;
  block_data : option (list Z)
}.

Record XLogReaderState := mkXLog {
  blocks : list DecodedBkpBlock;
  ReadRecPtr : Z
}.

(** [ops[i]], a [uint8]. *)
Definition op_byte (ops : list Z) (i : nat) : Z := uint8 (nth i ops 0).

(** Apply all updates to this page: the [while (ops < ops_end)] of
    [UndoUpdateInRecovery], on the bytes from [ops] to [ops_end]. *)
Fixpoint UndoUpdateInRecovery_ops (fuel : nat) (b : Buffer) (ops : list Z)
  : M unit :=
  match ops with
  | [] => ret tt
  | _ :: _ =>
      match fuel with
      | O => elog OUT_OF_FUEL "UndoUpdateInRecovery"
      | S fuel' =>
          (* Skip insertions (those are for UndoInsertInRecovery()). *)
          Assert (negb (op_byte ops 0 =? 0)) "*ops != 0";;
          if Z.land (op_byte ops 0) 128 =? 0 then
            UndoUpdateInRecovery_ops fuel' b
              (drop (Z.to_nat (op_byte ops 0 + 1)) ops)
          else
          (* We have an update.  Apply it. *)
          if Z.of_nat (length ops) <=? OPS_HEADER_SIZE then
            elog ERROR "corrupted undo update instruction"
          else
          let offset :=
            uint16 (Z.lor (Z.shiftl (Z.land (op_byte ops 0) 127) 8)
                      (op_byte ops 1)) in
          let size := uint16 (Z.lor (Z.shiftl (op_byte ops 2) 8) (op_byte ops 3)) in
          let ops := drop 4 ops in
          if Z.of_nat (length ops) <? size then
            elog ERROR "corrupted undo update instruction"
          else
            memcpy_to_page b offset (take (Z.to_nat size) ops);;
            UndoUpdateInRecovery_ops fuel' b (drop (Z.to_nat size) ops)
      end
  end.

(** One registered block.  What the buffer manager does when it is asked to
    unlock the invalid buffer of a block that was not found is not part of
    this file: the model stops there. *)
Definition UndoUpdateInRecovery_block (lsn : Z) (block_id : Z)
  (block : DecodedBkpBlock) : M unit :=
  when (in_use block && (rnode_dbNode block =? UndoDbOid))
    ((* Read the buffer. *)
     call (CallXLogReadBufferForRedoExtended block_id RBM_NORMAL);;
     let buffer := (rnode_relNode block, blkno block) in
     when (bool_decide (redo_action block = BLK_NEEDS_REDO))
       (let ops := default [] (block_data block) in
        UndoUpdateInRecovery_ops (length ops) buffer ops;;
        PageSetLSN buffer lsn);;
     if bool_decide (redo_action block = BLK_NOTFOUND) then
       elog TRAP "LockBuffer(InvalidBuffer)"
     else
       call (CallLockBuffer buffer BUFFER_LOCK_UNLOCK);;
       call (CallReleaseBuffer buffer)).

Fixpoint UndoUpdateInRecovery_blocks (lsn : Z) (block_id : Z)
  (bs : list DecodedBkpBlock) : M unit :=
  match bs with
  | [] => ret tt
  | block :: rest =>
      UndoUpdateInRecovery_block lsn block_id block;;
      UndoUpdateInRecovery_blocks lsn (uint8 (block_id + 1)) rest
  end.

(** Replay the effects of UndoMarkClosed(). *)
Definition UndoUpdateInRecovery (xlog_record : XLogReaderState) : M unit :=
  UndoUpdateInRecovery_blocks (ReadRecPtr xlog_record) 0 (blocks xlog_record).

(** ** Inserting *)

(** [UndoInsertState]; its [buffers] and [buffer_flag] point at the arrays
    of the set the insertion is for. *)
Record UndoInsertState := mkInsertState {
  is_first_block_id : Z;
  buffer_index : Z;
  insert : Z
}.

Definition begin_append (first_block : Z) (urp : Z) : UndoInsertState :=
  mkInsertState first_block 0 urp.

(** The [while (size > 0)] of [append_bytes].  The copy always starts at the
    first byte of [data]: the source pointer is not advanced. *)
Fixpoint append_bytes (fuel : nat) (u : nat) (st : UndoInsertState)
  (data : list Z) (size : Z) : M UndoInsertState :=
  if 0 <? size then
    match fuel with
    | O => elog OUT_OF_FUEL "append_bytes"
    | S fuel' =>
        let index := buffer_index st in
        let* buffer := buffer_at u index in
        let offset := int32 (UndoRecPtrGetPageOffset (insert st)) in
        let bytes_on_this_page :=
          int32 (Z.min (uint64 (BLCKSZ - offset)) size) in
        (* Initialize the page, if needed and not yet done. *)
        let* flag := buffer_flag_at u index in
        when (negb (Z.land flag URS_BUFFER_NEEDS_INIT =? 0))
          (let* p := BufferGetPage buffer in
           store_page buffer (UndoPageInit_page p);;
           call (CallUndoPageInit buffer);;
           clear_buffer_flag u index URS_BUFFER_NEEDS_INIT);;
        (* Mark the buffer dirty, if not yet done. *)
        let* flag := buffer_flag_at u index in
        when (negb (Z.land flag URS_BUFFER_NEEDS_DIRTY =? 0))
          (call (CallMarkBufferDirty buffer);;
           clear_buffer_flag u index URS_BUFFER_NEEDS_DIRTY);;
        (* Register the buffer with XLOG system, if needed and not yet
           done. *)
        let* flag := buffer_flag_at u index in
        when (negb (Z.land flag URS_BUFFER_NEEDS_XLOGBUF =? 0))
          (call (CallXLogRegisterBuffer (is_first_block_id st + index) buffer
                   (if negb (Z.land flag URS_BUFFER_IS_NEW =? 0)
                    then REGBUF_WILL_INIT else 0));;
           clear_buffer_flag u index URS_BUFFER_NEEDS_XLOGBUF);;
        (* We store the insertion point in pd_lower. *)
        let* p := BufferGetPage buffer in
        store_page buffer (store_pd_lower (uint16 offset) p);;
        (if bytes_on_this_page <? 0 then elog TRAP "memcpy outside the page"
         else
           memcpy_to_page buffer offset (source_bytes data 0 bytes_on_this_page));;
        let size := uint64 (size - bytes_on_this_page) in
        let offset := int32 (offset + bytes_on_this_page) in
        let st := mkInsertState (is_first_block_id st) (buffer_index st)
                    (uint64 (insert st + bytes_on_this_page)) in
        (* If there is no more space on this page, position the next write
           at the start of the next page. *)
        let st :=
          if offset =? BLCKSZ then
            mkInsertState (is_first_block_id st) (int32 (buffer_index st + 1))
              (uint64 (insert st + SizeOfUndoPageHeaderData))
          else st in
        append_bytes fuel' u st data size
    end
  else ret st.

(** Append data to an undo log.  The space must previously have been
    allocated with UndoAllocate(). *)
Definition UndoInsert (fuel : nat) (u : nat) (first_block : Z)
  (data : list Z) (data_size : Z) : M unit :=
  let* w := get in
  Assert (negb (InRecovery w)) "!InRecovery";;
  let* urs := deref_urs u in
  match slot urs with
  | None => elog TRAP "urs->slot"
  | Some logno =>
  let* sl := deref_slot logno in
  let st := begin_append first_block (meta_insert sl) in
  update_urs u (with_state URS_STATE_DIRTY);;
  (* Write any required chunk header. *)
  let* st :=
    (if need_chunk_header urs then
       let hdr := mkChunkHeader 0 (previous_chunk urs) (type urs) in
       update_urs u (with_chunk_header hdr);;
       (* Append it to the undo log. *)
       let* st := append_bytes fuel u st (chunk_header_image hdr)
                    (uint64 SizeOfUndoRecordSetChunkHeader) in
       (* Also attach it verbatim to the first buffer in the WAL record.  We
          write a size byte first, which identifies this as an 'insert'
          operation because the high bit is not set. *)
       call (CallXLogRegisterBufData first_block
               [uint8 SizeOfUndoRecordSetChunkHeader]);;
       call (CallXLogRegisterBufData first_block
               (source_bytes (chunk_header_image hdr) 0
                  (uint64 SizeOfUndoRecordSetChunkHeader)));;
       ret st
     else ret st) in
  (* Write the type header, if we have one. *)
  let* st :=
    (if need_type_header urs then
       let* st := append_bytes fuel u st (type_header urs)
                    (uint8 (type_header_size urs)) in
       call (CallXLogRegisterBufData first_block [uint8 (type_header_size urs)]);;
       call (CallXLogRegisterBufData first_block
               (source_bytes (type_header urs) 0 (uint8 (type_header_size urs))));;
       ret st
     else ret st) in
  (* Finally, write the caller's data. *)
  let* st := append_bytes fuel u st data data_size in
  (* Advance the insert pointer in shared memory. *)
  call (CallLWLockAcquire logno LW_EXCLUSIVE);;
  let* sl := deref_slot logno in
  set_slots (fun m => <[logno := with_meta_insert (insert st) sl]> m);;
  call (CallLWLockRelease logno);;
  (* Don't need another chunk header unless we switch undo logs. *)
  update_urs u (with_need_chunk_header false);;
  (* Don't ever need another type header. *)
  update_urs u (with_need_type_header false)
  end.

(** ** Vocabulary of the properties: instruction streams *)

(** An instruction of the stream attached to a block. *)
Inductive Instruction :=
| Insert (data : list Z)
| Update (offset : Z) (data : list Z).

(** The bytes of an instruction: a length byte and the data ([UndoInsert]
    registers them so), or the header of [write_update_ops_header] and the
    data ([UndoMarkPageClosed]). *)
Definition encode_instruction (i : Instruction) : list Z :=
  match i with
  | Insert data => uint8 (Z.of_nat (length data)) :: data
  | Update offset data =>
      update_ops_header offset (Z.of_nat (length data)) ++ data
  end.

Definition encode (prog : list Instruction) : list Z :=
  concat (map encode_instruction prog).

(** An instruction the encoding has room for, and that stays on the page.
    An update may start anywhere on the page, also inside the page header:
    the replay applies it all the same.  [write_update_ops_header] accepts
    only the updates that start after the page header. *)
Definition well_formed (i : Instruction) : Prop :=
  match i with
  | Insert data => (0 < length data < 128)%nat
  | Update offset data =>
      0 <= offset < 2 ^ 15 /\ (0 < length data)%nat /\
      Z.of_nat (length data) < 2 ^ 16 /\
      offset + Z.of_nat (length data) <= BLCKSZ
  end.

(** What replaying a stream leaves on a page: the updates, in order. *)
Definition replayed (prog : list Instruction) (d : Page) : Page :=
  foldl (fun d i =>
           match i with
           | Insert _ => d
           | Update offset data => write_bytes d offset data
           end) d prog.

(** The page a buffer holds. *)
Definition page_of (w : World) (b : Buffer) : Page :=
  default zero_page (pages w !! b).

(** A registered block that belongs to an undo log. *)
Definition is_undo_block (block : DecodedBkpBlock) : bool :=
  in_use block && (rnode_dbNode block =? UndoDbOid).

(** The buffer of a registered block. *)
Definition block_buffer (block : DecodedBkpBlock) : Buffer :=
  (rnode_relNode block, blkno block).

(** The world with more calls made. *)
Definition add_calls (cs : list Call) (w : World) : World :=
  mkWorld (slots w) (pages w) (sets w) (CritSectionCount w) (InRecovery w)
    (calls w ++ cs).

(** The world with the page of a buffer replaced. *)
Definition with_page (b : Buffer) (d : Page) (w : World) : World :=
  mkWorld (slots w) (<[b := d]> (pages w)) (sets w) (CritSectionCount w)
    (InRecovery w) (calls w).

(** An instruction that leaves the page header alone, as every update that
    [write_update_ops_header] accepts does. *)
Definition after_page_header (i : Instruction) : Prop :=
  match i with
  | Insert _ => True
  | Update offset _ => SizeOfUndoPageHeaderData <= offset
  end.

(** The set [u] has the buffers [bs], and [n] buffer flags. *)
Definition holds_buffers (u : nat) (bs : list Buffer) (n : nat) (w : World)
  : Prop :=
  exists s, sets w !! u = Some s /\ buffers s = bs /\
            length (buffer_flag s) = n.

(** From [w] to [w'] the set [u] keeps its buffers, and the slots and the
    pages stay as they are. *)
Definition keeps_pages (u : nat) (bs : list Buffer) (n : nat) (w w' : World)
  : Prop :=
  holds_buffers u bs n w' /\ slots w' = slots w /\
  forall b, page_of w' b = page_of w b.

(** From [w] to [w'] the set [u] keeps its buffers, the slots stay as they
    are, and so does every page but that of [b], which is as it was or has
    been initialised. *)
Definition prepares_page (u : nat) (bs : list Buffer) (n : nat) (b : Buffer)
  (w w' : World) : Prop :=
  holds_buffers u bs n w' /\ slots w' = slots w /\
  (forall b', b' <> b -> page_of w' b' = page_of w b') /\
  (page_of w' b = page_of w b \/
   page_of w' b = UndoPageInit_page (page_of w b)).

End Code.

End Legacy.
(** * Vocabulary of the lifecycle properties *)

(** Every entry of [UndoRecordSetList] is a live set, listed once. *)
Definition listed_sets_live (w : World) : Prop :=
  NoDup (UndoRecordSetList w) /\
  forall u, u ∈ UndoRecordSetList w -> is_Some (sets w !! u).

(** The set belongs to the transaction level [level] or to a deeper one. *)
Definition at_level (level : Z) (s : UndoRecordSet) : Prop :=
  level <= nestingLevel s.

(** The listed set [u] is of the level and DIRTY. *)
Definition dirty_at_level (level : Z) (w : World) (u : nat) : Prop :=
  u ∈ UndoRecordSetList w /\
  exists s, sets w !! u = Some s /\ at_level level s /\
            state s = URS_STATE_DIRTY.

(** The list stays as it is, no set comes into being or goes away, and
    every set moves along [P]. *)
Definition sets_evolve (P : UndoRecordSet -> UndoRecordSet -> Prop)
  (w w' : World) : Prop :=
  UndoRecordSetList w' = UndoRecordSetList w /\
  forall u, option_Forall2 P (sets w !! u) (sets w' !! u).

(** A set keeps its level and its chunks' places, and does not become
    DIRTY. *)
Definition settles (s s' : UndoRecordSet) : Prop :=
  nestingLevel s' = nestingLevel s /\
  length (chunks s') = length (chunks s) /\
  (state s' = URS_STATE_DIRTY -> state s = URS_STATE_DIRTY).

(** No page LSN is set, no buffer released. *)
Definition keeps_pins (e : Event) : Prop :=
  match e with
  | EvPageSetLSN _ _ | EvUnlockReleaseBuffer _ => False
  | _ => True
  end.

(** The bytes of a page from [page_offset] on. *)
Definition page_bytes (p : Page) (page_offset : Z) (n : nat) : list Z :=
  map (fun i => page_byte p (page_offset + Z.of_nat i)) (seq 0 n).

(** The page a buffer holds. *)
Definition page_of (w : World) (b : Buffer) : Page :=
  default zero_page (pages w !! b).

(** The set [u] is not of the level [level], nor of a deeper one. *)
Definition below_level (level : Z) (w : World) (u : nat) : bool :=
  match sets w !! u with
  | Some s => nestingLevel s <? level
  | None => true
  end.

(** A set keeps its level, its state and its chunks' places. *)
Definition steady (s s' : UndoRecordSet) : Prop :=
  nestingLevel s' = nestingLevel s /\
  length (chunks s') = length (chunks s) /\
  state s' = state s.

(** [yields Q m]: whenever [m] returns, what it returns satisfies [Q]. *)
Definition yields {A} (Q : A -> Prop) (m : M A) : Prop :=
  forall w a w', m w = Ok a w' -> Q a.

(** How [UndoReplay] ends with a buffer it has read. *)
Definition release_sequence (lsn : Z) (bs : list Buffer) : list Event :=
  concat (map (fun b => [EvMarkBufferDirty b; EvPageSetLSN b lsn;
                         EvUnlockReleaseBuffer b]) bs).

Section ReplayVocabulary.
Context `{UndoLayout}.

(** A registered block that belongs to an undo log. *)
Definition is_undo_block (block : DecodedBkpBlock) : bool :=
  in_use block && (rnode_dbNode block =? UndoDbOid).

(** The buffer read for a block, unless the block is not found. *)
Definition block_buffer (block : DecodedBkpBlock) : option Buffer :=
  match redo_action block with
  | BLK_NOTFOUND => None
  | _ => Some (rnode_relNode block, blkno block)
  end.

(** The buffers [UndoReplay] reads for a record: one per undo block that is
    found, in block order. *)
Definition replayed_buffers (bs : list DecodedBkpBlock) : list Buffer :=
  omap (fun block => if is_undo_block block then block_buffer block else None)
    bs.

End ReplayVocabulary.

(** [START_CRIT_SECTION()]: the world with one more critical section
    entered. *)
Definition entering_critical_section (w : World) : World :=
  mkWorld (slots w) (pages w) (sets w) (UndoRecordSetList w)
    (CritSectionCount w + 1) (InRecovery w) (trace w).

(** What an insertion leaves alone in a set. *)
Definition identity_of (s : UndoRecordSet)
  : Z * Persistence * option Z * Z * Z * list Z * Z :=
  (type s, persistence s, slot s, begin s, nestingLevel s, type_header s,
   type_header_size s).

Section RecoveryVocabulary.
Context `{UndoLayout}.

(** The buffer holds block [block] of the undo log [logno]: it was found
    among the pinned buffers by that tag, or read for the relation that the
    log's pointer names. *)
Definition holds_block (logno block : Z) (b : Buffer) : Prop :=
  snd b = block /\
  (fst b = logno \/ fst b = UndoRecPtrGetLogNo (MakeUndoRecPtr logno 0)).

(** The block that holds the last data byte before [insert]: the block of
    [insert] when it points past the first data byte of its page, and the
    block before otherwise. *)
Definition final_block (insert : Z) : Z :=
  if SizeOfUndoPageHeaderData <? insert mod BLCKSZ
  then insert / BLCKSZ
  else insert / BLCKSZ - 1.

(** The last data byte before [insert]: the byte before it, or, when that
    is a byte of the page header, the last byte of the page before. *)
Definition last_data_offset (insert : Z) : Z :=
  if (0 <? insert mod BLCKSZ)
     && (insert mod BLCKSZ <=? SizeOfUndoPageHeaderData)
  then insert - 1 - SizeOfUndoPageHeaderData
  else insert - 1.

(** The calls that pin block [blockno] of a log for reading a header. *)
Definition pin_calls (relNode blockno : Z) : list Event :=
  [EvReadBuffer relNode blockno RBM_NORMAL;
   EvLockBuffer (relNode, blockno) BUFFER_LOCK_EXCLUSIVE].

End RecoveryVocabulary.

(** [P] holds of each of the [n] numbers from [x] on. *)
Fixpoint all_from (P : Z -> bool) (n : nat) (x : Z) : bool :=
  match n with
  | O => true
  | S n' => P x && all_from P n' (x + 1)
  end.

(** ** A concrete layout

    Modelled from the spec: the values of the absent headers, as the spec's
    glossary and data model give them: 8192-byte pages, 1 TiB (2^40 byte)
    logs addressed by a 64-bit pointer, offsets counted in usable bytes that
    skip the per-page header.  The theorems hold for every layout; this one
    exercises them on concrete inputs. *)
Module Sample.

Definition blcksz : Z := 8192.
Definition page_header : Z := 24.
Definition usable_per_page : Z := blcksz - page_header.

Definition make_urp (logno offset : Z) : Z := Z.lor (Z.shiftl logno 40) offset.
Definition urp_logno (urp : Z) : Z := Z.shiftr urp 40.
Definition urp_offset (urp : Z) : Z := Z.land urp (2 ^ 40 - 1).

Definition offset_to_usable_byte_no (offset : Z) : Z :=
  (offset mod blcksz - page_header) + (offset / blcksz) * usable_per_page.
Definition offset_from_usable_byte_no (i : Z) : Z :=
  (i / usable_per_page) * blcksz + page_header + i mod usable_per_page.
Definition offset_plus_usable_bytes (offset n : Z) : Z :=
  offset_from_usable_byte_no (offset_to_usable_byte_no offset + n).

#[export] Instance layout : UndoLayout := {|
  BLCKSZ := blcksz;
  SizeOfUndoPageHeaderData := page_header;
  SizeOfUndoRecordSetChunkHeader := 24;
  InvalidUndoRecPtr := 0;
  MakeUndoRecPtr := make_urp;
  UndoRecPtrGetLogNo := urp_logno;
  UndoRecPtrGetBlockNum := fun urp => urp_offset urp / blcksz;
  UndoRecPtrGetPageOffset := fun urp => urp_offset urp mod blcksz;
  UndoRecPtrPlusUsableBytes := fun urp n =>
    make_urp (urp_logno urp) (offset_plus_usable_bytes (urp_offset urp) n);
  UndoLogOffsetPlusUsableBytes := offset_plus_usable_bytes;
  URST_TRANSACTION := 84;
  URST_FOO := 70;
  RM_XACT_ID := 1;
  XLR_INFO_MASK := 15;
  XLOG_XACT_OPMASK := 112;
  XLOG_XACT_COMMIT := 0;
  XLOG_XACT_PREPARE := 16;
  XLOG_XACT_ABORT := 32;
  XLOG_XACT_COMMIT_PREPARED := 48;
  XLOG_XACT_ABORT_PREPARED := 64;
  UndoDbOid := 9;
  UndoLogGetForPersistence_choice := fun slots _ =>
    let logno := fresh (dom slots) in
    (logno, default (mkSlot page_header (2 ^ 40) page_header 0 false)
              (slots !! logno))
|}.

Definition empty_world : World := mkWorld ∅ ∅ ∅ [] 0 false [].

(** Recovery, with undo log 3 in use: its insert pointer is on the second
    page. *)
Definition recovering : World :=
  mkWorld {[ 3 := mkSlot 8300 (2 ^ 40) page_header 16384 false ]} ∅ ∅ [] 0 true [].

(** The buf-data of a block that closes a chunk of 136 bytes whose header is
    at page offset 8188, four bytes before the end of the page, and with it
    the whole set of type [ty]. *)
Definition straddling_close (ty : Z) : UndoRecordSetXLogBufData :=
  mkBufData (Z.lor URS_XLOG_CLOSE_CHUNK URS_XLOG_CLOSE) 0 0 0 ty
    [7; 7; 7; 7; 7; 7; 7; 7] 8 8188 136 0.

Definition block_of (blk : Z) (bd : UndoRecordSetXLogBufData) : DecodedBkpBlock :=
  mkBlock true 9 3 blk false BLK_NEEDS_REDO (Some bd).

(** A commit record that closes a transaction's set, with both pages of the
    size field registered. *)
Definition commit_closing_straddled : XLogReaderState :=
  mkXLog [block_of 0 (straddling_close 84); block_of 1 zero_bufdata] 1 0 1000.

(** A record that closes a set of type URST_FOO and registers only the page
    the size field starts on. *)
Definition close_missing_second_page : XLogReaderState :=
  mkXLog [block_of 0 (straddling_close 70)] 0 0 1000.

(** A final page whose chunk at offset 100 has the size 2^64 - 8, and a
    chunk of size 8 at offset 92. *)
Definition wrapping_page : Page :=
  mkPage 200 100 0 0
    (list_to_map
       [(92, 8); (100, 248); (101, 255); (102, 255); (103, 255); (104, 255);
        (105, 255); (106, 255); (107, 255)]).

(** The first scenario of the specification: a set of type URST_FOO with a
    four-byte type header is created, and 16 bytes are reserved for it; the
    caller enters a critical section and inserts them. *)
Definition created : World :=
  world_of (UndoCreate 70 RELPERSISTENCE_PERMANENT 1 4 [1; 2; 3; 4] empty_world).

Definition created_set : UndoRecordSet :=
  mkURS 70 RELPERSISTENCE_PERMANENT [] [] 0 false [1; 2; 3; 4] 4 true 0 None 0 0
    URS_STATE_CLEAN 1.

Definition prepared : World := world_of (UndoPrepareToInsert 2 0 16 created).

Definition prepared_set : UndoRecordSet :=
  mkURS 70 RELPERSISTENCE_PERMANENT [mkChunk 0 false 24 (-1, -1)]
    [mkUndoBuffer (0, 0) true true zero_bufdata] 0 true [1; 2; 3; 4] 4 true 24
    (Some 0) 24 0 URS_STATE_CLEAN 1.

Definition prepared_slot : UndoLogSlot := mkSlot 24 (2 ^ 40) page_header 68 false.

Definition in_critical_section (w : World) : World :=
  mkWorld (slots w) (pages w) (sets w) (UndoRecordSetList w) 1 (InRecovery w)
    (trace w).

Definition record16 : list Z := [9; 9; 9; 9; 9; 9; 9; 9; 9; 9; 9; 9; 9; 9; 9; 9].

Definition inserted : World :=
  world_of (UndoInsert 0 record16 16 (in_critical_section prepared)).

(** A DIRTY set whose only chunk has its header at offset 8188 of log 3, four
    bytes before the end of the first page, with both pages of the header
    pinned, in a critical section. *)
Definition straddling_chunk : UndoRecordSetChunk := mkChunk 3 true 8188 (0, 1).

Definition straddling_set : UndoRecordSet :=
  mkURS 70 RELPERSISTENCE_PERMANENT [straddling_chunk]
    [mkUndoBuffer (3, 0) false false zero_bufdata;
     mkUndoBuffer (3, 1) false false zero_bufdata]
    0 false [1; 2; 3; 4] 4 false 8188 (Some 3) (make_urp 3 8188) 16384
    URS_STATE_DIRTY 1.

Definition straddling_slot : UndoLogSlot :=
  mkSlot 8300 (2 ^ 40) page_header 16384 false.

Definition straddling : World :=
  mkWorld {[ 3 := straddling_slot ]} ∅ {[ 0%nat := straddling_set ]} [0%nat] 1
    false [].

End Sample.

(** ** More scenarios on the concrete layout *)
Module Scenario.
Import Sample.

(** A layout of the WAL interface to exercise the theorems, with the
    pointer layout of [Sample]. *)
#[export] Instance xlog_layout : XLogLayout := {|
  REGBUF_WILL_INIT := 6;
  REGBUF_KEEP_DATA := 16;
  UndoRecPtrGetOffset := urp_offset
|}.

(** The DIRTY set of [Sample.straddling], closed as a transaction level. *)
Definition level_closed : World :=
  world_of (UndoMarkClosedForXactLevel 1 straddling).

(** The buffers of the closed level, as they are registered from block id 0. *)
Definition level_registered : list XLogCall :=
  match UndoXLogRegisterBuffersForXactLevel 1 0 level_closed with
  | Ok calls _ => calls
  | Raise _ _ _ => []
  end.

(** A second set, of transaction level 2, created after [Sample.created]. *)
Definition two_levels : World :=
  world_of (UndoCreate 84 RELPERSISTENCE_PERMANENT 2 8 [1; 2; 3; 4; 5; 6; 7; 8]
              created).

(** [Sample.straddling] after the header buffers of its level were pinned. *)
Definition level_prepared : World :=
  world_of (UndoPrepareToMarkClosedForXactLevel 1 straddling).

(** The set of [level_closed], and its first buffer. *)
Definition closed_set : UndoRecordSet :=
  default straddling_set (sets level_closed !! 0%nat).

Definition closed_buffer : UndoBuffer :=
  default (mkUndoBuffer (3, 0) false false zero_bufdata)
    (buffers closed_set !! 0%nat).

(** A commit record that closes a transaction's set, replayed. *)
Definition commit_closing : XLogReaderState :=
  mkXLog [block_of 0 (straddling_close 84)] 1 0 1000.

Definition commit_replayed : World :=
  world_of (UndoReplay commit_closing None 0 recovering).

(** A record whose only block belongs to a relation of database 5. *)
Definition heap_record : XLogReaderState :=
  mkXLog [mkBlock true 5 16384 0 false BLK_NEEDS_REDO None] 0 0 2000.

(** [Sample.straddling] after [UndoPrepareToMarkClosed] on its set. *)
Definition straddling_prepared : World :=
  world_of (UndoPrepareToMarkClosed 0 straddling).

(** Recovery with the insertion point of the first page of log 3 four bytes
    before the end of the page. *)
Definition recovering_at_page_end : World :=
  mkWorld {[ 3 := mkSlot 8188 (2 ^ 40) page_header 16384 false ]}
    {[ (3, 0) := mkPage 8188 24 0 0 ∅ ]} ∅ [] 0 true [].

(** The buf-data of a block on which a transaction's set is created, its
    chunk header written at page offset 8188, and closed again. *)
Definition creating_and_closing : UndoRecordSetXLogBufData :=
  mkBufData (Z.lor URS_XLOG_CREATE (Z.lor URS_XLOG_CLOSE_CHUNK URS_XLOG_CLOSE))
    0 0 0 84 [7; 7; 7; 7; 7; 7; 7; 7] 8 8188 32 0.

(** A record of resource manager [rmid] with both pages of that chunk header
    registered. *)
Definition spilling_close (rmid info : Z) : XLogReaderState :=
  mkXLog [block_of 0 creating_and_closing; block_of 1 zero_bufdata] rmid info
    1000.

(** What the replay of [spilling_close] does: the two parts of the chunk
    header are written, and the two buffers released; there is neither a
    call of the close callback nor an overwrite of the chunk size. *)
Definition spilled_header_trace : list Event :=
  [EvReadBuffer 3 0 RBM_NORMAL;
   EvUndoPageInsertHeader (3, 0) 8188 0 (mkChunkHeader 0 0 84) 8
     [7; 7; 7; 7; 7; 7; 7; 7] 0;
   EvReadBuffer 3 1 RBM_NORMAL;
   EvUndoPageInsertHeader (3, 1) 24 4 (mkChunkHeader 0 0 84) 8
     [7; 7; 7; 7; 7; 7; 7; 7] 0;
   EvMarkBufferDirty (3, 1); EvStoreInsert 3 8244;
   EvMarkBufferDirty (3, 0); EvPageSetLSN (3, 0) 1000;
   EvUnlockReleaseBuffer (3, 0); EvMarkBufferDirty (3, 1);
   EvPageSetLSN (3, 1) 1000; EvUnlockReleaseBuffer (3, 1)].

End Scenario.

(** ** Scenarios of the earlier revision *)
Module LegacyScenario.
Import Sample.

(** A layout to exercise the theorems: a chunk header laid out as three
    eight-byte fields; a page header that keeps the LSN in its first eight
    bytes, as two 32-bit halves, the high one first, and [pd_lower] in the
    two bytes at offset 12; and a page initialisation that leaves an empty
    page with [pd_lower] after the page header. *)
Definition store_pd_lower (v : Z) (p : Legacy.Page) : Legacy.Page :=
  Legacy.write_bytes p 12 (le_bytes 2 v).

Definition store_pd_lsn (lsn : Z) (p : Legacy.Page) : Legacy.Page :=
  Legacy.write_bytes p 0 (le_bytes 4 (lsn / 2 ^ 32) ++ le_bytes 4 lsn).

#[export] Instance legacy_layout : Legacy.LegacyLayout := {|
  Legacy.REGBUF_WILL_INIT := 6;
  Legacy.chunk_header_image := fun h =>
    le_bytes 8 (ch_size h) ++ le_bytes 8 (ch_previous_chunk h)
    ++ le_bytes 8 (ch_type h);
  Legacy.UndoPageInit_page := fun _ => store_pd_lower page_header ∅;
  Legacy.store_pd_lower := store_pd_lower;
  Legacy.store_pd_lsn := store_pd_lsn
|}.

Definition recovering : Legacy.World := Legacy.mkWorld ∅ ∅ ∅ 0 true [].

(** A stream that inserts three bytes and then patches the four bytes at
    the end of the page. *)
Definition program : list Legacy.Instruction :=
  [Legacy.Insert [1; 2; 3]; Legacy.Update 8188 [112; 0; 0; 0]].

Definition block_with (ops : list Z) : Legacy.DecodedBkpBlock :=
  Legacy.mkBlock true 9 3 0 BLK_NEEDS_REDO (Some ops).

(** A block of a relation of database 5. *)
Definition heap_block : Legacy.DecodedBkpBlock :=
  Legacy.mkBlock true 5 16384 0 BLK_NEEDS_REDO None.

(** A permanent DIRTY set whose only chunk has its header at offset 8188 of
    log 3, with both pages of the header pinned and neither dirtied nor
    registered yet, in a critical section. *)
Definition closing_set : Legacy.UndoRecordSet :=
  Legacy.mkURS 70 RELPERSISTENCE_PERMANENT
    [Legacy.mkChunk 3 8188 (0, 1) ([], [])] 0 [(3, 0); (3, 1)] [12; 12] 0 false
    (mkChunkHeader 0 0 70) [1; 2; 3; 4] 4 false (Some 3) 0 URS_STATE_DIRTY 1.

Definition closing : Legacy.World :=
  Legacy.mkWorld {[ 3 := straddling_slot ]} ∅ {[ 0%nat := closing_set ]} 1 false
    [].

(** [closing] after the first page of the size field was patched. *)
Definition first_page_closed : Legacy.World :=
  match Legacy.UndoMarkPageClosed 0 0 0 8188 0 112 closing with
  | Legacy.Ok _ w' => w'
  | Legacy.Raise _ _ w' => w'
  end.

(** An insertion that starts four bytes before the end of the first page. *)
Definition at_page_end : Legacy.UndoInsertState :=
  Legacy.mkInsertState 0 0 8188.

Definition ten_bytes : list Z := [1; 2; 3; 4; 5; 6; 7; 8; 9; 10].

End LegacyScenario.

(** * Properties *)

(** ** Stepping the monad *)

Lemma bind_Ok {A B} (m : M A) (k : A -> M B) w a w' :
  m w = Ok a w' -> bind m k w = k a w'.
Proof. intros E. unfold bind. now rewrite E. Qed.

Lemma bind_Raise {A B} (m : M A) (k : A -> M B) w l msg w' :
  m w = Raise l msg w' -> bind m k w = Raise l msg w'.
Proof. intros E. unfold bind. now rewrite E. Qed.

Lemma deref_urs_Ok u s w : sets w !! u = Some s -> deref_urs u w = Ok s w.
Proof. intros E. unfold deref_urs. now rewrite E. Qed.

Lemma deref_slot_Ok l s w : slots w !! l = Some s -> deref_slot l w = Ok s w.
Proof. intros E. unfold deref_slot. now rewrite E. Qed.

Lemma get_Ok w : get w = Ok w w.
Proof. reflexivity. Qed.

Lemma Assert_Ok c msg w : c = true -> Assert c msg w = Ok tt w.
Proof. now intros ->. Qed.

Lemma bind_assoc {A B C} (m : M A) (k : A -> M B) (k2 : B -> M C) w :
  bind (bind m k) k2 w = bind m (fun x => bind (k x) k2) w.
Proof. unfold bind. now destruct (m w). Qed.

(** Run the first action of a sequence, its outcome established by [tac]. *)
Ltac mstep tac := rewrite ?bind_assoc; erewrite bind_Ok by tac.

Lemma chunk_at_Ok u i s c w :
  sets w !! u = Some s -> 0 <= i -> chunks s !! Z.to_nat i = Some c ->
  chunk_at u i w = Ok c w.
Proof.
  intros Hs Hi Hc. unfold chunk_at.
  rewrite (bind_Ok _ _ _ _ _ (deref_urs_Ok _ _ _ Hs)).
  destruct (Z.ltb_spec i 0); [lia|]. now rewrite Hc.
Qed.

Lemma buffer_at_Ok u i s b w :
  sets w !! u = Some s -> 0 <= i -> buffers s !! Z.to_nat i = Some b ->
  buffer_at u i w = Ok b w.
Proof.
  intros Hs Hi Hb. unfold buffer_at.
  rewrite (bind_Ok _ _ _ _ _ (deref_urs_Ok _ _ _ Hs)).
  destruct (Z.ltb_spec i 0); [lia|]. now rewrite Hb.
Qed.

Lemma update_urs_Ok u f s w :
  sets w !! u = Some s ->
  update_urs u f w =
  Ok tt (mkWorld (slots w) (pages w) (<[u := f s]> (sets w))
           (UndoRecordSetList w) (CritSectionCount w) (InRecovery w) (trace w)).
Proof.
  intros Hs. unfold update_urs.
  now rewrite (bind_Ok _ _ _ _ _ (deref_urs_Ok _ _ _ Hs)).
Qed.

Lemma update_buffer_Ok u i f s b w :
  sets w !! u = Some s -> 0 <= i -> buffers s !! Z.to_nat i = Some b ->
  update_buffer u i f w =
  Ok tt (mkWorld (slots w) (pages w)
           (<[u := with_buffers (<[Z.to_nat i := f b]> (buffers s)) s]> (sets w))
           (UndoRecordSetList w) (CritSectionCount w) (InRecovery w) (trace w)).
Proof.
  intros Hs Hi Hb. unfold update_buffer.
  rewrite (bind_Ok _ _ _ _ _ (buffer_at_Ok _ _ _ _ _ Hs Hi Hb)).
  now rewrite (update_urs_Ok _ _ _ _ Hs).
Qed.

Section Closing.
Context `{UndoLayout}.

Lemma UndoMarkPageClosed_Ok u ci chbidx po doff size s c ub w :
  sets w !! u = Some s -> 0 <= ci -> chunks s !! Z.to_nat ci = Some c ->
  (chbidx = 0 \/ chbidx = 1) ->
  let index := if chbidx =? 0 then fst (chunk_header_buffer_index c)
               else snd (chunk_header_buffer_index c) in
  0 <= index -> buffers s !! Z.to_nat index = Some ub ->
  exists pg,
    UndoMarkPageClosed u ci chbidx po doff size w =
    Ok (bytes_on_this_page po doff sizeof_size)
       (mkWorld (slots w) pg (sets w) (UndoRecordSetList w)
          (CritSectionCount w) (InRecovery w)
          (trace w ++ [EvUndoPageOverwrite (buffer ub) po doff sizeof_size size;
                       EvMarkBufferDirty (buffer ub)])).
Proof.
  intros Hs Hci Hc Hx index Hi Hb. unfold UndoMarkPageClosed.
  rewrite (bind_Ok _ _ _ _ _ (chunk_at_Ok _ _ _ _ _ Hs Hci Hc)).
  assert (E : (if chbidx =? 0 then ret (fst (chunk_header_buffer_index c))
               else if chbidx =? 1 then ret (snd (chunk_header_buffer_index c))
               else elog TRAP "chunk_header_buffer_index[] index out of bounds") w
              = Ok index w).
  { subst index. destruct Hx as [-> | ->]; reflexivity. }
  rewrite (bind_Ok _ _ _ _ _ E).
  rewrite (bind_Ok _ _ _ _ _ (buffer_at_Ok _ _ _ _ _ Hs Hi Hb)).
  eexists. cbn. rewrite <- app_assoc. reflexivity.
Qed.

Lemma uint64_small x : 0 <= x < 2 ^ 64 -> uint64 x = x.
Proof. intros Hx. unfold uint64. now apply Z.mod_small. Qed.

Lemma UndoMarkChunkClosed_loop_Ok u ci size s c b0 b1 w :
  layout_wf ->
  sets w !! u = Some s -> 0 <= ci -> chunks s !! Z.to_nat ci = Some c ->
  header_buffers_pinned s c b0 b1 ->
  exists pg,
    UndoMarkChunkClosed_loop u ci 2 0 (chunk_header_offset c mod BLCKSZ) 0 size w =
    Ok tt (mkWorld (slots w) pg (sets w) (UndoRecordSetList w)
             (CritSectionCount w) (InRecovery w)
             (trace w ++ size_patch_calls b0 b1
                           (chunk_header_offset c mod BLCKSZ) size)).
Proof.
  intros [Hh Hb] Hs Hci Hc Hpin.
  unfold header_buffers_pinned in Hpin.
  destruct (chunk_header_buffer_index c) as [i0 i1] eqn:Eix.
  destruct Hpin as (Hi0 & Hb0 & Hstr).
  set (po := chunk_header_offset c mod BLCKSZ) in *.
  assert (Hpo : 0 <= po < BLCKSZ)
    by (apply Z.mod_pos_bound; unfold sizeof_size in *; lia).
  destruct (buffers s !! Z.to_nat i0) as [ub0|] eqn:Eb0; [|discriminate].
  injection Hb0 as <-.
  cbn [UndoMarkChunkClosed_loop]. unfold sizeof_size in *.
  rewrite (uint64_small 0) by lia. change (0 <? 8) with true. cbv iota.
  destruct (UndoMarkPageClosed_Ok u ci 0 po 0 size s c ub0 w Hs Hci Hc
              (or_introl eq_refl)) as [pg1 E1].
  { cbn. rewrite Eix. exact Hi0. }
  { cbn. rewrite Eix. exact Eb0. }
  rewrite (bind_Ok _ _ _ _ _ E1). clear E1.
  unfold size_patch_calls, bytes_on_this_page, sizeof_size.
  destruct (Z.leb_spec po (BLCKSZ - 8)) as [Hfit | Hstraddle].
  - (* the size field fits on the header's page *)
    rewrite Z.min_r by lia. rewrite (uint64_small (0 + (8 - 0))) by lia.
    change (0 + (8 - 0) <? 8) with false. cbv iota.
    eexists. reflexivity.
  - (* it straddles two pages *)
    destruct (Hstr Hstraddle) as (Hi1 & Hb1).
    destruct (buffers s !! Z.to_nat i1) as [ub1|] eqn:Eb1; [|discriminate].
    injection Hb1 as <-.
    rewrite Z.min_l by lia. rewrite (uint64_small (0 + (BLCKSZ - po))) by lia.
    destruct (Z.ltb_spec (0 + (BLCKSZ - po)) 8) as [_ | ?]; [|lia].
    match goal with |- exists _, bind _ _ ?w1 = _ =>
      destruct (UndoMarkPageClosed_Ok u ci (0 + 1) SizeOfUndoPageHeaderData
                  (0 + (BLCKSZ - po)) size s c ub1 w1 Hs Hci Hc
                  (or_intror eq_refl)) as [pg2 E2]
    end.
    { cbn. rewrite Eix. exact Hi1. }
    { cbn. rewrite Eix. exact Eb1. }
    rewrite (bind_Ok _ _ _ _ _ E2). clear E2.
    unfold bytes_on_this_page, sizeof_size. rewrite Z.min_r by lia.
    replace (0 + (BLCKSZ - po) + (8 - (0 + (BLCKSZ - po)))) with 8 by lia.
    rewrite (uint64_small 8) by lia. change (8 <? 8) with false. cbv iota.
    eexists. cbn. rewrite <- app_assoc. cbn.
    replace (0 + (BLCKSZ - po)) with (BLCKSZ - po) by lia. reflexivity.
Qed.

(** C10.  [UndoMarkClosed] on a set in state CLEAN leaves the whole world as
    it was (no page, no staged buf-data, no call to a collaborator, same
    state); and a set that [UndoMarkClosed] leaves in state CLOSED was in state
    DIRTY before. *)
Theorem UndoMarkClosed_clean_is_noop (w : World) (u : nat) (s : UndoRecordSet) :
  sets w !! u = Some s ->
  (state s = URS_STATE_CLEAN -> UndoMarkClosed u w = Ok tt w) /\
  (forall w' s', UndoMarkClosed u w = Ok tt w' ->
                 sets w' !! u = Some s' ->
                 state s' = URS_STATE_CLOSED ->
                 state s = URS_STATE_DIRTY).
Proof.
  intros Hs. split.
  - intros Hc. unfold UndoMarkClosed.
    rewrite (bind_Ok _ _ _ _ _ (deref_urs_Ok _ _ _ Hs)).
    rewrite Hc. reflexivity.
  - intros w' s' Hrun Hs' Hclosed.
    unfold UndoMarkClosed in Hrun.
    rewrite (bind_Ok _ _ _ _ _ (deref_urs_Ok _ _ _ Hs)) in Hrun.
    destruct (state s) eqn:E; [ | reflexivity | discriminate Hrun].
    cbn in Hrun. inversion Hrun; subst w'. congruence.
Qed.

End Closing.
Section ClosingDirty.
Context `{UndoLayout}.

Lemma buffer_insert_with_bufdata (bs : list UndoBuffer) (i j : nat) b d :
  bs !! i = Some b ->
  (buffer <$> <[i := with_bufdata d b]> bs !! j) = (buffer <$> bs !! j).
Proof.
  intros Hb. destruct (decide (i = j)) as [<- | Hne].
  - rewrite list_lookup_insert_eq by (eapply lookup_lt_Some; eassumption).
    now rewrite Hb.
  - now rewrite list_lookup_insert_ne.
Qed.

Lemma header_buffers_pinned_with_bufdata s c b0 b1 i ub d :
  buffers s !! i = Some ub ->
  header_buffers_pinned s c b0 b1 ->
  header_buffers_pinned
    (with_buffers (<[i := with_bufdata d ub]> (buffers s)) s) c b0 b1.
Proof.
  intros Hub. unfold header_buffers_pinned.
  destruct (chunk_header_buffer_index c) as [i0 i1]. cbn [buffers with_buffers].
  now rewrite !(buffer_insert_with_bufdata _ _ _ _ _ Hub).
Qed.

Lemma size_patch_calls_bytes b0 b1 po size :
  layout_wf -> 0 <= po < BLCKSZ ->
  foldr Z.add 0 (map overwrite_bytes (size_patch_calls b0 b1 po size)) = sizeof_size.
Proof.
  intros [Hh Hb] Hpo. unfold size_patch_calls, sizeof_size in *.
  destruct (Z.leb_spec po (BLCKSZ - 8)); cbn; unfold bytes_on_this_page; lia.
Qed.

(** C1.  [UndoMarkClosed] on a DIRTY set whose final chunk's header buffers
    are pinned: the size is the slot's insert pointer minus the chunk's header
    offset; the 8-byte size field is overwritten at the header's page offset,
    by one call when it fits on the page and by exactly two when it straddles,
    the second starting at [SizeOfUndoPageHeaderData]; the calls write
    [sizeof(size)] bytes in total; afterwards the set is CLOSED. *)
Theorem UndoMarkClosed_dirty_closes (w : World) (u : nat) (s : UndoRecordSet)
  (c : UndoRecordSetChunk) (sl : UndoLogSlot) (b0 b1 : Buffer) :
  layout_wf ->
  sets w !! u = Some s ->
  state s = URS_STATE_DIRTY ->
  last (chunks s) = Some c ->
  slots w !! chunk_slot c = Some sl ->
  0 < CritSectionCount w ->
  header_buffers_pinned s c b0 b1 ->
  let size := uint64 (meta_insert sl - chunk_header_offset c) in
  let page_offset := chunk_header_offset c mod BLCKSZ in
  exists w',
    UndoMarkClosed u w = Ok tt w' /\
    trace w' = trace w ++ size_patch_calls b0 b1 page_offset size /\
    foldr Z.add 0 (map overwrite_bytes (size_patch_calls b0 b1 page_offset size))
      = sizeof_size /\
    (state <$> sets w' !! u) = Some URS_STATE_CLOSED /\
    slots w' = slots w.
Proof.
  intros Hwf Hs Hdirty Hlast Hsl Hcrit Hpin size page_offset.
  assert (Hlen : (0 < length (chunks s))%nat).
  { destruct (chunks s); [discriminate | cbn; lia]. }
  assert (Hci : 0 <= nchunks s - 1) by (unfold nchunks; lia).
  assert (Hc : chunks s !! Z.to_nat (nchunks s - 1) = Some c).
  { rewrite last_lookup in Hlast. rewrite <- Hlast. f_equal.
    unfold nchunks. lia. }
  assert (Hfirst : exists c0, chunks s !! Z.to_nat 0 = Some c0).
  { destruct (chunks s) as [|c0 ?]; [cbn in Hlen; lia | now exists c0]. }
  destruct Hfirst as [c0 Hc0].
  assert (Hpo : 0 <= page_offset < BLCKSZ).
  { apply Z.mod_pos_bound. destruct Hwf. unfold sizeof_size in *. lia. }
  pose proof Hpin as Hpin0. unfold header_buffers_pinned in Hpin0.
  destruct (chunk_header_buffer_index c) as [i0 i1] eqn:Eix.
  destruct Hpin0 as (Hi0 & Hb0 & _).
  destruct (buffers s !! Z.to_nat i0) as [ub0|] eqn:Eub0; [|discriminate].
  unfold UndoMarkClosed.
  mstep ltac:(apply deref_urs_Ok; exact Hs).
  mstep ltac:(apply Assert_Ok; rewrite Hdirty; reflexivity).
  mstep ltac:(apply Assert_Ok; rewrite Hdirty; cbn;
              apply negb_true_iff, Z.eqb_neq; lia).
  rewrite bool_decide_eq_true_2 by assumption.
  unfold UndoMarkChunkClosed.
  mstep ltac:(apply get_Ok).
  mstep ltac:(apply Assert_Ok, Z.ltb_lt; exact Hcrit).
  mstep ltac:(apply deref_urs_Ok; exact Hs).
  mstep ltac:(eapply chunk_at_Ok; eassumption).
  mstep ltac:(apply Assert_Ok; rewrite Eix; cbn [fst];
              apply negb_true_iff, Z.eqb_neq; lia).
  mstep ltac:(apply deref_slot_Ok; exact Hsl).
  rewrite Eix. cbn [fst].
  unfold when. destruct (URSNeedsWAL s).
  - mstep ltac:(eapply chunk_at_Ok; [exact Hs | lia | exact Hc0]).
    mstep ltac:(eapply update_buffer_Ok; eassumption).
    match goal with |- exists _, bind _ _ ?w1 = _ /\ _ =>
      destruct (UndoMarkChunkClosed_loop_Ok u (nchunks s - 1) size _ c b0 b1 w1
                  Hwf (lookup_insert_eq _ _ _) Hci Hc) as [pg E]
    end.
    { apply header_buffers_pinned_with_bufdata; assumption. }
    mstep ltac:(exact E).
    erewrite update_urs_Ok by (cbn; apply lookup_insert_eq).
    eexists. split; [reflexivity|]. cbn.
    rewrite lookup_insert_eq. cbn.
    auto using size_patch_calls_bytes.
  - destruct (UndoMarkChunkClosed_loop_Ok u (nchunks s - 1) size s c b0 b1 w
                Hwf Hs Hci Hc Hpin) as [pg E].
    mstep ltac:(reflexivity).
    mstep ltac:(exact E).
    erewrite update_urs_Ok by (cbn; exact Hs).
    eexists. split; [reflexivity|]. cbn.
    rewrite lookup_insert_eq. cbn.
    auto using size_patch_calls_bytes.
Qed.

End ClosingDirty.

(** ** Frame reasoning *)

Section Steps.
Context (R : World -> World -> Prop) `{!Frame R}.

Lemma steps_ret {A} (a : A) : steps R (ret a).
Proof. intros w. apply frame_refl. Qed.

Lemma steps_elog {A} l msg : steps R (@elog A l msg).
Proof. intros w. apply frame_refl. Qed.

Lemma steps_get : steps R get.
Proof. intros w. apply frame_refl. Qed.

Lemma steps_bind {A B} (m : M A) (k : A -> M B) :
  steps R m -> (forall a, steps R (k a)) -> steps R (bind m k).
Proof.
  intros Hm Hk w. unfold bind. specialize (Hm w).
  destruct (m w) as [a w' | l msg w']; cbn in *; [|assumption].
  eapply frame_trans; [eassumption | apply Hk].
Qed.

Lemma steps_Assert c msg : steps R (Assert c msg).
Proof. destruct c; [apply steps_ret | apply steps_elog]. Qed.

Lemma steps_when c m : steps R m -> steps R (when c m).
Proof. destruct c; [auto | intros; apply steps_ret]. Qed.

Lemma steps_if {A} (c : bool) (m1 m2 : M A) :
  steps R m1 -> steps R m2 -> steps R (if c then m1 else m2).
Proof. now destruct c. Qed.

Lemma steps_deref_urs u : steps R (deref_urs u).
Proof. intros w. unfold deref_urs. destruct (sets w !! u); apply frame_refl. Qed.

Lemma steps_deref_slot l : steps R (deref_slot l).
Proof. intros w. unfold deref_slot. destruct (slots w !! l); apply frame_refl. Qed.

Lemma steps_BufferGetPage b : steps R (BufferGetPage b).
Proof. intros w. apply frame_refl. Qed.

Lemma steps_chunk_at u i : steps R (chunk_at u i).
Proof.
  unfold chunk_at. apply steps_bind; [apply steps_deref_urs | intros s].
  destruct (i <? 0); [apply steps_elog|].
  destruct (chunks s !! Z.to_nat i); [apply steps_ret | apply steps_elog].
Qed.

Lemma steps_buffer_at u i : steps R (buffer_at u i).
Proof.
  unfold buffer_at. apply steps_bind; [apply steps_deref_urs | intros s].
  destruct (i <? 0); [apply steps_elog|].
  destruct (buffers s !! Z.to_nat i); [apply steps_ret | apply steps_elog].
Qed.

(** Using a result: the run ended in a related world. *)
Lemma steps_Ok {A} (m : M A) w a w' : steps R m -> m w = Ok a w' -> R w w'.
Proof. intros Hm E. specialize (Hm w). now rewrite E in Hm. Qed.

Lemma steps_Raise {A} (m : M A) w l msg w' :
  steps R m -> m w = Raise l msg w' -> R w w'.
Proof. intros Hm E. specialize (Hm w). now rewrite E in Hm. Qed.

End Steps.

Create HintDb steps discriminated.
#[export] Hint Extern 1 (Frame _) => typeclasses eauto : steps.
#[export] Hint Resolve steps_ret steps_elog steps_get steps_Assert steps_when
  steps_if steps_deref_urs steps_deref_slot steps_BufferGetPage steps_chunk_at
  steps_buffer_at : steps.

(** Decompose a computation along its binds and branches, closing the leaves
    with the hint database. *)
Ltac steps_tac :=
  repeat first
    [ progress intros
    | solve [eauto with steps]
    | apply steps_bind
    | apply steps_when
    | apply steps_if
    | match goal with |- Frame _ => typeclasses eauto end
    | match goal with
      | |- steps _ (match ?x with _ => _ end) => destruct x
      | |- steps _ (let (_, _) := ?x in _) => destruct x
      end
    | solve [eauto with steps] ].

(** ** The insert pointer is advanced under the exclusive meta lock *)

Lemma bind_Ok_inv {A B} (m : M A) (k : A -> M B) w b w' :
  bind m k w = Ok b w' -> exists a w1, m w = Ok a w1 /\ k a w1 = Ok b w'.
Proof.
  unfold bind. destruct (m w) as [a w1 | ? ? ?]; [eauto | discriminate].
Qed.

Lemma Assert_inv c msg w x w' : Assert c msg w = Ok x w' -> c = true /\ w' = w.
Proof. destruct c; cbn; [intros [= <-]; auto | discriminate]. Qed.

Lemma deref_urs_inv u w s w' :
  deref_urs u w = Ok s w' -> sets w !! u = Some s /\ w' = w.
Proof.
  unfold deref_urs. destruct (sets w !! u); [intros [= <- <-]; auto | discriminate].
Qed.

Lemma deref_slot_inv l w s w' :
  deref_slot l w = Ok s w' -> slots w !! l = Some s /\ w' = w.
Proof.
  unfold deref_slot. destruct (slots w !! l); [intros [= <- <-]; auto | discriminate].
Qed.

(** Take the first action off a successful run. *)
Ltac bind_inv H x w E :=
  apply bind_Ok_inv in H as (x & w & E & H).
Ltac bind_inv_ H w E :=
  let x := fresh "x" in apply bind_Ok_inv in H as (x & w & E & H).

#[export] Instance quietly_frame : Frame quietly.
Proof.
  split.
  - intros w. split; [reflexivity|]. exists []. now rewrite app_nil_r.
  - intros w1 w2 w3 (Hs1 & e1 & Ht1 & Hq1) (Hs2 & e2 & Ht2 & Hq2). split.
    + congruence.
    + exists (e1 ++ e2). rewrite Ht2, Ht1, app_assoc. split; [reflexivity|].
      now apply Forall_app.
Qed.

Lemma quietly_emit e : quiet e -> steps quietly (emit e).
Proof.
  intros Hq w. split; [reflexivity|]. exists [e]. cbn. split; [reflexivity|].
  now constructor.
Qed.

Lemma quietly_set_pages f : steps quietly (set_pages f).
Proof. intros w. split; [reflexivity|]. exists []. cbn. now rewrite app_nil_r. Qed.

Lemma quietly_set_sets f : steps quietly (set_sets f).
Proof. intros w. split; [reflexivity|]. exists []. cbn. now rewrite app_nil_r. Qed.

Lemma quietly_set_list f : steps quietly (set_list f).
Proof. intros w. split; [reflexivity|]. exists []. cbn. now rewrite app_nil_r. Qed.

#[export] Hint Resolve quietly_set_pages quietly_set_sets quietly_set_list : steps.
#[export] Hint Extern 1 (steps quietly (emit _)) =>
  apply quietly_emit; exact I : steps.

Section QuietSteps.
Context `{UndoLayout}.

Lemma quietly_update_urs u f : steps quietly (update_urs u f).
Proof. unfold update_urs. steps_tac. Qed.
Hint Resolve quietly_update_urs : steps.

Lemma quietly_update_buffer u i f : steps quietly (update_buffer u i f).
Proof. unfold update_buffer. steps_tac. Qed.

Lemma quietly_update_chunk u i f : steps quietly (update_chunk u i f).
Proof. unfold update_chunk. steps_tac. Qed.

Lemma quietly_store_page b p : steps quietly (store_page b p).
Proof. unfold store_page. steps_tac. Qed.
Hint Resolve quietly_update_buffer quietly_update_chunk quietly_store_page : steps.

Lemma quietly_MarkBufferDirty b : steps quietly (MarkBufferDirty b).
Proof. unfold MarkBufferDirty. steps_tac. Qed.

Lemma quietly_UndoPageInit b : steps quietly (UndoPageInit b).
Proof. unfold UndoPageInit. steps_tac. Qed.

Lemma quietly_UndoPageOverwrite b po doff ds sz :
  steps quietly (UndoPageOverwrite b po doff ds sz).
Proof. unfold UndoPageOverwrite. steps_tac. Qed.

Lemma quietly_UndoPageInsertHeader b po ho hdr ths th cs :
  steps quietly (UndoPageInsertHeader b po ho hdr ths th cs).
Proof. unfold UndoPageInsertHeader. steps_tac. Qed.

Lemma quietly_UndoPageInsertRecord b po io isz rec cs ct :
  steps quietly (UndoPageInsertRecord b po io isz rec cs ct).
Proof. unfold UndoPageInsertRecord. steps_tac. Qed.
Hint Resolve quietly_MarkBufferDirty quietly_UndoPageInit
  quietly_UndoPageOverwrite quietly_UndoPageInsertHeader
  quietly_UndoPageInsertRecord : steps.

Lemma quietly_init_if_needed u i : steps quietly (init_if_needed u i).
Proof. unfold init_if_needed. steps_tac. Qed.

Lemma quietly_register_insert_page_offset_if_needed u i po :
  steps quietly (register_insert_page_offset_if_needed u i po).
Proof. unfold register_insert_page_offset_if_needed. steps_tac. Qed.

Lemma quietly_register_new_page u i ty loc :
  steps quietly (register_new_page u i ty loc).
Proof. unfold register_new_page. steps_tac. Qed.

Lemma quietly_register_new_chunk u i hdr :
  steps quietly (register_new_chunk u i hdr).
Proof. unfold register_new_chunk. steps_tac. Qed.
Hint Resolve quietly_init_if_needed quietly_register_insert_page_offset_if_needed
  quietly_register_new_page quietly_register_new_chunk : steps.

Lemma quietly_UndoInsert_chunk_header s : steps quietly (UndoInsert_chunk_header s).
Proof. unfold UndoInsert_chunk_header. steps_tac. Qed.

Lemma quietly_UndoInsert_headers fuel u hdr ths ahs bi po io :
  steps quietly (UndoInsert_headers fuel u hdr ths ahs bi po io).
Proof.
  revert bi po io. induction fuel as [|fuel IH]; intros; cbn [UndoInsert_headers];
    steps_tac.
Qed.

Lemma quietly_UndoInsert_record fuel u rec rsz bi po io :
  steps quietly (UndoInsert_record fuel u rec rsz bi po io).
Proof.
  revert bi po io. induction fuel as [|fuel IH]; intros; cbn [UndoInsert_record];
    steps_tac.
Qed.

Lemma quietly_UndoMarkPageClosed u ci x po doff sz :
  steps quietly (UndoMarkPageClosed u ci x po doff sz).
Proof. unfold UndoMarkPageClosed. steps_tac. Qed.
Hint Resolve quietly_UndoMarkPageClosed : steps.

Lemma quietly_UndoMarkChunkClosed_loop u ci fuel x po doff sz :
  steps quietly (UndoMarkChunkClosed_loop u ci fuel x po doff sz).
Proof.
  revert x po doff. induction fuel as [|fuel IH]; intros;
    cbn [UndoMarkChunkClosed_loop]; steps_tac.
Qed.
Hint Resolve quietly_UndoMarkChunkClosed_loop : steps.

Lemma quietly_UndoMarkChunkClosed u ci close_urs :
  steps quietly (UndoMarkChunkClosed u ci close_urs).
Proof. unfold UndoMarkChunkClosed. steps_tac. Qed.

End QuietSteps.

#[export] Hint Resolve quietly_update_urs quietly_update_buffer
  quietly_update_chunk quietly_store_page quietly_MarkBufferDirty
  quietly_UndoPageInit quietly_UndoPageOverwrite quietly_UndoPageInsertHeader
  quietly_UndoPageInsertRecord quietly_init_if_needed
  quietly_register_insert_page_offset_if_needed quietly_register_new_page
  quietly_register_new_chunk quietly_UndoInsert_chunk_header
  quietly_UndoInsert_headers quietly_UndoInsert_record
  quietly_UndoMarkPageClosed quietly_UndoMarkChunkClosed_loop
  quietly_UndoMarkChunkClosed : steps.

Section InsertPointer.
Context `{UndoLayout}.

(** C2.  A successful [UndoInsert] leaves the slot's shared insert pointer at
    [UndoLogOffsetPlusUsableBytes(old insert, all_header_size + record_size)].
    It stores to the pointer once, between taking the slot's meta lock in
    exclusive mode and releasing it; no other lock call or store happens
    during the insert. *)
Theorem UndoInsert_advances_insert_under_lock (w w' : World) (u : nat)
  (s : UndoRecordSet) (logno : Z) (sl : UndoLogSlot)
  (record_data : list Z) (record_size : Z) :
  sets w !! u = Some s ->
  slot s = Some logno ->
  slots w !! logno = Some sl ->
  UndoInsert u record_data record_size w = Ok tt w' ->
  let new_insert :=
    UndoLogOffsetPlusUsableBytes (meta_insert sl)
      (uint64 (all_header_size s + record_size)) in
  (meta_insert <$> slots w' !! logno) = Some new_insert /\
  exists before after,
    trace w' = trace w ++ before
                 ++ [EvLWLockAcquire logno LW_EXCLUSIVE;
                     EvStoreInsert logno new_insert;
                     EvLWLockRelease logno]
                 ++ after /\
    Forall quiet before /\ Forall quiet after.
Proof.
  intros Hs Hslot Hsl Hrun new_insert.
  unfold UndoInsert in Hrun.
  bind_inv Hrun s0 w0 E. apply deref_urs_inv in E as [E ->].
  rewrite Hs in E. injection E as <-.
  bind_inv_ Hrun w0 E. injection E as <- <-.
  bind_inv_ Hrun w0 E. apply Assert_inv in E as [_ ->].
  bind_inv_ Hrun w0 E. apply Assert_inv in E as [_ ->].
  rewrite Hslot in Hrun.
  bind_inv_ Hrun w0 E. apply Assert_inv in E as [_ ->].
  bind_inv_ Hrun w0 E. apply Assert_inv in E as [_ ->].
  (* headers, record, state: quiet *)
  bind_inv Hrun pos w1 E1.
  assert (Q1 : quietly w w1).
  { eapply steps_Ok; [|exact E1]. steps_tac. }
  destruct pos as [buffer_index page_offset].
  bind_inv_ Hrun w2 E2.
  assert (Q2 : quietly w1 w2).
  { eapply steps_Ok; [|exact E2]. steps_tac. }
  bind_inv_ Hrun w3 E3.
  assert (Q3 : quietly w2 w3).
  { eapply steps_Ok; [|exact E3]. steps_tac. }
  assert (Q : quietly w w3) by (repeat (eapply frame_trans; [eassumption|]); apply frame_refl).
  clear Q1 Q2 Q3 E1 E2 E3. destruct Q as (Hslots & before & Htrace & Hbefore).
  (* the locked store *)
  bind_inv_ Hrun w4 E4. injection E4 as <- <-.
  bind_inv Hrun sl' w5 E5. apply deref_slot_inv in E5 as [E5 ->].
  cbn in E5. rewrite Hslots, Hsl in E5. injection E5 as <-.
  bind_inv_ Hrun w6 E6.
  unfold store_meta_insert in E6.
  bind_inv E6 sl' w5 E5. apply deref_slot_inv in E5 as [E5 ->].
  cbn in E5. rewrite Hslots, Hsl in E5. injection E5 as <-.
  injection E6 as <- <-.
  bind_inv_ Hrun w7 E7. injection E7 as <- <-.
  (* closing the previous chunk and clearing the flags: quiet *)
  match type of Hrun with
  | _ ?w7 = Ok _ _ =>
      assert (Q : quietly w7 w') by (eapply steps_Ok; [|exact Hrun]; steps_tac)
  end.
  destruct Q as (Hslots' & after & Htrace' & Hafter). cbn in Hslots', Htrace'.
  split.
  - rewrite Hslots', lookup_insert_eq. reflexivity.
  - exists before, after. split; [|split; assumption].
    rewrite Htrace', Htrace. unfold new_insert, all_header_size.
    rewrite <- !app_assoc. reflexivity.
Qed.

End InsertPointer.

(** ** Destroying a set *)

Lemma add_trace_nil w : add_trace [] w = w.
Proof. destruct w. unfold add_trace. cbn. now rewrite app_nil_r. Qed.

Lemma add_trace_app e1 e2 w : add_trace e2 (add_trace e1 w) = add_trace (e1 ++ e2) w.
Proof. unfold add_trace. cbn. now rewrite app_assoc. Qed.

Lemma emit_Ok e w : emit e w = Ok tt (add_trace [e] w).
Proof. reflexivity. Qed.

Section Destroying.
Context `{UndoLayout}.

Lemma release_buffers_Ok bs w :
  release_buffers bs w = Ok tt (add_trace (release_calls bs) w).
Proof.
  revert w. induction bs as [|ub bs IH]; intros w; cbn [release_buffers].
  - now rewrite add_trace_nil.
  - unfold UnlockReleaseBuffer. rewrite (bind_Ok _ _ _ _ _ (emit_Ok _ _)).
    rewrite IH, add_trace_app. reflexivity.
Qed.

Lemma put_slots_Ok cs w : put_slots cs w = Ok tt (add_trace (put_calls cs) w).
Proof.
  revert w. induction cs as [|c cs IH]; intros w; cbn [put_slots].
  - now rewrite add_trace_nil.
  - unfold UndoLogPut. rewrite (bind_Ok _ _ _ _ _ (emit_Ok _ _)).
    rewrite IH, add_trace_app. reflexivity.
Qed.

Lemma UndoRelease_Ok u s w :
  sets w !! u = Some s ->
  UndoRelease u w =
  Ok tt (mkWorld (slots w) (pages w) (<[u := with_buffers [] s]> (sets w))
           (UndoRecordSetList w) (CritSectionCount w) (InRecovery w)
           (trace w ++ release_calls (buffers s))).
Proof.
  intros Hs. unfold UndoRelease.
  mstep ltac:(apply deref_urs_Ok; exact Hs).
  mstep ltac:(apply release_buffers_Ok).
  now rewrite (update_urs_Ok _ _ s) by exact Hs.
Qed.

(** C9.  [UndoDestroy] on a set that is not DIRTY (CLEAN or CLOSED) releases
    its buffers, returns the slot of every chunk it holds, takes the set off
    the list of live sets and frees it.  On a DIRTY set it is a PANIC: the
    buffers have been released by then, but no slot is returned, and the
    set is neither unlinked nor freed. *)
Theorem UndoDestroy_legal_unless_dirty (w : World) (u : nat) (s : UndoRecordSet) :
  sets w !! u = Some s ->
  (state s <> URS_STATE_DIRTY ->
   exists w',
     UndoDestroy u w = Ok tt w' /\
     trace w' = trace w ++ release_calls (buffers s) ++ put_calls (chunks s)
                  ++ [EvSlistDelete u; EvPfree u] /\
     sets w' !! u = None /\
     UndoRecordSetList w' = filter (fun x => x <> u) (UndoRecordSetList w)) /\
  (state s = URS_STATE_DIRTY ->
   exists w',
     UndoDestroy u w =
       Raise PANIC "dirty undo record set not closed before release" w' /\
     trace w' = trace w ++ release_calls (buffers s) /\
     (forall logno, EvUndoLogPut logno ∉ release_calls (buffers s)) /\
     is_Some (sets w' !! u) /\
     UndoRecordSetList w' = UndoRecordSetList w).
Proof.
  intros Hs. split; intros Hst; unfold UndoDestroy;
    mstep ltac:(apply UndoRelease_Ok; exact Hs);
    mstep ltac:(apply deref_urs_Ok; cbn; apply lookup_insert_eq);
    cbn [state with_buffers].
  - rewrite bool_decide_eq_false_2 by assumption.
    mstep ltac:(apply put_slots_Ok).
    eexists. split; [reflexivity|]. cbn.
    rewrite lookup_delete_eq, <- !app_assoc. auto.
  - rewrite bool_decide_eq_true_2 by assumption.
    eexists. split; [reflexivity|]. cbn.
    rewrite lookup_insert_eq. repeat split; eauto.
    intros logno Hin. unfold release_calls in Hin.
    apply list_elem_of_fmap in Hin as (ub & Heq & _). discriminate.
Qed.

End Destroying.

(** ** Calls made by a computation *)

#[export] Instance emits_frame P : Frame (emits P).
Proof.
  split.
  - intros w. exists []. now rewrite app_nil_r.
  - intros w1 w2 w3 (e1 & Ht1 & Hq1) (e2 & Ht2 & Hq2).
    exists (e1 ++ e2). rewrite Ht2, Ht1, app_assoc. split; [reflexivity|].
    now apply Forall_app.
Qed.

Lemma emits_emit (P : Event -> Prop) e : P e -> steps (emits P) (emit e).
Proof. intros Hq w. exists [e]. cbn. split; [reflexivity | now constructor]. Qed.

Lemma emits_modify_silent (P : Event -> Prop) (f : World -> World) :
  (forall w, trace (f w) = trace w) -> steps (emits P) (modify f).
Proof. intros Hf w. exists []. cbn. now rewrite Hf, app_nil_r. Qed.

Lemma emits_set_slots P f : steps (emits P) (set_slots f).
Proof. now apply emits_modify_silent. Qed.
Lemma emits_set_pages P f : steps (emits P) (set_pages f).
Proof. now apply emits_modify_silent. Qed.
Lemma emits_set_sets P f : steps (emits P) (set_sets f).
Proof. now apply emits_modify_silent. Qed.
Lemma emits_set_list P f : steps (emits P) (set_list f).
Proof. now apply emits_modify_silent. Qed.

#[export] Hint Resolve emits_set_slots emits_set_pages emits_set_sets
  emits_set_list : steps.
#[export] Hint Extern 1 (steps (emits _) (emit _)) =>
  apply emits_emit; cbn; solve [auto] : steps.

Lemma emits_weaken (P Q : Event -> Prop) w w' :
  (forall e, P e -> Q e) -> emits P w w' -> emits Q w w'.
Proof.
  intros HPQ (evs & Ht & HP). exists evs. split; [assumption|].
  eapply Forall_impl; eassumption.
Qed.

(** A bind whose continuation may rely on what the first action returns. *)
Lemma steps_bind_with R `{!Frame R} {A B} (Q : A -> Prop) (m : M A) (k : A -> M B) :
  steps R m -> (forall w a w', m w = Ok a w' -> Q a) ->
  (forall a, Q a -> steps R (k a)) -> steps R (bind m k).
Proof.
  intros Hm HQ Hk w. unfold bind. specialize (Hm w). specialize (HQ w).
  destruct (m w) as [a w' | l msg w']; cbn in *; [|assumption].
  eapply frame_trans; [eassumption | apply Hk; eauto].
Qed.

(** As [steps_tac], and an operation the hints do not know is unfolded. *)
Ltac head_of t := lazymatch t with ?f _ => head_of f | _ => t end.

Ltac steps_auto :=
  repeat first
    [ progress intros
    | solve [eauto with steps]
    | apply steps_bind
    | apply steps_when
    | apply steps_if
    | match goal with |- Frame _ => typeclasses eauto end
    | match goal with
      | |- steps _ (let _ := _ in _) => cbv zeta
      | |- steps _ (match ?x with _ => _ end) => destruct x
      | |- steps _ (let (_, _) := ?x in _) => destruct x
      end
    | solve [eauto with steps]
    | match goal with
      | |- steps _ ?m => let h := head_of m in progress unfold h
      end ].

(** ** Running a computation symbolically *)

Lemma bind_ret {A B} (a : A) (k : A -> M B) w : bind (ret a) k w = k a w.
Proof. reflexivity. Qed.

Lemma bind_get {B} (k : World -> M B) w : bind get k w = k w w.
Proof. reflexivity. Qed.

Lemma bind_modify {B} f (k : unit -> M B) w : bind (modify f) k w = k tt (f w).
Proof. reflexivity. Qed.

Lemma bind_elog {A B} l msg (k : A -> M B) w : bind (elog l msg) k w = Raise l msg w.
Proof. reflexivity. Qed.

Lemma bind_ret_r {A} (m : M A) w : m w = bind m ret w.
Proof. unfold bind. now destruct (m w). Qed.

Lemma bind_deref_slot {B} l (k : UndoLogSlot -> M B) w :
  bind (deref_slot l) k w =
  match slots w !! l with
  | Some s => k s w
  | None => Raise TRAP "dangling UndoLogSlot pointer" w
  end.
Proof. unfold bind, deref_slot. now destruct (slots w !! l). Qed.

Lemma bind_deref_urs {B} u (k : UndoRecordSet -> M B) w :
  bind (deref_urs u) k w =
  match sets w !! u with
  | Some s => k s w
  | None => Raise TRAP "dangling UndoRecordSet pointer" w
  end.
Proof. unfold bind, deref_urs. now destruct (sets w !! u). Qed.

Lemma bind_BufferGetPage {B} b (k : Page -> M B) w :
  bind (BufferGetPage b) k w = k (default zero_page (pages w !! b)) w.
Proof. reflexivity. Qed.

(** Projections of an explicit world. *)
Ltac world_simpl :=
  cbn [slots pages sets UndoRecordSetList CritSectionCount InRecovery trace].

Lemma flow_state_if (c : bool) st :
  flow_state (if c then Continue st else Fall st) = st.
Proof. now destruct c. Qed.

Ltac is_constructor_app x :=
  lazymatch x with
  | Some _ => idtac | None => idtac | true => idtac | false => idtac
  | Continue _ => idtac | Fall _ => idtac
  | pair _ _ => idtac | nil => idtac | cons _ _ => idtac
  | O => idtac | S _ => idtac
  | BLK_NEEDS_REDO => idtac | BLK_DONE => idtac | BLK_RESTORED => idtac
  | BLK_NOTFOUND => idtac
  | RBM_NORMAL => idtac | RBM_ZERO => idtac | RBM_ZERO_AND_LOCK => idtac
  | URS_STATE_CLEAN => idtac | URS_STATE_DIRTY => idtac
  | URS_STATE_CLOSED => idtac
  | RELPERSISTENCE_PERMANENT => idtac | RELPERSISTENCE_UNLOGGED => idtac
  | RELPERSISTENCE_TEMP => idtac
  end.

(** Use what the context knows of the values in the goal. *)
Ltac hyp_simpl :=
  repeat match goal with
         | E : ?x = ?v |- context [?x] =>
             is_constructor_app v;
             tryif first [is_var x | is_constructor_app x] then fail
             else (progress (rewrite E))
         end.

(** Projections of explicit records and the boolean connectives. *)
Ltac proj_simpl :=
  hyp_simpl;
  rewrite ?flow_state_if;
  cbn [app slots pages sets UndoRecordSetList CritSectionCount InRecovery trace
       rp_buffers rp_record_data rp_record_more rp_record_offset
       rp_chunk_header rp_header_more rp_header_offset rp_type_header
       rp_type_header_size rp_chunk_size_more rp_chunk_size
       rp_chunk_size_offset replay_init flow_state
       cx_block cx_slot cx_skip cx_buffer cx_bufdata cx_chunk_start
       blocks xl_rmid xl_info ReadRecPtr
       type persistence chunks buffers previous_chunk need_chunk_header
       type_header type_header_size need_type_header begin slot chunk_start
       recent_end state nestingLevel
       with_chunks with_buffers with_need_chunk_header with_need_type_header
       with_begin with_slot with_chunk_start with_recent_end with_state
       buffer is_new needs_init bufdata with_bufdata with_needs_init
       chunk_slot chunk_header_written chunk_header_offset
       chunk_header_buffer_index with_buffer_index with_header_written
       meta_insert meta_size meta_discard slot_end force_truncate
       with_meta_insert with_force_truncate
       fst snd andb orb negb].

Ltac exec_lookup :=
  proj_simpl;
  repeat first
    [ rewrite lookup_insert_eq
    | rewrite lookup_insert_ne by congruence
    | match goal with
      | E : ?m !! ?k = _ |- context [?m !! ?k] => rewrite E
      end ];
  cbv beta iota.

(** Decide a condition from the context, or split on it. *)
Ltac exec_cond c :=
  first
    [ match c with true => idtac | false => idtac end
    | match goal with E : c = _ |- _ => rewrite E end
    | let v := eval cbn -[Z.ltb Z.leb Z.eqb Z.add Z.mul Z.sub uint64] in c in
      match v with
      | true => change c with true
      | false => change c with false
      end
    | destruct c eqn:? ];
  cbv beta iota.

(** One step of a run [bind m k w] occurring in the goal: normalise the
    sequence, run a primitive, or open the operation at its head.  Lookups are
    settled from the hypotheses; a branch on a condition the context does
    not decide splits the goal. *)
Ltac exec_custom := fail.

(** A run the context already knows the outcome of. *)
Ltac exec_known :=
  match goal with
  | E : ?m ?w = Ok _ _ |- context [bind ?m _ ?w] => rewrite (bind_Ok _ _ _ _ _ E)
  | E : ?m ?w = Raise _ _ _ |- context [bind ?m _ ?w] =>
      rewrite (bind_Raise _ _ _ _ _ _ E)
  end.

Ltac exec1 :=
  proj_simpl;
  first [ exec_known | exec_custom | exec1_core ]
with exec1_core :=
  lazymatch goal with
  | |- context [bind (bind _ _) _ _] => rewrite bind_assoc
  | |- context [bind (ret _) _ _] => rewrite bind_ret
  | |- context [bind get _ _] => rewrite bind_get
  | |- context [bind (modify _) _ _] => rewrite bind_modify
  | |- context [bind (elog _ _) _ _] => rewrite bind_elog
  | |- context [bind (deref_slot _) _ _] => rewrite bind_deref_slot; exec_lookup
  | |- context [bind (deref_urs _) _ _] => rewrite bind_deref_urs; exec_lookup
  | |- context [bind (BufferGetPage _) _ _] => rewrite bind_BufferGetPage
  | |- context [bind (if ?c then _ else _) _ _] => exec_cond c
  | |- context [bind (match ?x with _ => _ end) _ _] =>
      first [ is_constructor_app x; cbv beta iota
            | match goal with E : x = _ |- _ => rewrite E; cbv beta iota end
            | let T := type of x in
              lazymatch T with
              | prod _ _ => let h := head_of x in unfold h; cbv beta iota zeta
              end
            | destruct x eqn:?; cbv beta iota ]
  | |- context [bind (let (_, _) := ?x in _) _ _] =>
      first [ is_constructor_app x; cbv beta iota
            | let h := head_of x in unfold h; cbv beta iota zeta
            | destruct x eqn:? ]
  | |- context [bind ?m _ _] =>
      let h := head_of m in
      first [ progress cbn [h] | unfold h ]; cbv beta iota zeta
  | |- context [ret ?a ?w] => change (ret a w) with (Ok a w)
  end.

Ltac exec := repeat exec1; cbv beta iota.

(** Start running [m w]. *)
Ltac exec_start m w := rewrite (bind_ret_r m w); unfold m.

(** ** Replay: how a closed transaction set is reported *)

Section ReplayClose.
Context `{UndoLayout}.

Lemma xact_close_kind_spec xlog_record w :
  xact_ops_distinct ->
  xact_close_kind xlog_record w =
  if (xl_rmid xlog_record =? RM_XACT_ID) && standard_xact_op (xact_op xlog_record)
  then Ok (is_commit_op (xact_op xlog_record),
           is_prepare_op (xact_op xlog_record)) w
  else Raise ERROR
         (if xl_rmid xlog_record =? RM_XACT_ID
          then "transaction undo closed by unexpected record"
          else "transaction undo closed by unexpected rmgr") w.
Proof.
  intros Hd. unfold xact_close_kind, standard_xact_op, is_commit_op,
    is_abort_op, is_prepare_op. fold (xact_op xlog_record).
  generalize (xact_op xlog_record). intros op.
  destruct (xl_rmid xlog_record =? RM_XACT_ID); cbn [negb andb]; [|reflexivity].
  unfold xact_ops_distinct in Hd. rewrite !NoDup_cons in Hd.
  destruct Hd as (H1 & H2 & H3 & H4 & _). rewrite !not_elem_of_cons in *.
  repeat match goal with
         | |- context [Z.eqb ?a ?b] => destruct (Z.eqb_spec a b); subst
         end; cbn; try reflexivity; exfalso; intuition congruence.
Qed.

Lemma faithful_xact_close_kind xlog_record :
  xact_ops_distinct ->
  steps (emits (reports_faithfully xlog_record)) (xact_close_kind xlog_record).
Proof.
  intros Hd w. rewrite xact_close_kind_spec by assumption.
  destruct (_ && _); apply frame_refl.
Qed.

Lemma faithful_replay_close_chunk xlog_record cx st :
  xact_ops_distinct ->
  steps (emits (reports_faithfully xlog_record))
        (replay_close_chunk xlog_record cx st).
Proof.
  intros Hd. unfold replay_close_chunk.
  apply steps_bind; try typeclasses eauto; [steps_auto | intros n].
  apply steps_bind; try typeclasses eauto; [| steps_auto].
  apply steps_when; try typeclasses eauto.
  eapply (steps_bind_with _
            (fun a => (xl_rmid xlog_record =? RM_XACT_ID) = true /\
                      standard_xact_op (xact_op xlog_record) = true /\
                      a = (is_commit_op (xact_op xlog_record),
                           is_prepare_op (xact_op xlog_record))));
    try typeclasses eauto.
  - now apply faithful_xact_close_kind.
  - intros w a w' E. rewrite xact_close_kind_spec in E by assumption.
    destruct (xl_rmid xlog_record =? RM_XACT_ID); [|discriminate].
    destruct (standard_xact_op _); [|discriminate].
    cbn in E. injection E as <- _. auto.
  - intros [c p] (Hr & Hs & [= -> ->]). apply emits_emit. cbn.
    apply Z.eqb_eq in Hr. auto.
Qed.

Lemma faithful_UndoReplay_block xlog_record record_size block_id block st :
  xact_ops_distinct ->
  steps (emits (reports_faithfully xlog_record))
        (UndoReplay_block xlog_record record_size block_id block st).
Proof.
  intros Hd. pose proof (faithful_replay_close_chunk xlog_record).
  unfold UndoReplay_block. steps_auto.
Qed.

Lemma faithful_UndoReplay_blocks xlog_record record_size bs :
  xact_ops_distinct ->
  forall block_id st,
    steps (emits (reports_faithfully xlog_record))
          (UndoReplay_blocks xlog_record record_size block_id bs st).
Proof.
  intros Hd. pose proof (faithful_UndoReplay_block xlog_record).
  induction bs as [|b bs IH]; intros; cbn [UndoReplay_blocks]; steps_auto.
Qed.

Lemma emits_replay_release (P : Event -> Prop) lsn bs :
  (forall b, P (EvMarkBufferDirty b)) -> (forall b, P (EvPageSetLSN b lsn)) ->
  (forall b, P (EvUnlockReleaseBuffer b)) ->
  steps (emits P) (replay_release lsn bs).
Proof.
  intros H1 H2 H3. induction bs as [|[b|] bs IH]; cbn [replay_release];
    steps_auto.
Qed.

Lemma faithful_UndoReplay xlog_record record_data record_size :
  xact_ops_distinct ->
  steps (emits (reports_faithfully xlog_record))
        (UndoReplay xlog_record record_data record_size).
Proof.
  intros Hd. pose proof (faithful_UndoReplay_blocks xlog_record).
  pose proof (emits_replay_release (reports_faithfully xlog_record)).
  unfold UndoReplay. steps_auto. apply H1; intros; exact I.
Qed.

End ReplayClose.

Section ReplayCloseRecord.
Context `{UndoLayout}.

Lemma bind_xact_close_kind {B} xlog_record (k : bool * bool -> M B) w :
  xact_ops_distinct ->
  bind (xact_close_kind xlog_record) k w =
  if (xl_rmid xlog_record =? RM_XACT_ID) && standard_xact_op (xact_op xlog_record)
  then k (is_commit_op (xact_op xlog_record),
          is_prepare_op (xact_op xlog_record)) w
  else Raise ERROR
         (if xl_rmid xlog_record =? RM_XACT_ID
          then "transaction undo closed by unexpected record"
          else "transaction undo closed by unexpected rmgr") w.
Proof.
  intros Hd. unfold bind. rewrite xact_close_kind_spec by assumption.
  now destruct (_ && _).
Qed.

Ltac exec_custom ::=
  match goal with
  | |- context [bind (xact_close_kind _) _ _] =>
      rewrite bind_xact_close_kind by assumption
  end.

(** From a statement on the outcome to the run. *)
Lemma outcome_Ok {A} (r : result A) (Q : A -> World -> Prop) :
  match r with Ok a w' => Q a w' | Raise _ _ _ => False end ->
  exists a w', r = Ok a w' /\ Q a w'.
Proof. destruct r; [eauto | tauto]. Qed.

Lemma block_ctx_buffer block bd :
  cx_skip (block_ctx block bd) = false -> is_Some (cx_buffer (block_ctx block bd)).
Proof. cbn. destruct (redo_action block); cbn; eauto; discriminate. Qed.

Lemma replay_begin_block_plain given block_id block bd sl w :
  slots w !! rnode_relNode block = Some sl ->
  decoded_bufdata block = Some bd ->
  has_flag (flags bd) URS_XLOG_INSERT = false ->
  exists w1,
    replay_begin_block given block_id block w = Ok (block_ctx block bd) w1 /\
    exists evs, trace w1 = trace w ++ evs.
Proof.
  intros Hsl Hdec Hi.
  enough (exists cx w1, replay_begin_block given block_id block w = Ok cx w1 /\
                        cx = block_ctx block bd /\
                        exists evs, trace w1 = trace w ++ evs)
    as (cx & w1 & E & -> & Ht) by eauto.
  apply (outcome_Ok _ (fun cx w1 => cx = _ /\ exists evs, trace w1 = trace w ++ evs)).
  rewrite (bind_ret_r (replay_begin_block _ _ _)).
  unfold replay_begin_block, block_ctx.
  destruct (will_init block) eqn:Einit.
  all: exec.
  all: split; [reflexivity|].
  all: rewrite <- ?app_assoc; eauto using app_nil_r.
Qed.

Lemma replay_release_Ok lsn bs w :
  exists w', replay_release lsn bs w = Ok tt w' /\
             exists evs, trace w' = trace w ++ evs.
Proof.
  revert w. induction bs as [|[b|] bs IH]; intros w; cbn [replay_release].
  - exists w. split; [reflexivity|]. exists []. now rewrite app_nil_r.
  - unfold MarkBufferDirty, UnlockReleaseBuffer.
    rewrite !(bind_Ok _ _ _ _ _ (emit_Ok _ _)).
    destruct (IH (add_trace [EvUnlockReleaseBuffer b]
                    (add_trace [EvPageSetLSN b lsn]
                       (add_trace [EvMarkBufferDirty b] w))))
      as (w' & E & evs & Ht).
    exists w'. split; [exact E|]. rewrite Ht. cbn. rewrite <- !app_assoc. eauto.
  - apply IH.
Qed.

Lemma replay_close_chunk_transaction xlog_record cx st w :
  xact_ops_distinct ->
  urs_type (cx_bufdata cx) = URST_TRANSACTION ->
  has_flag (flags (cx_bufdata cx)) URS_XLOG_CLOSE = true ->
  (cx_skip cx = false -> is_Some (cx_buffer cx)) ->
  let op := xact_op xlog_record in
  match replay_close_chunk xlog_record cx st w with
  | Ok f w' =>
      (xl_rmid xlog_record =? RM_XACT_ID) && standard_xact_op op = true /\
      rp_header_more (flow_state f) = rp_header_more st /\
      rp_record_more (flow_state f) = rp_record_more st /\
      rp_buffers (flow_state f) = rp_buffers st /\
      exists evs th begin_ end_,
        trace w' = trace w ++ evs /\
        EvXactUndoCloseRecordSet th begin_ end_ (is_commit_op op) (is_prepare_op op)
          ∈ evs
  | Raise l msg w' =>
      (xl_rmid xlog_record =? RM_XACT_ID) && standard_xact_op op = false /\
      l = ERROR
  end.
Proof.
  intros Hd Hty Hcl Hbuf op. subst op.
  rewrite (bind_ret_r (replay_close_chunk _ _ _)). unfold replay_close_chunk.
  rewrite Hty, Z.eqb_refl, Hcl.
  destruct (cx_skip cx) eqn:Eskip.
  2: destruct (Hbuf eq_refl) as [b Eb].
  all: exec.
  all: match goal with
       | |- match (if ?c then _ else _) with _ => _ end => destruct c eqn:?
       end; cbv beta iota; proj_simpl.
  all: repeat split; auto.
  all: do 4 eexists; rewrite <- ?app_assoc; (split; [reflexivity|]);
    rewrite ?elem_of_app, !elem_of_cons; eauto 10.
Qed.

Lemma UndoReplay_closing_record (w : World) (block : DecodedBkpBlock)
  (bd : UndoRecordSetXLogBufData) (sl : UndoLogSlot) (rmid info lsn : Z) :
  xact_ops_distinct ->
  closes_transaction_set block bd ->
  slots w !! rnode_relNode block = Some sl ->
  InRecovery w = true ->
  let xlog_record := mkXLog [block] rmid info lsn in
  let op := xact_op xlog_record in
  match UndoReplay xlog_record None 0 w with
  | Ok urp w' =>
      (rmid =? RM_XACT_ID) && standard_xact_op op = true /\
      urp = InvalidUndoRecPtr /\
      exists evs th begin_ end_,
        trace w' = trace w ++ evs /\
        EvXactUndoCloseRecordSet th begin_ end_ (is_commit_op op) (is_prepare_op op)
          ∈ evs
  | Raise l msg w' =>
      (rmid =? RM_XACT_ID) && standard_xact_op op = false /\ l = ERROR
  end.
Proof.
  intros Hd (Hin & Hdb & Hdec & Hi & Hc & Ha & Hcc & Hcl & Hty) Hsl Hrec
    xlog_record op.
  destruct (replay_begin_block_plain false 0 block bd sl w Hsl Hdec Hi)
    as (w1 & Ebegin & evs1 & Ht1).
  pose proof (replay_close_chunk_transaction xlog_record (block_ctx block bd)
                (mkReplay [cx_buffer (block_ctx block bd)] None false 0
                   (mkChunkHeader 0 0 0) false 0 [] 0 false 0 0) w1 Hd
                Hty Hcl (block_ctx_buffer block bd)) as Hclose.
  cbv zeta in Hclose.
  fold op in Hclose. change (xl_rmid xlog_record) with rmid in Hclose.
  unfold UndoReplay.
  mstep ltac:(apply get_Ok).
  mstep ltac:(apply Assert_Ok; exact Hrec).
  cbn [blocks xlog_record UndoReplay_blocks]. unfold UndoReplay_block.
  rewrite Hin, Hdb, Z.eqb_refl. cbn [andb].
  rewrite (bind_ret_r (bind _ _)).
  change (bool_decide (is_Some (rp_record_data (replay_init None)))) with false.
  mstep ltac:(exact Ebegin).
  change (cx_bufdata (block_ctx block bd)) with bd. rewrite Hc, Ha, Hcc.
  destruct (replay_close_chunk _ _ _ _) as [f w2 | l msg w2] eqn:Eclose.
  - destruct Hclose as (Hcond & Hhm & Hrm & Hbufs & evs2 & th & b & e & Ht2 & Hin2).
    destruct f as [st2 | st2]; cbn in Hhm, Hrm; clear Hbufs.
    all: destruct (replay_release_Ok (ReadRecPtr xlog_record) (rp_buffers st2) w2)
      as (w3 & Erel & evs3 & Ht3).
    all: exec.
    all: split; [reflexivity|]; split; [reflexivity|].
    all: exists (evs1 ++ evs2 ++ evs3), th, b, e; split;
      [ rewrite Ht3, Ht2, Ht1, <- !app_assoc; reflexivity
      | rewrite !elem_of_app; auto ].
  - exec. exact Hclose.
Qed.


End ReplayCloseRecord.

(** ** A close step that is never reached *)

Section ReplaySkipsCloseStep.
Local Existing Instance Sample.layout.


End ReplaySkipsCloseStep.

(** ** Replay: what is checked after the last block *)

Section ReplayEnd.
Context `{UndoLayout}.

(** After the blocks, [UndoReplay] raises ERROR exactly when a header or a
    record is still pending; a pending chunk size plays no part. *)
Lemma UndoReplay_final_check xlog_record record_data record_size w st w1 :
  InRecovery w = true ->
  UndoReplay_blocks xlog_record record_size 0 (blocks xlog_record)
    (replay_init record_data) w = Ok st w1 ->
  if rp_header_more st || rp_record_more st then
    UndoReplay xlog_record record_data record_size w =
    Raise ERROR "undo data didn't fit on registered buffers" w1
  else
    exists w2, UndoReplay xlog_record record_data record_size w
               = Ok InvalidUndoRecPtr w2.
Proof.
  intros Hrec Hblocks. unfold UndoReplay.
  mstep ltac:(apply get_Ok).
  mstep ltac:(apply Assert_Ok; exact Hrec).
  mstep ltac:(exact Hblocks).
  destruct (rp_header_more st || rp_record_more st); [reflexivity|].
  destruct (replay_release_Ok (ReadRecPtr xlog_record) (rp_buffers st) w1)
    as (w2 & E & _).
  mstep ltac:(exact E). eauto.
Qed.

(** Closing a chunk whose size field straddles the page, on a block that is
    not skipped: the step ends with the size partly written and the rest
    pending, and the callback for a transaction's set has been made by
    then. *)
Lemma replay_close_chunk_straddling xlog_record cx st w b :
  layout_wf ->
  cx_skip cx = false -> cx_buffer cx = Some b ->
  BLCKSZ - sizeof_size < chunk_size_page_offset (cx_bufdata cx) < BLCKSZ ->
  match replay_close_chunk xlog_record cx st w with
  | Ok f w' =>
      (exists st', f = Continue st' /\ rp_chunk_size_more st' = true /\
                   rp_chunk_size_offset st'
                   = BLCKSZ - chunk_size_page_offset (cx_bufdata cx)) /\
      ((urs_type (cx_bufdata cx) =? URST_TRANSACTION)
       && has_flag (flags (cx_bufdata cx)) URS_XLOG_CLOSE = true ->
       exists th begin_ end_ c p,
         trace w' = trace w
           ++ [EvUndoPageOverwrite b (chunk_size_page_offset (cx_bufdata cx)) 0
                 sizeof_size (chunk_size (cx_bufdata cx));
               EvXactUndoCloseRecordSet th begin_ end_ c p])
  | Raise _ _ _ => True
  end.
Proof.
  intros [Hh Hb] Hskip Hbuf Hpo. unfold sizeof_size in *.
  rewrite (bind_ret_r (replay_close_chunk _ _ _)). unfold replay_close_chunk.
  assert (Hn : bytes_on_this_page (chunk_size_page_offset (cx_bufdata cx)) 0 8
               = BLCKSZ - chunk_size_page_offset (cx_bufdata cx))
    by (unfold bytes_on_this_page; lia).
  assert (Hlt : (uint64 (BLCKSZ - chunk_size_page_offset (cx_bufdata cx)) <? 8)
                = true).
  { rewrite uint64_small by lia. apply Z.ltb_lt. lia. }
  exec; unfold xact_close_kind; exec; unfold sizeof_size;
    rewrite ?Hn, ?Hlt; cbv beta iota; trivial.
  all: split; [eexists; split; [reflexivity|]; proj_simpl;
               rewrite ?Hlt, ?orb_true_r; auto|].
  all: try discriminate.
  all: intros _; rewrite <- ?app_assoc; cbn [app]; eauto 10.
Qed.

End ReplayEnd.

Section ReplayOnRecords.
Local Existing Instance Sample.layout.

(** C5.  A record that closes a chunk whose size field straddles two pages,
    and registers only the first of them: after the only block the chunk
    size is still pending (four of its eight bytes written), and [UndoReplay]
    returns normally instead of raising ERROR. *)
Theorem UndoReplay_ignores_pending_chunk_size :
  match UndoReplay_blocks Sample.close_missing_second_page 0 0
          (blocks Sample.close_missing_second_page) (replay_init None)
          Sample.recovering with
  | Ok st _ =>
      rp_chunk_size_more st = true /\ rp_chunk_size_offset st = 4 /\
      rp_header_more st = false /\ rp_record_more st = false
  | Raise _ _ _ => False
  end /\
  match UndoReplay Sample.close_missing_second_page None 0 Sample.recovering with
  | Ok urp w' =>
      urp = InvalidUndoRecPtr /\
      trace w' = [EvReadBuffer 3 0 RBM_NORMAL;
                  EvUndoPageOverwrite (3, 0) 8188 0 8 136;
                  EvMarkBufferDirty (3, 0); EvPageSetLSN (3, 0) 1000;
                  EvUnlockReleaseBuffer (3, 0)]
  | Raise _ _ _ => False
  end.
Proof. vm_compute. repeat split; reflexivity. Qed.

(** C7.  Replaying a commit record that closes a transaction's set whose
    size field straddles two pages: the close callback is called after the
    overwrite on the first page and before the one on the second. *)
Theorem UndoReplay_reports_before_second_overwrite :
  match UndoReplay Sample.commit_closing_straddled None 0 Sample.recovering with
  | Ok _ w' =>
      trace w' =
      [EvReadBuffer 3 0 RBM_NORMAL;
       EvUndoPageOverwrite (3, 0) 8188 0 8 136;
       EvXactUndoCloseRecordSet [7; 7; 7; 7; 7; 7; 7; 7]
         (Sample.make_urp 3 8188) (Sample.make_urp 3 (8188 + 136)) true false;
       EvReadBuffer 3 1 RBM_NORMAL;
       EvUndoPageOverwrite (3, 1) 24 4 8 136;
       EvMarkBufferDirty (3, 1);
       EvMarkBufferDirty (3, 0); EvPageSetLSN (3, 0) 1000;
       EvUnlockReleaseBuffer (3, 0);
       EvMarkBufferDirty (3, 1); EvPageSetLSN (3, 1) 1000;
       EvUnlockReleaseBuffer (3, 1)]
  | Raise _ _ _ => False
  end.
Proof. vm_compute. reflexivity. Qed.

End ReplayOnRecords.

(** ** Crash recovery: the final page of a log *)

Section FinalPage.
Context `{UndoLayout}.

Lemma le_value_nonneg bs : Forall (fun b => 0 <= b) bs -> 0 <= le_value bs.
Proof. induction 1; cbn [le_value]; lia. Qed.

Lemma page_read_u64_nonneg page off : 0 <= page_read_u64 page off.
Proof.
  unfold page_read_u64. apply le_value_nonneg, Forall_forall.
  intros b Hb. apply list_elem_of_In, in_map_iff in Hb as (i & <- & _).
  unfold page_byte, uint8. apply Z.mod_pos_bound. lia.
Qed.

Lemma final_page_walk_no_wrap page page_begin_urp w :
  sizeof_size <= BLCKSZ < 2 ^ 16 ->
  sizes_do_not_wrap page ->
  0 <= page_begin_urp -> page_begin_urp + BLCKSZ < 2 ^ 64 ->
  forall fuel po,
    0 <= po -> 0 < Z.of_nat fuel -> BLCKSZ + 1 - po <= Z.of_nat fuel ->
    (exists found,
       final_chunk page po found /\
       final_page_walk fuel page page_begin_urp po w
       = Ok (page_begin_urp + found) w) \/
    (walk_fails page po /\
     exists msg, final_page_walk fuel page page_begin_urp po w = Raise ERROR msg w).
Proof.
  intros HB Hwrap Hurp0 Hurp. unfold sizeof_size in *.
  induction fuel as [|fuel IH]; intros po Hpo Hpos Hfuel; [lia|].
  cbn [final_page_walk]. unfold sizeof_size.
  destruct (Z.ltb_spec (BLCKSZ - 8) po) as [Hpast | Hfits].
  { right. split; [apply fails_here; unfold sizeof_size; lia | eauto]. }
  pose proof (page_read_u64_nonneg page po) as Hsize.
  pose proof (Hwrap po ltac:(unfold sizeof_size; lia)) as Hnw.
  set (size := page_read_u64 page po) in *.
  rewrite (uint64_small (po + size)) by lia.
  destruct (Z.ltb_spec BLCKSZ (po + size)) as [Hbeyond | Hin].
  { right. split; [apply fails_here; fold size; lia | eauto]. }
  destruct (Z.ltb_spec (ud_insertion_point page) (po + size)) as [Hip | Hbelow].
  { right. split; [apply fails_here; fold size; lia | eauto]. }
  destruct (Z.eqb_spec size 0) as [Hzero | Hnz]; cbn [orb].
  { left. exists po. split.
    - apply final_here; unfold sizeof_size; fold size; auto; lia.
    - rewrite uint64_small by lia. reflexivity. }
  destruct (Z.eqb_spec (po + size) (ud_insertion_point page)) as [Hend | Hne].
  { left. exists po. split.
    - apply final_here; unfold sizeof_size; fold size; auto; lia.
    - rewrite uint64_small by lia. reflexivity. }
  unfold uint16. rewrite Z.mod_small by lia.
  destruct (IH (po + size) ltac:(lia) ltac:(lia) ltac:(lia))
    as [(found & Hf & E) | (Hf & msg & E)].
  + left. exists found. split; [|exact E].
    apply final_later; unfold sizeof_size; fold size; auto.
  + right. split; [|eauto].
    apply fails_later; unfold sizeof_size; fold size; auto.
Qed.

(** On a final page whose chunk sizes do not wrap, the scan does what the
    specification says: it returns the first chunk that is open or ends at
    the insertion point, or raises ERROR on a size field or chunk that leaves
    the page or passes the insertion point; with no chunk starting on the
    page it returns [ud_continue_chunk]. *)
Lemma find_start_of_chunk_on_final_page_no_wrap page page_begin_urp w fuel :
  sizeof_size <= BLCKSZ < 2 ^ 16 ->
  sizes_do_not_wrap page ->
  0 <= page_begin_urp -> page_begin_urp + BLCKSZ < 2 ^ 64 ->
  BLCKSZ <= Z.of_nat fuel ->
  if 0 <? ud_first_chunk page then
    (exists found,
       final_chunk page (ud_first_chunk page) found /\
       find_start_of_chunk_on_final_page fuel page page_begin_urp w
       = Ok (page_begin_urp + found) w) \/
    (walk_fails page (ud_first_chunk page) /\
     exists msg, find_start_of_chunk_on_final_page fuel page page_begin_urp w
                 = Raise ERROR msg w)
  else
    find_start_of_chunk_on_final_page fuel page page_begin_urp w
    = Ok (ud_continue_chunk page) w.
Proof.
  intros HB Hwrap Hurp0 Hurp Hfuel. unfold find_start_of_chunk_on_final_page.
  destruct (Z.ltb_spec 0 (ud_first_chunk page)); [|reflexivity].
  apply final_page_walk_no_wrap; auto; unfold sizeof_size in *; lia.
Qed.

End FinalPage.

Section FinalPageWrapping.
Local Existing Instance Sample.layout.

Lemma wrapping_page_cycle fuel w :
  final_page_walk fuel Sample.wrapping_page (Sample.make_urp 3 0) 100 w
  = Raise OUT_OF_FUEL "find_start_of_chunk_on_final_page" w /\
  final_page_walk fuel Sample.wrapping_page (Sample.make_urp 3 0) 92 w
  = Raise OUT_OF_FUEL "find_start_of_chunk_on_final_page" w.
Proof.
  induction fuel as [|fuel [IH100 IH92]]; [split; reflexivity|].
  split.
  - change (final_page_walk (S fuel) Sample.wrapping_page (Sample.make_urp 3 0) 100 w)
      with (final_page_walk fuel Sample.wrapping_page (Sample.make_urp 3 0) 92 w).
    exact IH92.
  - change (final_page_walk (S fuel) Sample.wrapping_page (Sample.make_urp 3 0) 92 w)
      with (final_page_walk fuel Sample.wrapping_page (Sample.make_urp 3 0) 100 w).
    exact IH100.
Qed.

(** C6.  A final page whose first chunk, at page offset 100, has the size
    2^64 - 8: the chunk extends far beyond the page and the insertion point,
    yet no ERROR is raised; the sum of offset and size wraps around to 92, the
    walk steps back to the chunk of size 8 there, from it forward to 100
    again, and so on: whatever the fuel, the scan neither returns nor
    raises. *)
Theorem find_start_of_chunk_on_final_page_wraps :
  0 < ud_first_chunk Sample.wrapping_page /\
  BLCKSZ < 100 + page_read_u64 Sample.wrapping_page 100 /\
  ud_insertion_point Sample.wrapping_page
    < 100 + page_read_u64 Sample.wrapping_page 100 /\
  forall fuel w,
    find_start_of_chunk_on_final_page fuel Sample.wrapping_page
      (Sample.make_urp 3 0) w
    = Raise OUT_OF_FUEL "find_start_of_chunk_on_final_page" w.
Proof.
  split; [reflexivity|]. split; [reflexivity|]. split; [reflexivity|].
  intros fuel w. unfold find_start_of_chunk_on_final_page.
  change (0 <? ud_first_chunk Sample.wrapping_page) with true. cbv iota.
  apply wrapping_page_cycle.
Qed.

End FinalPageWrapping.

(** ** What [UndoPrepareToInsert] returns *)

#[export] Instance keeps_frame {T} (g : UndoRecordSet -> T) u : Frame (keeps g u).
Proof. split; unfold keeps; [reflexivity | congruence]. Qed.

Lemma keeps_modify_sets {T} (g : UndoRecordSet -> T) u (f : World -> World) :
  (forall w, sets (f w) = sets w) -> steps (keeps g u) (modify f).
Proof. intros Hf w. unfold keeps. cbn. now rewrite Hf. Qed.

Lemma keeps_emit {T} (g : UndoRecordSet -> T) u e : steps (keeps g u) (emit e).
Proof. now apply keeps_modify_sets. Qed.
Lemma keeps_set_slots {T} (g : UndoRecordSet -> T) u f : steps (keeps g u) (set_slots f).
Proof. now apply keeps_modify_sets. Qed.
Lemma keeps_set_pages {T} (g : UndoRecordSet -> T) u f : steps (keeps g u) (set_pages f).
Proof. now apply keeps_modify_sets. Qed.
Lemma keeps_set_list {T} (g : UndoRecordSet -> T) u f : steps (keeps g u) (set_list f).
Proof. now apply keeps_modify_sets. Qed.

Lemma keeps_update_urs {T} (g : UndoRecordSet -> T) u u' f :
  (forall s, g (f s) = g s) -> steps (keeps g u) (update_urs u' f).
Proof.
  intros Hf w. unfold keeps, update_urs. rewrite bind_deref_urs.
  destruct (sets w !! u') as [s|] eqn:E; [|reflexivity]. cbn.
  destruct (decide (u' = u)) as [-> | Hne].
  - rewrite lookup_insert_eq, E. cbn. now rewrite Hf.
  - now rewrite lookup_insert_ne.
Qed.

#[export] Hint Resolve keeps_emit keeps_set_slots keeps_set_pages keeps_set_list
  : steps.
#[export] Hint Extern 1 (steps (keeps _ _) (update_urs _ _)) =>
  apply keeps_update_urs; intros; reflexivity : steps.

Section Preparing.
Context `{UndoLayout}.

Lemma planned_header_size_plan s s' :
  plan_of s = plan_of s' -> planned_header_size s = planned_header_size s'.
Proof. unfold plan_of, planned_header_size. now intros [= -> -> -> _ _]. Qed.

Lemma reserve_physical_undo_spec u logno total_size s w :
  sets w !! u = Some s ->
  match reserve_physical_undo u logno total_size w with
  | Ok b w1 =>
      b = InvalidUndoRecPtr \/
      exists s1 sl1,
        sets w1 !! u = Some s1 /\ plan_of s1 = plan_of s /\
        slots w1 !! logno = Some sl1 /\
        b = MakeUndoRecPtr logno (meta_insert sl1)
  | Raise _ _ _ => True
  end.
Proof.
  intros Hs. rewrite (bind_ret_r (reserve_physical_undo _ _ _)).
  unfold reserve_physical_undo. exec; [|exact I].
  destruct (slots w !! logno) as [sl|] eqn:Esl; [|exact I].
  exec.
  all: try (left; reflexivity).
  all: right; world_simpl; rewrite ?lookup_insert_eq; do 2 eexists;
    repeat split; eauto.
Qed.

Lemma keeps_type_plan_create_new_chunk u u' :
  steps (keeps type_plan u) (create_new_chunk u').
Proof. unfold create_new_chunk. steps_auto. Qed.

Lemma keeps_type_plan_reserve_physical_undo u u' logno total_size :
  steps (keeps type_plan u) (reserve_physical_undo u' logno total_size).
Proof. unfold reserve_physical_undo. steps_auto. Qed.

Lemma keeps_type_plan_reserve fuel u u' record_size ctc :
  steps (keeps type_plan u) (UndoPrepareToInsert_reserve fuel u' record_size ctc).
Proof.
  pose proof keeps_type_plan_create_new_chunk.
  pose proof keeps_type_plan_reserve_physical_undo.
  revert ctc. induction fuel as [|fuel IH]; intros ctc;
    cbn [UndoPrepareToInsert_reserve]; steps_auto.
Qed.

(** The loop ends with the set attached to a log, at that log's insert
    pointer, with the header size planned from the set as it then is. *)
Lemma UndoPrepareToInsert_reserve_Ok fuel u record_size :
  forall ctc w b hs ts ctc' w',
    UndoPrepareToInsert_reserve fuel u record_size ctc w = Ok (b, hs, ts, ctc') w' ->
    exists s1 logno sl,
      sets w' !! u = Some s1 /\ hs = planned_header_size s1 /\
      slot s1 = Some logno /\ slots w' !! logno = Some sl /\
      b = MakeUndoRecPtr logno (meta_insert sl).
Proof.
  induction fuel as [|fuel IH]; intros ctc w b hs ts ctc' w' Hrun;
    cbn [UndoPrepareToInsert_reserve] in Hrun; [discriminate|].
  bind_inv Hrun s w1 E. apply deref_urs_inv in E as [Hs ->].
  destruct (slot s) as [logno|] eqn:Eslot.
  - bind_inv Hrun b0 w1 E.
    pose proof (reserve_physical_undo_spec u logno
                  (uint64 (record_size + planned_header_size s)) s w Hs) as R.
    rewrite E in R.
    destruct (Z.eqb_spec b0 InvalidUndoRecPtr) as [-> | Hne]; cbn [negb] in Hrun.
    + (* the active chunk is full *)
      bind_inv Hrun c w2 E2. destruct (chunk_header_written c).
      * bind_inv_ Hrun w3 E3. eapply IH; eassumption.
      * bind_inv_ Hrun w3 E3. bind_inv_ Hrun w4 E4. eapply IH; eassumption.
    + injection Hrun as <- <- <- <- <-.
      destruct R as [? | (s1 & sl1 & Hs1 & Hplan & Hsl1 & Hb)]; [contradiction|].
      exists s1, logno, sl1. repeat split; auto.
      * symmetry. now apply planned_header_size_plan.
      * unfold plan_of in Hplan. congruence.
  - bind_inv_ Hrun w1 E. eapply IH; eassumption.
Qed.

Lemma keeps_plan_ReadBufferWithoutRelcache u l blk rbm :
  steps (keeps plan_of u) (ReadBufferWithoutRelcache l blk rbm).
Proof. unfold ReadBufferWithoutRelcache. steps_auto. Qed.

Lemma keeps_plan_pin fuel u u' l blk off total :
  steps (keeps plan_of u) (UndoPrepareToInsert_pin fuel u' l blk off total).
Proof.
  revert blk off total. induction fuel as [|fuel IH]; intros;
    cbn [UndoPrepareToInsert_pin]; pose proof keeps_plan_ReadBufferWithoutRelcache;
    steps_auto.
Qed.

Lemma keeps_plan_lock_buffers u bs : steps (keeps plan_of u) (lock_buffers bs).
Proof. induction bs as [|ub bs IH]; cbn [lock_buffers]; steps_auto. Qed.

Lemma keeps_plan_find_or_read_buffer u u' l blk :
  steps (keeps plan_of u) (find_or_read_buffer u' l blk).
Proof. unfold find_or_read_buffer. steps_auto. Qed.

Lemma keeps_plan_UndoPrepareToMarkChunkClosed u u' ci :
  steps (keeps plan_of u) (UndoPrepareToMarkChunkClosed u' ci).
Proof.
  unfold UndoPrepareToMarkChunkClosed. pose proof keeps_plan_find_or_read_buffer.
  steps_auto.
Qed.

Lemma quietly_ReadBufferWithoutRelcache l blk rbm :
  steps quietly (ReadBufferWithoutRelcache l blk rbm).
Proof. unfold ReadBufferWithoutRelcache. steps_auto. Qed.

Lemma quietly_pin fuel u l blk off total :
  steps quietly (UndoPrepareToInsert_pin fuel u l blk off total).
Proof.
  revert blk off total. induction fuel as [|fuel IH]; intros;
    cbn [UndoPrepareToInsert_pin]; pose proof quietly_ReadBufferWithoutRelcache;
    steps_auto.
Qed.

Lemma quietly_lock_buffers bs : steps quietly (lock_buffers bs).
Proof. induction bs as [|ub bs IH]; cbn [lock_buffers]; steps_auto. Qed.

Lemma quietly_find_or_read_buffer u l blk :
  steps quietly (find_or_read_buffer u l blk).
Proof. unfold find_or_read_buffer. steps_auto. Qed.

Lemma quietly_UndoPrepareToMarkChunkClosed u ci :
  steps quietly (UndoPrepareToMarkChunkClosed u ci).
Proof.
  unfold UndoPrepareToMarkChunkClosed. pose proof quietly_find_or_read_buffer.
  steps_auto.
Qed.

(** C4.  When [UndoPrepareToInsert] succeeds, the set is attached to a log
    and [begin], the position it reserved, is that log's insert pointer; the
    pointer returned is [begin] advanced, in usable bytes, by 0 when no chunk
    header is needed, by the size of a chunk header when only a chunk header
    is needed, and by that size plus [type_header_size] when a type header is
    needed as well.  The type header is the one the set had before the
    call. *)
Theorem UndoPrepareToInsert_returns_first_data_byte (fuel : nat) (u : nat)
  (record_size : Z) (w w' : World) (s : UndoRecordSet) (urp : Z) :
  sets w !! u = Some s ->
  UndoPrepareToInsert fuel u record_size w = Ok urp w' ->
  exists s' logno sl,
    sets w' !! u = Some s' /\
    slot s' = Some logno /\ slots w' !! logno = Some sl /\
    begin s' = MakeUndoRecPtr logno (meta_insert sl) /\
    need_type_header s' = need_type_header s /\
    type_header_size s' = type_header_size s /\
    urp = UndoRecPtrPlusUsableBytes (begin s')
            (if negb (need_chunk_header s') then 0
             else if negb (need_type_header s') then SizeOfUndoRecordSetChunkHeader
             else SizeOfUndoRecordSetChunkHeader + type_header_size s').
Proof.
  intros Hs Hrun. unfold UndoPrepareToInsert in Hrun.
  bind_inv Hrun r w1 Eloop. destruct r as [[[b hs] ts] ctc].
  pose proof (steps_Ok _ _ _ _ _ (keeps_type_plan_reserve fuel u u record_size (-1))
                Eloop) as Kty.
  apply UndoPrepareToInsert_reserve_Ok in Eloop
    as (s1 & logno & sl & Hs1 & -> & Hslot & Hsl & ->).
  bind_inv Hrun s1' w2 E. apply deref_urs_inv in E as [_ ->].
  bind_inv_ Hrun w2 E. apply Assert_inv in E as [_ ->].
  bind_inv_ Hrun w2 Epin.
  pose proof (steps_Ok _ _ _ _ _ (keeps_plan_pin _ u _ _ _ _ _) Epin) as K2.
  pose proof (steps_Ok _ _ _ _ _ (quietly_pin _ _ _ _ _ _) Epin) as [Q2 _].
  bind_inv Hrun s3 w3 E. apply deref_urs_inv in E as [Hs3 ->].
  bind_inv_ Hrun w3 Elock.
  pose proof (steps_Ok _ _ _ _ _ (keeps_plan_lock_buffers u _) Elock) as K3.
  pose proof (steps_Ok _ _ _ _ _ (quietly_lock_buffers _) Elock) as [Q3 _].
  bind_inv_ Hrun w4 Ebegin. unfold update_urs in Ebegin.
  bind_inv Ebegin s4 w4' E. apply deref_urs_inv in E as [Hs4 ->].
  cbn in Ebegin. inversion Ebegin; subst w4; clear Ebegin.
  bind_inv_ Hrun w5 Eclose.
  assert (K5 : keeps plan_of u
                 (mkWorld (slots w3) (pages w3)
                    (<[u := with_begin (MakeUndoRecPtr logno (meta_insert sl)) s4]>
                       (sets w3))
                    (UndoRecordSetList w3) (CritSectionCount w3) (InRecovery w3)
                    (trace w3)) w5).
  { eapply steps_Ok; [|exact Eclose].
    apply steps_when; try typeclasses eauto.
    apply keeps_plan_UndoPrepareToMarkChunkClosed. }
  assert (Q5 : quietly
                 (mkWorld (slots w3) (pages w3)
                    (<[u := with_begin (MakeUndoRecPtr logno (meta_insert sl)) s4]>
                       (sets w3))
                    (UndoRecordSetList w3) (CritSectionCount w3) (InRecovery w3)
                    (trace w3)) w5).
  { eapply steps_Ok; [|exact Eclose].
    apply steps_when; try typeclasses eauto.
    apply quietly_UndoPrepareToMarkChunkClosed. }
  destruct Q5 as [Q5 _]. cbn [slots] in Q5.
  injection Hrun as <- <-.
  unfold keeps in *. cbn [sets] in K5. rewrite lookup_insert_eq in K5.
  rewrite Hs in Kty. rewrite Hs1 in Kty, K2. rewrite Hs3 in K2.
  rewrite Hs3 in K3. rewrite Hs4 in K3.
  destruct (sets w5 !! u) as [s'|] eqn:Hs'; [|discriminate].
  cbn in Kty, K2, K3, K5.
  injection K5 as Hc Ht Hsz Hsl' Hb.
  injection K3 as Hc3 Ht3 Hsz3 Hsl3 _.
  injection K2 as Hc2 Ht2 Hsz2 Hsl2 _.
  injection Kty as Ht1 Hsz1.
  exists s', logno, sl. repeat split.
  - now rewrite Hsl', Hsl3, Hsl2.
  - now rewrite Q5, Q3, Q2.
  - assumption.
  - now rewrite Ht, Ht3, Ht2.
  - now rewrite Hsz, Hsz3, Hsz2.
  - rewrite Hb. f_equal. unfold planned_header_size.
    now rewrite Hc, Ht, Hsz, Hc3, Ht3, Hsz3, Hc2, Ht2, Hsz2.
Qed.

End Preparing.

(** ** The chunk header an insertion writes *)

Section ChunkHeaders.
Context `{UndoLayout}.

Lemma previous_chunk_of_consecutive cs ci cj :
  previous_chunk_of (cs ++ [ci; cj])
  = MakeUndoRecPtr (chunk_slot ci) (chunk_header_offset ci).
Proof. unfold previous_chunk_of. now rewrite rev_app_distr. Qed.

Lemma previous_chunk_of_first cs :
  (length cs <= 1)%nat -> previous_chunk_of cs = InvalidUndoRecPtr.
Proof.
  destruct cs as [|c [|c' cs]]; cbn [length]; intros Hl; try reflexivity. lia.
Qed.

(** The header [UndoInsert] builds is the one the specification describes. *)
Lemma UndoInsert_chunk_header_eq s :
  UndoInsert_chunk_header s = ret (open_chunk_header s).
Proof.
  unfold UndoInsert_chunk_header, open_chunk_header, nchunks.
  destruct (rev (chunks s)) as [|cj [|ci r]] eqn:E;
    apply (f_equal (@rev _)) in E; rewrite rev_involutive in E; cbn in E;
    rewrite <- ?app_assoc in E; cbn [app] in E; rewrite E.
  - reflexivity.
  - reflexivity.
  - rewrite previous_chunk_of_consecutive, length_app. cbn [length].
    destruct (Z.ltb_spec 1 (Z.of_nat (length (rev r) + 2))) as [_ | ?]; [|lia].
    replace (Z.to_nat (Z.of_nat (length (rev r) + 2) - 2))
      with (length (rev r) + 0)%nat by lia.
    rewrite lookup_app_r by lia.
    replace (length (rev r) + 0 - length (rev r))%nat with 0%nat by lia.
    reflexivity.
Qed.

Lemma bind_UndoInsert_chunk_header {B} s (k : UndoRecordSetChunkHeader -> M B) :
  bind (UndoInsert_chunk_header s) k = k (open_chunk_header s).
Proof. rewrite UndoInsert_chunk_header_eq. reflexivity. Qed.

Section Stamping.
Variable hdr : UndoRecordSetChunkHeader.

Lemma stamps_UndoInsert_headers fuel u ths ahs bi po io :
  steps (emits (stamps hdr)) (UndoInsert_headers fuel u hdr ths ahs bi po io).
Proof.
  revert bi po io. induction fuel as [|fuel IH]; intros;
    cbn [UndoInsert_headers]; steps_auto.
Qed.

Lemma stamps_UndoInsert_record fuel u rec rsz bi po io :
  steps (emits (stamps hdr)) (UndoInsert_record fuel u rec rsz bi po io).
Proof.
  revert bi po io. induction fuel as [|fuel IH]; intros;
    cbn [UndoInsert_record]; steps_auto.
Qed.

Lemma stamps_UndoMarkChunkClosed_loop u ci fuel x po doff sz :
  steps (emits (stamps hdr)) (UndoMarkChunkClosed_loop u ci fuel x po doff sz).
Proof.
  revert x po doff. induction fuel as [|fuel IH]; intros;
    cbn [UndoMarkChunkClosed_loop]; steps_auto.
Qed.

End Stamping.

(** The first pass of the header loop hands the header to the page codec. *)
Lemma UndoInsert_headers_writes fuel u hdr ths ahs bi po io w r w1 :
  UndoInsert_headers fuel u hdr ths ahs bi po io w = Ok r w1 ->
  exists evs b th cs,
    trace w1 = trace w ++ evs /\
    EvUndoPageInsertHeader b po io hdr ths th cs ∈ evs.
Proof.
  destruct fuel as [|fuel]; [discriminate|]. cbn [UndoInsert_headers]. intros Hrun.
  bind_inv Hrun s w0 E. apply deref_urs_inv in E as [Hs ->].
  destruct (nbuffers s <=? bi); [discriminate|].
  bind_inv_ Hrun w2 E1. bind_inv_ Hrun w3 E2. bind_inv_ Hrun w4 E3.
  bind_inv Hrun ubuf w5 E4. bind_inv Hrun n w6 E5.
  assert (Q : emits (stamps hdr) w w5).
  { eapply frame_trans; [eapply steps_Ok; [|exact E1]; steps_auto|].
    eapply frame_trans; [eapply steps_Ok; [|exact E2]; steps_auto|].
    eapply frame_trans; [eapply steps_Ok; [|exact E3]; steps_auto|].
    eapply steps_Ok; [|exact E4]. steps_auto. }
  unfold UndoPageInsertHeader in E5. rewrite bind_BufferGetPage in E5.
  destruct (UndoPageInsertHeader_page _ _ _ _ _ _ _) as [p' n'].
  cbn in E5. injection E5 as <- <-.
  assert (Q' : emits (stamps hdr)
                 (mkWorld (slots w5) (<[buffer ubuf := p']> (pages w5)) (sets w5)
                    (UndoRecordSetList w5) (CritSectionCount w5) (InRecovery w5)
                    (trace w5 ++ [EvUndoPageInsertHeader (buffer ubuf) po io hdr ths
                                    (type_header s) (chunk_start s)])) w1).
  { eapply steps_Ok; [|exact Hrun].
    pose proof (stamps_UndoInsert_headers hdr). steps_auto. }
  destruct Q as (e1 & Ht1 & _). destruct Q' as (e2 & Ht2 & _). cbn [trace] in Ht2.
  exists (e1 ++ [EvUndoPageInsertHeader (buffer ubuf) po io hdr ths
                   (type_header s) (chunk_start s)] ++ e2), (buffer ubuf),
    (type_header s), (chunk_start s).
  split.
  - rewrite Ht2, Ht1, <- !app_assoc. reflexivity.
  - rewrite !elem_of_app, elem_of_cons. auto.
Qed.

(** C3.  Every chunk header [UndoInsert] gives to the page codec, whether
    the insertion then succeeds or fails, has size 0, and as previous chunk
    the invalid pointer when the set has one chunk, and otherwise
    [MakeUndoRecPtr] of the slot and the header offset of the chunk before the
    last: for chunks [.. ci; cj], the header written for [cj] points at the
    header of [ci].  A successful insertion into a set that needs a chunk
    header does write this header, from its first byte. *)
Theorem UndoInsert_stamps_open_chunk_header (w : World) (u : nat)
  (s : UndoRecordSet) (record_data : list Z) (record_size : Z) :
  sets w !! u = Some s ->
  emits (stamps (open_chunk_header s)) w
    (world_of (UndoInsert u record_data record_size w)) /\
  (need_chunk_header s = true ->
   forall w', UndoInsert u record_data record_size w = Ok tt w' ->
     exists evs b po ths th cs,
       trace w' = trace w ++ evs /\
       EvUndoPageInsertHeader b po 0 (open_chunk_header s) ths th cs ∈ evs) /\
  ch_size (open_chunk_header s) = 0 /\
  ((length (chunks s) <= 1)%nat ->
   ch_previous_chunk (open_chunk_header s) = InvalidUndoRecPtr) /\
  (forall cs ci cj,
     chunks s = cs ++ [ci; cj] ->
     ch_previous_chunk (open_chunk_header s)
     = MakeUndoRecPtr (chunk_slot ci) (chunk_header_offset ci)).
Proof.
  intros Hs.
  pose proof (stamps_UndoInsert_headers (open_chunk_header s)) as Hh.
  pose proof (stamps_UndoInsert_record (open_chunk_header s)) as Hr.
  pose proof (stamps_UndoMarkChunkClosed_loop (open_chunk_header s)) as Hc.
  repeat split.
  - unfold UndoInsert. rewrite bind_deref_urs, Hs.
    rewrite bind_UndoInsert_chunk_header.
    match goal with
    | |- emits ?P w (world_of (?m w)) =>
        enough (Hst : steps (emits P) m) by apply Hst
    end.
    steps_auto.
  - intros Hneed w' Hrun. unfold UndoInsert in Hrun.
    rewrite bind_deref_urs, Hs, Hneed in Hrun.
    rewrite bind_UndoInsert_chunk_header in Hrun.
    bind_inv_ Hrun w0 E. injection E as <- <-.
    bind_inv_ Hrun w0 E. apply Assert_inv in E as [_ ->].
    bind_inv_ Hrun w0 E. apply Assert_inv in E as [_ ->].
    destruct (slot s) as [logno|]; [|discriminate].
    bind_inv_ Hrun w0 E. apply Assert_inv in E as [_ ->].
    bind_inv_ Hrun w0 E. apply Assert_inv in E as [_ ->].
    bind_inv Hrun pos w1 E1.
    apply UndoInsert_headers_writes in E1 as (e1 & b & th & cs & Ht1 & Hin).
    assert (Q : emits (stamps (open_chunk_header s)) w1 w').
    { eapply steps_Ok; [|exact Hrun]. steps_auto. }
    destruct Q as (e2 & Ht2 & _).
    exists (e1 ++ e2), b, (begin s mod BLCKSZ),
      (if need_type_header s then type_header_size s else 0), th, cs.
    split.
    + rewrite Ht2, Ht1, <- app_assoc. reflexivity.
    + rewrite elem_of_app. left. exact Hin.
  - intros Hl. cbn. now apply previous_chunk_of_first.
  - intros cs ci cj E. cbn. rewrite E. apply previous_chunk_of_consecutive.
Qed.

End ChunkHeaders.

(** ** Preparing to close pins the header buffers *)

Section PreparingToClose.
Context `{UndoLayout}.

Lemma find_buffer_Some bs logno block :
  forall i0 i,
    find_buffer bs logno block i0 = Some i ->
    i0 <= i /\ is_Some (bs !! Z.to_nat (i - i0)).
Proof.
  induction bs as [|ub bs IH]; intros i0 i; cbn [find_buffer]; [discriminate|].
  destruct (_ && _).
  - intros [= <-]. split; [lia|]. rewrite Z.sub_diag. cbn. eauto.
  - intros E. apply IH in E as [Hle [x Hx]]. split; [lia|].
    replace (Z.to_nat (i - i0)) with (S (Z.to_nat (i - (i0 + 1)))) by lia.
    cbn. eauto.
Qed.

Lemma update_chunk_Ok u i f s c w :
  sets w !! u = Some s -> 0 <= i -> chunks s !! Z.to_nat i = Some c ->
  update_chunk u i f w =
  Ok tt (mkWorld (slots w) (pages w)
           (<[u := with_chunks (<[Z.to_nat i := f c]> (chunks s)) s]> (sets w))
           (UndoRecordSetList w) (CritSectionCount w) (InRecovery w) (trace w)).
Proof.
  intros Hs Hi Hc. unfold update_chunk.
  rewrite (bind_Ok _ _ _ _ _ (chunk_at_Ok _ _ _ _ _ Hs Hi Hc)).
  now rewrite (update_urs_Ok _ _ _ _ Hs).
Qed.

Lemma keeps_set_ReadBufferWithoutRelcache u l blk rbm :
  steps (keeps (fun s => s) u) (ReadBufferWithoutRelcache l blk rbm).
Proof. unfold ReadBufferWithoutRelcache. steps_auto. Qed.

(** [find_or_read_buffer] returns the index of a pinned buffer; it may pin
    one more, and leaves the set's chunks alone. *)
Lemma find_or_read_buffer_Ok u logno block s w i w' :
  sets w !! u = Some s ->
  find_or_read_buffer u logno block w = Ok i w' ->
  exists s',
    sets w' !! u = Some s' /\
    (exists more, buffers s' = buffers s ++ more) /\
    chunks s' = chunks s /\ state s' = state s /\
    0 <= i /\ is_Some (buffers s' !! Z.to_nat i).
Proof.
  intros Hs Hrun. unfold find_or_read_buffer in Hrun.
  rewrite bind_deref_urs, Hs in Hrun.
  destruct (find_buffer (buffers s) logno block 0) as [j|] eqn:Efind.
  - injection Hrun as <- <-.
    apply find_buffer_Some in Efind as [Hj Hub]. rewrite Z.sub_0_r in Hub.
    exists s. repeat split; auto. exists []. now rewrite app_nil_r.
  - bind_inv Hrun b w2 E2. bind_inv_ Hrun w3 E3. bind_inv_ Hrun w4 E4.
    injection Hrun as <- <-.
    assert (K : keeps (fun s => s) u w w3).
    { eapply frame_trans.
      - eapply steps_Ok; [|exact E2]. apply keeps_set_ReadBufferWithoutRelcache.
      - eapply steps_Ok; [|exact E3]. unfold LockBuffer. steps_auto. }
    unfold keeps in K. rewrite Hs in K.
    destruct (sets w3 !! u) as [s3|] eqn:Hs3; [|discriminate].
    injection K as ->.
    rewrite (update_urs_Ok _ _ _ _ Hs3) in E4. injection E4 as <- <-.
    eexists. cbn [sets]. rewrite lookup_insert_eq. split; [reflexivity|].
    cbn [buffers chunks state with_buffers]. repeat split; eauto.
    + unfold nbuffers. lia.
    + unfold nbuffers. rewrite Nat2Z.id, lookup_app_r, Nat.sub_diag by lia.
      cbn. eauto.
Qed.

(** After [UndoPrepareToMarkChunkClosed] the chunk's header buffers are
    pinned, as [UndoMarkChunkClosed] needs them; the chunk is where it was. *)
Lemma UndoPrepareToMarkChunkClosed_pins u ci s c w w1 :
  sets w !! u = Some s -> 0 <= ci -> chunks s !! Z.to_nat ci = Some c ->
  UndoPrepareToMarkChunkClosed u ci w = Ok tt w1 ->
  exists s1 c1 b0 b1,
    sets w1 !! u = Some s1 /\
    chunks s1 = <[Z.to_nat ci := c1]> (chunks s) /\
    chunk_slot c1 = chunk_slot c /\
    chunk_header_offset c1 = chunk_header_offset c /\
    state s1 = state s /\
    header_buffers_pinned s1 c1 b0 b1.
Proof.
  intros Hs Hci Hc Hrun. unfold UndoPrepareToMarkChunkClosed in Hrun.
  assert (Hlt : (Z.to_nat ci < length (chunks s))%nat)
    by (eapply lookup_lt_Some; eassumption).
  rewrite (bind_Ok _ _ _ _ _ (chunk_at_Ok _ _ _ _ _ Hs Hci Hc)) in Hrun.
  bind_inv Hrun i0 w2 E0.
  apply (find_or_read_buffer_Ok _ _ _ s) in E0
    as (s2 & Hs2 & [more Hb2] & Hc2 & Hst2 & Hi0 & [ub0 Hub0]); [|exact Hs].
  bind_inv_ Hrun w3 E3.
  rewrite (update_chunk_Ok _ _ _ s2 c) in E3 by (rewrite ?Hc2; assumption).
  injection E3 as <- <-.
  set (c3 := with_buffer_index (i0, snd (chunk_header_buffer_index c)) c) in *.
  set (s3 := with_chunks (<[Z.to_nat ci := c3]> (chunks s2)) s2) in *.
  assert (Hc3 : chunks s3 !! Z.to_nat ci = Some c3).
  { subst s3. cbn [chunks with_chunks]. rewrite Hc2.
    now apply list_lookup_insert_eq. }
  revert Hrun.
  destruct (Z.leb_spec (chunk_header_offset c mod BLCKSZ) (BLCKSZ - sizeof_size))
    as [Hfit | Hstraddle]; intros Hrun.
  - rewrite (update_chunk_Ok _ _ _ s3 c3) in Hrun
      by first [assumption | cbn [sets]; apply lookup_insert_eq].
    injection Hrun as <-.
    eexists _, _, (buffer ub0), (buffer ub0). cbn [sets].
    rewrite lookup_insert_eq. split; [reflexivity|].
    subst s3 c3. cbn. rewrite Hc2, list_insert_insert_eq.
    repeat split; auto.
    + cbn [buffers with_chunks]. now rewrite Hub0.
    + exfalso. cbn [chunk_header_offset with_buffer_index] in *.
      unfold sizeof_size in *. lia.
    + exfalso. cbn [chunk_header_offset with_buffer_index] in *.
      unfold sizeof_size in *. lia.
  - bind_inv Hrun i1 w4 E1.
    apply (find_or_read_buffer_Ok _ _ _ s3) in E1
      as (s4 & Hs4 & [more' Hb4] & Hc4 & Hst4 & Hi1 & [ub1 Hub1]);
      [|cbn [sets]; apply lookup_insert_eq].
    rewrite (update_chunk_Ok _ _ _ s4 c3) in Hrun by (rewrite ?Hc4; assumption).
    injection Hrun as <-.
    eexists _, _, (buffer ub0), (buffer ub1). cbn [sets].
    rewrite lookup_insert_eq. split; [reflexivity|].
    rewrite Hc4. subst s3 c3. cbn. rewrite Hc2, list_insert_insert_eq.
    cbn [buffers chunks state with_chunks] in Hb4, Hc4, Hst4.
    repeat split; auto.
    + congruence.
    + cbn [buffers with_chunks]. rewrite Hb4.
      erewrite lookup_app_l_Some by eassumption. reflexivity.
    + cbn [buffers with_chunks]. now rewrite Hub1.
Qed.

End PreparingToClose.

(** * Further properties of the code *)

(** ** How sets evolve *)

#[export] Instance sets_evolve_frame P `{!PreOrder P} : Frame (sets_evolve P).
Proof.
  split.
  - intros w. split; [reflexivity|]. intros u.
    destruct (sets w !! u); constructor. reflexivity.
  - intros w1 w2 w3 [Hl1 H1] [Hl2 H2]. split; [congruence|]. intros u.
    specialize (H1 u). specialize (H2 u).
    destruct H1; inversion H2; subst; constructor. etransitivity; eassumption.
Qed.

#[export] Instance settles_preorder : PreOrder settles.
Proof.
  split.
  - intros s. unfold settles. auto.
  - intros s1 s2 s3 (Hn1 & Hc1 & Hd1) (Hn2 & Hc2 & Hd2). unfold settles.
    repeat split; [congruence | congruence | auto].
Qed.

Lemma evolve_modify P `{!PreOrder P} (f : World -> World) :
  (forall w, sets (f w) = sets w) ->
  (forall w, UndoRecordSetList (f w) = UndoRecordSetList w) ->
  steps (sets_evolve P) (modify f).
Proof.
  intros Hs Hl w. cbn. split; [apply Hl|]. intros u. rewrite Hs.
  destruct (sets w !! u); constructor. reflexivity.
Qed.

Lemma evolve_emit P `{!PreOrder P} e : steps (sets_evolve P) (emit e).
Proof. now apply evolve_modify. Qed.
Lemma evolve_set_slots P `{!PreOrder P} f : steps (sets_evolve P) (set_slots f).
Proof. now apply evolve_modify. Qed.
Lemma evolve_set_pages P `{!PreOrder P} f : steps (sets_evolve P) (set_pages f).
Proof. now apply evolve_modify. Qed.

Lemma evolve_update_urs P `{!PreOrder P} u f :
  (forall s, P s (f s)) -> steps (sets_evolve P) (update_urs u f).
Proof.
  intros Hf w. unfold update_urs. rewrite bind_deref_urs.
  destruct (sets w !! u) as [s|] eqn:E; [|apply frame_refl].
  split; [reflexivity|]. intros u'. cbn.
  destruct (decide (u' = u)) as [-> | Hne].
  - rewrite lookup_insert_eq, E. constructor. apply Hf.
  - rewrite lookup_insert_ne by congruence.
    destruct (sets w !! u'); constructor. reflexivity.
Qed.

#[export] Hint Extern 1 (PreOrder _) => typeclasses eauto : steps.
#[export] Hint Resolve evolve_emit evolve_set_slots evolve_set_pages : steps.
#[export] Hint Extern 1 (steps (sets_evolve settles) (update_urs _ _)) =>
  apply evolve_update_urs; [typeclasses eauto|];
  intros ?; unfold settles; cbn; rewrite ?length_insert;
  repeat split; solve [reflexivity | discriminate | auto] : steps.

Lemma steps_for_each R `{!Frame R} {A} (xs : list A) (body : A -> M unit) :
  (forall x, steps R (body x)) -> steps R (for_each xs body).
Proof.
  intros Hb. induction xs as [|x xs IH]; cbn [for_each].
  - apply steps_ret; assumption.
  - apply steps_bind; [assumption | apply Hb | intros _; apply IH].
Qed.

Section Settling.
Context `{UndoLayout}.

Lemma settles_UndoPrepareToMarkClosed u :
  steps (sets_evolve settles) (UndoPrepareToMarkClosed u).
Proof. unfold UndoPrepareToMarkClosed. steps_auto. Qed.

Lemma settles_UndoMarkClosed u : steps (sets_evolve settles) (UndoMarkClosed u).
Proof.
  assert (Hl : forall ci fuel x po doff sz,
             steps (sets_evolve settles)
               (UndoMarkChunkClosed_loop u ci fuel x po doff sz)).
  { intros ci fuel. induction fuel as [|fuel IH]; intros;
      cbn [UndoMarkChunkClosed_loop]; steps_auto. }
  unfold UndoMarkClosed. steps_auto.
Qed.

End Settling.

(** ** The sets of a transaction level *)

Section TransactionLevels.
Context `{UndoLayout}.

Lemma world_eta w :
  mkWorld (slots w) (pages w) (sets w) (UndoRecordSetList w)
    (CritSectionCount w) (InRecovery w) (trace w) = w.
Proof. now destruct w. Qed.

Lemma forget_buffers_pass l :
  forall w,
    (forall u, u ∈ l -> is_Some (sets w !! u)) ->
    exists m,
      for_each l (fun u => update_urs u (with_buffers [])) w
      = Ok tt (mkWorld (slots w) (pages w) m (UndoRecordSetList w)
                 (CritSectionCount w) (InRecovery w) (trace w)) /\
      forall u, m !! u = if bool_decide (u ∈ l)
                         then with_buffers [] <$> sets w !! u
                         else sets w !! u.
Proof.
  induction l as [|x l IH]; intros w Hlive; cbn [for_each].
  - exists (sets w). rewrite world_eta. split; [reflexivity|]. intros u.
    rewrite bool_decide_eq_false_2; [reflexivity | apply not_elem_of_nil].
  - destruct (Hlive x) as [s Hs]; [left|].
    rewrite (bind_Ok _ _ _ _ _ (update_urs_Ok _ _ _ _ Hs)).
    edestruct (IH (mkWorld (slots w) (pages w)
                     (<[x := with_buffers [] s]> (sets w))
                     (UndoRecordSetList w) (CritSectionCount w) (InRecovery w)
                     (trace w))) as (m & Hrun & Hm).
    { intros u Hu. cbn [sets]. destruct (decide (u = x)) as [-> | Hne].
      - rewrite lookup_insert_eq. eauto.
      - rewrite lookup_insert_ne by congruence. apply Hlive. now right. }
    exists m. split; [exact Hrun|]. intros u. rewrite Hm. cbn [sets].
    destruct (decide (u = x)) as [-> | Hne].
    + rewrite lookup_insert_eq, Hs, (bool_decide_eq_true_2 (x ∈ x :: l)) by left.
      now destruct (bool_decide (x ∈ l)).
    + rewrite lookup_insert_ne by congruence.
      destruct (bool_decide_reflect (u ∈ l)) as [Hin | Hnin].
      * rewrite bool_decide_eq_true_2; [reflexivity | now right].
      * rewrite bool_decide_eq_false_2; [reflexivity|].
        intros [?|?]%elem_of_cons; auto.
Qed.

(** X1.  [UndoResetInsertion] forgets the buffers of every listed set and
    makes no call at all: no buffer is released.  A later [UndoRelease] of
    such a set therefore releases nothing. *)
Theorem UndoResetInsertion_forgets_without_release (w : World) :
  (forall u, u ∈ UndoRecordSetList w -> is_Some (sets w !! u)) ->
  exists w',
    UndoResetInsertion w = Ok tt w' /\
    trace w' = trace w /\
    (forall u s, u ∈ UndoRecordSetList w -> sets w !! u = Some s ->
                 sets w' !! u = Some (with_buffers [] s)) /\
    (forall u, u ∉ UndoRecordSetList w -> sets w' !! u = sets w !! u) /\
    (forall u, u ∈ UndoRecordSetList w -> UndoRelease u w' = Ok tt w').
Proof.
  intros Hlive. unfold UndoResetInsertion. rewrite bind_get.
  destruct (forget_buffers_pass _ w Hlive) as (m & Hrun & Hm).
  eexists. split; [exact Hrun|]. cbn [trace sets]. split; [reflexivity|].
  repeat split.
  - intros u s Hu Hs. now rewrite Hm, bool_decide_eq_true_2, Hs.
  - intros u Hu. now rewrite Hm, bool_decide_eq_false_2.
  - intros u Hu. destruct (Hlive u Hu) as [s Hs].
    assert (Hmu : m !! u = Some (with_buffers [] s))
      by now rewrite Hm, bool_decide_eq_true_2, Hs.
    rewrite (UndoRelease_Ok _ (with_buffers [] s)) by exact Hmu.
    cbn. rewrite app_nil_r. now rewrite insert_id.
Qed.

(** *** Closing a level *)

Lemma UndoMarkClosed_closes u w w' :
  UndoMarkClosed u w = Ok tt w' ->
  exists s', sets w' !! u = Some s' /\ state s' <> URS_STATE_DIRTY.
Proof.
  unfold UndoMarkClosed. intros Hrun.
  bind_inv Hrun s w0 E. apply deref_urs_inv in E as [Hs ->].
  bind_inv_ Hrun w0 E. apply Assert_inv in E as [_ ->].
  bind_inv_ Hrun w0 E. apply Assert_inv in E as [_ ->].
  destruct (bool_decide_reflect (state s = URS_STATE_DIRTY)) as [Hd | Hd].
  - bind_inv_ Hrun w1 E. unfold update_urs in Hrun.
    bind_inv Hrun s1 w2 E1. apply deref_urs_inv in E1 as [Hs1 ->].
    cbn in Hrun. injection Hrun as <-. cbn [sets].
    rewrite lookup_insert_eq. eexists. split; [reflexivity|]. discriminate.
  - injection Hrun as <-. eauto.
Qed.

Lemma mark_closed_pass level l :
  forall w w',
    for_each l (fun u =>
      let* urs := deref_urs u in
      when ((level <=? nestingLevel urs)
            && bool_decide (state urs = URS_STATE_DIRTY))
        (UndoMarkClosed u)) w = Ok tt w' ->
    sets_evolve settles w w' /\
    forall u, u ∈ l ->
      exists s', sets w' !! u = Some s' /\
                 (at_level level s' -> state s' <> URS_STATE_DIRTY).
Proof.
  pose proof settles_UndoMarkClosed as HM.
  induction l as [|x l IH]; intros w w' Hrun; cbn [for_each] in Hrun.
  - injection Hrun as <-. split; [apply frame_refl|].
    intros u Hu. now apply not_elem_of_nil in Hu.
  - bind_inv Hrun r w1 E1. destruct r. apply IH in Hrun as [Hev Hl].
    assert (Hev1 : sets_evolve settles w w1).
    { eapply steps_Ok; [|exact E1]. steps_auto. }
    split; [eapply frame_trans; eassumption|].
    intros u [-> | Hu]%elem_of_cons; [|auto].
    bind_inv E1 s w0 E. apply deref_urs_inv in E as [Hs ->].
    assert (Hx1 : exists s1, sets w1 !! x = Some s1 /\
                   (at_level level s1 -> state s1 <> URS_STATE_DIRTY)).
    { unfold at_level.
      destruct (Z.leb_spec level (nestingLevel s)) as [Hlv | Hlv];
        destruct (bool_decide_reflect (state s = URS_STATE_DIRTY)) as [Hd | Hd];
        cbn in E1.
      - apply UndoMarkClosed_closes in E1 as (s1 & Hs1 & Hn). eauto.
      - injection E1 as <-. eauto.
      - injection E1 as <-. exists s. split; [assumption | lia].
      - injection E1 as <-. eauto. }
    destruct Hx1 as (s1 & Hs1 & Hn1).
    destruct Hev as [_ Hev]. specialize (Hev x). rewrite Hs1 in Hev.
    inversion Hev as [? s' (Hlv & _ & Hdirty) |]; subst.
    exists s'. split; [reflexivity|]. unfold at_level in *.
    intros Hat Hd. apply Hn1; [lia | auto].
Qed.

(** X2.  After a successful [UndoMarkClosedForXactLevel] no listed set of
    the level is DIRTY; the list is as it was, and so are the sets' levels
    and chunk counts. *)
Theorem UndoMarkClosedForXactLevel_leaves_none_dirty (level : Z) (w w' : World) :
  UndoMarkClosedForXactLevel level w = Ok tt w' ->
  sets_evolve settles w w' /\
  forall u, ~ dirty_at_level level w' u.
Proof.
  unfold UndoMarkClosedForXactLevel. rewrite bind_get. intros Hrun.
  apply mark_closed_pass in Hrun as [Hev Hl]. split; [exact Hev|].
  intros u (Hu & s & Hs & Hat & Hd). destruct Hev as [Hlist _].
  rewrite Hlist in Hu. destruct (Hl u Hu) as (s' & Hs' & Hn).
  rewrite Hs in Hs'. injection Hs' as <-. now apply Hn.
Qed.

Lemma idle_pass (body : nat -> M unit) l w :
  (forall u, u ∈ l -> body u w = Ok tt w) -> for_each l body w = Ok tt w.
Proof.
  induction l as [|x l IH]; intros Hb; cbn [for_each]; [reflexivity|].
  rewrite (bind_Ok _ _ _ _ _ (Hb x ltac:(left))). apply IH.
  intros u Hu. apply Hb. now right.
Qed.

Section Registering.
Context `{XLogLayout}.

Lemma UndoXLogRegisterBuffers_pure u first_block_id w calls w' :
  UndoXLogRegisterBuffers u first_block_id w = Ok calls w' -> w' = w.
Proof.
  unfold UndoXLogRegisterBuffers. rewrite bind_deref_urs.
  destruct (sets w !! u); [|discriminate].
  destruct (negb _); now intros [= _ <-].
Qed.

Lemma UndoXLogRegisterBuffersForXactLevel_loop_pure level first_block_id l :
  forall w calls w',
    UndoXLogRegisterBuffersForXactLevel_loop level first_block_id l w
    = Ok calls w' -> w' = w.
Proof.
  induction l as [|x l IH]; intros w calls w' Hrun;
    cbn [UndoXLogRegisterBuffersForXactLevel_loop] in Hrun.
  - now injection Hrun as _ <-.
  - bind_inv Hrun s w0 E. apply deref_urs_inv in E as [_ ->].
    bind_inv Hrun c w1 E1. bind_inv Hrun more w2 E2.
    injection Hrun as _ <-. apply IH in E2 as ->.
    destruct (_ && _).
    + now apply UndoXLogRegisterBuffers_pure in E1.
    + now injection E1 as _ <-.
Qed.

(** X3.  The sequence of [UndoCloseAndDestroyForXactLevel]: once
    [UndoMarkClosedForXactLevel] has closed the sets of a level, and their
    buffers have been registered, [UndoPageSetLSNForXactLevel] for the same
    level finds no DIRTY set and sets no page LSN: it leaves the world as it
    is. *)
Theorem UndoPageSetLSNForXactLevel_after_closing (level first_block_id lsn : Z)
  (w w1 w2 : World) (calls : list XLogCall) :
  UndoMarkClosedForXactLevel level w = Ok tt w1 ->
  UndoXLogRegisterBuffersForXactLevel level first_block_id w1 = Ok calls w2 ->
  w2 = w1 /\ UndoPageSetLSNForXactLevel level lsn w2 = Ok tt w2.
Proof.
  intros Hmark Hreg.
  unfold UndoXLogRegisterBuffersForXactLevel in Hreg. rewrite bind_get in Hreg.
  apply UndoXLogRegisterBuffersForXactLevel_loop_pure in Hreg as ->.
  split; [reflexivity|].
  unfold UndoMarkClosedForXactLevel in Hmark. rewrite bind_get in Hmark.
  apply mark_closed_pass in Hmark as [[Hlist _] Hl].
  unfold UndoPageSetLSNForXactLevel. rewrite bind_get. apply idle_pass.
  intros u Hu. rewrite Hlist in Hu. destruct (Hl u Hu) as (s' & Hs' & Hn).
  rewrite bind_deref_urs, Hs'. unfold at_level in Hn.
  destruct (Z.leb_spec level (nestingLevel s')) as [Hlv | Hlv]; [|reflexivity].
  rewrite bool_decide_eq_false_2 by auto. reflexivity.
Qed.

End Registering.

End TransactionLevels.

(** ** Destroying the sets of a transaction level *)

Section DestroyingLevels.
Context `{UndoLayout}.

Lemma UndoDestroy_Ok u s w :
  sets w !! u = Some s -> state s <> URS_STATE_DIRTY ->
  UndoDestroy u w =
  Ok tt (mkWorld (slots w) (pages w) (delete u (sets w))
           (filter (fun x => x <> u) (UndoRecordSetList w))
           (CritSectionCount w) (InRecovery w)
           (trace w ++ release_calls (buffers s) ++ put_calls (chunks s)
              ++ [EvSlistDelete u; EvPfree u])).
Proof.
  intros Hs Hst. unfold UndoDestroy.
  mstep ltac:(apply UndoRelease_Ok; exact Hs).
  mstep ltac:(apply deref_urs_Ok; cbn; apply lookup_insert_eq).
  cbn [state with_buffers]. rewrite bool_decide_eq_false_2 by assumption.
  mstep ltac:(apply put_slots_Ok). cbn.
  rewrite delete_insert_eq. unfold emit, modify, put_calls. cbn.
  now rewrite <- !app_assoc.
Qed.

Lemma UndoDestroy_dirty u s w :
  sets w !! u = Some s -> state s = URS_STATE_DIRTY ->
  UndoDestroy u w =
  Raise PANIC "dirty undo record set not closed before release"
    (mkWorld (slots w) (pages w) (<[u := with_buffers [] s]> (sets w))
       (UndoRecordSetList w) (CritSectionCount w) (InRecovery w)
       (trace w ++ release_calls (buffers s))).
Proof.
  intros Hs Hst. unfold UndoDestroy.
  mstep ltac:(apply UndoRelease_Ok; exact Hs).
  mstep ltac:(apply deref_urs_Ok; cbn; apply lookup_insert_eq).
  cbn [state with_buffers]. now rewrite bool_decide_eq_true_2 by assumption.
Qed.

Lemma filter_all {A} (P : A -> Prop) `{!forall x, Decision (P x)} (l : list A) :
  (forall x, x ∈ l -> P x) -> filter P l = l.
Proof.
  induction l as [|x l IH]; intros HP; [reflexivity|].
  rewrite filter_cons_True by (apply HP; left). f_equal. apply IH.
  intros y Hy. apply HP. now right.
Qed.

(** The inner loop finds the first listed set of the level. *)
Lemma first_at_level_spec level l w :
  (forall u, u ∈ l -> is_Some (sets w !! u)) ->
  (first_at_level level l w = Ok None w /\
   forall u, u ∈ l -> below_level level w u = true) \/
  (exists u s, first_at_level level l w = Ok (Some u) w /\ u ∈ l /\
               sets w !! u = Some s /\ at_level level s).
Proof.
  induction l as [|x l IH]; intros Hlive; cbn [first_at_level].
  - left. split; [reflexivity|]. intros u Hu. now apply not_elem_of_nil in Hu.
  - destruct (Hlive x) as [s Hs]; [left|]. rewrite bind_deref_urs, Hs.
    destruct (Z.leb_spec level (nestingLevel s)) as [Hlv | Hlv].
    + right. exists x, s. repeat split; [left | assumption | exact Hlv].
    + destruct IH as [[E Hall] | (u & s' & E & Hu & Hs' & Hat)].
      * intros u Hu. apply Hlive. now right.
      * left. split; [exact E|]. intros u [-> | Hu]%elem_of_cons; [|auto].
        unfold below_level. rewrite Hs. now apply Z.ltb_lt.
      * right. exists u, s'. repeat split; [exact E | now right | assumption
                                            | assumption].
Qed.

Lemma below_level_at_level level w u s :
  sets w !! u = Some s -> at_level level s -> below_level level w u = false.
Proof.
  intros Hs Hat. unfold below_level, at_level in *. rewrite Hs.
  apply Z.ltb_ge. exact Hat.
Qed.

(** What the [while (restart)] loop comes to: every listed set of the level
    is destroyed, unless one of them is DIRTY. *)
Lemma destroy_loop_outcome level :
  forall fuel w,
    listed_sets_live w ->
    (length (UndoRecordSetList w) < fuel)%nat ->
    match UndoDestroyForXactLevel_loop fuel level w with
    | Ok _ w' =>
        (forall u, ~ dirty_at_level level w u) /\
        UndoRecordSetList w'
        = filter (fun u => Is_true (below_level level w u)) (UndoRecordSetList w) /\
        (forall u, sets w' !! u =
                   if bool_decide (u ∈ UndoRecordSetList w)
                      && negb (below_level level w u)
                   then None else sets w !! u)
    | Raise l msg w' =>
        l = PANIC /\
        msg = "dirty undo record set not closed before release" /\
        (exists u, dirty_at_level level w u) /\
        (forall u, dirty_at_level level w u -> u ∈ UndoRecordSetList w' /\
                                              is_Some (sets w' !! u))
    end.
Proof.
  induction fuel as [|fuel IH]; intros w [Hnd Hlive] Hfuel; [lia|].
  cbn [UndoDestroyForXactLevel_loop]. rewrite bind_get.
  destruct (first_at_level_spec level _ w Hlive)
    as [[E Hall] | (u & s & E & Hu & Hs & Hat)];
    rewrite (bind_Ok _ _ _ _ _ E).
  - (* no set of the level is left *)
    repeat split.
    + intros u (Hin & s & Hs & Hat & _).
      specialize (Hall u Hin).
      rewrite (below_level_at_level _ _ _ _ Hs Hat) in Hall. discriminate.
    + symmetry. apply filter_all. intros u Hu. now rewrite Hall.
    + intros u. destruct (bool_decide_reflect (u ∈ UndoRecordSetList w))
        as [Hin | Hnin]; [|reflexivity].
      now rewrite Hall.
  - destruct (decide (state s = URS_STATE_DIRTY)) as [Hd | Hd].
    + (* the first set of the level is DIRTY *)
      rewrite (bind_Raise _ _ _ _ _ _ (UndoDestroy_dirty _ _ _ Hs Hd)).
      split; [reflexivity|]. split; [reflexivity|]. split.
      * exists u. split; [assumption|]. eauto.
      * intros y (Hy & s' & Hs' & _). split; [exact Hy|]. cbn [sets].
        destruct (decide (y = u)) as [-> | Hne].
        -- rewrite lookup_insert_eq. eauto.
        -- rewrite lookup_insert_ne by congruence. eauto.
    + (* it is destroyed, and the loop starts over *)
      rewrite (bind_Ok _ _ _ _ _ (UndoDestroy_Ok _ _ _ Hs Hd)).
      set (w2 := mkWorld _ _ _ _ _ _ _).
      assert (Hlive2 : listed_sets_live w2).
      { split; cbn [UndoRecordSetList sets w2].
        - now apply NoDup_filter.
        - intros y [Hy Hin]%list_elem_of_filter.
          rewrite lookup_delete_ne by congruence. auto. }
      assert (Hlen : (length (UndoRecordSetList w2) < fuel)%nat).
      { cbn [UndoRecordSetList w2].
        pose proof (length_filter_lt (fun x => x <> u) _ u Hu) as Hlt.
        specialize (Hlt ltac:(tauto)). lia. }
      assert (Hsame : forall y, y <> u ->
                below_level level w2 y = below_level level w y).
      { intros y Hy. unfold below_level. cbn [sets w2].
        now rewrite lookup_delete_ne by congruence. }
      assert (Hdirty : forall y, dirty_at_level level w2 y <->
                                 dirty_at_level level w y).
      { intros y. unfold dirty_at_level. cbn [UndoRecordSetList sets w2].
        rewrite list_elem_of_filter. split.
        - intros ((Hy & Hin) & s' & Hs' & Hrest).
          rewrite lookup_delete_ne in Hs' by congruence. eauto.
        - intros (Hin & s' & Hs' & Hat' & Hd').
          assert (y <> u) by (intros ->; congruence).
          split; [tauto|]. exists s'.
          rewrite lookup_delete_ne by congruence. auto. }
      specialize (IH w2 Hlive2 Hlen).
      destruct (UndoDestroyForXactLevel_loop fuel level w2) as [r w' | l msg w'].
      * destruct IH as (Hnone & Hlist & Hsets). repeat split.
        -- intros y Hy. apply (Hnone y). now apply Hdirty.
        -- rewrite Hlist. cbn [UndoRecordSetList w2].
           rewrite list_filter_filter. apply list_filter_iff. intros y.
           destruct (decide (y = u)) as [-> | Hne].
           ++ rewrite (below_level_at_level _ w u s Hs Hat). cbn. tauto.
           ++ rewrite Hsame by assumption. tauto.
        -- intros y. rewrite Hsets. cbn [UndoRecordSetList sets w2].
           destruct (decide (y = u)) as [-> | Hne].
           ++ rewrite (below_level_at_level _ w u s Hs Hat).
              rewrite (bool_decide_eq_true_2 (u ∈ UndoRecordSetList w)) by assumption.
              cbn. rewrite lookup_delete_eq. now destruct (_ && _).
           ++ rewrite Hsame, lookup_delete_ne by congruence.
              destruct (bool_decide_reflect (y ∈ UndoRecordSetList w)) as [Hin | Hnin].
              ** rewrite bool_decide_eq_true_2; [reflexivity|].
                 apply list_elem_of_filter. auto.
              ** rewrite bool_decide_eq_false_2; [reflexivity|].
                 rewrite list_elem_of_filter. tauto.
      * destruct IH as (-> & -> & [y Hy] & Hkept).
        split; [reflexivity|]. split; [reflexivity|]. split.
        -- exists y. now apply Hdirty.
        -- intros z Hz. apply Hkept. now apply Hdirty.
Qed.

Lemma below_level_insert level w x s s' u :
  sets w !! x = Some s -> nestingLevel s' = nestingLevel s ->
  below_level level
    (mkWorld (slots w) (pages w) (<[x := s']> (sets w)) (UndoRecordSetList w)
       (CritSectionCount w) (InRecovery w) (trace w)) u
  = below_level level w u.
Proof.
  intros Hs Hn. unfold below_level. cbn [sets].
  destruct (decide (u = x)) as [-> | Hne].
  - now rewrite lookup_insert_eq, Hs, Hn.
  - now rewrite lookup_insert_ne by congruence.
Qed.

(** The first loop of [UndoDestroyForXactLevel]: the buffers of the listed
    sets of the level are released and forgotten. *)
Lemma release_pass level l :
  forall w,
    (forall u, u ∈ l -> is_Some (sets w !! u)) ->
    exists m evs,
      for_each l (fun u =>
        let* urs := deref_urs u in
        when (level <=? nestingLevel urs) (UndoRelease u)) w
      = Ok tt (mkWorld (slots w) (pages w) m (UndoRecordSetList w)
                 (CritSectionCount w) (InRecovery w) (trace w ++ evs)) /\
      forall u, m !! u = if bool_decide (u ∈ l) && negb (below_level level w u)
                         then with_buffers [] <$> sets w !! u
                         else sets w !! u.
Proof.
  induction l as [|x l IH]; intros w Hlive; cbn [for_each].
  - exists (sets w), []. rewrite app_nil_r, world_eta. split; [reflexivity|].
    intros u. rewrite bool_decide_eq_false_2; [reflexivity | apply not_elem_of_nil].
  - destruct (Hlive x) as [s Hs]; [left|].
    assert (Hrest : forall u, u ∈ l -> is_Some (sets w !! u))
      by (intros u Hu; apply Hlive; now right).
    rewrite bind_assoc, bind_deref_urs, Hs.
    destruct (Z.leb_spec level (nestingLevel s)) as [Hlv | Hlv]; cbn [when].
    + rewrite (bind_Ok _ _ _ _ _ (UndoRelease_Ok _ _ _ Hs)).
      set (w1 := mkWorld _ _ _ _ _ _ _).
      destruct (IH w1) as (m & evs & Hrun & Hm).
      { intros u Hu. cbn [sets w1]. destruct (decide (u = x)) as [-> | Hne].
        - rewrite lookup_insert_eq. eauto.
        - rewrite lookup_insert_ne by congruence. auto. }
      exists m, (release_calls (buffers s) ++ evs).
      rewrite Hrun. cbn [slots pages UndoRecordSetList CritSectionCount
                           InRecovery trace w1].
      rewrite app_assoc. split; [reflexivity|].
      intros u. rewrite Hm.
      assert (Hb : below_level level w1 u = below_level level w u).
      { unfold below_level. cbn [sets w1].
        destruct (decide (u = x)) as [-> | Hne].
        - now rewrite lookup_insert_eq, Hs.
        - now rewrite lookup_insert_ne by congruence. }
      rewrite Hb. cbn [sets w1].
      destruct (decide (u = x)) as [-> | Hne].
      * rewrite lookup_insert_eq, Hs,
          (bool_decide_eq_true_2 (x ∈ x :: l)) by left.
        unfold below_level. rewrite Hs.
        destruct (Z.ltb_spec (nestingLevel s) level); [lia|].
        now destruct (bool_decide (x ∈ l)).
      * rewrite lookup_insert_ne by congruence.
        destruct (bool_decide_reflect (u ∈ l)) as [Hin | Hnin].
        -- rewrite (bool_decide_eq_true_2 (u ∈ x :: l)); [reflexivity | now right].
        -- rewrite (bool_decide_eq_false_2 (u ∈ x :: l)); [reflexivity|].
           intros [?|?]%elem_of_cons; auto.
    + rewrite bind_ret.
      destruct (IH w Hrest) as (m & evs & Hrun & Hm).
      exists m, evs. split; [exact Hrun|].
      intros u. rewrite Hm.
      destruct (decide (u = x)) as [-> | Hne].
      * unfold below_level. rewrite Hs.
        destruct (Z.ltb_spec (nestingLevel s) level); [|lia].
        cbn [negb]. now rewrite !andb_false_r.
      * destruct (bool_decide_reflect (u ∈ l)) as [Hin | Hnin].
        -- rewrite (bool_decide_eq_true_2 (u ∈ x :: l)); [reflexivity | now right].
        -- rewrite (bool_decide_eq_false_2 (u ∈ x :: l)); [reflexivity|].
           intros [?|?]%elem_of_cons; auto.
Qed.

(** The two loops together. *)
Lemma UndoDestroyForXactLevel_outcome level fuel w :
  listed_sets_live w ->
  (length (UndoRecordSetList w) < fuel)%nat ->
  match UndoDestroyForXactLevel fuel level w with
  | Ok _ w' =>
      (forall u, ~ dirty_at_level level w u) /\
      UndoRecordSetList w'
      = filter (fun u => Is_true (below_level level w u)) (UndoRecordSetList w) /\
      (forall u, sets w' !! u =
                 if bool_decide (u ∈ UndoRecordSetList w)
                    && negb (below_level level w u)
                 then None else sets w !! u)
  | Raise l msg w' =>
      l = PANIC /\
      msg = "dirty undo record set not closed before release" /\
      (exists u, dirty_at_level level w u) /\
      (forall u, dirty_at_level level w u -> u ∈ UndoRecordSetList w' /\
                                            is_Some (sets w' !! u))
  end.
Proof.
  intros [Hnd Hlive] Hfuel. unfold UndoDestroyForXactLevel.
  rewrite bind_get.
  destruct (release_pass level _ w Hlive) as (m & evs & Hrun & Hm).
  rewrite (bind_Ok _ _ _ _ _ Hrun).
  set (w1 := mkWorld _ _ _ _ _ _ _).
  assert (Hopt : forall u, option_Forall2 steady (sets w !! u) (sets w1 !! u)).
  { intros u. cbn [sets w1]. rewrite Hm.
    destruct (_ && _), (sets w !! u); constructor; now unfold steady. }
  assert (Hb : forall u, below_level level w1 u = below_level level w u).
  { intros u. unfold below_level. specialize (Hopt u).
    destruct Hopt as [s s1 (Hn & _) |]; [now rewrite Hn | reflexivity]. }
  assert (Hd : forall u, dirty_at_level level w1 u <-> dirty_at_level level w u).
  { intros u. unfold dirty_at_level, at_level. cbn [UndoRecordSetList w1].
    specialize (Hopt u).
    destruct Hopt as [s s1 (Hn & _ & Hst) |]; split;
      intros (Hu & s' & [= <-] & Hat & Hdirty); (split; [exact Hu|]);
      eexists; (split; [reflexivity|]); split; congruence. }
  assert (Hlive1 : listed_sets_live w1).
  { split; [exact Hnd|]. intros u Hu. specialize (Hopt u).
    destruct (Hlive u Hu) as [s Hs]. rewrite Hs in Hopt.
    inversion Hopt; eauto. }
  pose proof (destroy_loop_outcome level fuel w1 Hlive1 Hfuel) as Hloop.
  destruct (UndoDestroyForXactLevel_loop fuel level w1) as [r w' | l msg w'].
  - destruct Hloop as (Hnone & Hlist & Hsets). repeat split.
    + intros u Hu. apply (Hnone u). now apply Hd.
    + rewrite Hlist. cbn [UndoRecordSetList w1]. apply list_filter_iff.
      intros u. now rewrite Hb.
    + intros u. rewrite Hsets, Hb. cbn [UndoRecordSetList sets w1].
      rewrite Hm. now destruct (_ && _).
  - destruct Hloop as (-> & -> & [u Hu] & Hkept).
    split; [reflexivity|]. split; [reflexivity|]. split.
    + exists u. now apply Hd.
    + intros y Hy. apply Hkept. now apply Hd.
Qed.

(** X4.  When no listed set of the level is DIRTY, [UndoDestroyForXactLevel]
    destroys exactly the listed sets of the level and of deeper levels: they
    leave the list and the memory context; the other sets and the order of
    the list stay as they are.  A fuel above the length of the list is
    enough for the restarting loop. *)
Theorem UndoDestroyForXactLevel_destroys_the_level (level : Z) (fuel : nat)
  (w : World) :
  listed_sets_live w ->
  (forall u, ~ dirty_at_level level w u) ->
  (length (UndoRecordSetList w) < fuel)%nat ->
  exists w',
    UndoDestroyForXactLevel fuel level w = Ok tt w' /\
    UndoRecordSetList w'
    = filter (fun u => Is_true (below_level level w u)) (UndoRecordSetList w) /\
    (forall u, sets w' !! u =
               if bool_decide (u ∈ UndoRecordSetList w)
                  && negb (below_level level w u)
               then None else sets w !! u) /\
    listed_sets_live w'.
Proof.
  intros Hlive Hclean Hfuel.
  pose proof (UndoDestroyForXactLevel_outcome level fuel w Hlive Hfuel) as Hout.
  destruct (UndoDestroyForXactLevel fuel level w) as [[] w' | l msg w'].
  - destruct Hout as (_ & Hlist & Hsets). exists w'.
    split; [reflexivity|]. split; [exact Hlist|]. split; [exact Hsets|].
    destruct Hlive as [Hnd Hl]. split.
    + rewrite Hlist. now apply NoDup_filter.
    + intros u Hu. rewrite Hlist in Hu.
      apply list_elem_of_filter in Hu as [Hbelow Hin].
      rewrite Hsets. destruct (below_level level w u); [|contradiction].
      rewrite andb_false_r. auto.
  - destruct Hout as (_ & _ & [u Hu] & _). now apply Hclean in Hu.
Qed.

(** X5.  When a listed set of the level is DIRTY, [UndoDestroyForXactLevel]
    ends in the PANIC of [UndoDestroy]; the DIRTY set is still listed and
    live then. *)
Theorem UndoDestroyForXactLevel_panics_on_dirty (level : Z) (fuel : nat)
  (w : World) (u : nat) :
  listed_sets_live w ->
  dirty_at_level level w u ->
  (length (UndoRecordSetList w) < fuel)%nat ->
  exists w',
    UndoDestroyForXactLevel fuel level w
    = Raise PANIC "dirty undo record set not closed before release" w' /\
    u ∈ UndoRecordSetList w' /\ is_Some (sets w' !! u).
Proof.
  intros Hlive Hdirty Hfuel.
  pose proof (UndoDestroyForXactLevel_outcome level fuel w Hlive Hfuel) as Hout.
  destruct (UndoDestroyForXactLevel fuel level w) as [r w' | l msg w'].
  - destruct Hout as (Hnone & _). now apply Hnone in Hdirty.
  - destruct Hout as (-> & -> & _ & Hkept). exists w'.
    split; [reflexivity|]. now apply Hkept.
Qed.

End DestroyingLevels.

(** ** Preparing to close a level, and registering its buffers *)

#[export] Instance steady_preorder : PreOrder steady.
Proof.
  split.
  - intros s. unfold steady. auto.
  - intros s1 s2 s3 (Hn1 & Hc1 & Hd1) (Hn2 & Hc2 & Hd2). unfold steady.
    repeat split; congruence.
Qed.

#[export] Hint Extern 1 (steps (sets_evolve steady) (update_urs _ _)) =>
  apply evolve_update_urs; [typeclasses eauto|];
  intros ?; unfold steady; cbn; rewrite ?length_insert;
  repeat split; reflexivity : steps.

Section PreparingLevels.
Context `{UndoLayout}.

Lemma steady_UndoPrepareToMarkClosed u :
  steps (sets_evolve steady) (UndoPrepareToMarkClosed u).
Proof. unfold UndoPrepareToMarkClosed. steps_auto. Qed.

Lemma UndoPrepareToMarkClosed_result u s w b w' :
  sets w !! u = Some s ->
  UndoPrepareToMarkClosed u w = Ok b w' ->
  (b = true <-> chunks s <> []) /\ (b = false -> w' = w).
Proof.
  intros Hs. unfold UndoPrepareToMarkClosed. rewrite bind_deref_urs, Hs.
  unfold nchunks. destruct (chunks s) as [|c cs]; cbn [length].
  - intros [= <- <-]. split; [|reflexivity]. split; [discriminate | congruence].
  - destruct (Z.eqb_spec (Z.of_nat (S (length cs))) 0) as [|_]; [lia|].
    intros Hrun. bind_inv_ Hrun w1 E. injection Hrun as <- <-.
    split; [|discriminate]. split; [discriminate | reflexivity].
Qed.

(** A listed DIRTY set of the level that has a chunk. *)
Lemma prepare_pass level l :
  forall acc w b w',
    UndoPrepareToMarkClosedForXactLevel_loop level l acc w = Ok b w' ->
    sets_evolve steady w w' /\
    (b = true <->
     acc = true \/
     exists u s, u ∈ l /\ sets w !! u = Some s /\ at_level level s /\
                 state s = URS_STATE_DIRTY /\ chunks s <> []) /\
    (b = false -> w' = w).
Proof.
  pose proof steady_UndoPrepareToMarkClosed as HP.
  induction l as [|x l IH]; intros acc w b w' Hrun;
    cbn [UndoPrepareToMarkClosedForXactLevel_loop] in Hrun.
  - injection Hrun as <- <-. split; [apply frame_refl|]. split; [|reflexivity].
    split; [auto|]. intros [? | (u & s & Hu & _)]; [assumption|].
    now apply not_elem_of_nil in Hu.
  - bind_inv Hrun s w0 E. apply deref_urs_inv in E as [Hs ->].
    bind_inv Hrun work w1 E1.
    assert (Hev1 : sets_evolve steady w w1).
    { eapply steps_Ok; [|exact E1]. steps_auto. }
    assert (Hwork : (work = true <->
                     at_level level s /\ state s = URS_STATE_DIRTY /\
                     chunks s <> []) /\ (work = false -> w1 = w)).
    { unfold at_level.
      destruct (Z.leb_spec level (nestingLevel s)) as [Hlv | Hlv];
        destruct (bool_decide_reflect (state s = URS_STATE_DIRTY)) as [Hd | Hd];
        cbn [andb] in E1.
      - apply (UndoPrepareToMarkClosed_result _ _ _ _ _ Hs) in E1 as [Hiff Hidle].
        split; [|exact Hidle]. rewrite Hiff. tauto.
      - injection E1 as <- <-. split; [|reflexivity]. split; [discriminate|tauto].
      - injection E1 as <- <-. split; [|reflexivity]. split; [discriminate|lia].
      - injection E1 as <- <-. split; [|reflexivity]. split; [discriminate|tauto]. }
    destruct Hwork as [Hwork Hidle1].
    apply IH in Hrun as (Hev & Hiff & Hidle).
    split; [eapply frame_trans; eassumption|]. split.
    + rewrite Hiff. split.
      * intros [Hacc | (u & s1 & Hu & Hs1 & Hat & Hd & Hc)].
        -- destruct work; [|auto]. right. exists x, s.
           split; [left|]. split; [assumption|]. now apply Hwork.
        -- right. destruct Hev1 as [_ Hev1]. specialize (Hev1 u).
           rewrite Hs1 in Hev1.
           inversion Hev1 as [s0 ? (Hn & Hlen & Hst) Hs0 |]; subst.
           exists u, s0. split; [now right|]. split; [now symmetry|].
           unfold at_level in *. rewrite <- Hn, <- Hst.
           repeat split; [exact Hat | exact Hd|].
           intros Hnil. rewrite Hnil in Hlen. destruct (chunks s1); [auto|].
           discriminate.
      * intros [-> | (u & s0 & [-> | Hu]%elem_of_cons & Hs0 & Hat & Hd & Hc)].
        -- left. now destruct work.
        -- left. rewrite Hs in Hs0. injection Hs0 as <-.
           now rewrite (proj2 Hwork).
        -- right. destruct Hev1 as [_ Hev1]. specialize (Hev1 u).
           rewrite Hs0 in Hev1.
           inversion Hev1 as [? s1 (Hn & Hlen & Hst) Hx0 Hs1 |]; subst.
           exists u, s1. split; [exact Hu|]. split; [now symmetry|].
           unfold at_level in *. rewrite Hn, Hst.
           repeat split; [exact Hat | exact Hd|].
           intros Hnil. rewrite Hnil in Hlen. destruct (chunks s0); [auto|].
           discriminate.
    + intros ->. destruct work.
      * destruct Hiff as [_ Hiff]. discriminate Hiff. now left.
      * rewrite Hidle by reflexivity. now apply Hidle1.
Qed.

(** X6.  [UndoPrepareToMarkClosedForXactLevel] returns true exactly when a
    listed set of the level is DIRTY and has a chunk; when it returns false
    it has done nothing at all. *)
Theorem UndoPrepareToMarkClosedForXactLevel_tells_work (level : Z)
  (w w' : World) (needs_work : bool) :
  UndoPrepareToMarkClosedForXactLevel level w = Ok needs_work w' ->
  (needs_work = true <->
   exists u s, dirty_at_level level w u /\ sets w !! u = Some s /\
               chunks s <> []) /\
  (needs_work = false -> w' = w).
Proof.
  unfold UndoPrepareToMarkClosedForXactLevel. rewrite bind_get. intros Hrun.
  apply prepare_pass in Hrun as (_ & Hiff & Hidle). split; [|exact Hidle].
  rewrite Hiff. split.
  - intros [? | (u & s & Hu & Hs & Hat & Hd & Hc)]; [discriminate|].
    exists u, s. unfold dirty_at_level. eauto 10.
  - intros (u & s & (Hu & s' & Hs' & Hat & Hd) & Hs & Hc). right.
    rewrite Hs in Hs'. injection Hs' as <-. exists u, s. auto 10.
Qed.

Section Registering.
Context `{XLogLayout}.

Lemma UndoXLogRegisterBuffers_loop_elem first_block_id bs :
  forall i0 i ubuf,
    bs !! i = Some ubuf ->
    CallXLogRegisterBuffer (first_block_id + (i0 + Z.of_nat i)) (buffer ubuf)
      (Z.lor (if is_new ubuf then REGBUF_WILL_INIT else 0) REGBUF_KEEP_DATA)
    ∈ UndoXLogRegisterBuffers_loop first_block_id i0 bs.
Proof.
  induction bs as [|b bs IH]; intros i0 i ubuf Hi; [discriminate|].
  cbn [UndoXLogRegisterBuffers_loop]. destruct i as [|i]; cbn in Hi.
  - injection Hi as ->. rewrite Z.add_0_r. left.
  - right. apply elem_of_app. right.
    replace (i0 + Z.of_nat (S i)) with (i0 + 1 + Z.of_nat i) by lia. now apply IH.
Qed.

Lemma register_pass level first_block_id l :
  forall w calls w',
    UndoXLogRegisterBuffersForXactLevel_loop level first_block_id l w
    = Ok calls w' ->
    forall u s i ubuf,
      u ∈ l -> sets w !! u = Some s -> at_level level s ->
      state s <> URS_STATE_CLEAN ->
      persistence s = RELPERSISTENCE_PERMANENT ->
      buffers s !! i = Some ubuf ->
      CallXLogRegisterBuffer (first_block_id + Z.of_nat i) (buffer ubuf)
        (Z.lor (if is_new ubuf then REGBUF_WILL_INIT else 0) REGBUF_KEEP_DATA)
      ∈ calls.
Proof.
  induction l as [|x l IH]; intros w calls w' Hrun u s i ubuf Hu Hs Hat Hst Hp Hi;
    cbn [UndoXLogRegisterBuffersForXactLevel_loop] in Hrun.
  - now apply not_elem_of_nil in Hu.
  - bind_inv Hrun sx w0 E. apply deref_urs_inv in E as [Hsx ->].
    bind_inv Hrun c w1 E1. bind_inv Hrun more w2 E2.
    injection Hrun as <- <-. apply elem_of_app.
    assert (w1 = w) as ->.
    { destruct (_ && _).
      - now apply UndoXLogRegisterBuffers_pure in E1.
      - now injection E1 as _ <-. }
    apply elem_of_cons in Hu as [-> | Hu].
    + left. rewrite Hs in Hsx. injection Hsx as <-. unfold at_level in Hat.
      destruct (Z.leb_spec level (nestingLevel s)) as [_ | ?]; [|lia].
      rewrite bool_decide_eq_false_2 in E1 by assumption. cbn in E1.
      unfold UndoXLogRegisterBuffers in E1. rewrite bind_deref_urs, Hs in E1.
      unfold URSNeedsWAL in E1. rewrite bool_decide_eq_true_2 in E1 by assumption.
      cbn in E1. injection E1 as <-.
      apply (UndoXLogRegisterBuffers_loop_elem _ _ 0 i ubuf Hi).
    + right. eapply IH; eassumption.
Qed.

(** X7.  [UndoXLogRegisterBuffersForXactLevel] registers buffer [i] of every
    listed, WAL-logged set of the level that is not CLEAN under the block id
    [first_block_id + i]: the numbering starts again for each set, so that
    two such sets both register a buffer under [first_block_id]. *)
Theorem UndoXLogRegisterBuffersForXactLevel_numbers_per_set
  (level first_block_id : Z) (w w' : World) (calls : list XLogCall)
  (u : nat) (s : UndoRecordSet) (i : nat) (ubuf : UndoBuffer) :
  UndoXLogRegisterBuffersForXactLevel level first_block_id w = Ok calls w' ->
  u ∈ UndoRecordSetList w -> sets w !! u = Some s -> at_level level s ->
  state s <> URS_STATE_CLEAN ->
  persistence s = RELPERSISTENCE_PERMANENT ->
  buffers s !! i = Some ubuf ->
  w' = w /\
  CallXLogRegisterBuffer (first_block_id + Z.of_nat i) (buffer ubuf)
    (Z.lor (if is_new ubuf then REGBUF_WILL_INIT else 0) REGBUF_KEEP_DATA)
  ∈ calls.
Proof.
  unfold UndoXLogRegisterBuffersForXactLevel. rewrite bind_get.
  intros Hrun Hu Hs Hat Hst Hp Hi. split.
  - now apply UndoXLogRegisterBuffersForXactLevel_loop_pure in Hrun.
  - eapply register_pass; eassumption.
Qed.

End Registering.

End PreparingLevels.

(** ** What a computation returns *)

Lemma yields_ret {A} (Q : A -> Prop) a : Q a -> yields Q (ret a).
Proof. intros HQ w a' w' [= <- _]. exact HQ. Qed.

Lemma yields_elog {A} (Q : A -> Prop) l msg : yields Q (@elog A l msg).
Proof. intros w a w' E. discriminate. Qed.

Lemma yields_bind {A B} (Q : B -> Prop) (m : M A) (k : A -> M B) :
  (forall a, yields Q (k a)) -> yields Q (bind m k).
Proof.
  intros Hk w b w' E. apply bind_Ok_inv in E as (a & w1 & _ & E).
  eapply Hk. exact E.
Qed.

Lemma yields_bind_with {A B} (P : A -> Prop) (Q : B -> Prop) (m : M A)
  (k : A -> M B) :
  yields P m -> (forall a, P a -> yields Q (k a)) -> yields Q (bind m k).
Proof.
  intros Hm Hk w b w' E. apply bind_Ok_inv in E as (a & w1 & E1 & E).
  eapply Hk; [|exact E]. eapply Hm. exact E1.
Qed.

Lemma yields_if {A} (Q : A -> Prop) (c : bool) (m1 m2 : M A) :
  yields Q m1 -> yields Q m2 -> yields Q (if c then m1 else m2).
Proof. now destruct c. Qed.

(** ** Replay: the buffers of a record *)

Section ReplayBuffers.
Context `{UndoLayout}.

Ltac yields_tac :=
  repeat first
    [ progress intros
    | apply yields_elog
    | apply yields_ret;
      solve [ cbn; rewrite ?flow_state_if; reflexivity
            | repeat match goal with
                     | |- context [if ?c then _ else _] => destruct c
                     end; reflexivity ]
    | apply yields_bind
    | apply yields_if
    | match goal with
      | |- yields _ (let _ := _ in _) => cbv zeta
      | |- yields _ (match ?x with _ => _ end) => destruct x
      end ].

Lemma buffers_replay_continuations cx record_size st :
  yields (fun f => rp_buffers (flow_state f) = rp_buffers st)
    (replay_continuations cx record_size st).
Proof. unfold replay_continuations. yields_tac. Qed.

Lemma buffers_replay_new_chunk create cx st :
  yields (fun f => rp_buffers (flow_state f) = rp_buffers st)
    (replay_new_chunk create cx st).
Proof.
  unfold replay_new_chunk.
  apply (yields_bind_with (fun st1 => rp_buffers st1 = rp_buffers st)).
  - yields_tac.
  - intros st1 <-. yields_tac.
Qed.

Lemma buffers_replay_record cx record_size st :
  yields (fun f => rp_buffers (flow_state f) = rp_buffers st)
    (replay_record cx record_size st).
Proof. unfold replay_record. yields_tac. Qed.

Lemma buffers_replay_close_chunk xlog_record cx st :
  yields (fun f => rp_buffers (flow_state f) = rp_buffers st)
    (replay_close_chunk xlog_record cx st).
Proof. unfold replay_close_chunk. yields_tac. Qed.

Lemma buffers_and_then bs (m : M flow) (k : ReplayState -> M flow) :
  yields (fun f => rp_buffers (flow_state f) = bs) m ->
  (forall st, rp_buffers st = bs ->
              yields (fun f => rp_buffers (flow_state f) = bs) (k st)) ->
  yields (fun f => rp_buffers (flow_state f) = bs) (and_then m k).
Proof.
  intros Hm Hk. unfold and_then.
  apply (yields_bind_with (fun f => rp_buffers (flow_state f) = bs)); [exact Hm|].
  intros [st | st] Hst; cbn in Hst.
  - now apply yields_ret.
  - now apply Hk.
Qed.

(** The buffer read for a block. *)
Lemma replay_begin_block_buffer given block_id block :
  yields (fun cx => cx_buffer cx = block_buffer block)
    (replay_begin_block given block_id block).
Proof.
  unfold replay_begin_block, block_buffer. repeat (apply yields_bind; intros).
  destruct (decoded_bufdata block); [|apply yields_elog].
  cbv zeta. apply yields_bind. intros _. now apply yields_ret.
Qed.

Lemma UndoReplay_block_buffers xlog_record record_size block_id block st :
  yields (fun st' => rp_buffers st' =
                     rp_buffers st ++
                     (if is_undo_block block then [block_buffer block] else []))
    (UndoReplay_block xlog_record record_size block_id block st).
Proof.
  pose proof buffers_replay_continuations as H1.
  pose proof buffers_replay_new_chunk as H2.
  pose proof buffers_replay_record as H3.
  pose proof buffers_replay_close_chunk as H4.
  unfold UndoReplay_block, is_undo_block.
  destruct (in_use block && (rnode_dbNode block =? UndoDbOid));
    [|apply yields_ret; now rewrite app_nil_r].
  eapply yields_bind_with; [apply replay_begin_block_buffer|].
  intros cx Hcx. cbv beta in Hcx. cbv beta iota zeta. rewrite <- Hcx.
  set (st0 := mkReplay _ _ _ _ _ _ _ _ _ _ _ _).
  change (rp_buffers st ++ [cx_buffer cx]) with (rp_buffers st0).
  apply (yields_bind_with (fun f => rp_buffers (flow_state f) = rp_buffers st0));
    [|intros f Hf; now apply yields_ret].
  apply buffers_and_then; [apply H1|]. intros st1 E1.
  apply buffers_and_then.
  { destruct (has_flag _ _); [rewrite <- E1; apply H2 | now apply yields_ret]. }
  intros st2 E2. apply buffers_and_then.
  { destruct (has_flag _ _); [|now apply yields_ret].
    apply yields_bind. intros _. rewrite <- E2. apply H2. }
  intros st3 E3. apply buffers_and_then; [rewrite <- E3; apply H3|].
  intros st4 E4.
  destruct (has_flag _ _); [rewrite <- E4; apply H4 | now apply yields_ret].
Qed.

Lemma UndoReplay_blocks_buffers xlog_record record_size bs :
  forall block_id st,
    yields (fun st' => omap id (rp_buffers st') =
                       omap id (rp_buffers st) ++ replayed_buffers bs)
      (UndoReplay_blocks xlog_record record_size block_id bs st).
Proof.
  induction bs as [|b bs IH]; intros block_id st; cbn [UndoReplay_blocks].
  - apply yields_ret. cbn. now rewrite app_nil_r.
  - eapply yields_bind_with; [apply UndoReplay_block_buffers|].
    intros st1 E1 w st' w' Hrun. apply IH in Hrun. rewrite Hrun, E1.
    unfold replayed_buffers. cbn [omap list_omap].
    rewrite omap_app, <- app_assoc. f_equal.
    destruct (is_undo_block b); [|reflexivity].
    now destruct (block_buffer b).
Qed.

Lemma replay_release_sequence lsn bs w :
  replay_release lsn bs w
  = Ok tt (add_trace (release_sequence lsn (omap id bs)) w).
Proof.
  revert w. induction bs as [|[b|] bs IH]; intros w; cbn [replay_release].
  - now rewrite add_trace_nil.
  - unfold MarkBufferDirty, UnlockReleaseBuffer.
    rewrite !(bind_Ok _ _ _ _ _ (emit_Ok _ _)), IH, !add_trace_app. reflexivity.
  - apply IH.
Qed.

Lemma keeps_pins_UndoReplay_blocks xlog_record record_size bs :
  forall block_id st,
    steps (emits keeps_pins)
      (UndoReplay_blocks xlog_record record_size block_id bs st).
Proof.
  assert (Hb : forall block_id block st,
             steps (emits keeps_pins)
               (UndoReplay_block xlog_record record_size block_id block st)).
  { intros. unfold UndoReplay_block. steps_auto. }
  induction bs as [|b bs IH]; intros; cbn [UndoReplay_blocks]; steps_auto.
Qed.

(** X8.  A successful [UndoReplay] returns [InvalidUndoRecPtr], whatever it
    inserted, and ends by marking dirty, stamping with the record's LSN and
    releasing every buffer it has read: one per undo block that was found,
    in block order, modified or not.  Before that it sets no page LSN and
    releases nothing. *)
Theorem UndoReplay_ends_by_releasing (xlog_record : XLogReaderState)
  (record_data : option (list Z)) (record_size : Z) (w w' : World) (r : Z) :
  UndoReplay xlog_record record_data record_size w = Ok r w' ->
  r = InvalidUndoRecPtr /\
  exists evs,
    trace w' = trace w ++ evs
               ++ release_sequence (ReadRecPtr xlog_record)
                    (replayed_buffers (blocks xlog_record)) /\
    Forall keeps_pins evs.
Proof.
  unfold UndoReplay. rewrite bind_get. intros Hrun.
  bind_inv_ Hrun w0 E. apply Assert_inv in E as [_ ->].
  bind_inv Hrun st w1 E1.
  destruct (rp_header_more st || rp_record_more st); [discriminate|].
  rewrite (bind_Ok _ _ _ _ _ (replay_release_sequence _ _ _)) in Hrun.
  injection Hrun as <- <-. split; [reflexivity|].
  pose proof (UndoReplay_blocks_buffers _ _ _ _ _ _ _ _ E1) as Hb.
  cbn in Hb. rewrite Hb.
  destruct (steps_Ok _ _ _ _ _ (keeps_pins_UndoReplay_blocks _ _ _ _ _) E1)
    as (evs & Ht & Hq).
  exists evs. cbn [trace add_trace]. rewrite Ht, app_assoc. auto.
Qed.

Lemma UndoReplay_blocks_skip xlog_record record_size bs :
  Forall (fun block => is_undo_block block = false) bs ->
  forall block_id st w,
    UndoReplay_blocks xlog_record record_size block_id bs st w = Ok st w.
Proof.
  induction 1 as [|b bs Hb _ IH]; intros block_id st w; cbn [UndoReplay_blocks].
  - reflexivity.
  - unfold UndoReplay_block. unfold is_undo_block in Hb. rewrite Hb.
    rewrite bind_ret. apply IH.
Qed.

(** X9.  A record without undo blocks (no registered block at all, or only
    blocks of other relations) is replayed as nothing: [UndoReplay] returns
    [InvalidUndoRecPtr] and leaves the world as it is, also when it is given
    a record to insert, which is then dropped without an error. *)
Theorem UndoReplay_without_undo_blocks (xlog_record : XLogReaderState)
  (record_data : option (list Z)) (record_size : Z) (w : World) :
  InRecovery w = true ->
  Forall (fun block => is_undo_block block = false) (blocks xlog_record) ->
  UndoReplay xlog_record record_data record_size w = Ok InvalidUndoRecPtr w.
Proof.
  intros Hrec Hnone. unfold UndoReplay. rewrite bind_get, Hrec.
  cbn [Assert]. rewrite bind_ret.
  rewrite (bind_Ok _ _ _ _ _ (UndoReplay_blocks_skip _ _ _ Hnone _ _ _)).
  reflexivity.
Qed.

End ReplayBuffers.

(** ** The life of a set *)

Section Lifecycle.
Context `{UndoLayout}.

Lemma keeps_UndoMarkChunkClosed {T} (g : UndoRecordSet -> T) u u' ci close_urs :
  (forall s bs, g (with_buffers bs s) = g s) ->
  steps (keeps g u) (UndoMarkChunkClosed u' ci close_urs).
Proof.
  intros Hg.
  assert (Hb : forall i f, steps (keeps g u) (update_buffer u' i f)).
  { intros. unfold update_buffer.
    apply steps_bind; [typeclasses eauto | steps_auto |].
    intros b. apply keeps_update_urs. intros. apply Hg. }
  assert (Hl : forall fuel x po doff sz,
             steps (keeps g u) (UndoMarkChunkClosed_loop u' ci fuel x po doff sz)).
  { induction fuel as [|fuel IH]; intros; cbn [UndoMarkChunkClosed_loop];
      steps_auto. }
  unfold UndoMarkChunkClosed. steps_auto.
Qed.

Lemma keeps_update_chunk {T} (g : UndoRecordSet -> T) u u' i f :
  (forall s cs, g (with_chunks cs s) = g s) ->
  steps (keeps g u) (update_chunk u' i f).
Proof.
  intros Hg. unfold update_chunk.
  apply steps_bind; [typeclasses eauto | steps_auto |].
  intros c. apply keeps_update_urs. intros. apply Hg.
Qed.

Lemma keeps_update_buffer {T} (g : UndoRecordSet -> T) u u' i f :
  (forall s bs, g (with_buffers bs s) = g s) ->
  steps (keeps g u) (update_buffer u' i f).
Proof.
  intros Hg. unfold update_buffer.
  apply steps_bind; [typeclasses eauto | steps_auto |].
  intros b. apply keeps_update_urs. intros. apply Hg.
Qed.

Lemma keeps_identity_UndoInsert u u' record_data record_size :
  steps (keeps identity_of u) (UndoInsert u' record_data record_size).
Proof.
  assert (Hb : forall i f, steps (keeps identity_of u) (update_buffer u' i f))
    by (intros; now apply keeps_update_buffer).
  assert (Hc : forall i f, steps (keeps identity_of u) (update_chunk u' i f))
    by (intros; now apply keeps_update_chunk).
  assert (Hm : forall ci cl, steps (keeps identity_of u)
                               (UndoMarkChunkClosed u' ci cl))
    by (intros; now apply keeps_UndoMarkChunkClosed).
  assert (Hh : forall fuel hdr ths ahs bi po io,
             steps (keeps identity_of u)
               (UndoInsert_headers fuel u' hdr ths ahs bi po io)).
  { induction fuel as [|fuel IH]; intros; cbn [UndoInsert_headers]; steps_auto. }
  assert (Hr : forall fuel rd rs bi po io,
             steps (keeps identity_of u) (UndoInsert_record fuel u' rd rs bi po io)).
  { induction fuel as [|fuel IH]; intros; cbn [UndoInsert_record]; steps_auto. }
  unfold UndoInsert. steps_auto.
Qed.

(** X10.  A successful [UndoInsert] leaves the set DIRTY and in need of
    neither a chunk header nor a type header, whatever its state was before:
    CLEAN, DIRTY or CLOSED.  The set's type, persistence, slot, begin pointer,
    level and type header are as before. *)
Theorem UndoInsert_leaves_set_dirty (w w' : World) (u : nat)
  (record_data : list Z) (record_size : Z) :
  UndoInsert u record_data record_size w = Ok tt w' ->
  exists s s',
    sets w !! u = Some s /\ sets w' !! u = Some s' /\
    state s' = URS_STATE_DIRTY /\
    need_chunk_header s' = false /\ need_type_header s' = false /\
    identity_of s' = identity_of s.
Proof.
  intros Hrun.
  pose proof (steps_Ok _ _ _ _ _
                (keeps_identity_UndoInsert u u record_data record_size) Hrun) as Hid.
  unfold UndoInsert in Hrun.
  bind_inv Hrun s w0 E. apply deref_urs_inv in E as [Hs ->].
  rewrite bind_get in Hrun.
  bind_inv_ Hrun w0 E. apply Assert_inv in E as [_ ->].
  bind_inv_ Hrun w0 E. apply Assert_inv in E as [_ ->].
  destruct (slot s) as [logno|]; [|discriminate].
  bind_inv_ Hrun w0 E. apply Assert_inv in E as [_ ->].
  bind_inv_ Hrun w0 E. apply Assert_inv in E as [_ ->].
  bind_inv Hrun pos w1 E1. destruct pos as [bi po].
  bind_inv_ Hrun w2 E2. bind_inv_ Hrun w3 E3.
  (* the set is DIRTY from here on *)
  assert (Hd3 : (state <$> sets w3 !! u) = Some URS_STATE_DIRTY).
  { unfold update_urs in E3. bind_inv E3 s2 w2' E. apply deref_urs_inv in E as [_ ->].
    cbn in E3. injection E3 as _ <-. cbn [sets]. now rewrite lookup_insert_eq. }
  bind_inv_ Hrun w4 E4. bind_inv Hrun sl w5 E5. bind_inv_ Hrun w6 E6.
  bind_inv_ Hrun w7 E7. bind_inv Hrun s7 w8 E8. bind_inv_ Hrun w9 E9.
  bind_inv_ Hrun w10 E10.
  assert (Hk : keeps state u w3 w9).
  { assert (Hb : forall i f, steps (keeps state u) (update_chunk u i f))
      by (intros; now apply keeps_update_chunk).
    assert (Hm : forall ci cl, steps (keeps state u) (UndoMarkChunkClosed u ci cl))
      by (intros; now apply keeps_UndoMarkChunkClosed).
    eapply frame_trans; [eapply steps_Ok; [|exact E4]; unfold LWLockAcquire; steps_auto|].
    eapply frame_trans; [eapply steps_Ok; [|exact E5]; steps_auto|].
    eapply frame_trans; [eapply steps_Ok; [|exact E6]; unfold store_meta_insert; steps_auto|].
    eapply frame_trans; [eapply steps_Ok; [|exact E7]; unfold LWLockRelease; steps_auto|].
    eapply frame_trans; [eapply steps_Ok; [|exact E8]; steps_auto|].
    eapply steps_Ok; [|exact E9]. steps_auto. }
  unfold keeps in Hk. rewrite Hd3 in Hk.
  unfold update_urs in E10, Hrun.
  bind_inv E10 s9 w9' E. apply deref_urs_inv in E as [Hs9 ->].
  cbn in E10. injection E10 as _ <-.
  bind_inv Hrun s10 w10' E. apply deref_urs_inv in E as [Hs10 ->].
  cbn in Hrun. injection Hrun as <-.
  cbn [sets] in Hs10. rewrite lookup_insert_eq in Hs10. injection Hs10 as <-.
  rewrite Hs9 in Hk. cbn in Hk. injection Hk as Hst9.
  unfold keeps in Hid. cbn [sets] in Hid. rewrite lookup_insert_eq, Hs in Hid.
  cbn in Hid. injection Hid as Hid.
  eexists s, _. split; [exact Hs|]. cbn [sets]. rewrite lookup_insert_eq.
  split; [reflexivity|]. cbn. repeat split; try assumption.
  unfold identity_of. cbn. congruence.
Qed.

(** X11.  [UndoRelease] releases each pinned buffer once, in order, and
    forgets them all: releasing the set again releases nothing and changes
    nothing. *)
Theorem UndoRelease_releases_once (w : World) (u : nat) (s : UndoRecordSet) :
  sets w !! u = Some s ->
  exists w1,
    UndoRelease u w = Ok tt w1 /\
    trace w1 = trace w ++ release_calls (buffers s) /\
    sets w1 !! u = Some (with_buffers [] s) /\
    UndoRelease u w1 = Ok tt w1.
Proof.
  intros Hs. rewrite (UndoRelease_Ok _ _ _ Hs). eexists.
  split; [reflexivity|]. cbn [trace sets]. rewrite lookup_insert_eq.
  split; [reflexivity|]. split; [reflexivity|].
  rewrite (UndoRelease_Ok _ (with_buffers [] s))
    by (cbn [sets]; apply lookup_insert_eq).
  cbn. now rewrite app_nil_r, insert_insert_eq.
Qed.

Lemma UndoCreate_Ok ty p nesting ths th w :
  UndoCreate ty p nesting ths th w =
  Ok (fresh (dom (sets w)))
     (mkWorld (slots w) (pages w)
        (<[fresh (dom (sets w)) :=
             mkURS ty p [] [] 0 false (take (Z.to_nat ths) th) (uint8 ths) true
               0 None 0 0 URS_STATE_CLEAN nesting]> (sets w))
        (fresh (dom (sets w)) :: UndoRecordSetList w)
        (CritSectionCount w) (InRecovery w) (trace w)).
Proof. reflexivity. Qed.

Lemma fresh_set_not_live (w : World) : sets w !! fresh (dom (sets w)) = None.
Proof. apply not_elem_of_dom, is_fresh. Qed.

(** X12.  [UndoCreate] hands out a set that no live set occupies, CLEAN and
    at the head of the list; destroying it right away gives back the sets
    and the list as they were, with no call but unlinking and freeing the
    set. *)
Theorem UndoCreate_then_UndoDestroy (w : World) (ty : Z) (p : Persistence)
  (nesting ths : Z) (th : list Z) :
  (forall u, u ∈ UndoRecordSetList w -> is_Some (sets w !! u)) ->
  exists u w1 w2 s,
    UndoCreate ty p nesting ths th w = Ok u w1 /\
    sets w !! u = None /\ (u ∉ UndoRecordSetList w) /\
    sets w1 !! u = Some s /\ state s = URS_STATE_CLEAN /\
    chunks s = [] /\ buffers s = [] /\
    UndoRecordSetList w1 = u :: UndoRecordSetList w /\
    UndoDestroy u w1 = Ok tt w2 /\
    sets w2 = sets w /\ UndoRecordSetList w2 = UndoRecordSetList w /\
    slots w2 = slots w /\ pages w2 = pages w /\
    trace w2 = trace w ++ [EvSlistDelete u; EvPfree u].
Proof.
  intros Hlive. set (u := fresh (dom (sets w))).
  pose proof (fresh_set_not_live w) as Hfresh. fold u in Hfresh.
  assert (Hnl : u ∉ UndoRecordSetList w).
  { intros Hin. apply Hlive in Hin as [s Hs]. congruence. }
  rewrite UndoCreate_Ok. fold u.
  eexists u, _, _, _. split; [reflexivity|].
  split; [exact Hfresh|]. split; [exact Hnl|].
  cbn [sets UndoRecordSetList]. rewrite lookup_insert_eq.
  split; [reflexivity|]. cbn [state chunks buffers].
  do 4 (split; [reflexivity|]).
  erewrite UndoDestroy_Ok; [|cbn [sets]; apply lookup_insert_eq | discriminate].
  split; [reflexivity|]. cbn [sets UndoRecordSetList slots pages trace].
  rewrite delete_insert_id by exact Hfresh.
  rewrite filter_cons_False by tauto.
  rewrite filter_all; [auto|]. intros x Hx ->. contradiction.
Qed.

(** X13.  Creating and destroying keep the list of sets sound: every listed
    set is live and listed once.  After [UndoDestroy] the set is neither
    listed nor live, and the other sets are as they were. *)
Theorem listed_sets_stay_live (w : World) :
  listed_sets_live w ->
  (forall ty p nesting ths th u w1,
     UndoCreate ty p nesting ths th w = Ok u w1 -> listed_sets_live w1) /\
  (forall u w2,
     UndoDestroy u w = Ok tt w2 ->
     listed_sets_live w2 /\ (u ∉ UndoRecordSetList w2) /\ sets w2 !! u = None /\
     forall x, x <> u -> sets w2 !! x = sets w !! x).
Proof.
  intros [Hnd Hlive]. split.
  - intros ty p nesting ths th u w1. rewrite UndoCreate_Ok. intros [= <- <-].
    pose proof (fresh_set_not_live w) as Hfresh.
    split; cbn [UndoRecordSetList sets].
    + apply NoDup_cons. split; [|exact Hnd].
      intros Hin. apply Hlive in Hin as [s Hs]. congruence.
    + intros x [-> | Hx]%elem_of_cons.
      * rewrite lookup_insert_eq. eauto.
      * destruct (decide (x = fresh (dom (sets w)))) as [-> | Hne].
        -- rewrite lookup_insert_eq. eauto.
        -- rewrite lookup_insert_ne by congruence. auto.
  - intros u w2 Hrun.
    destruct (sets w !! u) as [s|] eqn:Hs.
    + destruct (decide (state s = URS_STATE_DIRTY)) as [Hd | Hd].
      * rewrite (UndoDestroy_dirty _ _ _ Hs Hd) in Hrun. discriminate.
      * rewrite (UndoDestroy_Ok _ _ _ Hs Hd) in Hrun. injection Hrun as <-.
        (split; [split|split; [|split]]); cbn [UndoRecordSetList sets].
        -- now apply NoDup_filter.
        -- intros x [Hx Hin]%list_elem_of_filter.
           rewrite lookup_delete_ne by congruence. auto.
        -- rewrite list_elem_of_filter. tauto.
        -- apply lookup_delete_eq.
        -- intros x Hx. now rewrite lookup_delete_ne by congruence.
    + unfold UndoDestroy, UndoRelease in Hrun.
      rewrite !bind_assoc, bind_deref_urs, Hs in Hrun. discriminate.
Qed.

End Lifecycle.

(** ** Preparing, then closing *)

Section PrepareThenClose.
Context `{UndoLayout}.

(** Closing a DIRTY set whose final chunk's header buffers are pinned
    succeeds. *)
Lemma UndoMarkClosed_pinned_Ok w u s c sl b0 b1 :
  layout_wf ->
  sets w !! u = Some s ->
  state s = URS_STATE_DIRTY ->
  last (chunks s) = Some c ->
  slots w !! chunk_slot c = Some sl ->
  0 < CritSectionCount w ->
  header_buffers_pinned s c b0 b1 ->
  exists w',
    UndoMarkClosed u w = Ok tt w' /\
    trace w' = trace w ++ size_patch_calls b0 b1 (chunk_header_offset c mod BLCKSZ)
                            (uint64 (meta_insert sl - chunk_header_offset c)) /\
    (state <$> sets w' !! u) = Some URS_STATE_CLOSED.
Proof.
  intros Hwf Hs Hdirty Hlast Hsl Hcrit Hpin.
  assert (Hlen : (0 < length (chunks s))%nat).
  { destruct (chunks s); [discriminate | cbn; lia]. }
  assert (Hci : 0 <= nchunks s - 1) by (unfold nchunks; lia).
  assert (Hc : chunks s !! Z.to_nat (nchunks s - 1) = Some c).
  { rewrite last_lookup in Hlast. rewrite <- Hlast. f_equal.
    unfold nchunks. lia. }
  assert (Hfirst : exists c0, chunks s !! Z.to_nat 0 = Some c0).
  { destruct (chunks s) as [|c0 ?]; [cbn in Hlen; lia | now exists c0]. }
  destruct Hfirst as [c0 Hc0].
  pose proof Hpin as Hpin0. unfold header_buffers_pinned in Hpin0.
  destruct (chunk_header_buffer_index c) as [i0 i1] eqn:Eix.
  destruct Hpin0 as (Hi0 & Hb0 & _).
  destruct (buffers s !! Z.to_nat i0) as [ub0|] eqn:Eub0; [|discriminate].
  unfold UndoMarkClosed.
  mstep ltac:(apply deref_urs_Ok; exact Hs).
  mstep ltac:(apply Assert_Ok; rewrite Hdirty; reflexivity).
  mstep ltac:(apply Assert_Ok; rewrite Hdirty; cbn;
              apply negb_true_iff, Z.eqb_neq; lia).
  rewrite bool_decide_eq_true_2 by assumption.
  unfold UndoMarkChunkClosed.
  mstep ltac:(apply get_Ok).
  mstep ltac:(apply Assert_Ok, Z.ltb_lt; exact Hcrit).
  mstep ltac:(apply deref_urs_Ok; exact Hs).
  mstep ltac:(eapply chunk_at_Ok; eassumption).
  mstep ltac:(apply Assert_Ok; rewrite Eix; cbn [fst];
              apply negb_true_iff, Z.eqb_neq; lia).
  mstep ltac:(apply deref_slot_Ok; exact Hsl).
  rewrite Eix. cbn [fst].
  unfold when. destruct (URSNeedsWAL s).
  - mstep ltac:(eapply chunk_at_Ok; [exact Hs | lia | exact Hc0]).
    mstep ltac:(eapply update_buffer_Ok; eassumption).
    match goal with |- exists _, bind _ _ ?w1 = _ /\ _ =>
      destruct (UndoMarkChunkClosed_loop_Ok u (nchunks s - 1)
                  (uint64 (meta_insert sl - chunk_header_offset c)) _ c b0 b1 w1
                  Hwf (lookup_insert_eq _ _ _) Hci Hc) as [pg E]
    end.
    { apply header_buffers_pinned_with_bufdata; assumption. }
    mstep ltac:(exact E).
    erewrite update_urs_Ok by (cbn; apply lookup_insert_eq).
    eexists. split; [reflexivity|]. cbn.
    rewrite lookup_insert_eq. cbn. auto.
  - destruct (UndoMarkChunkClosed_loop_Ok u (nchunks s - 1)
                (uint64 (meta_insert sl - chunk_header_offset c)) s c b0 b1 w
                Hwf Hs Hci Hc Hpin) as [pg E].
    mstep ltac:(reflexivity).
    mstep ltac:(exact E).
    erewrite update_urs_Ok by (cbn; exact Hs).
    eexists. split; [reflexivity|]. cbn.
    rewrite lookup_insert_eq. cbn. auto.
Qed.

Lemma find_buffer_tag bs logno block :
  forall i0 i,
    find_buffer bs logno block i0 = Some i ->
    exists ub, bs !! Z.to_nat (i - i0) = Some ub /\ i0 <= i /\
               fst (buffer ub) = logno /\ snd (buffer ub) = block.
Proof.
  induction bs as [|ub bs IH]; intros i0 i; cbn [find_buffer]; [discriminate|].
  destruct (_ && _) eqn:Etag.
  - intros [= <-]. apply andb_true_iff in Etag as [Hl Hb].
    apply Z.eqb_eq in Hl, Hb. exists ub. rewrite Z.sub_diag. cbn.
    repeat split; auto. lia.
  - intros E. apply IH in E as (ub' & Hub' & Hle & Hl & Hb). exists ub'.
    replace (Z.to_nat (i - i0)) with (S (Z.to_nat (i - (i0 + 1)))) by lia.
    cbn. repeat split; auto. lia.
Qed.

(** The buffer whose index [find_or_read_buffer] returns holds the block
    asked for. *)
Lemma find_or_read_buffer_page u logno block s w i w' :
  sets w !! u = Some s ->
  find_or_read_buffer u logno block w = Ok i w' ->
  exists s' ub,
    sets w' !! u = Some s' /\
    (exists more, buffers s' = buffers s ++ more) /\
    chunks s' = chunks s /\ state s' = state s /\
    0 <= i /\ buffers s' !! Z.to_nat i = Some ub /\
    holds_block logno block (buffer ub).
Proof.
  intros Hs Hrun. unfold find_or_read_buffer in Hrun.
  rewrite bind_deref_urs, Hs in Hrun.
  destruct (find_buffer (buffers s) logno block 0) as [j|] eqn:Efind.
  - injection Hrun as <- <-.
    apply find_buffer_tag in Efind as (ub & Hub & Hj & Hl & Hb).
    rewrite Z.sub_0_r in Hub.
    exists s, ub. repeat split; auto. exists []. now rewrite app_nil_r.
  - bind_inv Hrun b w2 E2. bind_inv_ Hrun w3 E3. bind_inv_ Hrun w4 E4.
    injection Hrun as <- <-.
    assert (Hb : b = (UndoRecPtrGetLogNo (MakeUndoRecPtr logno 0), block)).
    { unfold ReadBufferWithoutRelcache in E2. bind_inv_ E2 w5 E5.
      bind_inv_ E2 w6 E6. now injection E2 as <- _. }
    assert (K : keeps (fun s => s) u w w3).
    { eapply frame_trans.
      - eapply steps_Ok; [|exact E2]. apply keeps_set_ReadBufferWithoutRelcache.
      - eapply steps_Ok; [|exact E3]. unfold LockBuffer. steps_auto. }
    unfold keeps in K. rewrite Hs in K.
    destruct (sets w3 !! u) as [s3|] eqn:Hs3; [|discriminate].
    injection K as ->.
    rewrite (update_urs_Ok _ _ _ _ Hs3) in E4. injection E4 as <- <-.
    eexists _, _. cbn [sets]. rewrite lookup_insert_eq. split; [reflexivity|].
    cbn [buffers chunks state with_buffers]. repeat split; eauto.
    + unfold nbuffers. lia.
    + unfold nbuffers. rewrite Nat2Z.id, lookup_app_r, Nat.sub_diag by lia.
      cbn. reflexivity.
    + cbn [buffer]. now rewrite Hb.
    + cbn [buffer]. rewrite Hb. now right.
Qed.

(** After [UndoPrepareToMarkChunkClosed] the buffers pinned for the chunk's
    header hold the block the header starts in and, when the size field
    runs over the end of that block, the next one. *)
Lemma UndoPrepareToMarkChunkClosed_pins_header_pages u ci s c w w1 :
  sets w !! u = Some s -> 0 <= ci -> chunks s !! Z.to_nat ci = Some c ->
  UndoPrepareToMarkChunkClosed u ci w = Ok tt w1 ->
  exists s1 c1 b0 b1,
    sets w1 !! u = Some s1 /\
    chunks s1 = <[Z.to_nat ci := c1]> (chunks s) /\
    chunk_slot c1 = chunk_slot c /\
    chunk_header_offset c1 = chunk_header_offset c /\
    state s1 = state s /\
    header_buffers_pinned s1 c1 b0 b1 /\
    holds_block (chunk_slot c) (chunk_header_offset c / BLCKSZ) b0 /\
    (BLCKSZ - sizeof_size < chunk_header_offset c mod BLCKSZ ->
     holds_block (chunk_slot c) (chunk_header_offset c / BLCKSZ + 1) b1).
Proof.
  intros Hs Hci Hc Hrun. unfold UndoPrepareToMarkChunkClosed in Hrun.
  assert (Hlt : (Z.to_nat ci < length (chunks s))%nat)
    by (eapply lookup_lt_Some; eassumption).
  rewrite (bind_Ok _ _ _ _ _ (chunk_at_Ok _ _ _ _ _ Hs Hci Hc)) in Hrun.
  bind_inv Hrun i0 w2 E0.
  apply (find_or_read_buffer_page _ _ _ s) in E0
    as (s2 & ub0 & Hs2 & [more Hb2] & Hc2 & Hst2 & Hi0 & Hub0 & Hpage0);
    [|exact Hs].
  bind_inv_ Hrun w3 E3.
  rewrite (update_chunk_Ok _ _ _ s2 c) in E3 by (rewrite ?Hc2; assumption).
  injection E3 as <- <-.
  set (c3 := with_buffer_index (i0, snd (chunk_header_buffer_index c)) c) in *.
  set (s3 := with_chunks (<[Z.to_nat ci := c3]> (chunks s2)) s2) in *.
  assert (Hc3 : chunks s3 !! Z.to_nat ci = Some c3).
  { subst s3. cbn [chunks with_chunks]. rewrite Hc2.
    now apply list_lookup_insert_eq. }
  revert Hrun.
  destruct (Z.leb_spec (chunk_header_offset c mod BLCKSZ) (BLCKSZ - sizeof_size))
    as [Hfit | Hstraddle]; intros Hrun.
  - rewrite (update_chunk_Ok _ _ _ s3 c3) in Hrun
      by first [assumption | cbn [sets]; apply lookup_insert_eq].
    injection Hrun as <-.
    eexists _, _, (buffer ub0), (buffer ub0). cbn [sets].
    rewrite lookup_insert_eq. split; [reflexivity|].
    subst s3 c3. cbn. rewrite Hc2, list_insert_insert_eq.
    repeat split; auto; try apply Hpage0.
    + cbn [buffers with_chunks]. now rewrite Hub0.
    + exfalso. cbn [chunk_header_offset with_buffer_index] in *.
      unfold sizeof_size in *. lia.
    + exfalso. cbn [chunk_header_offset with_buffer_index] in *.
      unfold sizeof_size in *. lia.
    + exfalso. unfold sizeof_size in *. lia.
  - bind_inv Hrun i1 w4 E1.
    apply (find_or_read_buffer_page _ _ _ s3) in E1
      as (s4 & ub1 & Hs4 & [more' Hb4] & Hc4 & Hst4 & Hi1 & Hub1 & Hpage1);
      [|cbn [sets]; apply lookup_insert_eq].
    rewrite (update_chunk_Ok _ _ _ s4 c3) in Hrun by (rewrite ?Hc4; assumption).
    injection Hrun as <-.
    eexists _, _, (buffer ub0), (buffer ub1). cbn [sets].
    rewrite lookup_insert_eq. split; [reflexivity|].
    rewrite Hc4. subst s3 c3. cbn. rewrite Hc2, list_insert_insert_eq.
    cbn [buffers chunks state with_chunks] in Hb4, Hc4, Hst4.
    cbn [chunk_slot chunk_header_offset with_buffer_index] in Hpage1.
    repeat split; auto; try apply Hpage0; try apply Hpage1.
    + congruence.
    + cbn [buffers with_chunks]. rewrite Hb4.
      erewrite lookup_app_l_Some by eassumption. reflexivity.
    + cbn [buffers with_chunks]. now rewrite Hub1.
Qed.

(** X14.  The closing protocol: when [UndoPrepareToMarkClosed] has returned
    for a DIRTY set with a chunk, it has returned true and has pinned the
    block of the undo log in which the header of the final chunk starts
    and, when the size field runs over the end of that block, the next one.
    [UndoMarkClosed], called in a critical section entered afterwards,
    succeeds: it patches the size of the final chunk by one overwrite on
    the first of these buffers, or by two, one on each, and leaves the set
    CLOSED. *)
Theorem UndoPrepareToMarkClosed_enables_UndoMarkClosed (w w1 : World) (u : nat)
  (s : UndoRecordSet) (c : UndoRecordSetChunk) (sl : UndoLogSlot)
  (needs_work : bool) :
  layout_wf ->
  sets w !! u = Some s ->
  state s = URS_STATE_DIRTY ->
  last (chunks s) = Some c ->
  slots w !! chunk_slot c = Some sl ->
  0 <= CritSectionCount w ->
  UndoPrepareToMarkClosed u w = Ok needs_work w1 ->
  needs_work = true /\
  exists b0 b1 w2,
    holds_block (chunk_slot c) (chunk_header_offset c / BLCKSZ) b0 /\
    (BLCKSZ - sizeof_size < chunk_header_offset c mod BLCKSZ ->
     holds_block (chunk_slot c) (chunk_header_offset c / BLCKSZ + 1) b1) /\
    UndoMarkClosed u (entering_critical_section w1) = Ok tt w2 /\
    trace w2 = trace w1
               ++ size_patch_calls b0 b1 (chunk_header_offset c mod BLCKSZ)
                    (uint64 (meta_insert sl - chunk_header_offset c)) /\
    (state <$> sets w2 !! u) = Some URS_STATE_CLOSED.
Proof.
  intros Hwf Hs Hdirty Hlast Hsl Hcrit Hrun.
  assert (Hlen : (0 < length (chunks s))%nat).
  { destruct (chunks s); [discriminate | cbn; lia]. }
  assert (Hc : chunks s !! Z.to_nat (nchunks s - 1) = Some c).
  { rewrite last_lookup in Hlast. rewrite <- Hlast. f_equal.
    unfold nchunks. lia. }
  unfold UndoPrepareToMarkClosed in Hrun. rewrite bind_deref_urs, Hs in Hrun.
  destruct (Z.eqb_spec (nchunks s) 0) as [E0 | _]; [unfold nchunks in E0; lia|].
  bind_inv Hrun r w1' E. destruct r. injection Hrun as <- <-.
  split; [reflexivity|].
  pose proof (steps_Ok _ _ _ _ _ (quietly_UndoPrepareToMarkChunkClosed _ _) E)
    as [Hslots [evs [Htrace _]]].
  assert (Hcrit1 : CritSectionCount w1' = CritSectionCount w).
  { assert (Hk : steps (fun w w' => CritSectionCount w' = CritSectionCount w)
                   (UndoPrepareToMarkChunkClosed u (nchunks s - 1))).
    { assert (Frame (fun w w' : World => CritSectionCount w' = CritSectionCount w))
        by (split; congruence).
      assert (He : forall e, steps (fun w w' => CritSectionCount w' = CritSectionCount w)
                               (emit e)) by (intros e x; reflexivity).
      assert (Hp : forall f, steps (fun w w' => CritSectionCount w' = CritSectionCount w)
                               (set_pages f)) by (intros f x; reflexivity).
      assert (Hss : forall f, steps (fun w w' => CritSectionCount w' = CritSectionCount w)
                                (set_sets f)) by (intros f x; reflexivity).
      unfold UndoPrepareToMarkChunkClosed. steps_auto. }
    exact (steps_Ok _ _ _ _ _ Hk E). }
  apply (UndoPrepareToMarkChunkClosed_pins_header_pages _ _ s c) in E
    as (s1 & c1 & b0 & b1 & Hs1 & Hc1 & Hslot1 & Hoff1 & Hst1 & Hpin
        & Hpage0 & Hpage1);
    [|assumption | unfold nchunks; lia | assumption].
  exists b0, b1.
  destruct (UndoMarkClosed_pinned_Ok (entering_critical_section w1') u s1 c1 sl b0 b1)
    as (w2 & Hmark & Ht2 & Hclosed); try assumption.
  - congruence.
  - rewrite Hc1, last_lookup, length_insert.
    replace (Nat.pred (length (chunks s))) with (Z.to_nat (nchunks s - 1))
      by (unfold nchunks; lia).
    apply list_lookup_insert_eq. unfold nchunks. lia.
  - cbn [slots entering_critical_section]. now rewrite Hslots, Hslot1.
  - cbn [CritSectionCount entering_critical_section]. lia.
  - exists w2. rewrite Hoff1 in Ht2. auto 6.
Qed.

End PrepareThenClose.

(** ** Crash recovery: reading the log *)

Section ReadingTheLog.
Context `{UndoLayout} `{XLogLayout}.

(** One pass of the loop of [read_undo_header]. *)
Lemma read_undo_header_loop_step room size relNode blockno page_offset
  bytes_copied out bufs w :
  read_undo_header_loop (S room) size relNode blockno page_offset bytes_copied
    out bufs w
  = let n := uint16 (Z.min (uint64 (size - bytes_copied))
                       (uint64 (BLCKSZ - page_offset))) in
    let out' := out ++ page_bytes (page_of w (relNode, blockno)) page_offset
                         (Z.to_nat n) in
    let w1 := add_trace (pin_calls relNode blockno) w in
    if uint64 (bytes_copied + n) <? size then
      read_undo_header_loop room size relNode ((blockno + 1) mod 2 ^ 32)
        (uint16 SizeOfUndoPageHeaderData) (uint64 (bytes_copied + n)) out'
        (bufs ++ [(relNode, blockno)]) w1
    else Ok (out', bufs ++ [(relNode, blockno)]) w1.
Proof.
  cbn [read_undo_header_loop].
  unfold ReadBufferWithoutRelcache, LockBuffer, BufferGetPage, bind, emit, modify,
    ret, add_trace, pin_calls, page_of, page_bytes.
  cbn. rewrite <- app_assoc. now destruct (_ <? _).
Qed.

Lemma uint16_small x : 0 <= x < 2 ^ 16 -> uint16 x = x.
Proof. intros Hx. unfold uint16. now apply Z.mod_small. Qed.

(** X15.  [read_undo_header] of [size] bytes that lie on one page pins and
    locks that page's buffer and returns the page's bytes from the pointer's
    page offset on.  This includes [size = 0]: the loop body runs once
    before the size is looked at, so a buffer is pinned and locked although
    nothing is copied. *)
Theorem read_undo_header_on_one_page (size urp : Z) (nbuffers : nat) (w : World) :
  0 < BLCKSZ < 2 ^ 16 ->
  0 <= size <= BLCKSZ - urp mod BLCKSZ ->
  (0 < nbuffers)%nat ->
  let relNode := UndoRecPtrGetLogNo urp in
  let blockno := (UndoRecPtrGetOffset urp / BLCKSZ) mod 2 ^ 32 in
  read_undo_header size urp nbuffers w
  = Ok (page_bytes (page_of w (relNode, blockno)) (urp mod BLCKSZ) (Z.to_nat size),
        [(relNode, blockno)])
       (add_trace (pin_calls relNode blockno) w).
Proof.
  intros HB Hsize Hn.
  pose proof (Z.mod_pos_bound urp BLCKSZ (proj1 HB)) as Hpo.
  cbv zeta. unfold read_undo_header.
  set (po := urp mod BLCKSZ) in *.
  set (blockno := (UndoRecPtrGetOffset urp / BLCKSZ) mod 2 ^ 32).
  destruct nbuffers as [|n]; [lia|].
  rewrite read_undo_header_loop_step. cbv zeta.
  rewrite (uint16_small po) by lia.
  rewrite Z.sub_0_r, (uint64_small size), (uint64_small (BLCKSZ - po)) by lia.
  rewrite Z.min_l, (uint16_small size), Z.add_0_l, (uint64_small size) by lia.
  rewrite Z.ltb_irrefl. reflexivity.
Qed.

(** X16.  [read_undo_header] of bytes that run over a page boundary, given
    room for two buffers: it pins and locks the page of the pointer and the
    next one, and returns the rest of the first page followed by the bytes
    after the page header of the second.  Given room for only one buffer it
    ends in ERROR after pinning and locking the first page, which it does
    not release. *)
Theorem read_undo_header_across_pages (size urp : Z) (nbuffers : nat) (w : World) :
  0 <= SizeOfUndoPageHeaderData < BLCKSZ -> BLCKSZ < 2 ^ 16 ->
  BLCKSZ - urp mod BLCKSZ < size
    <= BLCKSZ - urp mod BLCKSZ + (BLCKSZ - SizeOfUndoPageHeaderData) ->
  let relNode := UndoRecPtrGetLogNo urp in
  let blockno := (UndoRecPtrGetOffset urp / BLCKSZ) mod 2 ^ 32 in
  let next := (blockno + 1) mod 2 ^ 32 in
  let on_first := BLCKSZ - urp mod BLCKSZ in
  (nbuffers = 1%nat ->
   read_undo_header size urp nbuffers w
   = Raise ERROR "cannot read undo data: not enough buffers"
       (add_trace (pin_calls relNode blockno) w)) /\
  ((2 <= nbuffers)%nat ->
   read_undo_header size urp nbuffers w
   = Ok (page_bytes (page_of w (relNode, blockno)) (urp mod BLCKSZ)
           (Z.to_nat on_first)
         ++ page_bytes (page_of w (relNode, next)) SizeOfUndoPageHeaderData
              (Z.to_nat (size - on_first)),
         [(relNode, blockno); (relNode, next)])
        (add_trace (pin_calls relNode blockno ++ pin_calls relNode next) w)).
Proof.
  intros Hh HB Hsize.
  pose proof (Z.mod_pos_bound urp BLCKSZ
                (Z.le_lt_trans _ _ _ (proj1 Hh) (proj2 Hh))) as Hpo.
  cbv zeta. unfold read_undo_header.
  set (po := urp mod BLCKSZ) in *.
  set (relNode := UndoRecPtrGetLogNo urp).
  set (blockno := (UndoRecPtrGetOffset urp / BLCKSZ) mod 2 ^ 32).
  set (next := (blockno + 1) mod 2 ^ 32).
  set (on_first := BLCKSZ - po) in *.
  assert (Hfirst :
    forall room,
      read_undo_header_loop (S room) size relNode blockno (uint16 po) 0 [] [] w
      = read_undo_header_loop room size relNode next
          (uint16 SizeOfUndoPageHeaderData) on_first
          (page_bytes (page_of w (relNode, blockno)) po (Z.to_nat on_first))
          [(relNode, blockno)]
          (add_trace (pin_calls relNode blockno) w)).
  { intros room. rewrite read_undo_header_loop_step. cbv zeta.
    rewrite (uint16_small po) by lia.
    rewrite Z.sub_0_r, (uint64_small size), (uint64_small (BLCKSZ - po)) by lia.
    fold on_first.
    rewrite Z.min_r, (uint16_small on_first), Z.add_0_l,
      (uint64_small on_first) by lia.
    destruct (Z.ltb_spec on_first size); [reflexivity | lia]. }
  split.
  - intros ->. rewrite Hfirst. reflexivity.
  - intros Hn. destruct nbuffers as [|[|n]]; [lia | lia |].
    rewrite Hfirst, read_undo_header_loop_step. cbv zeta.
    rewrite add_trace_app.
    rewrite (uint16_small SizeOfUndoPageHeaderData) by lia.
    rewrite (uint64_small (size - on_first)),
      (uint64_small (BLCKSZ - SizeOfUndoPageHeaderData)) by lia.
    rewrite Z.min_l, (uint16_small (size - on_first)) by lia.
    replace (on_first + (size - on_first)) with size by lia.
    rewrite (uint64_small size) by lia.
    rewrite Z.ltb_irrefl. reflexivity.
Qed.

(** The page the search for the final chunk reads. *)
Lemma final_block_spec insert :
  0 <= SizeOfUndoPageHeaderData < BLCKSZ ->
  SizeOfUndoPageHeaderData < insert < 2 ^ 32 ->
  let last := uint64 (insert - 1) in
  let last :=
    if last mod BLCKSZ <? SizeOfUndoPageHeaderData
    then uint64 (last - SizeOfUndoPageHeaderData)
    else last in
  last = last_data_offset insert /\
  (last / BLCKSZ) mod 2 ^ 32 = final_block insert /\
  (BLCKSZ * final_block insert) mod 2 ^ 32 = BLCKSZ * final_block insert.
Proof.
  intros Hh Hi. cbv zeta. unfold final_block, last_data_offset.
  rewrite (uint64_small (insert - 1)) by lia.
  assert (HB : 0 < BLCKSZ) by lia.
  assert (HBn : BLCKSZ <> 0) by lia.
  assert (Hi0 : 0 <= insert) by lia.
  pose proof (Z.div_mod insert BLCKSZ HBn) as Hdm.
  pose proof (Z.mod_pos_bound insert BLCKSZ HB) as Hm.
  pose proof (Z.div_pos insert BLCKSZ Hi0 HB) as Hq.
  set (q := insert / BLCKSZ) in *. set (r := insert mod BLCKSZ) in *.
  assert (Hqb : BLCKSZ * q < 2 ^ 32) by lia.
  assert (Hq32 : q < 2 ^ 32) by nia.
  destruct (Z.ltb_spec SizeOfUndoPageHeaderData r) as [Hr | Hr].
  - (* the byte before the insert pointer is a data byte of its page *)
    assert (E : (insert - 1) mod BLCKSZ = r - 1).
    { symmetry. apply (Z.mod_unique_pos _ _ q); lia. }
    rewrite E. destruct (Z.ltb_spec (r - 1) SizeOfUndoPageHeaderData); [lia|].
    assert (E' : (insert - 1) / BLCKSZ = q).
    { symmetry. apply (Z.div_unique_pos _ _ q (r - 1)); lia. }
    rewrite E', !Z.mod_small by lia.
    destruct (Z.leb_spec r SizeOfUndoPageHeaderData); [lia|].
    rewrite andb_false_r. auto.
  - (* it is a byte of the page header, or of the page before *)
    assert (Hq1 : 1 <= q) by nia.
    destruct (Z.leb_spec r SizeOfUndoPageHeaderData); [|lia].
    rewrite andb_true_r.
    destruct (Z.ltb_spec 0 r) as [Hr0 | Hr0].
    + assert (E : (insert - 1) mod BLCKSZ = r - 1).
      { symmetry. apply (Z.mod_unique_pos _ _ q); lia. }
      rewrite E. destruct (Z.ltb_spec (r - 1) SizeOfUndoPageHeaderData); [|lia].
      rewrite (uint64_small (insert - 1 - SizeOfUndoPageHeaderData)) by lia.
      assert (E' : (insert - 1 - SizeOfUndoPageHeaderData) / BLCKSZ = q - 1).
      { symmetry.
        apply (Z.div_unique_pos _ _ (q - 1)
                 (BLCKSZ + r - 1 - SizeOfUndoPageHeaderData)); lia. }
      rewrite E', !Z.mod_small by nia. auto.
    + assert (E : (insert - 1) mod BLCKSZ = BLCKSZ - 1).
      { symmetry. apply (Z.mod_unique_pos _ _ (q - 1)); lia. }
      rewrite E. destruct (Z.ltb_spec (BLCKSZ - 1) SizeOfUndoPageHeaderData); [lia|].
      assert (E' : (insert - 1) / BLCKSZ = q - 1).
      { symmetry. apply (Z.div_unique_pos _ _ (q - 1) (BLCKSZ - 1)); lia. }
      rewrite E', !Z.mod_small by nia. auto.
Qed.

Lemma pure_find_start_of_chunk_on_final_page fuel page urp :
  steps (fun w w' => w' = w) (find_start_of_chunk_on_final_page fuel page urp).
Proof.
  assert (HF : Frame (fun w w' : World => w' = w)) by (split; congruence).
  assert (Hw : forall po, steps (fun w w' => w' = w)
                            (final_page_walk fuel page urp po)).
  { induction fuel as [|fuel IH]; intros po; cbn [final_page_walk]; steps_auto. }
  unfold find_start_of_chunk_on_final_page. steps_auto.
Qed.

(** X17.  [find_start_of_final_chunk_in_undo_log], for an insert pointer
    below 4 GiB: the page it reads is the one that holds the last data byte
    before the insert pointer (the block before, when the insert pointer is
    at or before the first data byte of its page); it locks it in share mode
    and searches it with the address of that page.  The buffer is released
    when the search returns; when the search ends in ERROR the buffer is
    left pinned and locked. *)
Theorem find_start_of_final_chunk_in_undo_log_reads_final_block (fuel : nat)
  (logno insert : Z) (w : World) :
  0 <= SizeOfUndoPageHeaderData < BLCKSZ ->
  SizeOfUndoPageHeaderData < insert < 2 ^ 32 ->
  let relNode :=
    UndoRecPtrGetLogNo (MakeUndoRecPtr logno (last_data_offset insert)) in
  let b := (relNode, final_block insert) in
  let w1 := add_trace [EvReadBuffer relNode (final_block insert) RBM_NORMAL;
                       EvLockBuffer b BUFFER_LOCK_SHARE] w in
  let search :=
    find_start_of_chunk_on_final_page fuel (page_of w b)
      (MakeUndoRecPtr logno (BLCKSZ * final_block insert)) w1 in
  (forall r w', search = Ok r w' ->
     find_start_of_final_chunk_in_undo_log fuel logno insert w
     = Ok r (add_trace [EvUnlockReleaseBuffer b] w1)) /\
  (forall l msg w', search = Raise l msg w' ->
     find_start_of_final_chunk_in_undo_log fuel logno insert w
     = Raise l msg w1).
Proof.
  intros Hh Hi.
  destruct (final_block_spec insert Hh Hi) as (Hlast & Hblk & Hmul).
  cbv zeta in Hlast, Hblk. cbv zeta.
  unfold find_start_of_final_chunk_in_undo_log. cbv zeta.
  rewrite Hblk, Hlast, Hmul.
  set (relNode := UndoRecPtrGetLogNo _).
  set (b := (relNode, final_block insert)).
  set (urp := MakeUndoRecPtr logno (BLCKSZ * final_block insert)).
  match goal with |- context [bind ?m ?k w] =>
    assert (Hrun :
      bind m k w
      = bind (find_start_of_chunk_on_final_page fuel (page_of w b) urp)
          (fun result => bind (UnlockReleaseBuffer b) (fun _ => ret result))
          (add_trace [EvReadBuffer relNode (final_block insert) RBM_NORMAL;
                      EvLockBuffer b BUFFER_LOCK_SHARE] w))
  end.
  { unfold ReadBufferWithoutRelcache, LockBuffer, BufferGetPage, bind, emit,
      modify, ret, add_trace, page_of. cbn. now rewrite <- app_assoc. }
  rewrite Hrun. clear Hrun.
  set (w1 := add_trace _ w).
  pose proof (pure_find_start_of_chunk_on_final_page fuel (page_of w b) urp w1)
    as Hpure.
  split.
  - intros r w' E. rewrite E in Hpure. cbn in Hpure. subst w'.
    rewrite (bind_Ok _ _ _ _ _ E). unfold UnlockReleaseBuffer.
    rewrite (bind_Ok _ _ _ _ _ (emit_Ok _ _)). reflexivity.
  - intros l msg w' E. rewrite E in Hpure. cbn in Hpure. subst w'.
    now rewrite (bind_Raise _ _ _ _ _ _ E).
Qed.

End ReadingTheLog.

(** ** Releasing the buffers of the crash recovery scan *)

(** X18.  [release_buffers] of the crash recovery code releases every valid
    entry of the array once, in array order, and passes over the invalid
    ones; every entry is invalid afterwards, so that a second call on the
    same array releases nothing. *)
Theorem release_pinned_releases_once (bufs : list (option Buffer)) (w : World) :
  release_pinned bufs w
  = Ok (replicate (length bufs) None)
       (add_trace (map EvUnlockReleaseBuffer (omap id bufs)) w) /\
  forall w',
    release_pinned (replicate (length bufs) None) w'
    = Ok (replicate (length bufs) None) w'.
Proof.
  split.
  - revert w. induction bufs as [|[b|] bufs IH]; intros w.
    + cbn. unfold ret, add_trace. rewrite app_nil_r. now destruct w.
    + cbn [release_pinned length replicate omap]. unfold UnlockReleaseBuffer.
      rewrite (bind_Ok _ _ _ _ _ (emit_Ok _ _)).
      rewrite (bind_Ok _ _ _ _ _ (IH _)). unfold ret.
      cbn [option_bind mbind id map]. f_equal.
      unfold add_trace. cbn. now rewrite <- app_assoc.
    + cbn [release_pinned length replicate omap].
      rewrite (bind_Ok _ _ _ _ _ (IH _)). reflexivity.
  - induction bufs as [|x bufs IH]; intros w'; [reflexivity|].
    cbn [length replicate release_pinned].
    now rewrite (bind_Ok _ _ _ _ _ (IH _)).
Qed.

(** * The earlier revision: properties *)

Section LegacyMonad.
Import Legacy.
Local Open Scope legacy_scope.

Lemma legacy_bind_Ok {A B} (m : M A) (k : A -> M B) w a w' :
  m w = Ok a w' -> bind m k w = k a w'.
Proof. intros E. unfold bind. now rewrite E. Qed.

Lemma legacy_bind_Raise {A B} (m : M A) (k : A -> M B) w l msg w' :
  m w = Raise l msg w' -> bind m k w = Raise l msg w'.
Proof. intros E. unfold bind. now rewrite E. Qed.

Lemma legacy_bind_ret {A B} (a : A) (k : A -> M B) w : bind (ret a) k w = k a w.
Proof. reflexivity. Qed.

Lemma legacy_bind_assoc {A B C} (m : M A) (k : A -> M B) (k2 : B -> M C) w :
  bind (bind m k) k2 w = bind m (fun x => bind (k x) k2) w.
Proof. unfold bind. now destruct (m w). Qed.

Lemma legacy_bind_Ok_inv {A B} (m : M A) (k : A -> M B) w b w' :
  bind m k w = Ok b w' -> exists a w1, m w = Ok a w1 /\ k a w1 = Ok b w'.
Proof.
  unfold bind. destruct (m w) as [a w1 | ? ? ?]; [eauto | discriminate].
Qed.

Lemma legacy_Assert_Ok c msg w : c = true -> Assert c msg w = Ok tt w.
Proof. now intros ->. Qed.

End LegacyMonad.

(** ** Bytes *)

(** A property of the numbers below [n], checked on each of them. *)
Lemma all_from_spec (P : Z -> bool) (n : nat) :
  forall x, all_from P n x = true ->
  forall y, x <= y < x + Z.of_nat n -> P y = true.
Proof.
  induction n as [|n IH]; intros x Hall y Hy; [lia|].
  cbn [all_from] in Hall. apply andb_true_iff in Hall as [Hx Hall].
  destruct (Z.eq_dec y x) as [-> | Hne]; [exact Hx|].
  apply (IH (x + 1) Hall). lia.
Qed.

Lemma checked_below (P : Z -> bool) (n : nat) :
  all_from P n 0 = true ->
  forall x, 0 <= x < Z.of_nat n -> P x = true.
Proof. intros Hall x Hx. apply (all_from_spec P n 0 Hall). lia. Qed.

Section LegacyBytes.
Import Legacy.
Local Open Scope legacy_scope.
Context `{UndoLayout} `{LegacyLayout}.

Lemma write_bytes_lookup data :
  forall d offset i,
    write_bytes d offset data !! i =
    if (offset <=? i) && (i <? offset + Z.of_nat (length data))
    then data !! Z.to_nat (i - offset)
    else d !! i.
Proof.
  induction data as [|x data IH]; intros d offset i; cbn [write_bytes length].
  - destruct (Z.leb_spec offset i), (Z.ltb_spec i (offset + Z.of_nat 0));
      cbn; try reflexivity; lia.
  - rewrite IH.
    destruct (Z.leb_spec (offset + 1) i), (Z.leb_spec offset i),
      (Z.ltb_spec i (offset + 1 + Z.of_nat (length data))),
      (Z.ltb_spec i (offset + Z.of_nat (S (length data)))); cbn; try lia.
    + replace (Z.to_nat (i - offset)) with (S (Z.to_nat (i - (offset + 1))))
        by lia. reflexivity.
    + now rewrite lookup_insert_ne by lia.
    + assert (i = offset) as -> by lia.
      now rewrite lookup_insert_eq, Z.sub_diag.
    + now rewrite lookup_insert_ne by lia.
Qed.

(** The header [write_update_ops_header] writes, read back as
    [UndoUpdateInRecovery] reads it. *)
Lemma update_header_decodes offset size rest :
  0 <= offset < 2 ^ 15 -> 0 <= size < 2 ^ 16 ->
  let ops := update_ops_header offset size ++ rest in
  (op_byte ops 0 =? 0) = false /\
  (Z.land (op_byte ops 0) 128 =? 0) = false /\
  uint16 (Z.lor (Z.shiftl (Z.land (op_byte ops 0) 127) 8) (op_byte ops 1))
  = offset /\
  uint16 (Z.lor (Z.shiftl (op_byte ops 2) 8) (op_byte ops 3)) = size.
Proof.
  intros Ho Hs. cbv zeta. unfold update_ops_header, op_byte. cbn [app nth].
  pose proof (checked_below
    (fun o =>
       let a := uint8 (uint8 (Z.lor 128 (Z.shiftr o 8))) in
       negb (a =? 0) && negb (Z.land a 128 =? 0)
       && (uint16 (Z.lor (Z.shiftl (Z.land a 127) 8) (uint8 (uint8 (Z.land o 255))))
           =? o)) (Z.to_nat (2 ^ 15)) ltac:(vm_compute; reflexivity) offset
    ltac:(lia)) as Hoff.
  pose proof (checked_below
    (fun s =>
       uint16 (Z.lor (Z.shiftl (uint8 (uint8 (Z.shiftr s 8))) 8)
                 (uint8 (uint8 (Z.land s 255)))) =? s)
    (Z.to_nat (2 ^ 16)) ltac:(vm_compute; reflexivity) size ltac:(lia)) as Hsz.
  cbv zeta beta in Hoff, Hsz.
  apply andb_true_iff in Hoff as [Hoff H3]. apply andb_true_iff in Hoff as [H1 H2].
  apply negb_true_iff in H1, H2. apply Z.eqb_eq in H3, Hsz. auto.
Qed.

Lemma insert_length_decodes len rest :
  0 < len < 128 ->
  let ops := uint8 len :: rest in
  (op_byte ops 0 =? 0) = false /\ (Z.land (op_byte ops 0) 128 =? 0) = true /\
  op_byte ops 0 = len.
Proof.
  intros Hl. cbv zeta. unfold op_byte. cbn [nth].
  pose proof (checked_below
    (fun l => (l =? 0) || (negb (uint8 (uint8 l) =? 0)
                           && (Z.land (uint8 (uint8 l)) 128 =? 0)
                           && (uint8 (uint8 l) =? l)))
    128 ltac:(vm_compute; reflexivity) len ltac:(lia)) as Hlen.
  cbv beta in Hlen. destruct (Z.eqb_spec len 0); [lia|]. cbn [orb] in Hlen.
  apply andb_true_iff in Hlen as [Hlen H3]. apply andb_true_iff in Hlen as [H1 H2].
  apply negb_true_iff in H1. apply Z.eqb_eq in H3. auto.
Qed.

Lemma memcpy_to_page_Ok b offset data w :
  0 <= offset -> offset + Z.of_nat (length data) <= BLCKSZ ->
  memcpy_to_page b offset data w
  = Ok tt (with_page b (write_bytes (page_of w b) offset data) w).
Proof.
  intros Ho Hfit. unfold memcpy_to_page.
  destruct (Z.ltb_spec offset 0); [lia|].
  destruct (Z.ltb_spec BLCKSZ (offset + Z.of_nat (length data))); [lia|].
  reflexivity.
Qed.

Lemma page_of_with_page b d w b' :
  page_of (with_page b d w) b' = if decide (b' = b) then d else page_of w b'.
Proof.
  unfold page_of, with_page. cbn [pages].
  destruct (decide (b' = b)) as [-> | Hne].
  - now rewrite lookup_insert_eq.
  - now rewrite lookup_insert_ne by congruence.
Qed.

(** The loop decodes what was encoded, and goes on with what follows. *)
Lemma replay_loop b prog :
  Forall well_formed prog ->
  forall rest fuel w,
    exists w',
      UndoUpdateInRecovery_ops (length prog + fuel) b (encode prog ++ rest) w
      = UndoUpdateInRecovery_ops fuel b rest w' /\
      slots w' = slots w /\ sets w' = sets w /\ calls w' = calls w /\
      page_of w' b = replayed prog (page_of w b) /\
      forall b', b' <> b -> page_of w' b' = page_of w b'.
Proof.
  induction 1 as [|i prog Hwf _ IH]; intros rest fuel w.
  - exists w. cbn. repeat split.
  - unfold encode in *. cbn [map concat length Nat.add] in *.
    fold (encode prog) in *. rewrite <- app_assoc.
    destruct i as [data | offset data]; cbn [well_formed] in Hwf;
      cbn [encode_instruction] in *.
    + (* an insert instruction is skipped *)
      destruct (insert_length_decodes (Z.of_nat (length data))
                  (data ++ encode prog ++ rest) ltac:(lia)) as (H1 & H2 & H3).
      cbv zeta in H1, H2, H3.
      cbn [UndoUpdateInRecovery_ops app]. rewrite H1, H2, H3. cbn [negb Assert].
      rewrite legacy_bind_ret.
      replace (Z.to_nat (Z.of_nat (length data) + 1)) with (S (length data)) by lia.
      cbn [drop]. rewrite drop_app_length.
      destruct (IH rest fuel w) as (w' & Hrun & Hrest).
      exists w'. split; [exact Hrun|]. exact Hrest.
    + (* an update instruction is applied *)
      destruct Hwf as (Ho & Hd0 & Hd1 & Hfit).
      destruct (update_header_decodes offset (Z.of_nat (length data))
                  (data ++ encode prog ++ rest) Ho ltac:(lia))
        as (H1 & H2 & H3 & H4).
      cbv zeta in H1, H2, H3, H4.
      rewrite <- app_assoc.
      remember (update_ops_header offset (Z.of_nat (length data))
                ++ data ++ encode prog ++ rest) as ops eqn:Eops.
      assert (Hlen : (4 + length data <= length ops)%nat).
      { subst ops. rewrite !length_app. cbn. lia. }
      assert (Hdrop : drop 4 ops = data ++ encode prog ++ rest) by now subst ops.
      destruct ops as [|op0 ops']; [cbn in Hlen; lia|].
      cbn [UndoUpdateInRecovery_ops]. rewrite H1, H2. cbn [negb Assert].
      rewrite legacy_bind_ret. unfold OPS_HEADER_SIZE.
      destruct (Z.leb_spec (Z.of_nat (length (op0 :: ops'))) 4) as [Hle | _];
        [lia|].
      rewrite H3, H4, Hdrop.
      destruct (Z.ltb_spec (Z.of_nat (length (data ++ encode prog ++ rest)))
                  (Z.of_nat (length data))) as [Hlt | _];
        [rewrite length_app in Hlt; lia|].
      rewrite Nat2Z.id, take_app_length, drop_app_length.
      rewrite (legacy_bind_Ok _ _ _ _ _
                 (memcpy_to_page_Ok b offset data w ltac:(lia) Hfit)).
      set (w1 := with_page b _ w).
      destruct (IH rest fuel w1) as (w' & Hrun & Hs & Hu & Hc & Hp & Hother).
      exists w'. split; [exact Hrun|].
      split; [exact Hs|]. split; [exact Hu|]. split; [exact Hc|]. split.
      * rewrite Hp. unfold w1. rewrite page_of_with_page.
        destruct (decide (b = b)); [|congruence]. reflexivity.
      * intros b' Hb'. rewrite (Hother b' Hb'). unfold w1.
        rewrite page_of_with_page. destruct (decide (b' = b)); congruence.
Qed.

(** Updates after the page header leave the page header as it is. *)
Lemma write_bytes_before d offset data i :
  i < offset -> write_bytes d offset data !! i = d !! i.
Proof.
  intros Hi. rewrite write_bytes_lookup.
  destruct (Z.leb_spec offset i); [lia | reflexivity].
Qed.

Lemma replayed_page_header prog :
  Forall after_page_header prog ->
  forall d i, i < SizeOfUndoPageHeaderData -> replayed prog d !! i = d !! i.
Proof.
  induction 1 as [|[data | offset data] prog Hh _ IH]; intros d i Hi;
    [reflexivity | exact (IH d i Hi) |].
  cbn [after_page_header] in Hh. unfold replayed in *. cbn [foldl].
  rewrite IH by assumption. apply write_bytes_before. lia.
Qed.

Lemma encode_instruction_length i :
  well_formed i -> (1 <= length (encode_instruction i))%nat.
Proof. destruct i; cbn; intros; lia. Qed.

Lemma encode_length prog :
  Forall well_formed prog -> (length prog <= length (encode prog))%nat.
Proof.
  induction 1 as [|i prog Hwf _ IH]; [cbn; lia|].
  unfold encode in *. cbn [map concat length]. rewrite length_app.
  pose proof (encode_instruction_length i Hwf). lia.
Qed.

(** Blocks that do not belong to an undo log are passed over. *)
Lemma UndoUpdateInRecovery_blocks_skip lsn bs :
  Forall (fun b => is_undo_block b = false) bs ->
  forall block_id w, UndoUpdateInRecovery_blocks lsn block_id bs w = Ok tt w.
Proof.
  induction 1 as [|b bs Hb _ IH]; intros block_id w; [reflexivity|].
  cbn [UndoUpdateInRecovery_blocks]. unfold UndoUpdateInRecovery_block.
  unfold is_undo_block in Hb. rewrite Hb. cbn [when].
  rewrite legacy_bind_ret. apply IH.
Qed.

Lemma UndoUpdateInRecovery_blocks_prefix lsn pre rest :
  Forall (fun b => is_undo_block b = false) pre ->
  forall block_id w,
    0 <= block_id -> block_id + Z.of_nat (length pre) < 256 ->
    UndoUpdateInRecovery_blocks lsn block_id (pre ++ rest) w
    = UndoUpdateInRecovery_blocks lsn (block_id + Z.of_nat (length pre)) rest w.
Proof.
  induction 1 as [|b pre Hb _ IH]; intros block_id w Hid Hlt.
  - cbn. now rewrite Z.add_0_r.
  - cbn [app UndoUpdateInRecovery_blocks]. unfold UndoUpdateInRecovery_block.
    unfold is_undo_block in Hb. rewrite Hb. cbn [when].
    rewrite legacy_bind_ret. cbn [length] in *.
    replace (uint8 (block_id + 1)) with (block_id + 1)
      by (unfold uint8; rewrite Z.mod_small; lia).
    rewrite IH by lia. f_equal. lia.
Qed.

(** The record's run is the run on its one undo block. *)
Lemma UndoUpdateInRecovery_one_undo_block lsn pre block post w :
  Forall (fun b => is_undo_block b = false) (pre ++ post) ->
  (length pre < 256)%nat ->
  UndoUpdateInRecovery (mkXLog (pre ++ block :: post) lsn) w
  = match UndoUpdateInRecovery_block lsn (Z.of_nat (length pre)) block w with
    | Ok _ w' => Ok tt w'
    | Raise l msg w' => Raise l msg w'
    end.
Proof.
  intros Hskip Hlen. apply Forall_app in Hskip as [Hpre Hpost].
  unfold UndoUpdateInRecovery. cbn [blocks ReadRecPtr].
  rewrite UndoUpdateInRecovery_blocks_prefix by (assumption || lia).
  cbn [UndoUpdateInRecovery_blocks Z.add]. unfold bind at 1.
  destruct (UndoUpdateInRecovery_block _ _ _ _); [|reflexivity].
  now apply UndoUpdateInRecovery_blocks_skip.
Qed.

(** The run on an undo block that needs redo, up to the end of the loop. *)
Lemma UndoUpdateInRecovery_block_redo lsn block_id block ops w :
  is_undo_block block = true ->
  redo_action block = BLK_NEEDS_REDO ->
  block_data block = Some ops ->
  UndoUpdateInRecovery_block lsn block_id block w
  = match UndoUpdateInRecovery_ops (length ops) (block_buffer block) ops
            (add_calls [CallXLogReadBufferForRedoExtended block_id RBM_NORMAL] w)
    with
    | Ok _ w1 =>
        Ok tt (add_calls [CallPageSetLSN (block_buffer block) lsn;
                          CallLockBuffer (block_buffer block) BUFFER_LOCK_UNLOCK;
                          CallReleaseBuffer (block_buffer block)]
                 (mkWorld (slots w1)
                    (<[block_buffer block :=
                         store_pd_lsn lsn (page_of w1 (block_buffer block))]>
                       (pages w1))
                    (sets w1) (CritSectionCount w1) (InRecovery w1) (calls w1)))
    | Raise l msg w1 => Raise l msg w1
    end.
Proof.
  intros Hundo Hact Hdata. unfold UndoUpdateInRecovery_block.
  unfold is_undo_block in Hundo. rewrite Hundo, Hact, Hdata.
  change (default [] (Some ops)) with ops.
  rewrite bool_decide_eq_true_2 by reflexivity.
  rewrite bool_decide_eq_false_2 by discriminate.
  fold (block_buffer block).
  unfold when, bind, call, modify, add_calls.
  destruct (UndoUpdateInRecovery_ops _ _ _ _) as [[] w1 | l msg w1];
    [|reflexivity].
  unfold PageSetLSN, call, modify, store_page, set_pages, modify, BufferGetPage,
    bind, page_of. cbn. now rewrite <- !app_assoc.
Qed.

End LegacyBytes.

(** ** Replaying the instructions of a block *)

Section LegacyReplay.
Import Legacy.
Local Open Scope legacy_scope.
Context `{UndoLayout} `{LegacyLayout}.

(** X19.  [UndoUpdateInRecovery] on a record whose one undo block needs redo
    and carries a stream of well-formed instructions: the inserts are
    skipped, the updates are copied onto the block's page in stream order,
    at whatever offset they name, then the record's LSN is stored into the
    page, and the buffer is read once, then unlocked and released.  The
    other pages stay as they are.  When every update starts after the page
    header, as those that [write_update_ops_header] accepts do, the copies
    leave the bytes of the page header as they were. *)
Theorem UndoUpdateInRecovery_replays_updates (w : World)
  (pre post : list DecodedBkpBlock) (block : DecodedBkpBlock)
  (prog : list Instruction) (lsn : Z) :
  Forall (fun b => is_undo_block b = false) (pre ++ post) ->
  (length pre < 256)%nat ->
  is_undo_block block = true ->
  redo_action block = BLK_NEEDS_REDO ->
  block_data block = Some (encode prog) ->
  Forall well_formed prog ->
  exists w',
    UndoUpdateInRecovery (mkXLog (pre ++ block :: post) lsn) w = Ok tt w' /\
    page_of w' (block_buffer block)
    = store_pd_lsn lsn (replayed prog (page_of w (block_buffer block))) /\
    (forall b, b <> block_buffer block -> page_of w' b = page_of w b) /\
    calls w'
    = calls w
      ++ [CallXLogReadBufferForRedoExtended (Z.of_nat (length pre)) RBM_NORMAL;
          CallPageSetLSN (block_buffer block) lsn;
          CallLockBuffer (block_buffer block) BUFFER_LOCK_UNLOCK;
          CallReleaseBuffer (block_buffer block)] /\
    (Forall after_page_header prog ->
     forall i, i < SizeOfUndoPageHeaderData ->
               replayed prog (page_of w (block_buffer block)) !! i
               = page_of w (block_buffer block) !! i).
Proof.
  intros Hskip Hpre Hundo Hact Hdata Hwf.
  rewrite UndoUpdateInRecovery_one_undo_block by assumption.
  rewrite (UndoUpdateInRecovery_block_redo _ _ _ _ _ Hundo Hact Hdata).
  pose proof (encode_length prog Hwf) as Hfuel.
  destruct (Nat.le_exists_sub _ _ Hfuel) as (k & Hk & _).
  rewrite (Nat.add_comm k) in Hk. rewrite Hk.
  match goal with |- context [UndoUpdateInRecovery_ops (_ + ?f)%nat ?b _ ?w0] =>
    destruct (replay_loop b prog Hwf [] f w0)
      as (w1 & Hrun & _ & _ & Hcalls & Hpage & Hother)
  end.
  rewrite app_nil_r in Hrun. rewrite Hrun.
  replace (UndoUpdateInRecovery_ops _ (block_buffer block) [] w1) with (Ok tt w1)
    by now destruct k.
  eexists. split; [reflexivity|]. split; [|split; [|split]].
  - unfold page_of at 1. cbn [pages add_calls]. rewrite lookup_insert_eq.
    cbn [default from_option id]. now rewrite Hpage.
  - intros b Hb. unfold page_of at 1. cbn [pages add_calls].
    rewrite lookup_insert_ne by congruence. now apply Hother.
  - cbn [calls add_calls]. rewrite Hcalls. cbn [calls add_calls].
    now rewrite <- app_assoc.
  - intros Hafter i Hi. now apply replayed_page_header.
Qed.

(** X20.  A stream that ends inside an update instruction (the header is
    the last thing in it, or fewer bytes follow the header than its size
    field announces) makes [UndoUpdateInRecovery] raise ERROR
    "corrupted undo update instruction".  The updates that came before are
    on the page by then and nothing else of the page has changed: the LSN
    is not stored, and the buffer is neither unlocked nor released. *)
Theorem UndoUpdateInRecovery_rejects_truncated_update (w : World)
  (pre post : list DecodedBkpBlock) (block : DecodedBkpBlock)
  (prog : list Instruction) (offset size : Z) (data : list Z) (lsn : Z) :
  Forall (fun b => is_undo_block b = false) (pre ++ post) ->
  (length pre < 256)%nat ->
  is_undo_block block = true ->
  redo_action block = BLK_NEEDS_REDO ->
  block_data block
  = Some (encode prog ++ update_ops_header offset size ++ data) ->
  Forall well_formed prog ->
  0 <= offset < 2 ^ 15 -> 0 <= size < 2 ^ 16 ->
  data = [] \/ Z.of_nat (length data) < size ->
  exists w',
    UndoUpdateInRecovery (mkXLog (pre ++ block :: post) lsn) w
    = Raise ERROR "corrupted undo update instruction" w' /\
    page_of w' (block_buffer block)
    = replayed prog (page_of w (block_buffer block)) /\
    calls w'
    = calls w
      ++ [CallXLogReadBufferForRedoExtended (Z.of_nat (length pre)) RBM_NORMAL].
Proof.
  intros Hskip Hpre Hundo Hact Hdata Hwf Ho Hs Hshort.
  rewrite UndoUpdateInRecovery_one_undo_block by assumption.
  rewrite (UndoUpdateInRecovery_block_redo _ _ _ _ _ Hundo Hact Hdata).
  pose proof (encode_length prog Hwf) as Hfuel.
  set (tail := update_ops_header offset size ++ data).
  assert (Htail : (4 <= length tail)%nat)
    by (unfold tail; rewrite length_app; cbn; lia).
  replace (length (encode prog ++ tail))
    with (length prog + S (length (encode prog) - length prog + length tail - 1))%nat
    by (rewrite length_app; lia).
  match goal with |- context [UndoUpdateInRecovery_ops (_ + ?f)%nat ?b _ ?w0] =>
    destruct (replay_loop b prog Hwf tail f w0)
      as (w1 & Hrun & _ & _ & Hcalls & Hpage & _)
  end.
  rewrite Hrun. exists w1.
  destruct (update_header_decodes offset size data Ho Hs) as (H1 & H2 & H3 & H4).
  cbv zeta in H1, H2, H3, H4. fold tail in H1, H2, H3, H4.
  assert (Hdrop : drop 4 tail = data) by reflexivity.
  assert (Hlen : length tail = (4 + length data)%nat)
    by (unfold tail; now rewrite length_app).
  clearbody tail. destruct tail as [|op0 tail']; [cbn in Htail; lia|].
  cbn [UndoUpdateInRecovery_ops]. rewrite H1, H2. cbn [negb Assert].
  rewrite legacy_bind_ret. unfold OPS_HEADER_SIZE. rewrite H3, H4, Hdrop, Hlen.
  split; [|split; [exact Hpage | now rewrite Hcalls]].
  destruct Hshort as [-> | Hlt].
  - now destruct (Z.leb_spec (Z.of_nat (4 + length (@nil Z))) 4); [|cbn in *; lia].
  - destruct (Z.leb_spec (Z.of_nat (4 + length data)) 4); [reflexivity|].
    now destruct (Z.ltb_spec (Z.of_nat (length data)) size); [|lia].
Qed.

(** X21.  The replay loop does not compare an update's offset and size with
    the page size: an update instruction that is complete in the stream but
    whose bytes reach past the end of the page passes both checks, and the
    run gets to the copy, with that offset and that many bytes, instead of
    raising the "corrupted undo update instruction" ERROR. *)
Theorem UndoUpdateInRecovery_does_not_check_page_bound (w : World)
  (pre post : list DecodedBkpBlock) (block : DecodedBkpBlock)
  (prog : list Instruction) (offset : Z) (data rest : list Z) (lsn : Z) :
  Forall (fun b => is_undo_block b = false) (pre ++ post) ->
  (length pre < 256)%nat ->
  is_undo_block block = true ->
  redo_action block = BLK_NEEDS_REDO ->
  block_data block
  = Some (encode prog ++ encode_instruction (Update offset data) ++ rest) ->
  Forall well_formed prog ->
  0 <= offset < 2 ^ 15 ->
  (0 < length data)%nat -> Z.of_nat (length data) < 2 ^ 16 ->
  BLCKSZ < offset + Z.of_nat (length data) ->
  exists w',
    UndoUpdateInRecovery (mkXLog (pre ++ block :: post) lsn) w
    = Raise TRAP "memcpy outside the page" w' /\
    memcpy_to_page (block_buffer block) offset data w'
    = Raise TRAP "memcpy outside the page" w'.
Proof.
  intros Hskip Hpre Hundo Hact Hdata Hwf Ho Hd0 Hd1 Hout.
  rewrite UndoUpdateInRecovery_one_undo_block by assumption.
  rewrite (UndoUpdateInRecovery_block_redo _ _ _ _ _ Hundo Hact Hdata).
  pose proof (encode_length prog Hwf) as Hfuel.
  cbn [encode_instruction]. rewrite <- app_assoc.
  set (tail := update_ops_header offset (Z.of_nat (length data)) ++ data ++ rest).
  assert (Htail : (4 <= length tail)%nat)
    by (unfold tail; rewrite length_app; cbn; lia).
  replace (length (encode prog ++ tail))
    with (length prog + S (length (encode prog) - length prog + length tail - 1))%nat
    by (rewrite length_app; lia).
  match goal with |- context [UndoUpdateInRecovery_ops (_ + ?f)%nat ?b _ ?w0] =>
    destruct (replay_loop b prog Hwf tail f w0) as (w1 & Hrun & _)
  end.
  rewrite Hrun. exists w1.
  destruct (update_header_decodes offset (Z.of_nat (length data)) (data ++ rest)
              Ho ltac:(lia)) as (H1 & H2 & H3 & H4).
  cbv zeta in H1, H2, H3, H4. fold tail in H1, H2, H3, H4.
  assert (Hdrop : drop 4 tail = data ++ rest) by reflexivity.
  assert (Hlen : length tail = (4 + length data + length rest)%nat)
    by (unfold tail; rewrite !length_app; cbn; lia).
  assert (Hcopy : forall w2, memcpy_to_page (block_buffer block) offset data w2
                             = Raise TRAP "memcpy outside the page" w2).
  { intros w2. unfold memcpy_to_page.
    destruct (Z.ltb_spec BLCKSZ (offset + Z.of_nat (length data))); [|lia].
    now rewrite orb_true_r. }
  clearbody tail. destruct tail as [|op0 tail']; [cbn in Htail; lia|].
  cbn [UndoUpdateInRecovery_ops]. rewrite H1, H2. cbn [negb Assert].
  rewrite legacy_bind_ret. unfold OPS_HEADER_SIZE. rewrite H3, H4, Hdrop, Hlen.
  destruct (Z.leb_spec (Z.of_nat (4 + length data + length rest)) 4); [lia|].
  destruct (Z.ltb_spec (Z.of_nat (length (data ++ rest)))
              (Z.of_nat (length data))) as [Hlt | _];
    [rewrite length_app in Hlt; lia|].
  rewrite Nat2Z.id, take_app_length.
  split; [|apply Hcopy]. now rewrite (legacy_bind_Raise _ _ _ _ _ _ (Hcopy w1)).
Qed.

End LegacyReplay.

(** ** Closing a page: what is written is what is logged *)

Ltac legacy_bind_inv H x w E :=
  apply legacy_bind_Ok_inv in H as (x & w & E & H);
  try match type of x with unit => destruct x end.

Section LegacyClosing.
Import Legacy.
Local Open Scope legacy_scope.
Context `{UndoLayout} `{LegacyLayout}.

Lemma int32_small x : - 2 ^ 31 <= x < 2 ^ 31 -> int32 x = x.
Proof. intros Hx. unfold int32. rewrite Z.mod_small; lia. Qed.

Lemma legacy_deref_urs_inv u w s w' :
  deref_urs u w = Ok s w' -> w' = w /\ sets w !! u = Some s.
Proof.
  unfold deref_urs. destruct (sets w !! u); [|discriminate].
  now intros [= -> ->].
Qed.

Lemma legacy_Assert_inv c msg w x w' :
  Assert c msg w = Ok x w' -> c = true /\ w' = w.
Proof. destruct c; cbn; [now intros [= _ ->] | discriminate]. Qed.

Lemma legacy_chunk_at_inv u i w c w' : chunk_at u i w = Ok c w' -> w' = w.
Proof.
  unfold chunk_at. intros Hrun. legacy_bind_inv Hrun s w1 E.
  apply legacy_deref_urs_inv in E as [-> _].
  destruct (i <? 0); [discriminate|].
  destruct (chunks s !! Z.to_nat i); [|discriminate]. now injection Hrun.
Qed.

Lemma legacy_buffer_at_inv u i w b w' : buffer_at u i w = Ok b w' -> w' = w.
Proof.
  unfold buffer_at. intros Hrun. legacy_bind_inv Hrun s w1 E.
  apply legacy_deref_urs_inv in E as [-> _].
  destruct (i <? 0); [discriminate|].
  destruct (buffers s !! Z.to_nat i); [|discriminate]. now injection Hrun.
Qed.

Lemma legacy_buffer_flag_at_inv u i w f w' :
  buffer_flag_at u i w = Ok f w' -> w' = w.
Proof.
  unfold buffer_flag_at. intros Hrun. legacy_bind_inv Hrun s w1 E.
  apply legacy_deref_urs_inv in E as [-> _].
  destruct (i <? 0); [discriminate|].
  destruct (buffer_flag s !! Z.to_nat i); [|discriminate]. now injection Hrun.
Qed.

(** A step that touches the sets only. *)
Lemma legacy_update_urs_inv u f w w' :
  update_urs u f w = Ok tt w' ->
  pages w' = pages w /\ calls w' = calls w /\ slots w' = slots w.
Proof.
  unfold update_urs. intros Hrun. legacy_bind_inv Hrun s w1 E.
  apply legacy_deref_urs_inv in E as [-> _].
  unfold set_sets, modify in Hrun. now injection Hrun as <-.
Qed.

Lemma clear_buffer_flag_inv u i bit w w' :
  clear_buffer_flag u i bit w = Ok tt w' ->
  pages w' = pages w /\ calls w' = calls w /\ slots w' = slots w.
Proof.
  unfold clear_buffer_flag. intros Hrun. legacy_bind_inv Hrun f w1 E.
  apply legacy_buffer_flag_at_inv in E as ->.
  now apply legacy_update_urs_inv in Hrun.
Qed.

Lemma update_chunk_inv u i f w w' :
  update_chunk u i f w = Ok tt w' ->
  pages w' = pages w /\ calls w' = calls w /\ slots w' = slots w.
Proof.
  unfold update_chunk. intros Hrun. legacy_bind_inv Hrun c w1 E.
  apply legacy_chunk_at_inv in E as ->.
  now apply legacy_update_urs_inv in Hrun.
Qed.

(** Marking a buffer, or registering it, once: at most one call, and the
    pages stay as they are. *)
Lemma flagged_call_inv (c : bool) (what : Call) u i bit w w' :
  when c (call what;; clear_buffer_flag u i bit) w = Ok tt w' ->
  pages w' = pages w /\ slots w' = slots w /\
  calls w' = calls w ++ (if c then [what] else []).
Proof.
  destruct c; cbn [when].
  - intros Hrun. legacy_bind_inv Hrun x w1 E. injection E as <-.
    apply clear_buffer_flag_inv in Hrun as (Hp & Hc & Hs). cbn in *. auto.
  - intros [= <-]. now rewrite app_nil_r.
Qed.

Lemma memcpy_to_page_inv b offset data w w' :
  memcpy_to_page b offset data w = Ok tt w' ->
  0 <= offset /\ offset + Z.of_nat (length data) <= BLCKSZ /\
  w' = with_page b (write_bytes (page_of w b) offset data) w.
Proof.
  unfold memcpy_to_page.
  destruct (Z.ltb_spec offset 0); [discriminate|].
  destruct (Z.ltb_spec BLCKSZ (offset + Z.of_nat (length data)));
    [discriminate|].
  cbn [orb]. intros Hrun. injection Hrun as <-. auto.
Qed.

Lemma write_update_ops_header_inv offset size w ops w' :
  write_update_ops_header offset size w = Ok ops w' ->
  BLCKSZ <= 32768 /\ offset < BLCKSZ /\ offset + size <= BLCKSZ /\
  SizeOfUndoPageHeaderData <= offset /\
  ops = update_ops_header offset size /\ w' = w.
Proof.
  unfold write_update_ops_header. intros Hrun.
  legacy_bind_inv Hrun x1 w1 E1. apply legacy_Assert_inv in E1 as [H1 ->].
  legacy_bind_inv Hrun x2 w2 E2. apply legacy_Assert_inv in E2 as [H2 ->].
  legacy_bind_inv Hrun x3 w3 E3. apply legacy_Assert_inv in E3 as [H3 ->].
  legacy_bind_inv Hrun x4 w4 E4. apply legacy_Assert_inv in E4 as [H4 ->].
  injection Hrun as <- <-.
  apply Z.leb_le in H1, H3, H4. apply Z.ltb_lt in H2. auto 10.
Qed.

(** The bytes just written, read back. *)
Lemma page_bytes_written d offset data :
  map (fun i => uint8 (default 0 (write_bytes d offset data !! (offset + Z.of_nat i))))
    (seq 0 (length data))
  = map uint8 data.
Proof.
  apply list_eq. intros i. rewrite !list_lookup_fmap.
  destruct (decide (i < length data)%nat) as [Hi | Hi].
  - rewrite lookup_seq_lt by assumption. cbn [fmap option_fmap option_map Nat.add].
    rewrite write_bytes_lookup.
    destruct (Z.leb_spec offset (offset + Z.of_nat i)); [|lia].
    destruct (Z.ltb_spec (offset + Z.of_nat i) (offset + Z.of_nat (length data)));
      [|lia].
    cbn [andb].
    replace (Z.to_nat (offset + Z.of_nat i - offset)) with i by lia.
    destruct (lookup_lt_is_Some_2 data i Hi) as [x Hx]. now rewrite Hx.
  - rewrite lookup_seq_ge by lia. now rewrite lookup_ge_None_2 by lia.
Qed.

(** X22.  What [UndoMarkPageClosed] logs for a permanent set is what it has
    written.  When it returns, called as [UndoMarkClosed] calls it (with a
    data offset inside the size field), it has copied at least one byte of
    the size, as many as the page and the field allow; its last two calls
    register, for one block, the header of an update instruction and the
    bytes now on the page at [page_offset]; and the two together are the
    encoding of a well-formed update instruction for that offset, the form
    [UndoUpdateInRecovery] replays. *)
Theorem UndoMarkPageClosed_logs_what_it_writes (w w' : World) (u : nat)
  (s : UndoRecordSet) (ci chbidx page_offset data_offset size n : Z) :
  sets w !! u = Some s ->
  persistence s = RELPERSISTENCE_PERMANENT ->
  0 <= data_offset < sizeof_size ->
  UndoMarkPageClosed u ci chbidx page_offset data_offset size w = Ok n w' ->
  exists (buffer : Buffer) (block_id : Z) (bytes : list Z) (earlier : list Call),
    n = Z.min (BLCKSZ - page_offset) (sizeof_size - data_offset) /\
    1 <= n /\
    bytes = map uint8 (source_bytes (le_bytes 8 size) data_offset n) /\
    page_bytes (page_of w' buffer) page_offset n = bytes /\
    calls w'
    = calls w ++ earlier
      ++ [CallXLogRegisterBufData block_id (update_ops_header page_offset n);
          CallXLogRegisterBufData block_id bytes] /\
    update_ops_header page_offset n ++ bytes
    = encode [Update page_offset bytes] /\
    well_formed (Update page_offset bytes).
Proof.
  intros Hs Hperm Hd Hrun. unfold UndoMarkPageClosed in Hrun.
  legacy_bind_inv Hrun urs w0 E. apply legacy_deref_urs_inv in E as [-> Hurs].
  assert (urs = s) as -> by congruence.
  legacy_bind_inv Hrun chunk w0 E. apply legacy_chunk_at_inv in E as ->.
  legacy_bind_inv Hrun idx w0 E.
  assert (w0 = w) as ->.
  { destruct (chbidx =? 0); [now injection E|].
    destruct (chbidx =? 1); [now injection E | discriminate]. }
  clear E.
  legacy_bind_inv Hrun buf w0 E. apply legacy_buffer_at_inv in E as ->.
  set (m := int32 (Z.min (uint64 (BLCKSZ - page_offset))
                     (uint64 (sizeof_size - data_offset)))) in *.
  set (src := source_bytes (le_bytes 8 size) data_offset m) in *.
  legacy_bind_inv Hrun x1 w1 E.
  apply memcpy_to_page_inv in E as (Hpo & Hfit & ->).
  legacy_bind_inv Hrun flag1 w1 E. apply legacy_buffer_flag_at_inv in E as ->.
  legacy_bind_inv Hrun x2 w2 E.
  apply flagged_call_inv in E as (Hp2 & _ & Hc2).
  legacy_bind_inv Hrun flag2 w3 E. apply legacy_buffer_flag_at_inv in E as ->.
  legacy_bind_inv Hrun x3 w3 E.
  apply flagged_call_inv in E as (Hp3 & _ & Hc3).
  rewrite bool_decide_eq_true_2 in Hrun by assumption. cbn [when] in Hrun.
  legacy_bind_inv Hrun x4 w4 E. injection Hrun as <- <-.
  legacy_bind_inv E ops w5 E5.
  apply write_update_ops_header_inv in E5 as (HB & Hlt & Hsum & Hhdr & -> & ->).
  legacy_bind_inv E x6 w6 E6. apply update_chunk_inv in E6 as (Hp6 & Hc6 & _).
  unfold call, modify, BufferGetPage, bind in E. injection E as <-.
  (* the numbers *)
  unfold sizeof_size in *.
  assert (Hlen : length src = Z.to_nat m)
    by (unfold src, source_bytes; now rewrite length_map, length_seq).
  assert (Hm : m = Z.min (BLCKSZ - page_offset) (8 - data_offset)).
  { unfold m. rewrite (uint64_small (8 - data_offset)) by lia.
    assert (page_offset <= BLCKSZ) by lia.
    rewrite (uint64_small (BLCKSZ - page_offset)) by lia.
    apply int32_small. lia. }
  assert (Hpo16 : uint16 page_offset = page_offset)
    by (apply uint16_small; lia).
  rewrite Hpo16 in *.
  assert (Hm1 : 1 <= m) by lia.
  assert (Hm16 : uint16 m = m) by (apply uint16_small; lia).
  rewrite Hm16 in *.
  assert (Hpage : page_bytes
                    (default zero_page (pages w6 !! buf)) page_offset m
                  = map uint8 src).
  { rewrite Hp6, Hp3, Hp2. unfold with_page. cbn [pages].
    rewrite lookup_insert_eq. cbn [default from_option id].
    unfold page_bytes, page_byte. rewrite <- Hlen.
    apply page_bytes_written. }
  exists buf, (first_block_id s + idx), (map uint8 src),
    ((if negb (Z.land flag1 URS_BUFFER_NEEDS_DIRTY =? 0)
      then [CallMarkBufferDirty buf] else [])
     ++ (if negb (Z.land flag2 URS_BUFFER_NEEDS_XLOGBUF =? 0)
         then [CallXLogRegisterBuffer (first_block_id s + idx) buf 0]
         else [])).
  split; [exact Hm|]. split; [exact Hm1|]. split; [reflexivity|].
  split; [|split; [|split]].
  - unfold page_of. cbn [pages]. exact Hpage.
  - cbn [calls]. rewrite Hpage, Hc6, Hc3, Hc2. cbn [calls with_page].
    now rewrite <- !app_assoc.
  - unfold encode. cbn [map concat encode_instruction].
    rewrite app_nil_r, length_map, Hlen, Z2Nat.id by lia. reflexivity.
  - cbn [well_formed]. rewrite length_map, Hlen, Z2Nat.id by lia.
    repeat split; lia.
Qed.

End LegacyClosing.

(** ** Appending across a page boundary *)

Section LegacyAppending.
Import Legacy.
Local Open Scope legacy_scope.
Context `{UndoLayout} `{LegacyLayout}.

Lemma keeps_pages_refl u bs n w :
  holds_buffers u bs n w -> keeps_pages u bs n w w.
Proof. intros Hw. now split. Qed.

Lemma prepares_page_refl u bs n b w :
  holds_buffers u bs n w -> prepares_page u bs n b w w.
Proof. intros Hw. split; [exact Hw|]. split; [reflexivity|]. split; auto. Qed.

Lemma prepares_then_keeps u bs n b w1 w2 w3 :
  prepares_page u bs n b w1 w2 -> keeps_pages u bs n w2 w3 ->
  prepares_page u bs n b w1 w3.
Proof.
  intros (_ & Hs1 & Hp1 & Hb1) (Hb2 & Hs2 & Hp2). split; [exact Hb2|].
  split; [congruence|]. split.
  - intros b' Hb'. now rewrite Hp2, Hp1.
  - rewrite Hp2. exact Hb1.
Qed.

Lemma holds_buffers_flag u bs n i w :
  holds_buffers u bs n w -> 0 <= i -> (Z.to_nat i < n)%nat ->
  exists f, buffer_flag_at u i w = Ok f w.
Proof.
  intros (s & Hs & _ & Hn) Hi Hlt. unfold buffer_flag_at, deref_urs, bind.
  rewrite Hs. destruct (Z.ltb_spec i 0); [lia|].
  destruct (lookup_lt_is_Some_2 (buffer_flag s) (Z.to_nat i)) as [f Hf]; [lia|].
  exists f. now rewrite Hf.
Qed.

Lemma keeps_pages_clear_buffer_flag u bs n i bit w :
  holds_buffers u bs n w -> 0 <= i -> (Z.to_nat i < n)%nat ->
  exists w1, clear_buffer_flag u i bit w = Ok tt w1 /\ keeps_pages u bs n w w1.
Proof.
  intros Hw Hi Hlt. destruct (holds_buffers_flag u bs n i w Hw Hi Hlt) as [f Hf].
  destruct Hw as (s & Hs & Hbs & Hn).
  unfold clear_buffer_flag. rewrite (legacy_bind_Ok _ _ _ _ _ Hf).
  unfold update_urs, deref_urs, bind, set_sets, modify. rewrite Hs.
  eexists. split; [reflexivity|]. split; [|now split].
  eexists. split; [cbn; apply lookup_insert_eq|]. cbn.
  split; [exact Hbs|]. now rewrite length_insert.
Qed.

(** One of the three flag tests of [append_bytes], with what follows. *)
Lemma flag_step {A} (R : World -> World -> Prop) u bs n i (c : Z -> bool)
  (body : Z -> M unit) (K : M A) w :
  holds_buffers u bs n w -> 0 <= i -> (Z.to_nat i < n)%nat ->
  R w w ->
  (forall f, exists w1, body f w = Ok tt w1 /\ R w w1) ->
  exists w1,
    bind (buffer_flag_at u i)
      (fun flag => bind (when (c flag) (body flag)) (fun _ => K)) w
    = K w1 /\
    R w w1.
Proof.
  intros Hw Hi Hlt Hrefl Hbody.
  destruct (holds_buffers_flag u bs n i w Hw Hi Hlt) as [f Hf].
  rewrite (legacy_bind_Ok _ _ _ _ _ Hf). destruct (c f); cbn [when].
  - destruct (Hbody f) as (w1 & Hrun & Ht).
    exists w1. now rewrite (legacy_bind_Ok _ _ _ _ _ Hrun).
  - exists w. split; [reflexivity | exact Hrefl].
Qed.

(** A call, then the flag cleared. *)
Lemma call_and_clear u bs n i bit c w :
  holds_buffers u bs n w -> 0 <= i -> (Z.to_nat i < n)%nat ->
  exists w1, (call c;; clear_buffer_flag u i bit) w = Ok tt w1 /\
             keeps_pages u bs n w w1.
Proof.
  intros Hw Hi Hlt.
  set (w0 := add_calls [c] w).
  assert (Hw0 : holds_buffers u bs n w0) by exact Hw.
  destruct (keeps_pages_clear_buffer_flag u bs n i bit w0 Hw0 Hi Hlt)
    as (w1 & E1 & Hb1 & Hs1 & Hp1).
  exists w1. split; [exact E1|]. now split.
Qed.

(** The page initialised, then the flag cleared. *)
Lemma init_and_clear u bs n b i bit w :
  holds_buffers u bs n w -> 0 <= i -> (Z.to_nat i < n)%nat ->
  exists w1,
    (let* p := BufferGetPage b in
     store_page b (UndoPageInit_page p);;
     call (CallUndoPageInit b);;
     clear_buffer_flag u i bit) w = Ok tt w1 /\
    prepares_page u bs n b w w1.
Proof.
  intros Hw Hi Hlt.
  set (w0 := with_page b (UndoPageInit_page (page_of w b)) w).
  assert (Hw0 : holds_buffers u bs n w0) by exact Hw.
  destruct (call_and_clear u bs n i bit (CallUndoPageInit b) w0 Hw0 Hi Hlt)
    as (w1 & E1 & Hb1 & Hs1 & Hp1).
  exists w1. split.
  - unfold BufferGetPage, store_page, set_pages, modify. unfold bind at 1 2.
    exact E1.
  - split; [exact Hb1|]. split; [exact Hs1|]. split.
    + intros b' Hb'. rewrite Hp1. unfold w0. rewrite page_of_with_page.
      destruct (decide (b' = b)); congruence.
    + right. rewrite Hp1. unfold w0. rewrite page_of_with_page.
      destruct (decide (b = b)); congruence.
Qed.

Lemma holds_buffers_buffer u bs n i b w :
  holds_buffers u bs n w -> 0 <= i -> bs !! Z.to_nat i = Some b ->
  buffer_at u i w = Ok b w.
Proof.
  intros (s & Hs & Hbs & _) Hi Hb. unfold buffer_at, deref_urs, bind.
  rewrite Hs, Hbs, Hb. now destruct (Z.ltb_spec i 0); [lia|].
Qed.

(** One pass of the loop of [append_bytes]: the offset the write starts at
    is stored into [pd_lower] of the current buffer's page, initialised
    before if its flag asks for it, and then the first bytes of [data], as
    many as fit, are copied onto the page. *)
Lemma append_bytes_page fuel u bs n st data size b w :
  holds_buffers u bs n w ->
  0 <= buffer_index st < 2 ^ 31 - 1 ->
  bs !! Z.to_nat (buffer_index st) = Some b ->
  (Z.to_nat (buffer_index st) < n)%nat ->
  0 <= UndoRecPtrGetPageOffset (insert st) < BLCKSZ ->
  BLCKSZ <= 2 ^ 15 -> 0 <= SizeOfUndoPageHeaderData ->
  0 < size < 2 ^ 64 ->
  0 <= insert st -> insert st + BLCKSZ + SizeOfUndoPageHeaderData < 2 ^ 64 ->
  let off := UndoRecPtrGetPageOffset (insert st) in
  let m := Z.min (BLCKSZ - off) size in
  exists w1 d,
    append_bytes (S fuel) u st data size w
    = append_bytes fuel u
        (if off + m =? BLCKSZ
         then mkInsertState (is_first_block_id st) (buffer_index st + 1)
                (insert st + m + SizeOfUndoPageHeaderData)
         else mkInsertState (is_first_block_id st) (buffer_index st)
                (insert st + m))
        data (size - m) w1 /\
    holds_buffers u bs n w1 /\
    (forall b', b' <> b -> page_of w1 b' = page_of w b') /\
    (d = page_of w b \/ d = UndoPageInit_page (page_of w b)) /\
    page_of w1 b
    = write_bytes (store_pd_lower off d) off (source_bytes data 0 m).
Proof.
  intros Hw Hidx Hb Hlt Hoff HB Hhdr Hsize Hins Hnowrap off m.
  assert (Hi : 0 <= buffer_index st) by lia.
  assert (Hm : 0 < m <= BLCKSZ - off) by (unfold m; lia).
  assert (Hms : m <= size) by (unfold m; lia).
  cbn [append_bytes]. destruct (Z.ltb_spec 0 size); [|lia].
  rewrite (legacy_bind_Ok _ _ _ _ _ (holds_buffers_buffer _ _ _ _ _ _ Hw Hi Hb)).
  fold off.
  rewrite (int32_small off) by lia.
  rewrite (uint64_small (BLCKSZ - off)) by lia. fold m.
  rewrite (int32_small m) by lia.
  match goal with
  | |- context [bind (buffer_flag_at u ?i)
                  (fun flag => bind (when (@?c flag) (@?body flag)) (fun _ => ?K)) w] =>
      destruct (flag_step (prepares_page u bs n b) u bs n i c body K w Hw Hi Hlt)
        as (w1 & E1 & Ht1);
        [now apply prepares_page_refl
        |intros f; now apply init_and_clear|]
  end.
  rewrite E1. clear E1.
  match goal with
  | |- context [bind (buffer_flag_at u ?i)
                  (fun flag => bind (when (@?c flag) (@?body flag)) (fun _ => ?K)) w1] =>
      destruct (flag_step (keeps_pages u bs n) u bs n i c body K w1 (proj1 Ht1)
                  Hi Hlt)
        as (w2 & E2 & Ht2);
        [apply keeps_pages_refl, Ht1
        |intros f; apply call_and_clear; [apply Ht1 | assumption..]|]
  end.
  rewrite E2. clear E2.
  match goal with
  | |- context [bind (buffer_flag_at u ?i)
                  (fun flag => bind (when (@?c flag) (@?body flag)) (fun _ => ?K)) w2] =>
      destruct (flag_step (keeps_pages u bs n) u bs n i c body K w2 (proj1 Ht2)
                  Hi Hlt)
        as (w3 & E3 & Ht3);
        [apply keeps_pages_refl, Ht2
        |intros f; apply call_and_clear; [apply Ht2 | assumption..]|]
  end.
  rewrite E3. clear E3.
  pose proof (prepares_then_keeps _ _ _ _ _ _ _
                (prepares_then_keeps _ _ _ _ _ _ _ Ht1 Ht2) Ht3)
    as (Hb3 & Hs3 & Hp3 & Hinit).
  destruct (Z.ltb_spec m 0); [lia|].
  assert (Hsrc : length (source_bytes data 0 m) = Z.to_nat m)
    by (unfold source_bytes; now rewrite length_map, length_seq).
  unfold memcpy_to_page. rewrite Hsrc.
  destruct (Z.ltb_spec off 0); [lia|].
  destruct (Z.ltb_spec BLCKSZ (off + Z.of_nat (Z.to_nat m))); [lia|].
  cbn [orb]. unfold BufferGetPage, store_page, set_pages, modify, bind.
  cbn [slots sets CritSectionCount InRecovery calls pages].
  rewrite lookup_insert_eq. cbn [default from_option id].
  rewrite insert_insert_eq.
  rewrite (uint64_small (size - m)) by lia.
  rewrite (int32_small (off + m)) by lia.
  cbn [is_first_block_id buffer_index insert].
  rewrite (uint64_small (insert st + m)) by lia.
  rewrite (int32_small (buffer_index st + 1)) by lia.
  rewrite (uint64_small (insert st + m + SizeOfUndoPageHeaderData)) by lia.
  rewrite (uint16_small off) by lia.
  fold (page_of w3 b).
  eexists _, (page_of w3 b). split; [reflexivity|]. split; [|split; [|split]].
  - destruct Hb3 as (s3 & ? & ? & ?). now exists s3.
  - intros b' Hb'. unfold page_of at 1. cbn [pages].
    rewrite lookup_insert_ne by congruence. now apply Hp3.
  - exact Hinit.
  - unfold page_of at 1. cbn [pages]. rewrite lookup_insert_eq. reflexivity.
Qed.

(** X23.  [append_bytes] does not advance its source pointer.  When the data
    do not fit on the page the insert pointer is on, the first page gets
    the first bytes of [data], as many as fit, and the next page gets, after
    its header, the first bytes of [data] again, not the bytes that follow
    those already written.  On each of the two pages, initialised before if
    its flag asks for it, the offset the write starts at is stored into
    [pd_lower] and then the bytes are copied.  The insert pointer ends
    [size] bytes and one page header further, on the next buffer. *)
Theorem append_bytes_restarts_source_on_next_page (w : World) (u : nat)
  (s : UndoRecordSet) (st : UndoInsertState) (data : list Z) (size : Z)
  (b0 b1 : Buffer) (fuel : nat) :
  let off := UndoRecPtrGetPageOffset (insert st) in
  let fits := BLCKSZ - off in
  sets w !! u = Some s ->
  0 <= buffer_index st < 2 ^ 31 - 2 ->
  buffers s !! Z.to_nat (buffer_index st) = Some b0 ->
  buffers s !! Z.to_nat (buffer_index st + 1) = Some b1 ->
  b0 <> b1 ->
  (Z.to_nat (buffer_index st + 1) < length (buffer_flag s))%nat ->
  BLCKSZ <= 2 ^ 15 ->
  0 <= SizeOfUndoPageHeaderData < BLCKSZ ->
  0 <= off < BLCKSZ ->
  0 <= insert st ->
  insert st + 2 * BLCKSZ + 2 * SizeOfUndoPageHeaderData < 2 ^ 64 ->
  UndoRecPtrGetPageOffset (insert st + fits + SizeOfUndoPageHeaderData)
  = SizeOfUndoPageHeaderData ->
  fits < size -> size - fits < BLCKSZ - SizeOfUndoPageHeaderData ->
  (2 <= fuel)%nat ->
  exists st' w' d0 d1,
    append_bytes fuel u st data size w = Ok st' w' /\
    insert st' = insert st + size + SizeOfUndoPageHeaderData /\
    buffer_index st' = buffer_index st + 1 /\
    (d0 = page_of w b0 \/ d0 = UndoPageInit_page (page_of w b0)) /\
    page_of w' b0
    = write_bytes (store_pd_lower off d0) off (source_bytes data 0 fits) /\
    (d1 = page_of w b1 \/ d1 = UndoPageInit_page (page_of w b1)) /\
    page_of w' b1
    = write_bytes (store_pd_lower SizeOfUndoPageHeaderData d1)
        SizeOfUndoPageHeaderData (source_bytes data 0 (size - fits)) /\
    page_bytes (page_of w' b0) off fits
    = map uint8 (source_bytes data 0 fits) /\
    page_bytes (page_of w' b1) SizeOfUndoPageHeaderData (size - fits)
    = map uint8 (source_bytes data 0 (size - fits)).
Proof.
  intros off fits Hs Hidx Hb0 Hb1 Hne Hflags HB Hhdr Hoff Hins Hnowrap Hnext
    Hlong Hshort Hfuel.
  destruct fuel as [|[|fuel]]; [lia | lia |].
  assert (Hw : holds_buffers u (buffers s) (length (buffer_flag s)) w)
    by now exists s.
  (* the first page *)
  destruct (append_bytes_page (S fuel) u (buffers s) (length (buffer_flag s))
              st data size b0 w Hw)
    as (w1 & d0 & E1 & Hw1 & Hother1 & Hd0 & Hp1); try (assumption || lia).
  cbv zeta in E1, Hp1. fold off in E1, Hp1. fold fits in E1, Hp1.
  rewrite (Z.min_l fits size) in E1, Hp1 by lia.
  replace (off + fits =? BLCKSZ) with true in E1
    by (symmetry; apply Z.eqb_eq; unfold fits; lia).
  rewrite E1. clear E1.
  (* the next page *)
  set (st1 := mkInsertState (is_first_block_id st) (buffer_index st + 1)
                (insert st + fits + SizeOfUndoPageHeaderData)).
  destruct (append_bytes_page fuel u (buffers s) (length (buffer_flag s))
              st1 data (size - fits) b1 w1 Hw1)
    as (w2 & d1 & E2 & Hw2 & Hother2 & Hd1 & Hp2);
    try (unfold st1; cbn [buffer_index insert]; unfold fits in *;
         (assumption || lia)).
  cbv zeta in E2, Hp2. unfold st1 in E2, Hp2. cbn [insert] in E2, Hp2.
  rewrite Hnext in E2, Hp2.
  rewrite (Z.min_r (BLCKSZ - SizeOfUndoPageHeaderData) (size - fits))
    in E2, Hp2 by lia.
  destruct (Z.eqb_spec (SizeOfUndoPageHeaderData + (size - fits)) BLCKSZ)
    as [Heq | _] in E2; [lia|].
  unfold st1. rewrite E2. clear E2.
  rewrite Z.sub_diag.
  rewrite (Hother1 b1) in Hd1 by congruence.
  eexists _, w2, d0, d1. split; [now destruct fuel|].
  cbn [insert buffer_index is_first_block_id].
  assert (Hlen : forall k, 0 <= k -> length (source_bytes data 0 k) = Z.to_nat k)
    by (intros k _; unfold source_bytes; now rewrite length_map, length_seq).
  split; [lia|]. split; [reflexivity|].
  rewrite (Hother2 b0 Hne), Hp1, Hp2.
  split; [exact Hd0|]. split; [reflexivity|].
  split; [exact Hd1|]. split; [reflexivity|]. split.
  - unfold page_bytes, page_byte.
    rewrite <- (Hlen fits) by (unfold fits; lia). apply page_bytes_written.
  - unfold page_bytes, page_byte.
    rewrite <- (Hlen (size - fits)) by lia. apply page_bytes_written.
Qed.

End LegacyAppending.

(** ** The theorems on the sample layout *)

Section OnSample.
Local Existing Instance Sample.layout.

(** Closing the set of [Sample.straddling]: the size 112 is written by two
    overwrites, four bytes at offset 8188 of page 0 and four at offset 24 of
    page 1. *)
Lemma UndoMarkClosed_dirty_closes_witness :
  exists w',
    UndoMarkClosed 0 Sample.straddling = Ok tt w' /\
    trace w' = trace Sample.straddling
               ++ size_patch_calls (3, 0) (3, 1) 8188 112 /\
    foldr Z.add 0 (map overwrite_bytes (size_patch_calls (3, 0) (3, 1) 8188 112))
      = sizeof_size /\
    (state <$> sets w' !! 0%nat) = Some URS_STATE_CLOSED /\
    slots w' = slots Sample.straddling.
Proof.
  refine (UndoMarkClosed_dirty_closes Sample.straddling 0 Sample.straddling_set
           Sample.straddling_chunk Sample.straddling_slot (3, 0) (3, 1) _ _ _ _ _ _ _).
  - vm_compute. split; discriminate.
  - reflexivity.
  - reflexivity.
  - reflexivity.
  - reflexivity.
  - reflexivity.
  - vm_compute. repeat split; discriminate.
Defined.

(** [UndoMarkClosed] on the set just created. *)
Lemma UndoMarkClosed_clean_is_noop_witness :
  (state Sample.created_set = URS_STATE_CLEAN ->
   UndoMarkClosed 0 Sample.created = Ok tt Sample.created) /\
  (forall w' s', UndoMarkClosed 0 Sample.created = Ok tt w' ->
                 sets w' !! 0%nat = Some s' ->
                 state s' = URS_STATE_CLOSED ->
                 state Sample.created_set = URS_STATE_DIRTY).
Proof.
  refine (UndoMarkClosed_clean_is_noop Sample.created 0 Sample.created_set _).
  reflexivity.
Defined.

(** The insert of the scenario: 24 + 4 bytes of headers and 16 of record move
    the insert pointer of log 0 from 24 to 68. *)
Lemma UndoInsert_advances_insert_under_lock_witness :
  (meta_insert <$> slots Sample.inserted !! 0) = Some 68 /\
  exists before after,
    trace Sample.inserted
    = trace (Sample.in_critical_section Sample.prepared) ++ before
        ++ [EvLWLockAcquire 0 LW_EXCLUSIVE; EvStoreInsert 0 68; EvLWLockRelease 0]
        ++ after /\
    Forall quiet before /\ Forall quiet after.
Proof.
  refine (UndoInsert_advances_insert_under_lock
           (Sample.in_critical_section Sample.prepared) Sample.inserted 0
           Sample.prepared_set 0 Sample.prepared_slot Sample.record16 16 _ _ _ _).
  - vm_compute. reflexivity.
  - reflexivity.
  - vm_compute. reflexivity.
  - vm_compute. reflexivity.
Defined.

(** The insert of the scenario writes the header of the set's first chunk:
    size 0, no previous chunk. *)
Lemma UndoInsert_stamps_open_chunk_header_witness :
  emits (stamps (mkChunkHeader 0 InvalidUndoRecPtr 70))
    (Sample.in_critical_section Sample.prepared) Sample.inserted /\
  exists evs b po ths th cs,
    trace Sample.inserted
    = trace (Sample.in_critical_section Sample.prepared) ++ evs /\
    EvUndoPageInsertHeader b po 0 (mkChunkHeader 0 InvalidUndoRecPtr 70) ths th cs
      ∈ evs.
Proof.
  pose proof (UndoInsert_stamps_open_chunk_header
                (Sample.in_critical_section Sample.prepared) 0
                Sample.prepared_set Sample.record16 16) as Hthm.
  destruct Hthm as (Hall & Hsome & _).
  - vm_compute. reflexivity.
  - split; [exact Hall|]. apply Hsome; [reflexivity|]. vm_compute. reflexivity.
Defined.

(** Reserving 16 bytes for the set just created: the log's insert pointer is
    24, and the pointer returned is 52, past a chunk header of 24 bytes and a
    type header of 4. *)
Lemma UndoPrepareToInsert_returns_first_data_byte_witness :
  exists s' logno sl,
    sets Sample.prepared !! 0%nat = Some s' /\
    slot s' = Some logno /\ slots Sample.prepared !! logno = Some sl /\
    begin s' = MakeUndoRecPtr logno (meta_insert sl) /\
    need_type_header s' = true /\
    type_header_size s' = 4 /\
    52 = UndoRecPtrPlusUsableBytes (begin s')
           (if negb (need_chunk_header s') then 0
            else if negb (need_type_header s') then SizeOfUndoRecordSetChunkHeader
            else SizeOfUndoRecordSetChunkHeader + type_header_size s').
Proof.
  refine (UndoPrepareToInsert_returns_first_data_byte 2 0 16 Sample.created
           Sample.prepared Sample.created_set 52 _ _).
  - reflexivity.
  - vm_compute. reflexivity.
Defined.


(** Destroying the set just created, and the DIRTY set of
    [Sample.straddling]. *)
Lemma UndoDestroy_legal_unless_dirty_witness :
  (exists w',
     UndoDestroy 0 Sample.created = Ok tt w' /\
     trace w' = [EvSlistDelete 0; EvPfree 0] /\
     sets w' !! 0%nat = None /\
     UndoRecordSetList w' = []) /\
  (exists w',
     UndoDestroy 0 Sample.straddling =
       Raise PANIC "dirty undo record set not closed before release" w' /\
     trace w' = [EvUnlockReleaseBuffer (3, 0); EvUnlockReleaseBuffer (3, 1)] /\
     (forall logno, EvUndoLogPut logno ∉ release_calls (buffers Sample.straddling_set)) /\
     is_Some (sets w' !! 0%nat) /\
     UndoRecordSetList w' = [0%nat]).
Proof.
  split.
  - apply (proj1 (UndoDestroy_legal_unless_dirty Sample.created 0
                    Sample.created_set eq_refl)).
    discriminate.
  - apply (proj2 (UndoDestroy_legal_unless_dirty Sample.straddling 0
                    Sample.straddling_set eq_refl)).
    reflexivity.
Defined.

End OnSample.

(** ** The further properties on the sample layout *)

Section OnScenarios.
Local Existing Instance Sample.layout.
Local Existing Instance Scenario.xlog_layout.

(** Resetting the insertion state of [Sample.straddling], whose set holds
    two pinned buffers. *)
Lemma UndoResetInsertion_forgets_without_release_witness :
  exists w',
    UndoResetInsertion Sample.straddling = Ok tt w' /\
    trace w' = trace Sample.straddling /\
    (forall u s, u ∈ UndoRecordSetList Sample.straddling ->
                 sets Sample.straddling !! u = Some s ->
                 sets w' !! u = Some (with_buffers [] s)) /\
    (forall u, u ∉ UndoRecordSetList Sample.straddling ->
               sets w' !! u = sets Sample.straddling !! u) /\
    (forall u, u ∈ UndoRecordSetList Sample.straddling ->
               UndoRelease u w' = Ok tt w').
Proof.
  apply (UndoResetInsertion_forgets_without_release Sample.straddling).
  intros u Hu. apply list_elem_of_singleton in Hu as ->. vm_compute. eauto.
Defined.

(** Closing level 1 of [Sample.straddling]. *)
Lemma UndoMarkClosedForXactLevel_leaves_none_dirty_witness :
  sets_evolve settles Sample.straddling Scenario.level_closed /\
  forall u, ~ dirty_at_level 1 Scenario.level_closed u.
Proof.
  apply (UndoMarkClosedForXactLevel_leaves_none_dirty 1 Sample.straddling
           Scenario.level_closed).
  vm_compute. reflexivity.
Defined.

(** After closing level 1 of [Sample.straddling] and registering its
    buffers, setting the page LSNs of the level does nothing. *)
Lemma UndoPageSetLSNForXactLevel_after_closing_witness :
  Scenario.level_closed = Scenario.level_closed /\
  UndoPageSetLSNForXactLevel 1 1000 Scenario.level_closed
  = Ok tt Scenario.level_closed.
Proof.
  apply (UndoPageSetLSNForXactLevel_after_closing 1 0 1000 Sample.straddling
           Scenario.level_closed Scenario.level_closed Scenario.level_registered).
  - vm_compute. reflexivity.
  - vm_compute. reflexivity.
Defined.

(** The sets of [Scenario.two_levels] are live and CLEAN. *)
Lemma two_levels_live : listed_sets_live Scenario.two_levels.
Proof.
  split.
  - apply (bool_decide_unpack _). vm_compute. exact I.
  - intros u Hu. apply (bool_decide_unpack _) in Hu || idtac.
    change (UndoRecordSetList Scenario.two_levels) with [1%nat; 0%nat] in Hu.
    apply elem_of_cons in Hu as [-> | Hu];
      [|apply list_elem_of_singleton in Hu as ->]; vm_compute; eauto.
Defined.

Lemma straddling_live : listed_sets_live Sample.straddling.
Proof.
  split.
  - apply (bool_decide_unpack _). vm_compute. exact I.
  - intros u Hu. apply list_elem_of_singleton in Hu as ->. vm_compute. eauto.
Defined.

Lemma created_live : listed_sets_live Sample.created.
Proof.
  split.
  - apply (bool_decide_unpack _). vm_compute. exact I.
  - intros u Hu. change (UndoRecordSetList Sample.created) with [0%nat] in Hu.
    apply list_elem_of_singleton in Hu as ->. vm_compute. eauto.
Defined.

(** Destroying level 2 of [Scenario.two_levels] leaves the set of level 1. *)
Lemma UndoDestroyForXactLevel_destroys_the_level_witness :
  exists w',
    UndoDestroyForXactLevel 3 2 Scenario.two_levels = Ok tt w' /\
    UndoRecordSetList w'
    = filter (fun u => Is_true (below_level 2 Scenario.two_levels u))
        (UndoRecordSetList Scenario.two_levels) /\
    (forall u, sets w' !! u =
               if bool_decide (u ∈ UndoRecordSetList Scenario.two_levels)
                  && negb (below_level 2 Scenario.two_levels u)
               then None else sets Scenario.two_levels !! u) /\
    listed_sets_live w'.
Proof.
  apply (UndoDestroyForXactLevel_destroys_the_level 2 3 Scenario.two_levels).
  - exact two_levels_live.
  - intros u (Hu & s & Hs & _ & Hdirty).
    change (UndoRecordSetList Scenario.two_levels) with [1%nat; 0%nat] in Hu.
    apply elem_of_cons in Hu as [-> | Hu];
      [|apply list_elem_of_singleton in Hu as ->];
      vm_compute in Hs; injection Hs as <-; discriminate.
  - vm_compute. lia.
Defined.

(** Destroying level 1 of [Sample.straddling], whose set is DIRTY. *)
Lemma UndoDestroyForXactLevel_panics_on_dirty_witness :
  exists w',
    UndoDestroyForXactLevel 2 1 Sample.straddling
    = Raise PANIC "dirty undo record set not closed before release" w' /\
    0%nat ∈ UndoRecordSetList w' /\ is_Some (sets w' !! 0%nat).
Proof.
  apply (UndoDestroyForXactLevel_panics_on_dirty 1 2 Sample.straddling 0).
  - exact straddling_live.
  - split; [apply list_elem_of_singleton; reflexivity|].
    exists Sample.straddling_set. split; [reflexivity|].
    split; [unfold at_level; cbn; lia | reflexivity].
  - vm_compute. lia.
Defined.

(** Preparing level 1 of [Sample.straddling]: there is work. *)
Lemma UndoPrepareToMarkClosedForXactLevel_tells_work_witness :
  (true = true <->
   exists u s, dirty_at_level 1 Sample.straddling u /\
               sets Sample.straddling !! u = Some s /\ chunks s <> []) /\
  (true = false -> Scenario.level_prepared = Sample.straddling).
Proof.
  apply (UndoPrepareToMarkClosedForXactLevel_tells_work 1 Sample.straddling
           Scenario.level_prepared true).
  vm_compute. reflexivity.
Defined.

(** The first buffer of the closed set is registered under block id 0. *)
Lemma UndoXLogRegisterBuffersForXactLevel_numbers_per_set_witness :
  Scenario.level_closed = Scenario.level_closed /\
  CallXLogRegisterBuffer (0 + Z.of_nat 0) (buffer Scenario.closed_buffer)
    (Z.lor (if is_new Scenario.closed_buffer then REGBUF_WILL_INIT else 0)
       REGBUF_KEEP_DATA)
  ∈ Scenario.level_registered.
Proof.
  apply (UndoXLogRegisterBuffersForXactLevel_numbers_per_set 1 0
           Scenario.level_closed Scenario.level_closed Scenario.level_registered
           0 Scenario.closed_set 0 Scenario.closed_buffer).
  - vm_compute. reflexivity.
  - apply list_elem_of_singleton. reflexivity.
  - vm_compute. reflexivity.
  - unfold at_level. vm_compute. discriminate.
  - vm_compute. discriminate.
  - vm_compute. reflexivity.
  - vm_compute. reflexivity.
Defined.

(** The replay of [Scenario.commit_closing] ends by releasing the one buffer
    it read. *)
Lemma UndoReplay_ends_by_releasing_witness :
  0 = InvalidUndoRecPtr /\
  exists evs,
    trace Scenario.commit_replayed
    = trace Sample.recovering ++ evs
      ++ release_sequence (ReadRecPtr Scenario.commit_closing)
           (replayed_buffers (blocks Scenario.commit_closing)) /\
    Forall keeps_pins evs.
Proof.
  apply (UndoReplay_ends_by_releasing Scenario.commit_closing None 0
           Sample.recovering Scenario.commit_replayed 0).
  vm_compute. reflexivity.
Defined.

(** A record with no block of an undo log. *)
Lemma UndoReplay_without_undo_blocks_witness :
  UndoReplay Scenario.heap_record None 0 Sample.recovering
  = Ok InvalidUndoRecPtr Sample.recovering.
Proof.
  apply (UndoReplay_without_undo_blocks Scenario.heap_record None 0
           Sample.recovering).
  - reflexivity.
  - repeat constructor.
Defined.

(** The insert of the first scenario. *)
Lemma UndoInsert_leaves_set_dirty_witness :
  exists s s',
    sets (Sample.in_critical_section Sample.prepared) !! 0%nat = Some s /\
    sets Sample.inserted !! 0%nat = Some s' /\
    state s' = URS_STATE_DIRTY /\
    need_chunk_header s' = false /\ need_type_header s' = false /\
    identity_of s' = identity_of s.
Proof.
  apply (UndoInsert_leaves_set_dirty (Sample.in_critical_section Sample.prepared)
           Sample.inserted 0 Sample.record16 16).
  vm_compute. reflexivity.
Defined.

(** Releasing the two buffers of [Sample.straddling]. *)
Lemma UndoRelease_releases_once_witness :
  exists w1,
    UndoRelease 0 Sample.straddling = Ok tt w1 /\
    trace w1 = trace Sample.straddling
               ++ release_calls (buffers Sample.straddling_set) /\
    sets w1 !! 0%nat = Some (with_buffers [] Sample.straddling_set) /\
    UndoRelease 0 w1 = Ok tt w1.
Proof.
  apply (UndoRelease_releases_once Sample.straddling 0 Sample.straddling_set).
  reflexivity.
Defined.

(** A second set, created after the first and destroyed at once. *)
Lemma UndoCreate_then_UndoDestroy_witness :
  exists u w1 w2 s,
    UndoCreate 84 RELPERSISTENCE_PERMANENT 1 8 [1; 2; 3; 4; 5; 6; 7; 8]
      Sample.created = Ok u w1 /\
    sets Sample.created !! u = None /\ (u ∉ UndoRecordSetList Sample.created) /\
    sets w1 !! u = Some s /\ state s = URS_STATE_CLEAN /\
    chunks s = [] /\ buffers s = [] /\
    UndoRecordSetList w1 = u :: UndoRecordSetList Sample.created /\
    UndoDestroy u w1 = Ok tt w2 /\
    sets w2 = sets Sample.created /\
    UndoRecordSetList w2 = UndoRecordSetList Sample.created /\
    slots w2 = slots Sample.created /\ pages w2 = pages Sample.created /\
    trace w2 = trace Sample.created ++ [EvSlistDelete u; EvPfree u].
Proof.
  apply (UndoCreate_then_UndoDestroy Sample.created 84 RELPERSISTENCE_PERMANENT
           1 8 [1; 2; 3; 4; 5; 6; 7; 8]).
  exact (proj2 created_live).
Defined.

(** From the world of the set just created. *)
Lemma listed_sets_stay_live_witness :
  (forall ty p nesting ths th u w1,
     UndoCreate ty p nesting ths th Sample.created = Ok u w1 ->
     listed_sets_live w1) /\
  (forall u w2,
     UndoDestroy u Sample.created = Ok tt w2 ->
     listed_sets_live w2 /\ (u ∉ UndoRecordSetList w2) /\ sets w2 !! u = None /\
     forall x, x <> u -> sets w2 !! x = sets Sample.created !! x).
Proof.
  apply (listed_sets_stay_live Sample.created). exact created_live.
Defined.

(** Preparing, then closing the set of [Sample.straddling]. *)
Lemma UndoPrepareToMarkClosed_enables_UndoMarkClosed_witness :
  true = true /\
  exists b0 b1 w2,
    holds_block (chunk_slot Sample.straddling_chunk)
      (chunk_header_offset Sample.straddling_chunk / BLCKSZ) b0 /\
    (BLCKSZ - sizeof_size < chunk_header_offset Sample.straddling_chunk mod BLCKSZ ->
     holds_block (chunk_slot Sample.straddling_chunk)
       (chunk_header_offset Sample.straddling_chunk / BLCKSZ + 1) b1) /\
    UndoMarkClosed 0 (entering_critical_section Scenario.straddling_prepared)
    = Ok tt w2 /\
    trace w2 = trace Scenario.straddling_prepared
               ++ size_patch_calls b0 b1
                    (chunk_header_offset Sample.straddling_chunk mod BLCKSZ)
                    (uint64 (meta_insert Sample.straddling_slot
                             - chunk_header_offset Sample.straddling_chunk)) /\
    (state <$> sets w2 !! 0%nat) = Some URS_STATE_CLOSED.
Proof.
  apply (UndoPrepareToMarkClosed_enables_UndoMarkClosed Sample.straddling
           Scenario.straddling_prepared 0 Sample.straddling_set
           Sample.straddling_chunk Sample.straddling_slot true).
  - vm_compute. split; discriminate.
  - reflexivity.
  - reflexivity.
  - reflexivity.
  - reflexivity.
  - vm_compute. discriminate.
  - vm_compute. reflexivity.
Defined.

(** Eight bytes at offset 100 of the first page of log 3. *)
Lemma read_undo_header_on_one_page_witness :
  read_undo_header 8 (Sample.make_urp 3 100) 1 Sample.recovering
  = Ok (page_bytes
          (page_of Sample.recovering
             (UndoRecPtrGetLogNo (Sample.make_urp 3 100),
              (UndoRecPtrGetOffset (Sample.make_urp 3 100) / BLCKSZ) mod 2 ^ 32))
          (Sample.make_urp 3 100 mod BLCKSZ) (Z.to_nat 8),
        [(UndoRecPtrGetLogNo (Sample.make_urp 3 100),
          (UndoRecPtrGetOffset (Sample.make_urp 3 100) / BLCKSZ) mod 2 ^ 32)])
       (add_trace
          (pin_calls (UndoRecPtrGetLogNo (Sample.make_urp 3 100))
             ((UndoRecPtrGetOffset (Sample.make_urp 3 100) / BLCKSZ) mod 2 ^ 32))
          Sample.recovering).
Proof.
  apply (read_undo_header_on_one_page 8 (Sample.make_urp 3 100) 1
           Sample.recovering).
  - vm_compute. split; reflexivity.
  - vm_compute. split; discriminate.
  - lia.
Defined.

(** Eight bytes that start four bytes before the end of the first page. *)
Lemma read_undo_header_across_pages_witness :
  read_undo_header 8 (Sample.make_urp 3 8188) 2 Sample.recovering
  = Ok (page_bytes (page_of Sample.recovering (3, 0)) 8188 4
        ++ page_bytes (page_of Sample.recovering (3, 1)) 24 4,
        [(3, 0); (3, 1)])
       (add_trace (pin_calls 3 0 ++ pin_calls 3 1) Sample.recovering).
Proof.
  apply (proj2 (read_undo_header_across_pages 8 (Sample.make_urp 3 8188) 2
                  Sample.recovering
                  ltac:(vm_compute; split; [discriminate | reflexivity])
                  ltac:(vm_compute; reflexivity)
                  ltac:(vm_compute; split; [reflexivity | discriminate]))).
  lia.
Defined.

(** The insert pointer 8300 of log 3: the final block is block 1. *)
Lemma find_start_of_final_chunk_in_undo_log_reads_final_block_witness :
  final_block 8300 = 1 /\
  (forall r w',
     find_start_of_chunk_on_final_page 5
       (page_of Sample.recovering (3, 1)) (MakeUndoRecPtr 3 (BLCKSZ * 1))
       (add_trace [EvReadBuffer 3 1 RBM_NORMAL;
                   EvLockBuffer (3, 1) BUFFER_LOCK_SHARE] Sample.recovering)
     = Ok r w' ->
     find_start_of_final_chunk_in_undo_log 5 3 8300 Sample.recovering
     = Ok r (add_trace [EvUnlockReleaseBuffer (3, 1)]
               (add_trace [EvReadBuffer 3 1 RBM_NORMAL;
                           EvLockBuffer (3, 1) BUFFER_LOCK_SHARE]
                  Sample.recovering))).
Proof.
  split; [reflexivity|].
  apply (proj1 (find_start_of_final_chunk_in_undo_log_reads_final_block 5 3 8300
                  Sample.recovering
                  ltac:(vm_compute; split; [discriminate | reflexivity])
                  ltac:(vm_compute; split; reflexivity))).
Defined.

End OnScenarios.

(** ** The properties of the earlier revision on the sample layout *)

Section OnLegacyScenarios.
Import Legacy.
Local Open Scope legacy_scope.
Local Existing Instance Sample.layout.
Local Existing Instance LegacyScenario.legacy_layout.

Lemma program_well_formed : Forall well_formed LegacyScenario.program.
Proof. repeat constructor; vm_compute; congruence. Defined.

(** A record with a heap block and an undo block that carries
    [LegacyScenario.program]. *)
Lemma UndoUpdateInRecovery_replays_updates_witness :
  exists w',
    UndoUpdateInRecovery
      (mkXLog ([LegacyScenario.heap_block]
               ++ LegacyScenario.block_with (encode LegacyScenario.program) :: [])
         1000)
      LegacyScenario.recovering = Ok tt w' /\
    page_of w' (3, 0)
    = store_pd_lsn 1000
        (replayed LegacyScenario.program
           (page_of LegacyScenario.recovering (3, 0))) /\
    (forall b, b <> (3, 0) -> page_of w' b = page_of LegacyScenario.recovering b) /\
    calls w'
    = calls LegacyScenario.recovering
      ++ [CallXLogReadBufferForRedoExtended 1 RBM_NORMAL;
          CallPageSetLSN (3, 0) 1000;
          CallLockBuffer (3, 0) BUFFER_LOCK_UNLOCK;
          CallReleaseBuffer (3, 0)] /\
    (Forall after_page_header LegacyScenario.program ->
     forall i, i < SizeOfUndoPageHeaderData ->
               replayed LegacyScenario.program
                 (page_of LegacyScenario.recovering (3, 0)) !! i
               = page_of LegacyScenario.recovering (3, 0) !! i).
Proof.
  apply (UndoUpdateInRecovery_replays_updates LegacyScenario.recovering
           [LegacyScenario.heap_block] []
           (LegacyScenario.block_with (encode LegacyScenario.program))
           LegacyScenario.program 1000).
  - repeat constructor.
  - cbn. lia.
  - reflexivity.
  - reflexivity.
  - reflexivity.
  - exact program_well_formed.
Defined.

(** The same stream, followed by an update of four bytes of which two are
    there. *)
Lemma UndoUpdateInRecovery_rejects_truncated_update_witness :
  exists w',
    UndoUpdateInRecovery
      (mkXLog ([]
               ++ LegacyScenario.block_with
                    (encode LegacyScenario.program
                     ++ update_ops_header 24 4 ++ [0; 0]) :: [])
         1000)
      LegacyScenario.recovering
    = Raise ERROR "corrupted undo update instruction" w' /\
    page_of w' (3, 0)
    = replayed LegacyScenario.program
        (page_of LegacyScenario.recovering (3, 0)) /\
    calls w'
    = calls LegacyScenario.recovering
      ++ [CallXLogReadBufferForRedoExtended 0 RBM_NORMAL].
Proof.
  apply (UndoUpdateInRecovery_rejects_truncated_update LegacyScenario.recovering
           [] []
           (LegacyScenario.block_with
              (encode LegacyScenario.program ++ update_ops_header 24 4 ++ [0; 0]))
           LegacyScenario.program 24 4 [0; 0] 1000).
  - constructor.
  - cbn. lia.
  - reflexivity.
  - reflexivity.
  - reflexivity.
  - exact program_well_formed.
  - lia.
  - lia.
  - right. cbn. lia.
Defined.

(** The same stream, followed by an update of four bytes at offset 8190 of
    a page of 8192 bytes. *)
Lemma UndoUpdateInRecovery_does_not_check_page_bound_witness :
  exists w',
    UndoUpdateInRecovery
      (mkXLog ([]
               ++ LegacyScenario.block_with
                    (encode LegacyScenario.program
                     ++ encode_instruction (Update 8190 [1; 2; 3; 4]) ++ []) :: [])
         1000)
      LegacyScenario.recovering
    = Raise TRAP "memcpy outside the page" w' /\
    memcpy_to_page (3, 0) 8190 [1; 2; 3; 4] w'
    = Raise TRAP "memcpy outside the page" w'.
Proof.
  apply (UndoUpdateInRecovery_does_not_check_page_bound
           LegacyScenario.recovering [] []
           (LegacyScenario.block_with
              (encode LegacyScenario.program
               ++ encode_instruction (Update 8190 [1; 2; 3; 4]) ++ []))
           LegacyScenario.program 8190 [1; 2; 3; 4] [] 1000).
  - constructor.
  - cbn. lia.
  - reflexivity.
  - reflexivity.
  - reflexivity.
  - exact program_well_formed.
  - lia.
  - cbn. lia.
  - cbn. lia.
  - vm_compute. reflexivity.
Defined.

(** Patching the first page of the size 112 of the chunk of
    [LegacyScenario.closing], whose header is four bytes before the end of
    the page. *)
Lemma UndoMarkPageClosed_logs_what_it_writes_witness :
  exists (b : Buffer) (block_id : Z) (bytes : list Z) (earlier : list Call),
    4 = Z.min (BLCKSZ - 8188) (sizeof_size - 0) /\
    1 <= 4 /\
    bytes = map uint8 (source_bytes (le_bytes 8 112) 0 4) /\
    page_bytes (page_of LegacyScenario.first_page_closed b) 8188 4 = bytes /\
    calls LegacyScenario.first_page_closed
    = calls LegacyScenario.closing ++ earlier
      ++ [CallXLogRegisterBufData block_id (update_ops_header 8188 4);
          CallXLogRegisterBufData block_id bytes] /\
    update_ops_header 8188 4 ++ bytes = encode [Update 8188 bytes] /\
    well_formed (Update 8188 bytes).
Proof.
  apply (UndoMarkPageClosed_logs_what_it_writes LegacyScenario.closing
           LegacyScenario.first_page_closed 0 LegacyScenario.closing_set
           0 0 8188 0 112 4).
  - reflexivity.
  - reflexivity.
  - vm_compute. split; [discriminate | reflexivity].
  - vm_compute. reflexivity.
Defined.

(** Ten bytes appended four bytes before the end of the first page: the
    first page gets the bytes 1 to 4, and the second the bytes 1 to 6. *)
Lemma append_bytes_restarts_source_on_next_page_witness :
  exists st' w' d0 d1,
    append_bytes 2 0 LegacyScenario.at_page_end LegacyScenario.ten_bytes 10
      LegacyScenario.closing = Ok st' w' /\
    insert st' = insert LegacyScenario.at_page_end + 10 + SizeOfUndoPageHeaderData /\
    buffer_index st' = buffer_index LegacyScenario.at_page_end + 1 /\
    (d0 = page_of LegacyScenario.closing (3, 0) \/
     d0 = UndoPageInit_page (page_of LegacyScenario.closing (3, 0))) /\
    page_of w' (3, 0)
    = write_bytes
        (store_pd_lower
           (UndoRecPtrGetPageOffset (insert LegacyScenario.at_page_end)) d0)
        (UndoRecPtrGetPageOffset (insert LegacyScenario.at_page_end))
        (source_bytes LegacyScenario.ten_bytes 0
           (BLCKSZ - UndoRecPtrGetPageOffset (insert LegacyScenario.at_page_end))) /\
    (d1 = page_of LegacyScenario.closing (3, 1) \/
     d1 = UndoPageInit_page (page_of LegacyScenario.closing (3, 1))) /\
    page_of w' (3, 1)
    = write_bytes (store_pd_lower SizeOfUndoPageHeaderData d1)
        SizeOfUndoPageHeaderData
        (source_bytes LegacyScenario.ten_bytes 0
           (10 - (BLCKSZ
                  - UndoRecPtrGetPageOffset (insert LegacyScenario.at_page_end)))) /\
    page_bytes (page_of w' (3, 0))
      (UndoRecPtrGetPageOffset (insert LegacyScenario.at_page_end))
      (BLCKSZ - UndoRecPtrGetPageOffset (insert LegacyScenario.at_page_end))
    = map uint8
        (source_bytes LegacyScenario.ten_bytes 0
           (BLCKSZ - UndoRecPtrGetPageOffset (insert LegacyScenario.at_page_end))) /\
    page_bytes (page_of w' (3, 1)) SizeOfUndoPageHeaderData
      (10 - (BLCKSZ - UndoRecPtrGetPageOffset (insert LegacyScenario.at_page_end)))
    = map uint8
        (source_bytes LegacyScenario.ten_bytes 0
           (10 - (BLCKSZ
                  - UndoRecPtrGetPageOffset (insert LegacyScenario.at_page_end)))).
Proof.
  apply (append_bytes_restarts_source_on_next_page LegacyScenario.closing 0
           LegacyScenario.closing_set LegacyScenario.at_page_end
           LegacyScenario.ten_bytes 10 (3, 0) (3, 1) 2).
  - reflexivity.
  - vm_compute. split; [discriminate | reflexivity].
  - reflexivity.
  - reflexivity.
  - discriminate.
  - vm_compute. lia.
  - vm_compute. discriminate.
  - vm_compute. split; [discriminate | reflexivity].
  - vm_compute. split; [discriminate | reflexivity].
  - vm_compute. discriminate.
  - vm_compute. reflexivity.
  - vm_compute. reflexivity.
  - vm_compute. reflexivity.
  - vm_compute. reflexivity.
  - lia.
Defined.

End OnLegacyScenarios.
